(** * TrackmaniaMapInfoAnalyzer: the synchronisation and scoring engine of [main.py]

    A shallow embedding of the algorithmic core of [src/main.py]:
    - [get_actual_country_info]   (zone resolver),
    - [calculate_points_for_rank] (rank-to-points formula),
    - the pagination loop and URL construction of [fetch_and_process_data],
    - the per-map reconciliation of [fetch_and_process_data] against the
      three SQLite tables [maps], [players] and [records],
    - the reading of the map list at the head of [fetch_and_process_data],
    - [extract_map_uid_from_url] and [format_time_ms],
    - the ranking and the country list computed by [refresh_all_tabs].

    Python floats are IEEE-754 binary64 numbers; they are modelled by their
    exact rational value, every arithmetic operation being followed by the
    rounding to nearest (ties to even) written out in [RN].  The SQLite tables
    are finite maps keyed by their primary keys.

    What the model takes for granted:
    - the JSON of the API is typed as the code reads it: ids, names, flags
      and timestamps are strings, times, scores and the player count are
      integers, [player] and [zone] are objects; a key is present with such
      a value or absent ([option]);
    - [math.log10] is the one of the C library: it is a parameter of
      [Points.calculate_points_with], and [Points.accurate_log10] says what
      is asked of it; [Points.calculate_points_for_rank], with the exact
      ceiling of the logarithm, is the function on the ranks up to [10^15]
      ([PointsFacts.points_with_exact]);
    - foreign keys are not enforced (SQLite's default); the [UNIQUE]
      constraint on [maps.api_url] is left out of [Fetch.upsert_map], which
      is the code on the databases in which every map row is stored under
      the UID of its own URL ([Fetch.urls_keyed]), as in every database
      that the program has written;
    - a string is a sequence of code points below 256;
    - the map list comes as the list of its lines, and the rows of a query
      without [ORDER BY] come in the order in which SQLite returns them,
      which the model takes as given;
    - the log, the message boxes, the widgets and the pauses between
      requests are left out. *)

From Stdlib Require Import ZArith QArith Qround Qpower Lqa Lia.
From Stdlib Require Import String Ascii List Bool DecimalString Sorted.
From Stdlib Require PrimFloat FloatOps SpecFloat Uint63 DecimalZ.
From stdpp Require Import gmap strings list fin_maps.
Import ListNotations.

Local Open Scope Z_scope.

(** ** Binary64 arithmetic on exact rationals *)

Module Float.

(** [2 ^ e] for an integer exponent of either sign. *)
Definition pow2 (e : Z) : Q := (2 ^ e)%Q.

(** Round half to even, from a rational to an integer. *)
Definition rhe (q : Q) : Z :=
  let f := Qfloor q in
  match Qcompare (q - inject_Z f) (1 # 2) with
  | Lt => f
  | Gt => f + 1
  | Eq => if Z.even f then f else f + 1
  end.

(** [flog2 x] is the integer [k] with [2^k <= x < 2^(k+1)], for [x > 0]. *)
Definition flog2 (x : Q) : Z :=
  let a := Z.log2 (Qnum x) in
  let b := Z.log2 (Zpos (Qden x)) in
  if Zpos (Qden x) * 2 ^ a <=? Qnum x * 2 ^ b then a - b else a - b - 1.

(** Unit in the last place of the binary64 format at [x > 0]: 53 bits of
    precision, smallest exponent [-1074] (subnormal numbers included). *)
Definition ulp_exp (x : Q) : Z := Z.max (flog2 x - 52) (-1074).

Definition RNpos (x : Q) : Q :=
  let e := ulp_exp x in
  (inject_Z (rhe (x * pow2 (- e))) * pow2 e)%Q.

(** Rounding to the nearest binary64 number, ties to even.  Magnitudes of
    [2^1024] and more (where Python raises [OverflowError] or yields [inf])
    are outside this model; nothing in this program gets above [40000]. *)
Definition RN (x : Q) : Q :=
  match Qcompare x 0 with
  | Eq => 0%Q
  | Gt => RNpos x
  | Lt => (- RNpos (- x))%Q
  end.

(** Python's [round(x, 2)] on a float: the exact binary value is rounded
    half-even to two decimals, and that decimal is converted back to the
    nearest float. *)
Definition cents (x : Q) : Z := rhe (x * 100).
Definition of_cents (c : Z) : Q := RN (inject_Z c / 100).
Definition round2 (x : Q) : Q := of_cents (cents x).

(** True division [a / b] of two Python integers: correctly rounded. *)
Definition int_div (a b : Z) : Q := RN (inject_Z a / inject_Z b).
Definition fadd (x y : Q) : Q := RN (x + y).
Definition fmul (x y : Q) : Q := RN (x * y).
(** The float denoted by the source literal [0.9]. *)
Definition lit_0_9 : Q := RN (9 # 10).

(** The value of a hardware float, to compare the model with Rocq's
    primitive binary64 numbers. *)
Definition float_value (f : PrimFloat.float) : option Q :=
  match FloatOps.Prim2SF f with
  | SpecFloat.S754_zero _ => Some 0%Q
  | SpecFloat.S754_finite s m e =>
      Some ((if s then -1 else 1) * inject_Z (Zpos m) * pow2 e)%Q
  | _ => None
  end.

Definition float_of_Z (z : Z) : PrimFloat.float :=
  PrimFloat.of_uint63 (Uint63.of_Z z).

Definition agrees (f : PrimFloat.float) (q : Q) : bool :=
  match float_value f with
  | Some x => Qeq_bool x q
  | None => false
  end.

End Float.

(** ** Points formula: [calculate_points_for_rank] *)

Module Points.
Import Float.

(** What the function returns: the integer [0] on the guard, a float
    otherwise. *)
Inductive pynum : Type :=
| PyInt (z : Z)
| PyFloat (q : Q).

Definition value (n : pynum) : Q :=
  match n with
  | PyInt z => inject_Z z
  | PyFloat q => q
  end.

(** The ceiling of the decimal logarithm of [rank >= 1]: the least [k >= 0]
    with [rank <= 10^k].  That is what [math.ceil(math.log10(rank))] yields
    for the ranks from 1 to [10^15] when the [log10] of the C library is
    accurate ([accurate_log10] below, [PointsFacts.points_with_exact]).
    From [10^15 + 1] on the float [math.log10(rank)] can be the integer
    below the logarithm, so that the code is then one tier lower than this
    ceiling: [calculate_points_with] covers those ranks. *)
Fixpoint clog10_aux (fuel : nat) (k p rank : Z) : Z :=
  match fuel with
  | O => k
  | S fuel' => if rank <=? p then k else clog10_aux fuel' (k + 1) (10 * p) rank
  end.

Definition ceil_log10 (rank : Z) : Z :=
  clog10_aux (S (Z.to_nat (Z.log2_up rank))) 0 1 rank.

Definition calculate_points_for_rank (rank : Z) : pynum :=
  if (rank =? 0) || (rank <=? 0) then PyInt 0
  else
    let tier := ceil_log10 rank in
    let tier := if tier <? 1 then 1 else tier in
    let points :=
      if tier <? 2 then int_div 40000 rank
      else
        let base_points := int_div 4000 (2 ^ (tier - 1)) in
        let rank_multiplier := fadd (int_div (10 ^ (tier - 1)) rank) lit_0_9 in
        fmul base_points rank_multiplier in
    PyFloat (round2 points).

(** The tier the function works with, after the clamp of line 112. *)
Definition tier_of (rank : Z) : Z :=
  let tier := ceil_log10 rank in if tier <? 1 then 1 else tier.

(** Lines 108-119 with [math.log10] as the platform has it.  The logarithm
    belongs to the C library, and no standard fixes its last bit; it is a
    parameter here: [log10 rank] is the float that [math.log10(rank)]
    returns on the integer [rank >= 1].  [calculate_points_for_rank] above
    is this function for a logarithm whose ceiling is the exact one. *)
Definition calculate_points_with (log10 : Z -> Q) (rank : Z) : pynum :=
  if (rank =? 0) || (rank <=? 0) then PyInt 0
  else
    let tier := Qceiling (log10 rank) in
    let tier := if tier <? 1 then 1 else tier in
    let points :=
      if tier <? 2 then int_div 40000 rank
      else
        let base_points := int_div 4000 (2 ^ (tier - 1)) in
        let rank_multiplier := fadd (int_div (10 ^ (tier - 1)) rank) lit_0_9 in
        fmul base_points rank_multiplier in
    PyFloat (round2 points).

Definition tier_with (log10 : Z -> Q) (rank : Z) : Z :=
  let tier := Qceiling (log10 rank) in if tier <? 1 then 1 else tier.

(** What is asked of [math.log10] on the integers from 1 on.  On the ranks
    up to [10^24]: it does not decrease when the rank grows; it is not above
    [k] on a rank that is at most [10^k]; it is above [k] on a rank above
    [10^k], provided the rank is at most [10^15] or exceeds [10^k] by one
    part in [2^40] of it.  On all ranks: it is off by at most one, for the
    integers of more than 1024 bits as well, whose logarithm CPython puts
    together from the mantissa and the exponent.  A correctly rounded
    [log10] has all of this, with room to spare: just above [10^k] the
    float logarithm is [k] itself up to a relative excess of some [2^-48]
    (ranks [10^15 + 1] and [10^15 + 2], for one). *)
Record accurate_log10 (log10 : Z -> Q) : Prop := {
  log10_mono : forall r1 r2 : Z,
    1 <= r1 -> r1 <= r2 -> r2 <= 10 ^ 24 -> (log10 r1 <= log10 r2)%Q;
  log10_upper : forall k r : Z,
    0 <= k -> 1 <= r -> r <= 10 ^ k -> r <= 10 ^ 24 -> (log10 r <= inject_Z k)%Q;
  log10_above : forall k r : Z,
    0 <= k -> 10 ^ k < r -> r <= 10 ^ 24 ->
    r <= 10 ^ 15 \/ 10 ^ k <= 2 ^ 40 * (r - 10 ^ k) ->
    (inject_Z k < log10 r)%Q;
  log10_rough : forall k r : Z,
    0 <= k -> 1 <= r ->
    (10 ^ k <= r -> (inject_Z (k - 1) <= log10 r)%Q) /\
    (r <= 10 ^ k -> (log10 r <= inject_Z (k + 1))%Q)
}.

(** [base_points] and [rank_multiplier] of tier [k]. *)
Definition base_of (k : Z) : Q := int_div 4000 (2 ^ (k - 1)).
Definition mult_of (k r : Z) : Q := fadd (int_div (10 ^ (k - 1)) r) lit_0_9.

(** The float that [round] receives, for [rank >= 1]. *)
Definition raw_points (rank : Z) : Q :=
  if tier_of rank <? 2 then int_div 40000 rank
  else fmul (base_of (tier_of rank)) (mult_of (tier_of rank) rank).

(** Bounds of the multiplier within a tier, and the resulting upper and
    lower envelope of the points of tier [k]. *)
Definition mult_max : Q := fadd (RN 1) lit_0_9.
Definition mult_min : Q := fadd (RN (1 # 10)) lit_0_9.
Definition upper (k : Z) : Q := round2 (fmul (base_of k) mult_max).
Definition lower (k : Z) : Q :=
  if k <? 2 then round2 (int_div 40000 10) else round2 (fmul (base_of k) mult_min).

(** The float that [round] receives in tier [k] at rank [r]. *)
Definition raw_at (k r : Z) : Q :=
  if k <? 2 then int_div 40000 r else fmul (base_of k) (mult_of k r).

(** The lower envelope of tier [k] when the tier is still [k] on the ranks
    that exceed [10^k] by less than one part in [2^40]; the multiplier of a
    rank that is ten times the power of ten of its tier, or less. *)
Definition mult_slack : Q := fadd (int_div (2 ^ 40) (10 * (2 ^ 40 + 1))) lit_0_9.
Definition lower_slack (k : Z) : Q :=
  if k <? 2 then round2 (int_div 40000 10) else round2 (fmul (base_of k) mult_slack).
Definition mult_over : Q := fadd (RN 10) lit_0_9.

(** A logarithm of the kind [accurate_log10] describes that is [15] on
    [10^15 + 1] and [10^15 + 2], as a correctly rounded [log10] is; elsewhere
    it is the exact ceiling. *)
Definition log10_sample (rank : Z) : Q :=
  if (10 ^ 15 <? rank) && (rank <=? 10 ^ 15 + 2) then 15%Q
  else inject_Z (ceil_log10 rank).

End Points.

(** ** Zone resolver: [get_actual_country_info] *)

Module Zone.
#[local] Set Warnings "-register-all".

(** A zone node of the API: a JSON object with the optional keys [name],
    [flag] and [parent].  [ZEmpty] is the object without any key, the only
    zone that Python takes for false; [parent = None] stands for a missing
    or [null] parent. *)
Inductive zone : Type :=
| ZEmpty
| ZNode (name flag : option string) (parent : option zone).

Definition truthy (z : zone) : bool :=
  match z with
  | ZEmpty => false
  | ZNode _ _ _ => true
  end.

Definition get_name (z : zone) : option string :=
  match z with
  | ZEmpty => None
  | ZNode n _ _ => n
  end.

Definition get_flag (z : zone) : option string :=
  match z with
  | ZEmpty => None
  | ZNode _ f _ => f
  end.

Definition get_parent (z : zone) : option zone :=
  match z with
  | ZEmpty => None
  | ZNode _ _ p => p
  end.

(** [zone.get('name') == s] *)
Definition is_named (z : zone) (s : string) : bool :=
  match get_name z with
  | Some n => String.eqb n s
  | None => false
  end.

(** The [while temp_zone:] loop; [path.insert(0, _)] leaves the root first. *)
Fixpoint build_path (temp_zone : zone) (path : list zone) : list zone :=
  match temp_zone with
  | ZEmpty => path
  | ZNode _ _ parent =>
      match parent with
      | None => temp_zone :: path
      | Some p => build_path p (temp_zone :: path)
      end
  end.

(** The test of the [for] loop body: is [zone] taken as the country level? *)
Definition country_level (zone : zone) : bool :=
  match get_parent zone with
  | Some parent_zone =>
      if truthy parent_zone then
        match get_parent parent_zone with
        | Some grandparent_zone =>
            truthy grandparent_zone && is_named grandparent_zone "World"
        | None => false
        end
        || (is_named parent_zone "World" && negb (is_named zone "World"))
      else negb (is_named zone "World")
  | None => negb (is_named zone "World")
  end.

(** The [for i in range(len(path) - 1, -1, -1)] loop, over the path taken
    from its last element (the leaf) to its first (the root). *)
Fixpoint scan (zs : list zone) (country_name country_flag : string)
  : string * string :=
  match zs with
  | [] => (country_name, country_flag)
  | zone :: rest =>
      if country_level zone
      then (default country_name (get_name zone),
            default country_flag (get_flag zone))
      else scan rest country_name country_flag
  end.

Definition get_actual_country_info (zone_data : zone) : string * string :=
  let country_name := default "Unknown"%string (get_name zone_data) in
  let country_flag := default "WOR"%string (get_flag zone_data) in
  let path := build_path zone_data [] in
  if (1 <? length path)%nat then scan (rev path) country_name country_flag
  else
    match path with
    | z :: _ =>
        if negb (is_named z "World")
        then (default country_name (get_name z),
              default country_flag (get_flag z))
        else (country_name, country_flag)
    | [] => (country_name, country_flag)
    end.

End Zone.

(** ** URL handling of [fetch_and_process_data] and [extract_map_uid_from_url] *)

Module Url.
Local Open Scope string_scope.

Definition is_digit (c : ascii) : bool :=
  let n := nat_of_ascii c in ((48 <=? n) && (n <=? 57))%nat.

Fixpoint count_digits (s : string) : nat :=
  match s with
  | String c rest => if is_digit c then S (count_digits rest) else O
  | EmptyString => O
  end.

Fixpoint drop (n : nat) (s : string) : string :=
  match n, s with
  | S n', String _ rest => drop n' rest
  | _, _ => s
  end.

Definition is_sep (c : ascii) : bool := Ascii.eqb c "?" || Ascii.eqb c "&".

(** Length of the match of the pattern [[?&]key=\d+] at the head of [s],
    if there is one ([\d+] is greedy and needs one digit at least). *)
Definition match_len (key : string) (s : string) : option nat :=
  match s with
  | String c rest =>
      if is_sep c && String.prefix (key ++ "=") rest then
        match count_digits (drop (String.length key + 1) rest) with
        | O => None
        | S d => Some (1 + (String.length key + 1) + S d)%nat
        end
      else None
  | EmptyString => None
  end.

(** [re.sub(r'[?&]key=\d+', '', s)]: every match, leftmost first and without
    overlap, is removed.  [skip] counts the characters of the current match
    that are still to be dropped. *)
Fixpoint re_sub_go (key : string) (skip : nat) (s : string) : string :=
  match s with
  | EmptyString => EmptyString
  | String c rest =>
      match skip with
      | S k => re_sub_go key k rest
      | O =>
          match match_len key s with
          | Some n => re_sub_go key (Nat.pred n) rest
          | None => String c (re_sub_go key O rest)
          end
      end
  end.

Definition re_sub_param (key : string) (s : string) : string := re_sub_go key O s.

Fixpoint ends_with (c : ascii) (s : string) : bool :=
  match s with
  | EmptyString => false
  | String a EmptyString => Ascii.eqb a c
  | String _ rest => ends_with c rest
  end.

(** [s[:-1]] *)
Fixpoint drop_last (s : string) : string :=
  match s with
  | EmptyString => EmptyString
  | String _ EmptyString => EmptyString
  | String a rest => String a (drop_last rest)
  end.

(** Lines 162-168: the template without its [offset] and [length]
    parameters. *)
Definition base_api_url_of (base_api_url_template : string) : string :=
  let base_api_url := base_api_url_template in
  let base_api_url := re_sub_param "offset" base_api_url in
  let base_api_url := re_sub_param "length" base_api_url in
  let base_api_url :=
    if ends_with "?" base_api_url then drop_last base_api_url else base_api_url in
  if ends_with "&" base_api_url then drop_last base_api_url else base_api_url.

Fixpoint contains_char (c : ascii) (s : string) : bool :=
  match s with
  | EmptyString => false
  | String a rest => Ascii.eqb a c || contains_char c rest
  end.

(** [sub in s] *)
Fixpoint contains (sub s : string) : bool :=
  String.prefix sub s ||
  match s with
  | EmptyString => false
  | String _ rest => contains sub rest
  end.

(** [s.replace(old, new, 1)], for a non-empty [old]. *)
Fixpoint replace_first (old new s : string) : string :=
  if String.prefix old s then new ++ drop (String.length old) s
  else
    match s with
    | EmptyString => EmptyString
    | String a rest => String a (replace_first old new rest)
    end.

(** Decimal notation of a Python integer, as an f-string prints it. *)
Definition str_of_int (z : Z) : string :=
  NilZero.string_of_int (Z.to_int z).

Definition RECORDS_PER_PAGE : Z := 100.

(** Lines 184-190: the URL of the page at [current_offset]. *)
Definition paginated_api_url_of (base_api_url : string) (current_offset : Z) : string :=
  let param_char := if contains_char "?" base_api_url then "&" else "?" in
  let paginated_api_url :=
    base_api_url ++ param_char ++ "offset=" ++ str_of_int current_offset
                 ++ "&length=" ++ str_of_int RECORDS_PER_PAGE in
  if String.eqb param_char "?" && contains "length" paginated_api_url
  then replace_first ("?length=" ++ str_of_int RECORDS_PER_PAGE)
                     ("&length=" ++ str_of_int RECORDS_PER_PAGE) paginated_api_url
  else paginated_api_url.

Fixpoint take_until (c : ascii) (s : string) : string :=
  match s with
  | EmptyString => EmptyString
  | String a rest => if Ascii.eqb a c then EmptyString else String a (take_until c rest)
  end.

(** [re.search(r'/map/([^?]+)', api_url)]: the leftmost place where [/map/]
    is followed by a character other than [?]; group 1 runs up to the next
    [?] or the end. *)
Fixpoint extract_map_uid_from_url (api_url : string) : option string :=
  let here :=
    if String.prefix "/map/" api_url then
      match drop 5 api_url with
      | String a _ => negb (Ascii.eqb a "?")
      | EmptyString => false
      end
    else false in
  if here then Some (take_until "?" (drop 5 api_url))
  else
    match api_url with
    | EmptyString => None
    | String _ rest => extract_map_uid_from_url rest
    end.

(** A URL with a query string is well formed when one [?] introduces the
    query string and no [&] comes before it. *)
Fixpoint count_char (c : ascii) (s : string) : nat :=
  match s with
  | EmptyString => O
  | String a rest => (if Ascii.eqb a c then 1 else 0) + count_char c rest
  end.

Definition well_formed_query (url : string) : bool :=
  (count_char "?" url =? 1)%nat && negb (contains_char "&" (take_until "?" url)).

End Url.

(** ** The remote API and the three tables *)

Module Data.
Import Zone.

(** [player] object of a leaderboard row; a missing object reads as one
    without keys. *)
Record player_json : Type := PlayerJson {
  pj_id : option string;
  pj_name : option string;
  pj_zone : option zone
}.

(** One element of [tops]. *)
Record top_entry : Type := TopEntry {
  te_player : player_json;
  te_time : option Z;
  te_score : option Z;
  te_timestamp : option string
}.

(** Outcome of one [requests.get] followed by [response.json()]. *)
Inductive api_result : Type :=
| RequestError                      (* requests.exceptions.RequestException *)
| JSONError                         (* json.JSONDecodeError *)
| Response (playercount : option Z) (tops : option (list top_entry)).

(** The server, as a function of the requested URL. *)
Definition api_server : Type := string -> api_result.

(** Row of table [maps], without its key [map_uid]. *)
Record map_row : Type := MapRow {
  api_url : string;
  map_display_name : string;
  last_playercount : Z;
  last_fetched_at : string;
  wr_player_id : option string;
  wr_time_ms : option Z;
  wr_game_timestamp : option string;
  wr_script_recorded_at : option string;
  is_new_wr_since_last_fetch : bool;
  fetch_order : Z
}.

(** Row of table [players], without its key [player_id]. *)
Record player_row : Type := PlayerRow {
  last_known_name : string;
  country_name : string;
  country_flag : string;
  first_seen_by_script_at : string
}.

(** Row of table [records], without its key [(map_uid, player_id)]. *)
Record record_row : Type := RecordRow {
  time_ms : option Z;
  score : option Z;
  position : Z;
  game_timestamp : option string;
  script_recorded_at : string;
  script_updated_at : string;
  is_pb_since_last_fetch : bool;
  is_new_player_on_map_since_last_fetch : bool
}.

Record db : Type := Db {
  maps : gmap string map_row;
  players : gmap string player_row;
  records : gmap (string * string) record_row
}.

Definition set_maps (f : gmap string map_row -> gmap string map_row) (d : db) : db :=
  Db (f (maps d)) (players d) (records d).
Definition set_players (f : gmap string player_row -> gmap string player_row) (d : db) : db :=
  Db (maps d) (f (players d)) (records d).
Definition set_records
  (f : gmap (string * string) record_row -> gmap (string * string) record_row) (d : db) : db :=
  Db (maps d) (players d) (f (records d)).

(** The [SET] clauses of the [UPDATE] statements, as functions on a row. *)
Definition with_wr (holder : option string) (time : option Z) (game_ts : option string)
  (recorded_at : string) (m : map_row) : map_row :=
  MapRow (api_url m) (map_display_name m) (last_playercount m) (last_fetched_at m)
         holder time game_ts (Some recorded_at) true (fetch_order m).

Definition with_last_playercount (count : Z) (m : map_row) : map_row :=
  MapRow (api_url m) (map_display_name m) count (last_fetched_at m) (wr_player_id m)
         (wr_time_ms m) (wr_game_timestamp m) (wr_script_recorded_at m)
         (is_new_wr_since_last_fetch m) (fetch_order m).

Definition with_source (template display_name : string) (count : Z) (fetched_at : string)
  (order : Z) (m : map_row) : map_row :=
  MapRow template display_name count fetched_at (wr_player_id m) (wr_time_ms m)
         (wr_game_timestamp m) (wr_script_recorded_at m) (is_new_wr_since_last_fetch m)
         order.

Definition with_name_country (pname c_name c_flag : string) (r : player_row) : player_row :=
  PlayerRow pname c_name c_flag (first_seen_by_script_at r).

Definition with_country (c_name c_flag : string) (r : player_row) : player_row :=
  PlayerRow (last_known_name r) c_name c_flag (first_seen_by_script_at r).

Definition with_pb (time score_val : option Z) (rank : Z) (game_ts : option string)
  (updated_at : string) (r : record_row) : record_row :=
  RecordRow time score_val rank game_ts (script_recorded_at r) updated_at true
            (is_new_player_on_map_since_last_fetch r).

Definition with_position (rank : Z) (updated_at : string) (r : record_row) : record_row :=
  RecordRow (time_ms r) (score r) rank (game_timestamp r) (script_recorded_at r)
            updated_at (is_pb_since_last_fetch r) (is_new_player_on_map_since_last_fetch r).

Definition with_updated_at (updated_at : string) (r : record_row) : record_row :=
  RecordRow (time_ms r) (score r) (position r) (game_timestamp r) (script_recorded_at r)
            updated_at (is_pb_since_last_fetch r) (is_new_player_on_map_since_last_fetch r).

(** The events of one fetch run. *)
Definition pb_event : Type := string * string * option Z * option Z.
Definition new_player_event : Type := string * string * option Z.
Definition wr_event : Type := string * string * option Z * string * option Z.
Definition name_change : Type := string * string * string.

Record session : Type := Session {
  newly_added_players : gset string;
  new_pbs : list pb_event;
  new_players_on_map : list new_player_event;
  new_wrs : list wr_event;
  player_name_changes : list name_change
}.

Definition empty_session : session := Session ∅ [] [] [] [].

Definition add_newly_added (n : string) (s : session) : session :=
  Session ({[ n ]} ∪ newly_added_players s) (new_pbs s) (new_players_on_map s)
          (new_wrs s) (player_name_changes s).
Definition add_pb (e : pb_event) (s : session) : session :=
  Session (newly_added_players s) (new_pbs s ++ [e]) (new_players_on_map s)
          (new_wrs s) (player_name_changes s).
Definition add_new_player_on_map (e : new_player_event) (s : session) : session :=
  Session (newly_added_players s) (new_pbs s) (new_players_on_map s ++ [e])
          (new_wrs s) (player_name_changes s).
Definition add_wr (e : wr_event) (s : session) : session :=
  Session (newly_added_players s) (new_pbs s) (new_players_on_map s)
          (new_wrs s ++ [e]) (player_name_changes s).
Definition add_name_change (e : name_change) (s : session) : session :=
  Session (newly_added_players s) (new_pbs s) (new_players_on_map s)
          (new_wrs s) (player_name_changes s ++ [e]).

(** One line of the map list, once parsed. *)
Record map_url_entry : Type := MapUrlEntry {
  url_template : string;
  name : string;
  entry_fetch_order : Z
}.

End Data.

(** ** The page loop of [fetch_and_process_data] (lines 178-236) *)

Module Fetch.
Import Data Url.

(** The variables of the [while True:] loop, the database it writes to and
    the list of the URLs requested so far. *)
Record loop_state : Type := LoopState {
  ls_db : db;
  all_tops_for_map : list top_entry;
  current_offset : Z;
  map_total_playercount_api : Z;
  first_fetch_done : bool;
  requested : list string
}.

(** Column [api_url] of [maps] is declared [UNIQUE] (line 21): does another
    row hold the template already? *)
Definition url_taken (base_api_url_template map_uid : string)
  (ms : gmap string map_row) : bool :=
  existsb (fun row => negb (String.eqb row.1 map_uid)
                      && String.eqb (api_url row.2) base_api_url_template)
          (map_to_list ms).

(** Lines 209-218 with that constraint enforced: [INSERT OR IGNORE] skips
    the row on a clash of the key or of the URL, and the [UPDATE] of a row
    to a URL that another row holds raises [sqlite3.IntegrityError], here
    [None]. *)
Definition upsert_map_checked (map_uid base_api_url_template display_name : string)
  (order : Z) (current_fetch_time : string) (playercount : Z) (d : db) : option db :=
  let inserted :=
    match maps d !! map_uid with
    | Some _ => maps d
    | None =>
        if url_taken base_api_url_template map_uid (maps d) then maps d
        else
          <[map_uid := MapRow base_api_url_template display_name playercount
                              current_fetch_time None None None None false order]>
            (maps d)
    end in
  match inserted !! map_uid with
  | Some _ =>
      if url_taken base_api_url_template map_uid inserted then None
      else Some (set_maps (fun _ =>
                   alter (with_source base_api_url_template display_name playercount
                                      current_fetch_time order)
                         map_uid inserted) d)
  | None => Some (set_maps (fun _ => inserted) d)
  end.

(** The key of a row is extracted from the template that the row stores, so
    in a database that this program has written no other row holds the
    template of a map. *)
Definition urls_keyed (d : db) : Prop :=
  forall map_uid m, maps d !! map_uid = Some m ->
    extract_map_uid_from_url (api_url m) = Some map_uid.

(** The same as a test on the rows. *)
Definition urls_keyedb (d : db) : bool :=
  forallb (fun row => match extract_map_uid_from_url (api_url row.2) with
                      | Some map_uid => String.eqb map_uid row.1
                      | None => false
                      end)
          (map_to_list (maps d)).

(** Lines 209-218, [INSERT OR IGNORE INTO maps] followed by [UPDATE maps],
    without the [UNIQUE] constraint.  This is what the two statements do on
    a database whose URLs are keyed as above, and on such a database only
    ([ReconcileFacts.upsert_map_checked_keyed]; a run keeps the database
    keyed, [ReconcileFacts.fetch_and_process_data_keyed]).  On another
    database the constraint can fire: the row of the map is then not
    written, or the [UPDATE] raises ([ReconcileFacts.upsert_map_unkeyed]).
    What is stated of the row that these lines write is therefore stated of
    keyed databases. *)
Definition upsert_map (map_uid base_api_url_template display_name : string)
  (order : Z) (current_fetch_time : string) (playercount : Z) (d : db) : db :=
  let inserted :=
    match maps d !! map_uid with
    | Some _ => maps d
    | None =>
        <[map_uid := MapRow base_api_url_template display_name playercount
                            current_fetch_time None None None None false order]>
          (maps d)
    end in
  let updated :=
    alter (with_source base_api_url_template display_name playercount
                       current_fetch_time order)
          map_uid inserted in
  set_maps (fun _ => updated) d.

Definition initial_loop_state (d : db) (requested : list string) : loop_state :=
  LoopState d [] 0 0 false requested.

(** The steps of the loop body. *)
Definition note_request (paginated_api_url : string) (st : loop_state) : loop_state :=
  LoopState (ls_db st) (all_tops_for_map st) (current_offset st)
            (map_total_playercount_api st) (first_fetch_done st)
            (requested st ++ [paginated_api_url]).

(** Lines 207-219: [if not first_fetch_done:]. *)
Definition on_first_page (map_uid base_api_url_template display_name : string)
  (order : Z) (current_fetch_time : string) (playercount : option Z)
  (st : loop_state) : loop_state :=
  if first_fetch_done st then st
  else
    let count := default 0 playercount in
    LoopState (upsert_map map_uid base_api_url_template display_name order
                          current_fetch_time count (ls_db st))
              (all_tops_for_map st) (current_offset st) count true (requested st).

(** Line 222: [all_tops_for_map.extend(current_page_tops)]. *)
Definition extend_tops (current_page_tops : list top_entry) (st : loop_state) : loop_state :=
  LoopState (ls_db st) (all_tops_for_map st ++ current_page_tops) (current_offset st)
            (map_total_playercount_api st) (first_fetch_done st) (requested st).

(** Line 226: [current_offset += RECORDS_PER_PAGE]. *)
Definition next_offset (st : loop_state) : loop_state :=
  LoopState (ls_db st) (all_tops_for_map st) (current_offset st + RECORDS_PER_PAGE)
            (map_total_playercount_api st) (first_fetch_done st) (requested st).

(** The loop; [None] when [fuel] iterations were not enough to leave it. *)
Fixpoint fetch_loop (fuel : nat) (api : api_server)
  (base_api_url map_uid base_api_url_template display_name : string)
  (order : Z) (current_fetch_time : string) (st : loop_state)
  : option loop_state :=
  match fuel with
  | O => None
  | S fuel' =>
      let paginated_api_url := paginated_api_url_of base_api_url (current_offset st) in
      let st := note_request paginated_api_url st in
      match api paginated_api_url with
      | RequestError => Some st
      | JSONError => Some st
      | Response playercount current_page_tops =>
          let st := on_first_page map_uid base_api_url_template display_name order
                                  current_fetch_time playercount st in
          match current_page_tops with
          | Some (row :: rows) =>
              let st := extend_tops (row :: rows) st in
              if Z.of_nat (length (row :: rows)) <? RECORDS_PER_PAGE then Some st
              else
                let st := next_offset st in
                if (map_total_playercount_api st <=? current_offset st)
                   && (0 <? map_total_playercount_api st) then Some st
                else if (10000 <=? current_offset st)
                        && (map_total_playercount_api st =? 0) then Some st
                else fetch_loop fuel' api base_api_url map_uid base_api_url_template
                                display_name order current_fetch_time st
          | _ => Some st
          end
      end
  end.

(** The page the server sends at page index [i] if the loop goes on with its
    rows: [None] for an error and for missing or empty [tops], where the loop
    is left at once. *)
Definition page_url (base_api_url : string) (i : nat) : string :=
  paginated_api_url_of base_api_url (RECORDS_PER_PAGE * Z.of_nat i).

Definition page_at (api : api_server) (base_api_url : string) (i : nat)
  : option (list top_entry) :=
  match api (page_url base_api_url i) with
  | Response _ (Some (row :: rows)) => Some (row :: rows)
  | _ => None
  end.

(** The player count reported with the first page. *)
Definition reported_count (api : api_server) (base_api_url : string) : Z :=
  match api (page_url base_api_url 0) with
  | Response playercount _ => default 0 playercount
  | _ => 0
  end.

(** The three tests made after a page of [len] rows (lines 224, 227 and
    230), [offset] being [current_offset] once line 226 has added the page
    size to it: (a) short page, (b) the offset has reached a positive
    reported count, (c) the offset has reached 10,000 and the reported count
    is zero.  The offset counts 100 for every page that is not short, however
    many rows the page has. *)
Definition stop_condition (len : nat) (offset count : Z) : Prop :=
  Z.of_nat len < RECORDS_PER_PAGE \/
  (0 < count /\ count <= offset) \/
  (count = 0 /\ 10000 <= offset).

(** The same with the cap as the specification words it: more than 10,000. *)
Definition stop_condition_as_specified (len : nat) (offset count : Z) : Prop :=
  Z.of_nat len < RECORDS_PER_PAGE \/
  (0 < count /\ count <= offset) \/
  (count = 0 /\ 10000 < offset).

(** Does the loop go on after the page of index [i]? *)
Definition goes_on (api : api_server) (base_api_url : string) (i : nat) : Prop :=
  exists page, page_at api base_api_url i = Some page /\
    ~ stop_condition (length page) (RECORDS_PER_PAGE * Z.of_nat (S i))
                     (reported_count api base_api_url).

Definition page_rows (api : api_server) (base_api_url : string) (i : nat)
  : list top_entry :=
  default [] (page_at api base_api_url i).

(** What the page loop does to the database: the row of the map is upserted
    when the first page arrives. *)
Definition fetch_db_effect (api : api_server)
  (base_api_url map_uid base_api_url_template display_name : string)
  (order : Z) (current_fetch_time : string) (d : db) : db :=
  match api (page_url base_api_url 0) with
  | Response playercount _ =>
      upsert_map map_uid base_api_url_template display_name order current_fetch_time
                 (default 0 playercount) d
  | _ => d
  end.

End Fetch.

(** ** Reconciliation of one map (lines 238-335) and the whole run *)

Module Reconcile.
Import Zone Data Url Fetch.
Local Open Scope string_scope.
Local Open Scope Z_scope.

(** Truth value of [player_data_json.get('id')]: [None] and the empty string
    are false. *)
Definition truthy_id (o : option string) : option string :=
  match o with
  | Some s => if String.eqb s "" then None else Some s
  | None => None
  end.

Definition opt_eqb {A : Type} (eqb : A -> A -> bool) (x y : option A) : bool :=
  match x, y with
  | Some a, Some b => eqb a b
  | None, None => true
  | _, _ => false
  end.

(** [any(change[0] == player_id and change[2] == new_name for change in ...)] *)
Definition name_change_logged (player_id new_name : string)
  (changes : list name_change) : bool :=
  existsb (fun change => String.eqb change.1.1 player_id && String.eqb change.2 new_name)
          changes.

Definition state : Type := db * session.

(** Lines 253-268: the player row of the rank-1 holder. *)
Definition upsert_wr_player (current_fetch_time api_wr_player_id api_wr_player_name : string)
  (zone_data : zone) (st : state) : state :=
  let '(d, s) := st in
  let '(wr_country_name, wr_country_flag) := get_actual_country_info zone_data in
  match players d !! api_wr_player_id with
  | None =>
      (set_players (insert api_wr_player_id
                      (PlayerRow api_wr_player_name wr_country_name wr_country_flag
                                 current_fetch_time)) d,
       add_newly_added api_wr_player_name s)
  | Some db_player_row_wr =>
      if negb (String.eqb (last_known_name db_player_row_wr) api_wr_player_name) then
        let s :=
          if name_change_logged api_wr_player_id api_wr_player_name (player_name_changes s)
          then s
          else add_name_change
                 (api_wr_player_id, last_known_name db_player_row_wr, api_wr_player_name) s in
        (set_players (alter (with_name_country api_wr_player_name wr_country_name
                                               wr_country_flag)
                            api_wr_player_id) d, s)
      else
        (set_players (alter (with_country wr_country_name wr_country_flag)
                            api_wr_player_id) d, s)
  end.

(** Lines 270-272: the stored WR snapshot of the map, with the holder's name
    from the [LEFT JOIN] on [players]. *)
Definition select_db_wr (d : db) (map_uid : string)
  : option string * option Z * string :=
  match maps d !! map_uid with
  | Some m =>
      let joined_name :=
        match wr_player_id m with
        | Some p => last_known_name <$> players d !! p
        | None => None
        end in
      (wr_player_id m, wr_time_ms m,
       match joined_name with
       | Some n => if String.eqb n "" then "N/A" else n
       | None => "N/A"
       end)
  | None => (None, None, "N/A")
  end.

Definition no_wr_holder : string := "None (Empty Leaderboard or WR Deleted)".

(** Lines 274-285: comparison of the WR candidate with the snapshot. *)
Definition reconcile_wr (current_fetch_time map_uid display_name : string)
  (api_wr_player_id : option string) (api_wr_time_ms : option Z)
  (api_wr_game_timestamp : option string) (api_wr_player_name : string)
  (st : state) : state :=
  let '(d, s) := st in
  let '(db_wr_player_id, db_wr_time_ms_map, db_wr_player_name_map) :=
    select_db_wr d map_uid in
  match truthy_id api_wr_player_id, api_wr_time_ms with
  | Some wr_id, Some wr_time =>
      if negb (opt_eqb String.eqb db_wr_player_id (Some wr_id))
         || negb (opt_eqb Z.eqb db_wr_time_ms_map (Some wr_time))
      then
        (set_maps (alter (with_wr (Some wr_id) (Some wr_time) api_wr_game_timestamp
                                  current_fetch_time)
                         map_uid) d,
         add_wr (display_name, api_wr_player_name, Some wr_time,
                 db_wr_player_name_map, db_wr_time_ms_map) s)
      else (d, s)
  | _, _ =>
      match db_wr_player_id with
      | Some _ =>
          (set_maps (alter (with_wr None None None current_fetch_time) map_uid) d,
           add_wr (display_name, no_wr_holder, None,
                   db_wr_player_name_map, db_wr_time_ms_map) s)
      | None => (d, s)
      end
  end.

(** Lines 245-285: the WR candidate is the first fetched row. *)
Definition reconcile_wr_candidate (current_fetch_time map_uid display_name : string)
  (all_tops : list top_entry) (st : state) : state :=
  match all_tops with
  | wr_entry_data :: _ =>
      let wr_player_data_json := te_player wr_entry_data in
      let api_wr_player_id := pj_id wr_player_data_json in
      let api_wr_time_ms := te_time wr_entry_data in
      let api_wr_game_timestamp := te_timestamp wr_entry_data in
      let api_wr_player_name := default "UnknownWRPlayer" (pj_name wr_player_data_json) in
      let st :=
        match truthy_id api_wr_player_id with
        | Some wr_id =>
            upsert_wr_player current_fetch_time wr_id api_wr_player_name
                             (default ZEmpty (pj_zone wr_player_data_json)) st
        | None => st
        end in
      reconcile_wr current_fetch_time map_uid display_name api_wr_player_id
                   api_wr_time_ms api_wr_game_timestamp api_wr_player_name st
  | [] =>
      reconcile_wr current_fetch_time map_uid display_name None None None "N/A" st
  end.

(** Lines 321-324. *)
Definition is_pb (time_ms_val existing_time_ms : option Z) (rank existing_pos : Z) : bool :=
  match time_ms_val with
  | Some t =>
      match existing_time_ms with
      | None => true
      | Some e => (t <? e) || ((t =? e) && (rank <? existing_pos))
      end
  | None => false
  end.

(** Lines 295-308: the player row of a leaderboard row. *)
Definition upsert_player (current_fetch_time player_id current_player_name_api : string)
  (zone_data : zone) (st : state) : state :=
  let '(d, s) := st in
  let '(c_name, c_flag) := get_actual_country_info zone_data in
  match players d !! player_id with
  | None =>
      (set_players (insert player_id
                      (PlayerRow current_player_name_api c_name c_flag current_fetch_time)) d,
       add_newly_added current_player_name_api s)
  | Some db_player_row_rec =>
      let db_last_known_name := last_known_name db_player_row_rec in
      let s :=
        if negb (String.eqb db_last_known_name current_player_name_api) then
          if name_change_logged player_id current_player_name_api (player_name_changes s)
          then s
          else add_name_change (player_id, db_last_known_name, current_player_name_api) s
        else s in
      (set_players (alter (with_name_country current_player_name_api c_name c_flag)
                          player_id) d, s)
  end.

(** Lines 310-334: the record of the player on the map. *)
Definition upsert_record (current_fetch_time map_uid display_name player_id
  current_player_name_api : string) (rank : Z) (record_entry : top_entry)
  (st : state) : state :=
  let '(d, s) := st in
  let time_ms_val := te_time record_entry in
  let score_val := te_score record_entry in
  let game_ts := te_timestamp record_entry in
  match records d !! (map_uid, player_id) with
  | None =>
      (set_records (insert (map_uid, player_id)
                      (RecordRow time_ms_val score_val rank game_ts current_fetch_time
                                 current_fetch_time false true)) d,
       add_new_player_on_map (current_player_name_api, display_name, time_ms_val) s)
  | Some existing =>
      let existing_time_ms := time_ms existing in
      let existing_pos := position existing in
      if is_pb time_ms_val existing_time_ms rank existing_pos then
        (set_records (alter (with_pb time_ms_val score_val rank game_ts current_fetch_time)
                            (map_uid, player_id)) d,
         add_pb (current_player_name_api, display_name, time_ms_val, existing_time_ms) s)
      else if negb (rank =? existing_pos)%Z then
        (set_records (alter (with_position rank current_fetch_time)
                            (map_uid, player_id)) d, s)
      else
        (set_records (alter (with_updated_at current_fetch_time)
                            (map_uid, player_id)) d, s)
  end.

(** Body of the loop of line 289 for one row. *)
Definition process_row (current_fetch_time map_uid display_name : string) (rank : Z)
  (record_entry : top_entry) (st : state) : state :=
  let player_data_json := te_player record_entry in
  let current_player_name_api := default "Unknown" (pj_name player_data_json) in
  match truthy_id (pj_id player_data_json) with
  | None => st
  | Some player_id =>
      let st := upsert_player current_fetch_time player_id current_player_name_api
                              (default ZEmpty (pj_zone player_data_json)) st in
      upsert_record current_fetch_time map_uid display_name player_id
                    current_player_name_api rank record_entry st
  end.

(** [for rank, record_entry in enumerate(all_tops_for_map, 1)] *)
Fixpoint process_rows (current_fetch_time map_uid display_name : string) (rank : Z)
  (rows : list top_entry) (st : state) : state :=
  match rows with
  | [] => st
  | record_entry :: rest =>
      process_rows current_fetch_time map_uid display_name (rank + 1) rest
        (process_row current_fetch_time map_uid display_name rank record_entry st)
  end.

(** Lines 238-335, after the page loop. *)
Definition reconcile_map (current_fetch_time map_uid display_name : string)
  (all_tops : list top_entry) (playercount_api : Z) (st : state) : state :=
  let '(d, s) := st in
  let actual_fetched_count := Z.of_nat (length all_tops) in
  let d :=
    if negb (actual_fetched_count =? playercount_api)%Z then
      set_maps (alter (with_last_playercount actual_fetched_count) map_uid) d
    else d in
  let st := reconcile_wr_candidate current_fetch_time map_uid display_name all_tops (d, s) in
  process_rows current_fetch_time map_uid display_name 1 all_tops st.

(** What a run carries from map to map: the database, the session and the
    list of the requests made. *)
Definition run_state : Type := db * session * list string.

(** Body of the loop of line 157 for one entry of the map list. *)
Definition process_entry (fuel : nat) (api : api_server) (current_fetch_time : string)
  (entry_data : map_url_entry) (rs : run_state) : option run_state :=
  let '(d, s, reqs) := rs in
  let base_api_url_template := url_template entry_data in
  let display_name := name entry_data in
  let order := entry_fetch_order entry_data in
  let base_api_url := base_api_url_of base_api_url_template in
  match extract_map_uid_from_url base_api_url_template with
  | None => Some rs
  | Some map_uid =>
      ls ← fetch_loop fuel api base_api_url map_uid base_api_url_template display_name
                      order current_fetch_time (initial_loop_state d reqs);
      let '(d', s') :=
        reconcile_map current_fetch_time map_uid display_name (all_tops_for_map ls)
                      (map_total_playercount_api ls) (ls_db ls, s) in
      Some (d', s', requested ls)
  end.

Fixpoint process_entries (fuel : nat) (api : api_server) (current_fetch_time : string)
  (map_url_entries : list map_url_entry) (rs : run_state) : option run_state :=
  match map_url_entries with
  | [] => Some rs
  | entry_data :: rest =>
      rs' ← process_entry fuel api current_fetch_time entry_data rs;
      process_entries fuel api current_fetch_time rest rs'
  end.

(** Lines 144-145: both [UPDATE ... SET ..._since_last_fetch = 0]. *)
Definition reset_flags (d : db) : db :=
  Db ((fun m => MapRow (api_url m) (map_display_name m) (last_playercount m)
                       (last_fetched_at m) (wr_player_id m) (wr_time_ms m)
                       (wr_game_timestamp m) (wr_script_recorded_at m) false
                       (fetch_order m)) <$> maps d)
     (players d)
     ((fun r => RecordRow (time_ms r) (score r) (position r) (game_timestamp r)
                          (script_recorded_at r) (script_updated_at r) false false)
        <$> records d).

(** What the function hands back: [{'error': True}] or the session data,
    here with the database and the requests made. *)
Inductive run_result : Type :=
| RunError
| RunDone (rs : run_state).

(** A fetch run over the parsed map list (lines 138-339); [None] if [fuel]
    did not let a page loop end. *)
Definition fetch_and_process_data (fuel : nat) (api : api_server)
  (current_fetch_time : string) (map_url_entries : list map_url_entry) (d : db)
  : option run_result :=
  match map_url_entries with
  | [] => Some RunError
  | _ => RunDone <$> process_entries fuel api current_fetch_time map_url_entries
                                     (reset_flags d, empty_session, [])
  end.

(** *** Vocabulary of the properties *)

(** The player id under which a row is processed; rows without one are
    skipped. *)
Definition row_id (record_entry : top_entry) : option string :=
  truthy_id (pj_id (te_player record_entry)).

Definition player_ids (rows : list top_entry) : list string := omap row_id rows.

(** The rank-1 row as a WR candidate: its holder id and time, when it has
    both. *)
Definition wr_candidate (all_tops : list top_entry) : option (string * Z) :=
  match all_tops with
  | wr_entry_data :: _ =>
      match row_id wr_entry_data, te_time wr_entry_data with
      | Some i, Some t => Some (i, t)
      | _, _ => None
      end
  | [] => None
  end.

(** The WR snapshot stored for a map. *)
Definition stored_wr_id (d : db) (map_uid : string) : option string :=
  maps d !! map_uid ≫= wr_player_id.
Definition stored_wr_time (d : db) (map_uid : string) : option Z :=
  maps d !! map_uid ≫= wr_time_ms.

(** When lines 322-324 call a row a personal best. *)
Definition pb_condition (fetched stored : option Z) (rank stored_pos : Z) : Prop :=
  exists t, fetched = Some t /\
    (stored = None \/
     exists e, stored = Some e /\ (t < e \/ (t = e /\ rank < stored_pos))).

(** The same as the specification words it: a lower time, or the same time
    at a lower rank. *)
Definition pb_condition_as_specified (fetched stored : option Z) (rank stored_pos : Z)
  : Prop :=
  exists t e, fetched = Some t /\ stored = Some e /\
    (t < e \/ (t = e /\ rank < stored_pos)).

(** When the WR step of lines 274-285 records a change, as the specification
    words it: the holder id differs, or the time differs, or a snapshot
    existed and the leaderboard is empty. *)
Definition wr_change_as_specified (all_tops : list top_entry)
  (db_wr_player_id : option string) (db_wr_time_ms : option Z) : Prop :=
  match all_tops with
  | wr_entry_data :: _ =>
      pj_id (te_player wr_entry_data) <> db_wr_player_id \/
      te_time wr_entry_data <> db_wr_time_ms
  | [] => db_wr_player_id <> None
  end.

(** The database without the two columns that every run rewrites. *)
Definition erase_map_row (m : map_row) : map_row :=
  MapRow (api_url m) (map_display_name m) (last_playercount m) ""
         (wr_player_id m) (wr_time_ms m) (wr_game_timestamp m)
         (wr_script_recorded_at m) (is_new_wr_since_last_fetch m) (fetch_order m).

Definition erase_record_row (r : record_row) : record_row :=
  RecordRow (time_ms r) (score r) (position r) (game_timestamp r)
            (script_recorded_at r) "" (is_pb_since_last_fetch r)
            (is_new_player_on_map_since_last_fetch r).

Definition erase_timestamps (d : db) : db :=
  Db (erase_map_row <$> maps d) (players d) (erase_record_row <$> records d).

(** The leaderboard that the page loop collects for an entry; it depends
    neither on the database nor on the time of the run. *)
Definition leaderboard_of (fuel : nat) (api : api_server) (entry_data : map_url_entry)
  : list top_entry :=
  match extract_map_uid_from_url (url_template entry_data) with
  | Some map_uid =>
      match fetch_loop fuel api (base_api_url_of (url_template entry_data)) map_uid
                       (url_template entry_data) (name entry_data)
                       (entry_fetch_order entry_data) ""
                       (initial_loop_state (Db ∅ ∅ ∅) []) with
      | Some ls => all_tops_for_map ls
      | None => []
      end
  | None => []
  end.

(** Player id and new name of a name-change event: what line 304 compares. *)
Definition name_change_key (change : name_change) : string * string :=
  (change.1.1, change.2).

(** The name-change events of one player. *)
Definition name_changes_of (player_id : string) (s : session) : list name_change :=
  filter (fun change => change.1.1 = player_id) (player_name_changes s).

End Reconcile.

(** ** What a run keeps: vocabulary *)

Module Run.
Import Data Fetch Reconcile.
Local Open Scope Z_scope.

(** A record row and what has become of it: the time of its first recording
    stays, and a stored time stays a time and does not get worse. *)
Definition record_evolves (r r' : record_row) : Prop :=
  script_recorded_at r' = script_recorded_at r /\
  forall t, time_ms r = Some t -> exists t', time_ms r' = Some t' /\ t' <= t.

(** A database and what has become of it: no row is gone, a player keeps
    the time of first sight, a record evolves as above. *)
Definition evolves (d d' : db) : Prop :=
  (forall k, is_Some (maps d !! k) -> is_Some (maps d' !! k)) /\
  (forall k r, players d !! k = Some r ->
     exists r', players d' !! k = Some r' /\
       first_seen_by_script_at r' = first_seen_by_script_at r) /\
  (forall k r, records d !! k = Some r ->
     exists r', records d' !! k = Some r' /\ record_evolves r r').

(** The three [FOREIGN KEY] clauses of the schema (lines 25, 40 and 41),
    which SQLite does not enforce unless asked to. *)
Definition references_ok (d : db) : Prop :=
  (forall map_uid player_id r, records d !! (map_uid, player_id) = Some r ->
     is_Some (maps d !! map_uid) /\ is_Some (players d !! player_id)) /\
  (forall map_uid m player_id, maps d !! map_uid = Some m ->
     wr_player_id m = Some player_id -> is_Some (players d !! player_id)).

(** A PB event carries the new time, and the old one is not better. *)
Definition pb_event_ok (e : pb_event) : Prop :=
  match e with
  | (_, _, Some t, Some old) => t <= old
  | (_, _, Some _, None) => True
  | (_, _, None, _) => False
  end.

(** What holds of the database and the session during a run that started
    on the database [d0] with an empty session: the records of [d0] are
    there, a record is flagged as new on its map exactly if [d0] has no such
    record, every new record has its event, and the PB events are sound. *)
Definition run_inv (d0 : db) (st : state) : Prop :=
  (forall k, is_Some (records d0 !! k) -> is_Some (records st.1 !! k)) /\
  (forall k r, records st.1 !! k = Some r ->
     (is_new_player_on_map_since_last_fetch r = true <-> records d0 !! k = None)) /\
  size (records st.1) = (size (records d0) + length (new_players_on_map st.2))%nat /\
  Forall pb_event_ok (new_pbs st.2).

End Run.

(** ** The time display: [format_time_ms] (lines 81-106) *)

Module Format.
Import Float Url.
Local Open Scope string_scope.
Local Open Scope Z_scope.

(** An integer operand of a float operation is converted first. *)
Definition of_int (z : Z) : Q := RN (inject_Z z).
Definition fdiv (x y : Q) : Q := RN (x / y).
Definition fsub (x y : Q) : Q := RN (x - y).

Fixpoint zeros (n : nat) : string :=
  match n with
  | O => ""
  | S n' => String "0" (zeros n')
  end.

(** [f"{z:0<width>d}"]: the sign, then zeros up to the width, then the
    digits. *)
Definition zero_pad (width : nat) (z : Z) : string :=
  let digits := str_of_int (Z.abs z) in
  if z <? 0
  then "-" ++ zeros (width - 1 - String.length digits) ++ digits
  else zeros (width - String.length digits) ++ digits.

(** Lines 83-90: hours, minutes, seconds and milliseconds of [ms]. *)
Definition time_parts (ms : Z) (show_millis : bool) : Z * Z * Z * Z :=
  let total_seconds_float := fdiv (of_int ms) 1000 in
  let milliseconds_part :=
    if show_millis
    then rhe (fmul (fsub total_seconds_float (of_int (Qfloor total_seconds_float))) 1000)
    else 0 in
  let seconds_int := Qfloor total_seconds_float in
  let hours := seconds_int / 3600 in
  let minutes := (seconds_int mod 3600) / 60 in
  let seconds := seconds_int mod 60 in
  (hours, minutes, seconds, milliseconds_part).

Definition format_time_ms (ms : option Z) (show_millis show_hours_minutes_optional : bool)
  : string :=
  match ms with
  | None => "N/A"
  | Some ms =>
      let '(hours, minutes, seconds, milliseconds_part) := time_parts ms show_millis in
      let time_str :=
        if 0 <? hours then
          str_of_int hours ++ ":" ++ zero_pad 2 minutes ++ ":" ++ zero_pad 2 seconds
        else if 0 <? minutes then
          if negb show_hours_minutes_optional && (hours =? 0)
          then "00:" ++ zero_pad 2 minutes ++ ":" ++ zero_pad 2 seconds
          else str_of_int minutes ++ ":" ++ zero_pad 2 seconds
        else
          if negb show_hours_minutes_optional && (minutes =? 0)
          then "00:00:" ++ zero_pad 2 seconds
          else zero_pad 2 seconds in
      if show_millis then time_str ++ "." ++ zero_pad 3 milliseconds_part else time_str
  end.

End Format.

(** ** The map list: lines 123-140 of [fetch_and_process_data] *)

Module MapList.
Import Data Reconcile.
Local Open Scope string_scope.
Local Open Scope Z_scope.

(** The characters that [str.strip()] removes, among the code points below
    256: tab to carriage return, the four separators, the space, NEL and the
    no-break space. *)
Definition is_space (c : ascii) : bool :=
  let n := nat_of_ascii c in
  ((9 <=? n) && (n <=? 13) || (28 <=? n) && (n <=? 32) || (n =? 133) || (n =? 160))%nat.

Fixpoint lstrip (s : string) : string :=
  match s with
  | String c rest => if is_space c then lstrip rest else s
  | EmptyString => EmptyString
  end.

Fixpoint rstrip (s : string) : string :=
  match s with
  | EmptyString => EmptyString
  | String c rest =>
      match rstrip rest with
      | EmptyString => if is_space c then EmptyString else String c EmptyString
      | kept => String c kept
      end
  end.

(** [s.strip()] *)
Definition strip (s : string) : string := rstrip (lstrip s).

(** [s.split(sep, 1)] when [sep] occurs in [s]: what stands before its first
    occurrence and what stands after it; [None] for the list of one part. *)
Fixpoint split_once (sep : ascii) (s : string) : option (string * string) :=
  match s with
  | EmptyString => None
  | String c rest =>
      if Ascii.eqb c sep then Some (EmptyString, rest)
      else
        match split_once sep rest with
        | Some (before, after) => Some (String c before, after)
        | None => None
        end
  end.

(** Lines 131-137 for the line of number [line_num]. *)
Definition parse_line (line_num : Z) (line : string) : option map_url_entry :=
  let line := strip line in
  if String.eqb line "" || String.prefix "#" line then None
  else
    match split_once "|" line with
    | Some (url, display_name) => Some (MapUrlEntry (strip url) (strip display_name) line_num)
    | None => None
    end.

(** [for line_num, line in enumerate(f)] *)
Fixpoint read_lines (line_num : Z) (lines : list string) : list map_url_entry :=
  match lines with
  | [] => []
  | line :: rest =>
      match parse_line line_num line with
      | Some entry => entry :: read_lines (line_num + 1) rest
      | None => read_lines (line_num + 1) rest
      end
  end.

Definition read_map_urls (lines : list string) : list map_url_entry := read_lines 0 lines.

(** The function from its first line: [file] is the list of the lines of
    [maps_api_urls.txt], [None] if there is no such file. *)
Definition fetch_and_process_file (fuel : nat) (api : api_server)
  (current_fetch_time : string) (file : option (list string)) (d : db)
  : option run_result :=
  match file with
  | None => Some RunError
  | Some lines =>
      fetch_and_process_data fuel api current_fetch_time (read_map_urls lines) d
  end.

(** Vocabulary: a string of whitespace. *)
Fixpoint all_space (s : string) : bool :=
  match s with
  | EmptyString => true
  | String c rest => is_space c && all_space rest
  end.

(** A string without a space at either end. *)
Definition clean (s : string) : Prop := lstrip s = s /\ rstrip s = s.

Definition order_lt (a b : map_url_entry) : Prop :=
  entry_fetch_order a < entry_fetch_order b.

End MapList.

(** ** The ranking behind the tabs: [refresh_all_tabs] (lines 753-787 and
    875-894) *)

Module Tabs.
Import Float Points Data.
Local Open Scope string_scope.
Local Open Scope Z_scope.

(** The float an operand of a float operation stands for. *)
Definition to_float (n : pynum) : Q :=
  match n with
  | PyInt z => RN (inject_Z z)
  | PyFloat q => q
  end.

(** [a + b]: exact on two integers, a float addition otherwise. *)
Definition py_add (a b : pynum) : pynum :=
  match a, b with
  | PyInt x, PyInt y => PyInt (x + y)
  | _, _ => PyFloat (fadd (to_float a) (to_float b))
  end.

(** [round(x, 2)]: an integer is returned as it is. *)
Definition py_round2 (n : pynum) : pynum :=
  match n with
  | PyInt z => PyInt z
  | PyFloat q => PyFloat (round2 q)
  end.

(** [all_records_map[player_id]]: the positions of the player, in the order
    of the rows of [SELECT player_id, position FROM records]; the empty list
    for a player without rows. *)
Definition positions_of (player_id : string) (record_rows : list (string * Z)) : list Z :=
  snd <$> filter (fun row => row.1 = player_id) record_rows.

(** Lines 768-772: [overall_score], before it is rounded. *)
Definition sum_points (positions : list Z) : pynum :=
  fold_left (fun overall_score position =>
               py_add overall_score (calculate_points_for_rank position))
            positions (PyInt 0).

(** An element of [all_players_data_with_scores]. *)
Record player_info : Type := PlayerInfo {
  pi_id : string;
  pi_name : string;
  pi_country : string;
  pi_score : pynum;
  pi_maps : Z;
  pi_first_seen : string
}.

(** Lines 766-779, for one row of [SELECT ... FROM players]. *)
Definition player_info_of (record_rows : list (string * Z)) (p_row : string * player_row)
  : player_info :=
  let player_id := p_row.1 in
  let positions := positions_of player_id record_rows in
  PlayerInfo player_id (last_known_name p_row.2) (country_name p_row.2)
             (py_round2 (sum_points positions)) (Z.of_nat (length positions))
             (first_seen_by_script_at p_row.2).

Definition all_players_data_with_scores (player_rows : list (string * player_row))
  (record_rows : list (string * Z)) : list player_info :=
  player_info_of record_rows <$> player_rows.

(** [sorted(..., key=lambda x: x['score'], reverse=True)]: the sort is
    stable, elements of equal score keep their order.  Numbers compare by
    value, whether integers or floats. *)
Definition score_le (a b : player_info) : bool :=
  Qle_bool (value (pi_score a)) (value (pi_score b)).

Fixpoint insert_by_score (x : player_info) (l : list player_info) : list player_info :=
  match l with
  | [] => [x]
  | y :: l' => if score_le y x then x :: l else y :: insert_by_score x l'
  end.

Definition sorted_by_score (l : list player_info) : list player_info :=
  fold_right insert_by_score [] l.

(** An element of [overall_lb_sorted_players_with_rank]. *)
Record ranked_player : Type := RankedPlayer {
  rp_info : player_info;
  global_rank : Z
}.

(** Lines 784-787: [enumerate], the rank being the index plus one. *)
Fixpoint with_rank (rank_idx : Z) (l : list player_info) : list ranked_player :=
  match l with
  | [] => []
  | p_data :: rest => RankedPlayer p_data (rank_idx + 1) :: with_rank (rank_idx + 1) rest
  end.

Definition overall_lb_sorted_players_with_rank (player_rows : list (string * player_row))
  (record_rows : list (string * Z)) : list ranked_player :=
  with_rank 0 (sorted_by_score (all_players_data_with_scores player_rows record_rows)).

(** [p_data['country'] if p_data['country'] else "Unknown"] *)
Definition country_or_unknown (p : ranked_player) : string :=
  if String.eqb (pi_country (rp_info p)) "" then "Unknown" else pi_country (rp_info p).

(** Lines 875-878: [country_player_counts[country]]. *)
Definition country_player_count (country : string) (ranked : list ranked_player) : Z :=
  Z.of_nat (length (filter (fun p => country_or_unknown p = country) ranked)).

(** An element of [country_top_player_list_detailed]. *)
Record country_top : Type := CountryTop {
  ct_player : ranked_player;
  num_players_in_country : Z
}.

(** Lines 883-890: the dictionary [temp_country_best_players], as the list
    of its values in the order of insertion; [seen] holds its keys. *)
Fixpoint temp_country_best_players (all_ranked : list ranked_player) (seen : list string)
  (ranked : list ranked_player) : list country_top :=
  match ranked with
  | [] => []
  | p_data_top :: rest =>
      let country := country_or_unknown p_data_top in
      if String.eqb country "Unknown" then temp_country_best_players all_ranked seen rest
      else if existsb (String.eqb country) seen
      then temp_country_best_players all_ranked seen rest
      else CountryTop p_data_top (country_player_count country all_ranked)
             :: temp_country_best_players all_ranked (country :: seen) rest
  end.

(** [list.sort(key=lambda x: x['global_rank'])], stable. *)
Fixpoint insert_by_rank (x : country_top) (l : list country_top) : list country_top :=
  match l with
  | [] => [x]
  | y :: l' =>
      if global_rank (ct_player x) <=? global_rank (ct_player y) then x :: l
      else y :: insert_by_rank x l'
  end.

Definition sorted_by_rank (l : list country_top) : list country_top :=
  fold_right insert_by_rank [] l.

Definition country_top_player_list_detailed (ranked : list ranked_player)
  : list country_top :=
  sorted_by_rank (temp_country_best_players ranked [] ranked).

(** Vocabulary: the country under which an entry is listed, and the order
    of the global ranks. *)
Definition country_of (c : country_top) : string := country_or_unknown (ct_player c).
Definition rank_lt (a b : ranked_player) : Prop := global_rank a < global_rank b.
Definition top_lt (c c' : country_top) : Prop := rank_lt (ct_player c) (ct_player c').

End Tabs.

(** * Properties *)

(** ** Rounding to binary64 is monotone *)

Module FloatFacts.
Import Float.
Local Open Scope Q_scope.

Lemma pow2_pos e : 0 < pow2 e.
Proof. apply Qpower_0_lt. reflexivity. Qed.

Lemma pow2_add a b : pow2 (a + b) == pow2 a * pow2 b.
Proof. apply Qpower_plus. discriminate. Qed.

Lemma pow2_le a b : (a <= b)%Z -> pow2 a <= pow2 b.
Proof. intros H. apply Qpower_le_compat_l; [exact H | discriminate]. Qed.

Lemma pow2_Z e : (0 <= e)%Z -> pow2 e == inject_Z (2 ^ e).
Proof. intros H. unfold pow2. symmetry. apply (Zpower_Qpower 2 e H). Qed.

Lemma pow2_cancel e : pow2 (- e) * pow2 e == 1.
Proof. rewrite <- pow2_add. replace (- e + e)%Z with 0%Z by lia. reflexivity. Qed.

Lemma rhe_bounds q : (Qfloor q <= rhe q <= Qfloor q + 1)%Z.
Proof.
  unfold rhe. destruct (Qcompare _ _); [destruct (Z.even _) | |]; lia.
Qed.

Lemma rhe_Z z : rhe (inject_Z z) = z.
Proof.
  unfold rhe. rewrite Qfloor_Z.
  assert (E : (inject_Z z - inject_Z z ?= 1 # 2) = Lt).
  { apply (proj1 (Qlt_alt _ _)). generalize (inject_Z z). intros; lra. }
  now rewrite E.
Qed.

Lemma rhe_mono p q : p <= q -> (rhe p <= rhe q)%Z.
Proof.
  intros Hpq. pose proof (Qfloor_resp_le _ _ Hpq) as Hf.
  destruct (Z.eq_dec (Qfloor p) (Qfloor q)) as [E | NE].
  - unfold rhe. rewrite <- E. set (f := Qfloor p).
    generalize (inject_Z f). intros fq.
    destruct (Qcompare_spec (p - fq) (1 # 2)) as [E1 | L1 | G1];
    destruct (Qcompare_spec (q - fq) (1 # 2)) as [E2 | L2 | G2];
    try destruct (Z.even f); try lia; exfalso; lra.
  - pose proof (rhe_bounds p). pose proof (rhe_bounds q). lia.
Qed.

Lemma Qdiv_le_cross (A B N D : Q) : 0 < B -> 0 < D -> A * D <= N * B -> A / B <= N / D.
Proof.
  intros HB HD H. apply Qle_shift_div_r; [exact HB |].
  assert (E : N / D * B == N * B / D) by (field; lra). rewrite E.
  apply Qle_shift_div_l; assumption.
Qed.

Lemma Qdiv_lt_cross (A B N D : Q) : 0 < B -> 0 < D -> A * D < N * B -> A / B < N / D.
Proof.
  intros HB HD H. apply Qlt_shift_div_r; [exact HB |].
  assert (E : N / D * B == N * B / D) by (field; lra). rewrite E.
  apply Qlt_shift_div_l; assumption.
Qed.

Lemma pow2_sub a b : (0 <= a)%Z -> (0 <= b)%Z ->
  pow2 (a - b) == inject_Z (2 ^ a) / inject_Z (2 ^ b).
Proof.
  intros Ha Hb. unfold pow2. rewrite Qpower_minus by discriminate.
  rewrite <- !(Zpower_Qpower 2) by assumption. reflexivity.
Qed.

Lemma inject_Z_pos z : (0 < z)%Z -> 0 < inject_Z z.
Proof. intros H. change 0 with (inject_Z 0). now rewrite <- Zlt_Qlt. Qed.

Lemma flog2_spec x : 0 < x -> pow2 (flog2 x) <= x /\ x < pow2 (flog2 x + 1).
Proof.
  destruct x as [n d]. intros Hx.
  assert (Hn : (0 < n)%Z).
  { unfold Qlt in Hx. simpl in Hx. lia. }
  unfold flog2. cbn [Qnum Qden].
  set (a := Z.log2 n). set (b := Z.log2 (Z.pos d)).
  pose proof (Z.log2_spec n Hn) as [Ha1 Ha2]. fold a in Ha1, Ha2.
  pose proof (Z.log2_spec (Z.pos d) (Pos2Z.is_pos d)) as [Hb1 Hb2]. fold b in Hb1, Hb2.
  pose proof (Z.log2_nonneg n) as Ha0. fold a in Ha0.
  pose proof (Z.log2_nonneg (Z.pos d)) as Hb0. fold b in Hb0.
  assert (Pa : (0 < 2 ^ a)%Z) by (apply Z.pow_pos_nonneg; lia).
  assert (Pb : (0 < 2 ^ b)%Z) by (apply Z.pow_pos_nonneg; lia).
  assert (Sa : (2 ^ Z.succ a = 2 * 2 ^ a)%Z) by (apply Z.pow_succ_r; lia).
  assert (Sb : (2 ^ Z.succ b = 2 * 2 ^ b)%Z) by (apply Z.pow_succ_r; lia).
  rewrite (Qmake_Qdiv n d).
  assert (HD : 0 < inject_Z (Z.pos d)) by (apply inject_Z_pos; lia).
  destruct (Z.leb_spec (Z.pos d * 2 ^ a) (n * 2 ^ b)) as [Hc | Hc].
  - split.
    + rewrite pow2_sub by lia. apply Qdiv_le_cross; [apply inject_Z_pos; lia | exact HD |].
      rewrite <- !inject_Z_mult, <- Zle_Qle. lia.
    + replace (a - b + 1)%Z with (Z.succ a - b)%Z by lia.
      rewrite pow2_sub by lia. apply Qdiv_lt_cross; [exact HD | apply inject_Z_pos; lia |].
      rewrite <- !inject_Z_mult, <- Zlt_Qlt. nia.
  - split.
    + replace (a - b - 1)%Z with (a - Z.succ b)%Z by lia.
      rewrite pow2_sub by lia. apply Qdiv_le_cross; [apply inject_Z_pos; lia | exact HD |].
      rewrite <- !inject_Z_mult, <- Zle_Qle. nia.
    + replace (a - b - 1 + 1)%Z with (a - b)%Z by lia.
      rewrite pow2_sub by lia. apply Qdiv_lt_cross; [exact HD | apply inject_Z_pos; lia |].
      rewrite <- !inject_Z_mult, <- Zlt_Qlt. lia.
Qed.

Lemma pow2_lt_inv a b : pow2 a < pow2 b -> (a < b)%Z.
Proof. intros H. apply (Qpower_lt_compat_l_inv 2); [exact H | reflexivity]. Qed.

Lemma flog2_mono x y : 0 < x -> x <= y -> (flog2 x <= flog2 y)%Z.
Proof.
  intros Hx Hxy.
  destruct (flog2_spec x Hx) as [H1 _].
  destruct (flog2_spec y) as [_ H2]; [lra |].
  assert (H : pow2 (flog2 x) < pow2 (flog2 y + 1)) by lra.
  apply pow2_lt_inv in H. lia.
Qed.

Lemma scale_le x y e : x <= y -> x * pow2 e <= y * pow2 e.
Proof. intros H. apply Qmult_le_compat_r; [exact H | apply Qlt_le_weak, pow2_pos]. Qed.

Lemma RNpos_same_exp x y e : x <= y ->
  inject_Z (rhe (x * pow2 (- e))) * pow2 e <= inject_Z (rhe (y * pow2 (- e))) * pow2 e.
Proof.
  intros H. apply scale_le. rewrite <- Zle_Qle. apply rhe_mono. now apply scale_le.
Qed.

(** A value at or above [2^k] keeps that bound once rounded on a grid of
    step [2^e], [e <= k]; likewise from above. *)
Lemma round_ge_pow2 y k e : (e <= k)%Z -> pow2 k <= y ->
  pow2 k <= inject_Z (rhe (y * pow2 (- e))) * pow2 e.
Proof.
  intros Hek Hy.
  assert (E : pow2 k == inject_Z (2 ^ (k - e)) * pow2 e).
  { rewrite <- pow2_Z by lia. rewrite <- pow2_add. now replace (k - e + e)%Z with k by lia. }
  rewrite E at 1. apply scale_le. rewrite <- Zle_Qle.
  rewrite <- (rhe_Z (2 ^ (k - e))). apply rhe_mono.
  rewrite <- pow2_Z by lia. replace (k - e)%Z with (k + - e)%Z by lia.
  rewrite pow2_add. now apply scale_le.
Qed.

Lemma round_le_pow2 x k e : (e <= k)%Z -> x <= pow2 k ->
  inject_Z (rhe (x * pow2 (- e))) * pow2 e <= pow2 k.
Proof.
  intros Hek Hx.
  assert (E : pow2 k == inject_Z (2 ^ (k - e)) * pow2 e).
  { rewrite <- pow2_Z by lia. rewrite <- pow2_add. now replace (k - e + e)%Z with k by lia. }
  rewrite E. apply scale_le. rewrite <- Zle_Qle.
  rewrite <- (rhe_Z (2 ^ (k - e))). apply rhe_mono.
  rewrite <- pow2_Z by lia. replace (k - e)%Z with (k + - e)%Z by lia.
  rewrite pow2_add. now apply scale_le.
Qed.

Lemma RNpos_mono x y : 0 < x -> x <= y -> RNpos x <= RNpos y.
Proof.
  intros Hx Hxy. assert (Hy : 0 < y) by lra.
  pose proof (flog2_mono x y Hx Hxy) as Hk.
  destruct (flog2_spec x Hx) as [_ Hx2]. destruct (flog2_spec y Hy) as [Hy1 _].
  unfold RNpos, ulp_exp.
  destruct (Z.eq_dec (Z.max (flog2 x - 52) (-1074)) (Z.max (flog2 y - 52) (-1074))) as [E | NE].
  - rewrite E. now apply RNpos_same_exp.
  - apply Qle_trans with (pow2 (flog2 y)).
    + apply round_le_pow2; [lia |].
      apply Qle_trans with (pow2 (flog2 x + 1)); [lra | apply pow2_le; lia].
    + apply round_ge_pow2; [lia | exact Hy1].
Qed.

Lemma RNpos_nonneg x : 0 < x -> 0 <= RNpos x.
Proof.
  intros Hx. unfold RNpos. apply Qmult_le_0_compat; [| apply Qlt_le_weak, pow2_pos].
  change 0 with (inject_Z 0). rewrite <- Zle_Qle.
  rewrite <- (rhe_Z 0). apply rhe_mono. simpl.
  apply Qmult_le_0_compat; [lra | apply Qlt_le_weak, pow2_pos].
Qed.

Lemma RN_mono x y : x <= y -> RN x <= RN y.
Proof.
  intros Hxy. unfold RN.
  destruct (Qcompare_spec x 0) as [Ex | Lx | Gx];
  destruct (Qcompare_spec y 0) as [Ey | Ly | Gy]; try lra.
  - apply RNpos_nonneg; exact Gy.
  - pose proof (RNpos_nonneg (- x)). lra.
  - apply Qopp_le_compat. apply RNpos_mono; lra.
  - pose proof (RNpos_nonneg (- x)). pose proof (RNpos_nonneg y). lra.
  - now apply RNpos_mono.
Qed.

Lemma RN_nonneg x : 0 <= x -> 0 <= RN x.
Proof. intros H. change 0 with (RN 0) at 1. now apply RN_mono. Qed.

Lemma RN_compat x y : x == y -> RN x == RN y.
Proof. intros E. apply Qle_antisym; apply RN_mono; lra. Qed.

Lemma cents_mono x y : x <= y -> (cents x <= cents y)%Z.
Proof. intros H. apply rhe_mono. lra. Qed.

Lemma of_cents_mono a b : (a <= b)%Z -> of_cents a <= of_cents b.
Proof.
  intros H. apply RN_mono. apply Qmult_le_compat_r; [now rewrite <- Zle_Qle | discriminate].
Qed.

Lemma round2_mono x y : x <= y -> round2 x <= round2 y.
Proof. intros H. apply of_cents_mono, cents_mono, H. Qed.

(** The model computes what the primitive binary64 floats compute, on the
    operations of the points formula at ranks 9, 11 and 101. *)
Example model_agrees_with_primitive_floats :
  let fl := float_of_Z in
  forallb (fun p => agrees (fst p) (snd p))
    [ (PrimFloat.div (fl 40000%Z) (fl 9%Z), int_div 40000%Z 9%Z);
      (PrimFloat.div (fl 9%Z) (fl 10%Z), lit_0_9);
      (PrimFloat.add (PrimFloat.div (fl 10%Z) (fl 11%Z)) (PrimFloat.div (fl 9%Z) (fl 10%Z)),
       fadd (int_div 10%Z 11%Z) lit_0_9);
      (PrimFloat.mul (PrimFloat.div (fl 4000%Z) (fl 2%Z))
         (PrimFloat.add (PrimFloat.div (fl 10%Z) (fl 11%Z)) (PrimFloat.div (fl 9%Z) (fl 10%Z))),
       fmul (int_div 4000%Z 2%Z) (fadd (int_div 10%Z 11%Z) lit_0_9));
      (PrimFloat.mul (PrimFloat.div (fl 4000%Z) (fl 4%Z))
         (PrimFloat.add (PrimFloat.div (fl 100%Z) (fl 101%Z)) (PrimFloat.div (fl 9%Z) (fl 10%Z))),
       fmul (int_div 4000%Z 4%Z) (fadd (int_div 100%Z 101%Z) lit_0_9));
      (PrimFloat.div (fl 444444%Z) (fl 100%Z), of_cents 444444%Z);
      (PrimFloat.div (fl 361818%Z) (fl 100%Z), of_cents 361818%Z) ] = true.
Proof. vm_compute. reflexivity. Qed.

End FloatFacts.

(** ** The points formula *)

Module PointsFacts.
Import Float Points FloatFacts.
Local Open Scope Z_scope.

Lemma clog10_aux_spec rank fuel : forall k p,
  1 <= rank -> 0 <= k -> p = 10 ^ k -> (k = 0 \/ 10 ^ (k - 1) < rank) ->
  2 * rank <= p * 2 ^ Z.of_nat fuel ->
  let r := clog10_aux fuel k p rank in
  0 <= r /\ rank <= 10 ^ r /\ (r = 0 \/ 10 ^ (r - 1) < rank).
Proof.
  induction fuel as [| fuel IH]; intros k p Hr Hk Hp Hlow Hf; cbn [clog10_aux].
  - cbn in Hf. subst p. repeat split; [lia | lia | exact Hlow].
  - destruct (Z.leb_spec rank p) as [Hle | Hgt].
    + subst p. repeat split; [lia | lia | exact Hlow].
    + apply IH; [lia | lia | | |].
      * subst p. replace (k + 1) with (Z.succ k) by lia. rewrite Z.pow_succ_r by lia. lia.
      * right. replace (k + 1 - 1) with k by lia. subst p. exact Hgt.
      * rewrite Nat2Z.inj_succ, Z.pow_succ_r in Hf by lia.
        assert (0 < 2 ^ Z.of_nat fuel) by (apply Z.pow_pos_nonneg; lia). nia.
Qed.

Lemma ceil_log10_spec rank : 1 <= rank ->
  0 <= ceil_log10 rank /\ rank <= 10 ^ ceil_log10 rank /\
  (ceil_log10 rank = 0 \/ 10 ^ (ceil_log10 rank - 1) < rank).
Proof.
  intros Hr. unfold ceil_log10. apply clog10_aux_spec; [lia | lia | reflexivity | now left |].
  rewrite Nat2Z.inj_succ, Z.pow_succ_r by lia.
  rewrite Z2Nat.id by apply Z.log2_up_nonneg.
  destruct (Z.eq_dec rank 1) as [-> | NE]; [cbn; lia |].
  pose proof (Z.log2_up_spec rank ltac:(lia)). lia.
Qed.


Lemma tier_of_spec rank : 1 <= rank ->
  1 <= tier_of rank /\ rank <= 10 ^ tier_of rank /\
  (tier_of rank = 1 \/ 10 ^ (tier_of rank - 1) < rank).
Proof.
  intros Hr. destruct (ceil_log10_spec rank Hr) as (H0 & H1 & H2). unfold tier_of.
  destruct (Z.ltb_spec (ceil_log10 rank) 1) as [Hlt | Hge].
  - assert (E : ceil_log10 rank = 0) by lia. rewrite E in H1. cbn in *. lia.
  - repeat split; [lia | exact H1 |]. destruct H2 as [E | H2]; [lia | now right].
Qed.

Lemma tier_of_mono r1 r2 : 1 <= r1 -> r1 <= r2 -> tier_of r1 <= tier_of r2.
Proof.
  intros H1 H12.
  destruct (tier_of_spec r1 H1) as (A0 & A1 & A2).
  destruct (tier_of_spec r2 ltac:(lia)) as (B0 & B1 & B2).
  destruct A2 as [E | A2]; [lia |].
  destruct (Z.le_gt_cases (tier_of r1) (tier_of r2)) as [Hle | Hgt]; [exact Hle | exfalso].
  assert (10 ^ tier_of r2 <= 10 ^ (tier_of r1 - 1)) by (apply Z.pow_le_mono_r; lia).
  lia.
Qed.

Lemma points_unfold rank : 1 <= rank ->
  calculate_points_for_rank rank =
  PyFloat (round2 (if tier_of rank <? 2 then int_div 40000 rank
                   else fmul (int_div 4000 (2 ^ (tier_of rank - 1)))
                             (fadd (int_div (10 ^ (tier_of rank - 1)) rank) lit_0_9))).
Proof.
  intros Hr. unfold calculate_points_for_rank, tier_of.
  destruct (Z.eqb_spec rank 0); [lia |]. destruct (Z.leb_spec rank 0); [lia |]. reflexivity.
Qed.

Local Open Scope Q_scope.

Lemma inject_Z_nonneg z : (0 <= z)%Z -> 0 <= inject_Z z.
Proof. intros H. change 0 with (inject_Z 0). now rewrite <- Zle_Qle. Qed.

Lemma int_div_nonneg a b : (0 <= a)%Z -> (0 < b)%Z -> 0 <= int_div a b.
Proof.
  intros Ha Hb. apply RN_nonneg. apply Qle_shift_div_l; [now apply inject_Z_pos |].
  pose proof (inject_Z_nonneg a Ha). lra.
Qed.

Lemma int_div_anti a b c : (0 <= a)%Z -> (0 < b)%Z -> (b <= c)%Z ->
  int_div a c <= int_div a b.
Proof.
  intros Ha Hb Hbc. apply RN_mono.
  apply Qdiv_le_cross; [apply inject_Z_pos; lia | now apply inject_Z_pos |].
  rewrite <- !inject_Z_mult, <- Zle_Qle. nia.
Qed.

Lemma fmul_mono_r b x y : 0 <= b -> x <= y -> fmul b x <= fmul b y.
Proof.
  intros Hb Hxy. apply RN_mono. rewrite !(Qmult_comm b). now apply Qmult_le_compat_r.
Qed.

Lemma fmul_mono_l b c x : 0 <= x -> b <= c -> fmul b x <= fmul c x.
Proof. intros Hx Hbc. apply RN_mono. now apply Qmult_le_compat_r. Qed.

Lemma fadd_mono_l x y c : x <= y -> fadd x c <= fadd y c.
Proof. intros H. apply RN_mono. lra. Qed.

Lemma round2_nonneg x : 0 <= x -> 0 <= round2 x.
Proof. intros H. change 0 with (round2 0) at 1. now apply round2_mono. Qed.


Lemma base_of_nonneg k : 0 <= base_of k.
Proof.
  destruct (Z.le_gt_cases 1 k).
  - apply int_div_nonneg; [lia | apply Z.pow_pos_nonneg; lia].
  - unfold base_of. rewrite Z.pow_neg_r by lia. unfold int_div. apply RN_nonneg.
    apply Qle_bool_iff. reflexivity.
Qed.

Lemma base_of_anti k k' : (1 <= k)%Z -> (k <= k')%Z -> base_of k' <= base_of k.
Proof.
  intros Hk Hkk. apply int_div_anti; [lia | apply Z.pow_pos_nonneg; lia |].
  apply Z.pow_le_mono_r; lia.
Qed.

Lemma lit_0_9_nonneg : 0 <= lit_0_9.
Proof. apply RN_nonneg. discriminate. Qed.

Lemma mult_of_nonneg k r : (1 <= k)%Z -> (1 <= r)%Z -> 0 <= mult_of k r.
Proof.
  intros Hk Hr. apply RN_nonneg.
  pose proof (int_div_nonneg (10 ^ (k - 1)) r ltac:(apply Z.pow_nonneg; lia) ltac:(lia)).
  pose proof lit_0_9_nonneg. lra.
Qed.

Lemma mult_of_anti k r1 r2 : (1 <= k)%Z -> (1 <= r1)%Z -> (r1 <= r2)%Z ->
  mult_of k r2 <= mult_of k r1.
Proof.
  intros Hk H1 H12. apply fadd_mono_l. apply int_div_anti; [apply Z.pow_nonneg; lia | lia | lia].
Qed.


Lemma mult_of_le_max k r : (1 <= k)%Z -> (10 ^ (k - 1) < r)%Z -> mult_of k r <= mult_max.
Proof.
  intros Hk Hr. apply fadd_mono_l. apply RN_mono.
  assert (0 < 10 ^ (k - 1))%Z by (apply Z.pow_pos_nonneg; lia).
  apply Qle_shift_div_r; [apply inject_Z_pos; lia |].
  rewrite Qmult_1_l, <- Zle_Qle. lia.
Qed.

Lemma mult_of_ge_min k r : (1 <= k)%Z -> (1 <= r)%Z -> (r <= 10 ^ k)%Z -> mult_min <= mult_of k r.
Proof.
  intros Hk Hr1 Hr. apply fadd_mono_l. apply RN_mono.
  apply Qle_shift_div_l; [apply inject_Z_pos; lia |].
  assert (E : (10 ^ k = 10 * 10 ^ (k - 1))%Z).
  { replace k with (Z.succ (k - 1)) at 1 by lia. apply Z.pow_succ_r. lia. }
  assert (H : inject_Z r <= inject_Z (10 * 10 ^ (k - 1))) by (rewrite <- Zle_Qle; lia).
  rewrite inject_Z_mult in H. revert H.
  generalize (inject_Z r), (inject_Z (10 ^ (k - 1))). intros a b H.
  change (inject_Z 10) with 10 in H. lra.
Qed.


Lemma mult_max_nonneg : 0 <= mult_max.
Proof. apply RN_nonneg. pose proof (RN_nonneg 1 ltac:(discriminate)). pose proof lit_0_9_nonneg. lra. Qed.

Lemma mult_min_nonneg : 0 <= mult_min.
Proof. apply RN_nonneg. pose proof (RN_nonneg (1#10) ltac:(discriminate)). pose proof lit_0_9_nonneg. lra. Qed.

Lemma upper_anti k k' : (1 <= k)%Z -> (k <= k')%Z -> upper k' <= upper k.
Proof.
  intros Hk Hkk. apply round2_mono, fmul_mono_l; [apply mult_max_nonneg | now apply base_of_anti].
Qed.

Lemma lower_nonneg k : 0 <= lower k.
Proof.
  unfold lower. destruct (k <? 2)%Z; apply round2_nonneg.
  - apply int_div_nonneg; lia.
  - apply RN_nonneg, Qmult_le_0_compat; [apply base_of_nonneg | apply mult_min_nonneg].
Qed.

Lemma envelope_table :
  forallb (fun k => Qle_bool (upper (k + 1)) (lower k)) (map Z.of_nat (seq 1 29)) = true.
Proof. vm_compute. reflexivity. Qed.

Lemma upper_31 : upper 31 <= 0.
Proof. apply Qle_bool_iff. vm_compute. reflexivity. Qed.

Lemma upper_succ_le_lower k : (1 <= k)%Z -> upper (k + 1) <= lower k.
Proof.
  intros Hk. destruct (Z.le_gt_cases k 29) as [Hs | Hl].
  - apply Qle_bool_iff.
    apply (proj1 (forallb_forall _ _) envelope_table k).
    rewrite <- (Z2Nat.id k) by lia. apply in_map, in_seq. lia.
  - apply Qle_trans with (upper 31); [apply upper_anti; lia |].
    apply Qle_trans with 0; [apply upper_31 | apply lower_nonneg].
Qed.

Lemma upper_le_lower k1 k2 : (1 <= k1)%Z -> (k1 < k2)%Z -> upper k2 <= lower k1.
Proof.
  intros H1 H12. apply Qle_trans with (upper (k1 + 1)).
  - apply upper_anti; lia.
  - now apply upper_succ_le_lower.
Qed.


Lemma points_value rank : (1 <= rank)%Z ->
  value (calculate_points_for_rank rank) = round2 (raw_points rank).
Proof. intros H. now rewrite points_unfold. Qed.

Lemma points_le_upper rank : (1 <= rank)%Z -> (2 <= tier_of rank)%Z ->
  round2 (raw_points rank) <= upper (tier_of rank).
Proof.
  intros Hr Ht. unfold raw_points, upper.
  destruct (Z.ltb_spec (tier_of rank) 2); [lia |].
  apply round2_mono, fmul_mono_r; [apply base_of_nonneg |].
  destruct (tier_of_spec rank Hr) as (_ & _ & [E | Hlow]); [lia |].
  apply mult_of_le_max; [lia | exact Hlow].
Qed.

Lemma lower_le_points rank : (1 <= rank)%Z ->
  lower (tier_of rank) <= round2 (raw_points rank).
Proof.
  intros Hr. unfold raw_points, lower.
  destruct (tier_of_spec rank Hr) as (Ht1 & Hup & _).
  destruct (Z.ltb_spec (tier_of rank) 2) as [Hlt | Hge].
  - apply round2_mono. apply int_div_anti; [lia | lia |].
    assert (E : tier_of rank = 1%Z) by lia. rewrite E in Hup. exact Hup.
  - apply round2_mono, fmul_mono_r; [apply base_of_nonneg |].
    apply mult_of_ge_min; [lia | lia | exact Hup].
Qed.

Lemma points_same_tier r1 r2 : (1 <= r1)%Z -> (r1 <= r2)%Z -> tier_of r1 = tier_of r2 ->
  round2 (raw_points r2) <= round2 (raw_points r1).
Proof.
  intros H1 H12 E. unfold raw_points. rewrite <- E.
  destruct (tier_of_spec r1 H1) as (Ht1 & _ & _).
  apply round2_mono. destruct (tier_of r1 <? 2)%Z.
  - apply int_div_anti; lia.
  - apply fmul_mono_r; [apply base_of_nonneg | apply mult_of_anti; lia].
Qed.

Lemma points_antitone r1 r2 : (1 <= r1)%Z -> (r1 <= r2)%Z ->
  value (calculate_points_for_rank r2) <= value (calculate_points_for_rank r1).
Proof.
  intros H1 H12. rewrite !points_value by lia.
  pose proof (tier_of_mono r1 r2 H1 H12) as Ht.
  destruct (tier_of_spec r1 H1) as (Ht1 & _ & _).
  destruct (Z.eq_dec (tier_of r1) (tier_of r2)) as [E | NE].
  - now apply points_same_tier.
  - apply Qle_trans with (upper (tier_of r2)); [apply points_le_upper; lia |].
    apply Qle_trans with (lower (tier_of r1)); [apply upper_le_lower; lia |].
    now apply lower_le_points.
Qed.

(** The guard of line 109: ranks that are zero or negative score the integer 0. *)
Lemma points_nonpositive rank : (rank <= 0)%Z -> calculate_points_for_rank rank = PyInt 0.
Proof.
  intros H. unfold calculate_points_for_rank.
  destruct (Z.eqb_spec rank 0) as [E | NE]; [reflexivity |].
  destruct (Z.leb_spec rank 0); [reflexivity | lia].
Qed.

(** *** With the logarithm of the platform *)

Lemma Qceiling_le_Z x z : x <= inject_Z z -> (Qceiling x <= z)%Z.
Proof. intros H. rewrite <- (Qceiling_Z z). now apply Qceiling_resp_le. Qed.

Lemma Qceiling_ge_Z x z : inject_Z z <= x -> (z <= Qceiling x)%Z.
Proof. intros H. rewrite Zle_Qle. eapply Qle_trans; [exact H | apply Qle_ceiling]. Qed.

Lemma Qceiling_gt_Z x z : inject_Z z < x -> (z < Qceiling x)%Z.
Proof. intros H. rewrite Zlt_Qlt. eapply Qlt_le_trans; [exact H | apply Qle_ceiling]. Qed.

Lemma ceil_log10_le r k : (1 <= r)%Z -> (0 <= k)%Z -> (r <= 10 ^ k)%Z -> (ceil_log10 r <= k)%Z.
Proof.
  intros Hr Hk Hle. destruct (ceil_log10_spec r Hr) as (H0 & _ & [E | Hlow]); [lia |].
  destruct (Z.le_gt_cases (ceil_log10 r) k) as [H | H]; [exact H | exfalso].
  assert (10 ^ k <= 10 ^ (ceil_log10 r - 1))%Z by (apply Z.pow_le_mono_r; lia). lia.
Qed.

Lemma ceil_log10_gt r k : (1 <= r)%Z -> (0 <= k)%Z -> (10 ^ k < r)%Z -> (k < ceil_log10 r)%Z.
Proof.
  intros Hr Hk Hlt. destruct (ceil_log10_spec r Hr) as (H0 & Hup & _).
  destruct (Z.lt_ge_cases k (ceil_log10 r)) as [H | H]; [exact H | exfalso].
  assert (10 ^ ceil_log10 r <= 10 ^ k)%Z by (apply Z.pow_le_mono_r; lia). lia.
Qed.

Lemma ceil_log10_mono r1 r2 : (1 <= r1)%Z -> (r1 <= r2)%Z -> (ceil_log10 r1 <= ceil_log10 r2)%Z.
Proof.
  intros H1 H12. destruct (ceil_log10_spec r2 ltac:(lia)) as (H0 & Hup & _).
  apply ceil_log10_le; lia.
Qed.

(** Within a tier the points go down as the rank goes up, whatever the
    tier is. *)
Lemma raw_at_anti k r1 r2 : (1 <= k)%Z -> (1 <= r1)%Z -> (r1 <= r2)%Z ->
  round2 (raw_at k r2) <= round2 (raw_at k r1).
Proof.
  intros Hk H1 H12. unfold raw_at. apply round2_mono. destruct (k <? 2)%Z.
  - apply int_div_anti; lia.
  - apply fmul_mono_r; [apply base_of_nonneg | apply mult_of_anti; lia].
Qed.

Lemma raw_at_nonneg k r : (1 <= k)%Z -> (1 <= r)%Z -> 0 <= round2 (raw_at k r).
Proof.
  intros Hk Hr. apply round2_nonneg. unfold raw_at. destruct (k <? 2)%Z.
  - apply int_div_nonneg; lia.
  - apply RN_nonneg, Qmult_le_0_compat; [apply base_of_nonneg | now apply mult_of_nonneg].
Qed.

Lemma raw_at_le_upper k r : (2 <= k)%Z -> (10 ^ (k - 1) < r)%Z ->
  round2 (raw_at k r) <= upper k.
Proof.
  intros Hk Hlow. unfold raw_at, upper. destruct (Z.ltb_spec k 2); [lia |].
  apply round2_mono, fmul_mono_r; [apply base_of_nonneg |].
  apply mult_of_le_max; [lia | exact Hlow].
Qed.

Lemma mult_of_ge_slack k r : (1 <= k)%Z -> (1 <= r)%Z ->
  (2 ^ 40 * (r - 10 ^ k) < 10 ^ k)%Z -> mult_slack <= mult_of k r.
Proof.
  intros Hk Hr Hs. apply fadd_mono_l. apply RN_mono.
  assert (E : (10 ^ k = 10 * 10 ^ (k - 1))%Z).
  { replace k with (Z.succ (k - 1)) at 1 by lia. apply Z.pow_succ_r. lia. }
  assert (0 < 10 ^ (k - 1))%Z by (apply Z.pow_pos_nonneg; lia).
  apply Qdiv_le_cross; [apply inject_Z_pos; lia | apply inject_Z_pos; lia |].
  rewrite <- !inject_Z_mult, <- Zle_Qle. rewrite E in Hs.
  change (2 ^ 40)%Z with 1099511627776%Z in *. lia.
Qed.

Lemma lower_slack_le_raw k r : (1 <= k)%Z -> (1 <= r)%Z ->
  (2 ^ 40 * (r - 10 ^ k) < 10 ^ k)%Z -> lower_slack k <= round2 (raw_at k r).
Proof.
  intros Hk Hr Hs. unfold raw_at, lower_slack.
  destruct (Z.ltb_spec k 2) as [Hlt | Hge].
  - apply round2_mono. apply int_div_anti; [lia | lia |].
    assert (E : k = 1%Z) by lia. subst k. change (10 ^ 1)%Z with 10%Z in Hs. lia.
  - apply round2_mono, fmul_mono_r; [apply base_of_nonneg |].
    now apply mult_of_ge_slack.
Qed.

Lemma lower_slack_nonneg k : 0 <= lower_slack k.
Proof.
  unfold lower_slack. destruct (k <? 2)%Z; apply round2_nonneg.
  - apply int_div_nonneg; lia.
  - apply RN_nonneg, Qmult_le_0_compat; [apply base_of_nonneg |].
    apply RN_nonneg.
    pose proof (int_div_nonneg (2 ^ 40) (10 * (2 ^ 40 + 1)) ltac:(lia) ltac:(lia)).
    pose proof lit_0_9_nonneg. lra.
Qed.

Lemma envelope_slack_table :
  forallb (fun k => Qle_bool (upper (k + 1)) (lower_slack k)) (map Z.of_nat (seq 1 29)) = true.
Proof. vm_compute. reflexivity. Qed.

Lemma upper_succ_le_lower_slack k : (1 <= k)%Z -> upper (k + 1) <= lower_slack k.
Proof.
  intros Hk. destruct (Z.le_gt_cases k 29) as [Hs | Hl].
  - apply Qle_bool_iff.
    apply (proj1 (forallb_forall _ _) envelope_slack_table k).
    rewrite <- (Z2Nat.id k) by lia. apply in_map, in_seq. lia.
  - apply Qle_trans with (upper 31); [apply upper_anti; lia |].
    apply Qle_trans with 0; [apply upper_31 | apply lower_slack_nonneg].
Qed.

Lemma upper_le_lower_slack k1 k2 : (1 <= k1)%Z -> (k1 < k2)%Z -> upper k2 <= lower_slack k1.
Proof.
  intros H1 H12. apply Qle_trans with (upper (k1 + 1)).
  - apply upper_anti; lia.
  - now apply upper_succ_le_lower_slack.
Qed.

Lemma upper_23 : upper 23 <= 0.
Proof. apply Qle_bool_iff. vm_compute. reflexivity. Qed.

Lemma over_26 : round2 (fmul (base_of 26) mult_over) <= 0.
Proof. apply Qle_bool_iff. vm_compute. reflexivity. Qed.

Lemma mult_over_nonneg : 0 <= mult_over.
Proof.
  apply RN_nonneg. pose proof (RN_nonneg 10 ltac:(discriminate)).
  pose proof lit_0_9_nonneg. lra.
Qed.

(** A tier that is one above the exact one on a rank from [10^25] on, or any
    tier from 23 up to the exact one, gives no points at all. *)
Lemma raw_at_far k t r : (25 <= k)%Z -> (10 ^ (k - 1) < r)%Z ->
  (23 <= t)%Z -> (t <= k + 1)%Z -> round2 (raw_at t r) <= 0.
Proof.
  intros Hk Hlow Ht Htk.
  assert (Hpos : (0 < 10 ^ (k - 1))%Z) by (apply Z.pow_pos_nonneg; lia).
  destruct (Z.le_gt_cases t k) as [Hle | Hgt].
  - apply Qle_trans with (upper t).
    + apply raw_at_le_upper; [lia |].
      assert (10 ^ (t - 1) <= 10 ^ (k - 1))%Z by (apply Z.pow_le_mono_r; lia). lia.
    + apply Qle_trans with (upper 23); [apply upper_anti; lia | apply upper_23].
  - assert (E : t = (k + 1)%Z) by lia. subst t.
    apply Qle_trans with (round2 (fmul (base_of 26) mult_over)); [| apply over_26].
    unfold raw_at. destruct (Z.ltb_spec (k + 1) 2); [lia |].
    apply round2_mono.
    apply Qle_trans with (fmul (base_of (k + 1)) mult_over).
    + apply fmul_mono_r; [apply base_of_nonneg |].
      unfold mult_of, mult_over. apply fadd_mono_l. apply RN_mono.
      replace (k + 1 - 1)%Z with k by lia.
      assert (E : (10 ^ k = 10 * 10 ^ (k - 1))%Z).
      { replace k with (Z.succ (k - 1)) at 1 by lia. apply Z.pow_succ_r. lia. }
      apply Qle_shift_div_r; [apply inject_Z_pos; lia |].
      change 10 with (inject_Z 10). rewrite <- inject_Z_mult, <- Zle_Qle. lia.
    + apply fmul_mono_l; [apply mult_over_nonneg | apply base_of_anti; lia].
Qed.

Section Platform.
Variable log10 : Z -> Q.
Hypothesis accurate : accurate_log10 log10.

Lemma tier_with_ge1 r : (1 <= tier_with log10 r)%Z.
Proof. unfold tier_with. destruct (Z.ltb_spec (Qceiling (log10 r)) 1); lia. Qed.

Lemma tier_with_ceiling r : (Qceiling (log10 r) <= tier_with log10 r)%Z.
Proof. unfold tier_with. destruct (Z.ltb_spec (Qceiling (log10 r)) 1); lia. Qed.

Lemma tier_with_le r k : (1 <= k)%Z -> log10 r <= inject_Z k -> (tier_with log10 r <= k)%Z.
Proof.
  intros Hk H. apply Qceiling_le_Z in H. unfold tier_with.
  destruct (Z.ltb_spec (Qceiling (log10 r)) 1); lia.
Qed.

Lemma tier_with_mono r1 r2 : (1 <= r1)%Z -> (r1 <= r2)%Z -> (r2 <= 10 ^ 24)%Z ->
  (tier_with log10 r1 <= tier_with log10 r2)%Z.
Proof.
  intros H1 H12 H2.
  pose proof (Qceiling_resp_le _ _ (log10_mono log10 accurate r1 r2 H1 H12 H2)) as H.
  unfold tier_with.
  destruct (Z.ltb_spec (Qceiling (log10 r1)) 1), (Z.ltb_spec (Qceiling (log10 r2)) 1); lia.
Qed.

(** The tier is never above the exact one on the ranks up to [10^24]. *)
Lemma tier_with_not_over r : (1 <= r)%Z -> (r <= 10 ^ 24)%Z ->
  (2 <= tier_with log10 r)%Z -> (10 ^ (tier_with log10 r - 1) < r)%Z.
Proof.
  intros Hr Hb Ht.
  destruct (Z.lt_ge_cases (10 ^ (tier_with log10 r - 1)) r) as [H | H]; [exact H | exfalso].
  pose proof (log10_upper log10 accurate (tier_with log10 r - 1) r ltac:(lia) Hr H Hb) as Hu.
  apply tier_with_le in Hu; lia.
Qed.

(** It is below the exact one only next to a power of ten. *)
Lemma tier_with_slack r : (1 <= r)%Z -> (r <= 10 ^ 24)%Z ->
  (2 ^ 40 * (r - 10 ^ tier_with log10 r) < 10 ^ tier_with log10 r)%Z.
Proof.
  intros Hr Hb. pose proof (tier_with_ge1 r) as Ht.
  set (t := tier_with log10 r) in *.
  assert (Hpos : (0 < 10 ^ t)%Z) by (apply Z.pow_pos_nonneg; lia).
  destruct (Z.lt_ge_cases (2 ^ 40 * (r - 10 ^ t)) (10 ^ t)) as [H | H]; [exact H | exfalso].
  assert (Hgt : (10 ^ t < r)%Z) by lia.
  pose proof (log10_above log10 accurate t r ltac:(lia) Hgt Hb (or_intror H)) as Ha.
  apply Qceiling_gt_Z in Ha. pose proof (tier_with_ceiling r). lia.
Qed.

(** On the ranks up to [10^15] it is the exact one. *)
Lemma tier_with_exact r : (1 <= r)%Z -> (r <= 10 ^ 15)%Z -> tier_with log10 r = tier_of r.
Proof.
  intros Hr Hb. destruct (tier_of_spec r Hr) as (H1 & Hup & Hlow).
  assert (Hb24 : (r <= 10 ^ 24)%Z) by lia.
  assert (Hle : (tier_with log10 r <= tier_of r)%Z).
  { apply tier_with_le; [exact H1 |].
    apply (log10_upper log10 accurate); [lia | exact Hr | exact Hup | exact Hb24]. }
  pose proof (tier_with_ge1 r) as Hge.
  destruct Hlow as [E | Hlow]; [lia |].
  pose proof (log10_above log10 accurate (tier_of r - 1) r ltac:(lia) Hlow Hb24
                (or_introl Hb)) as Ha.
  apply Qceiling_gt_Z in Ha. pose proof (tier_with_ceiling r). lia.
Qed.

Lemma points_with_unfold r : (1 <= r)%Z ->
  calculate_points_with log10 r = PyFloat (round2 (raw_at (tier_with log10 r) r)).
Proof.
  intros Hr. unfold calculate_points_with, tier_with, raw_at, base_of, mult_of.
  destruct (Z.eqb_spec r 0); [lia |]. destruct (Z.leb_spec r 0); [lia |]. reflexivity.
Qed.

(** For the ranks up to [10^15] the function is [calculate_points_for_rank],
    whose tier is the exact ceiling. *)
Lemma points_with_exact r : (r <= 10 ^ 15)%Z ->
  calculate_points_with log10 r = calculate_points_for_rank r.
Proof.
  intros Hb. destruct (Z.le_gt_cases r 0) as [Hn | Hp].
  - rewrite points_nonpositive by exact Hn. unfold calculate_points_with.
    destruct (Z.eqb_spec r 0) as [E | NE]; [reflexivity |].
    destruct (Z.leb_spec r 0); [reflexivity | lia].
  - rewrite points_with_unfold, points_unfold by lia.
    rewrite tier_with_exact by lia. reflexivity.
Qed.

(** Above [10^24] the points are zero. *)
Lemma points_with_far r : (10 ^ 24 < r)%Z -> round2 (raw_at (tier_with log10 r) r) <= 0.
Proof.
  intros Hr. assert (H1 : (1 <= r)%Z) by lia.
  destruct (ceil_log10_spec r H1) as (_ & Hup & Hlow).
  pose proof (ceil_log10_gt r 24 H1 ltac:(lia) Hr) as Hk.
  destruct Hlow as [E | Hlow]; [lia |].
  set (k := ceil_log10 r) in *.
  destruct (log10_rough log10 accurate (k - 1) r ltac:(lia) H1) as [Hl _].
  destruct (log10_rough log10 accurate k r ltac:(lia) H1) as [_ Hu].
  specialize (Hl ltac:(lia)). specialize (Hu Hup).
  apply Qceiling_ge_Z in Hl. apply tier_with_le in Hu; [| lia].
  pose proof (tier_with_ceiling r).
  apply (raw_at_far k); lia.
Qed.

Lemma points_with_antitone r1 r2 : (1 <= r1)%Z -> (r1 <= r2)%Z ->
  value (calculate_points_with log10 r2) <= value (calculate_points_with log10 r1).
Proof.
  intros H1 H12. rewrite !points_with_unfold by lia. cbn [value].
  pose proof (tier_with_ge1 r1) as Ht1. pose proof (tier_with_ge1 r2) as Ht2.
  destruct (Z.le_gt_cases r2 (10 ^ 24)) as [Hb | Hfar].
  - pose proof (tier_with_mono r1 r2 H1 H12 Hb) as Ht.
    destruct (Z.eq_dec (tier_with log10 r1) (tier_with log10 r2)) as [E | NE].
    + rewrite <- E. now apply raw_at_anti.
    + apply Qle_trans with (upper (tier_with log10 r2)).
      { apply raw_at_le_upper; [lia |]. apply tier_with_not_over; lia. }
      apply Qle_trans with (lower_slack (tier_with log10 r1)).
      { apply upper_le_lower_slack; lia. }
      apply lower_slack_le_raw; [lia | lia |]. apply tier_with_slack; lia.
  - apply Qle_trans with 0; [now apply points_with_far | now apply raw_at_nonneg].
Qed.

Lemma points_with_nonpositive r : (r <= 0)%Z -> calculate_points_with log10 r = PyInt 0.
Proof.
  intros H. unfold calculate_points_with.
  destruct (Z.eqb_spec r 0) as [E | NE]; [reflexivity |].
  destruct (Z.leb_spec r 0); [reflexivity | lia].
Qed.

End Platform.

(** [log10_sample] is such a logarithm. *)
Lemma log10_sample_accurate : accurate_log10 log10_sample.
Proof.
  assert (P15 : (10 ^ 15 = 1000000000000000)%Z) by reflexivity.
  assert (Hpow : forall k, (16 <= k)%Z -> (10 ^ 16 <= 10 ^ k)%Z)
    by (intros k Hk; apply Z.pow_le_mono_r; lia).
  assert (P16 : (10 ^ 16 = 10000000000000000)%Z) by reflexivity.
  assert (Hlow : forall k, (0 <= k)%Z -> (k <= 15)%Z -> (10 ^ k <= 10 ^ 15)%Z)
    by (intros k H0 Hk; apply Z.pow_le_mono_r; lia).
  assert (Hin : forall r, (10 ^ 15 <? r)%Z && (r <=? 10 ^ 15 + 2)%Z = true ->
                          (10 ^ 15 < r)%Z /\ (r <= 10 ^ 15 + 2)%Z).
  { intros r H. apply andb_true_iff in H as [A B].
    apply Z.ltb_lt in A. apply Z.leb_le in B. now split. }
  assert (Hout : forall r, (10 ^ 15 <? r)%Z && (r <=? 10 ^ 15 + 2)%Z = false ->
                           (r <= 10 ^ 15)%Z \/ (10 ^ 15 + 2 < r)%Z).
  { intros r H. apply andb_false_iff in H as [A | B].
    - apply Z.ltb_ge in A. now left.
    - apply Z.leb_gt in B. now right. }
  split.
  - intros r1 r2 H1 H12 _. unfold log10_sample.
    destruct (_ && _) eqn:E1; destruct ((10 ^ 15 <? r2)%Z && _) eqn:E2.
    + apply Qle_refl.
    + apply Hin in E1. apply Hout in E2. destruct E2 as [E2 | E2]; [lia |].
      change 15 with (inject_Z 15). rewrite <- Zle_Qle.
      pose proof (ceil_log10_gt r2 15 ltac:(lia) ltac:(lia) ltac:(lia)). lia.
    + apply Hin in E2. apply Hout in E1. destruct E1 as [E1 | E1]; [| lia].
      change 15 with (inject_Z 15). rewrite <- Zle_Qle.
      apply ceil_log10_le; lia.
    + rewrite <- Zle_Qle. now apply ceil_log10_mono.
  - intros k r Hk Hr Hle _. unfold log10_sample. destruct (_ && _) eqn:E.
    + apply Hin in E. change 15 with (inject_Z 15). rewrite <- Zle_Qle.
      destruct (Z.le_gt_cases 15 k) as [H | H]; [exact H | exfalso].
      pose proof (Hlow k Hk ltac:(lia)). lia.
    + rewrite <- Zle_Qle. now apply ceil_log10_le.
  - intros k r Hk Hgt _ Hs. unfold log10_sample.
    assert (Hr : (1 <= r)%Z).
    { assert (0 < 10 ^ k)%Z by (apply Z.pow_pos_nonneg; lia). lia. }
    destruct (_ && _) eqn:E.
    + apply Hin in E. change 15 with (inject_Z 15). rewrite <- Zlt_Qlt.
      destruct (Z.lt_ge_cases k 15) as [H | H]; [exact H | exfalso].
      destruct (Z.eq_dec k 15%Z) as [-> | NE].
      * destruct Hs as [Hs | Hs]; lia.
      * pose proof (Hpow k ltac:(lia)). lia.
    + rewrite <- Zlt_Qlt. now apply ceil_log10_gt.
  - intros k r Hk Hr. unfold log10_sample. destruct (_ && _) eqn:E.
    + apply Hin in E. change 15 with (inject_Z 15). rewrite <- !Zle_Qle. split.
      * intros Hle. destruct (Z.le_gt_cases k 15) as [H | H]; [lia | exfalso].
        pose proof (Hpow k ltac:(lia)). lia.
      * intros Hle. destruct (Z.le_gt_cases 15 k) as [H | H]; [lia | exfalso].
        pose proof (Hlow k Hk ltac:(lia)). lia.
    + rewrite <- !Zle_Qle. split.
      * intros Hle. destruct (Z.eq_dec k 0%Z) as [-> | NE].
        { destruct (ceil_log10_spec r Hr) as (H0 & _). lia. }
        assert (10 ^ (k - 1) < r)%Z.
        { assert (10 ^ (k - 1) < 10 ^ k)%Z by (apply Z.pow_lt_mono_r; lia). lia. }
        pose proof (ceil_log10_gt r (k - 1) Hr ltac:(lia) ltac:(lia)). lia.
      * intros Hle. pose proof (ceil_log10_le r k Hr Hk Hle). lia.
Qed.

(** With it the function is on [10^15 + 1] in tier 15 still, and yields
    [0.24], where the exact ceiling would put the rank in tier 16, with
    [0.23]. *)
Lemma points_with_sample :
  calculate_points_with log10_sample (10 ^ 15 + 1) = PyFloat (of_cents 24) /\
  calculate_points_for_rank (10 ^ 15 + 1) = PyFloat (of_cents 23).
Proof. split; vm_compute; reflexivity. Qed.

(** C9. The points of [calculate_points_for_rank] never increase when the
    rank grows, for all ranks from 1 on, within a tier and from one tier to
    the next, and the function returns 0 for rank 0 and for every negative
    rank.  The function is [calculate_points_with], lines 108-119 with the
    [math.log10] of the platform, of which [accurate_log10] is asked. *)
Theorem points_for_rank_monotone (log10 : Z -> Q) (r1 r2 : Z) :
  accurate_log10 log10 ->
  ((1 <= r1)%Z -> (r1 <= r2)%Z ->
   value (calculate_points_with log10 r2) <= value (calculate_points_with log10 r1)) /\
  ((r1 <= 0)%Z -> calculate_points_with log10 r1 = PyInt 0).
Proof.
  intros Hacc. split.
  - now apply points_with_antitone.
  - apply points_with_nonpositive.
Qed.

Lemma points_for_rank_monotone_witness :
  value (calculate_points_with log10_sample (10 ^ 15 + 1))
  <= value (calculate_points_with log10_sample (10 ^ 15)) /\
  calculate_points_with log10_sample (-3) = PyInt 0.
Proof.
  split.
  - apply (proj1 (points_for_rank_monotone log10_sample (10 ^ 15) (10 ^ 15 + 1)
                    log10_sample_accurate)); lia.
  - apply (proj2 (points_for_rank_monotone log10_sample (-3) 0 log10_sample_accurate)); lia.
Defined.

(** C10. The literal table: 40000.00 for rank 1, 4444.44 for rank 9, 4000.00
    for rank 10, 3618.18 for rank 11, 2000.00 for rank 100 and 1000.00 for
    rank 1000, each being the float that the two-decimal literal denotes; the
    tier is [ceil(log10(rank))] clamped to 1 from below, so that ranks 1, 9
    and 10 are in tier 1, ranks 11 and 100 in tier 2 and rank 1000 in tier 3. *)
Theorem points_for_rank_literals :
  calculate_points_for_rank 1 = PyFloat (of_cents 4000000) /\
  calculate_points_for_rank 9 = PyFloat (of_cents 444444) /\
  calculate_points_for_rank 10 = PyFloat (of_cents 400000) /\
  calculate_points_for_rank 11 = PyFloat (of_cents 361818) /\
  calculate_points_for_rank 100 = PyFloat (of_cents 200000) /\
  calculate_points_for_rank 1000 = PyFloat (of_cents 100000) /\
  map tier_of [1; 9; 10; 11; 100; 1000]%Z = [1; 1; 1; 2; 2; 3]%Z /\
  (of_cents 4000000 == 40000 /\ of_cents 400000 == 4000 /\
   of_cents 200000 == 2000 /\ of_cents 100000 == 1000).
Proof. repeat split; vm_compute; reflexivity. Qed.

End PointsFacts.

(** ** The zone resolver *)

Module ZoneFacts.
Import Zone.
Local Open Scope string_scope.

Lemma is_named_Some n f p s : is_named (ZNode (Some n) f p) s = String.eqb n s.
Proof. reflexivity. Qed.

Lemma eqb_World_neq n : n <> "World" -> String.eqb n "World" = false.
Proof. intros H. now apply String.eqb_neq. Qed.

(** The zone picked is the one two levels below ["World"]: with the depth
    convention World, continent, country, a leaf below a country resolves
    to that country. *)
Lemma resolve_below_continent (leaf_n leaf_f country_n country_f cont_n cont_f world_f : string) :
  country_n <> "World" -> cont_n <> "World" ->
  get_actual_country_info
    (ZNode (Some leaf_n) (Some leaf_f)
       (Some (ZNode (Some country_n) (Some country_f)
          (Some (ZNode (Some cont_n) (Some cont_f)
             (Some (ZNode (Some "World") (Some world_f) None)))))))
  = (country_n, country_f).
Proof.
  intros Hc Hk. unfold get_actual_country_info. cbn.
  unfold country_level; cbn. unfold is_named; cbn.
  rewrite (eqb_World_neq _ Hc), (eqb_World_neq _ Hk). reflexivity.
Qed.

(** C1, as the specification states it, fails on the chain
    Paris, Ile-de-France, France, World: the region is returned. *)
Lemma resolve_country_chain_counterexample :
  let world := ZNode (Some "World") (Some "WOR") None in
  let country := ZNode (Some "France") (Some "FRA") (Some world) in
  let region := ZNode (Some "Ile-de-France") (Some "IDF") (Some country) in
  let city := ZNode (Some "Paris") (Some "PAR") (Some region) in
  get_actual_country_info city = ("Ile-de-France", "IDF") /\
  get_actual_country_info city <> ("France", "FRA").
Proof. cbv zeta. split; [reflexivity | discriminate]. Qed.

(** C1 (amended). For a leaf zone whose parent chain is City, Region,
    Country, World, [get_actual_country_info] returns the name and flag of
    Region, the zone whose grandparent is ["World"]; and for a leaf zone
    with no parent whose name is not ["World"], it returns that zone's own
    name and flag. *)
Theorem resolve_country_chain
  (city_n city_f region_n region_f country_n country_f world_f own_n own_f : string) :
  (region_n <> "World" -> country_n <> "World" ->
   get_actual_country_info
     (ZNode (Some city_n) (Some city_f)
        (Some (ZNode (Some region_n) (Some region_f)
           (Some (ZNode (Some country_n) (Some country_f)
              (Some (ZNode (Some "World") (Some world_f) None)))))))
   = (region_n, region_f)) /\
  (own_n <> "World" ->
   get_actual_country_info (ZNode (Some own_n) (Some own_f) None) = (own_n, own_f)).
Proof.
  split.
  - intros Hr Hc. unfold get_actual_country_info. cbn.
    unfold country_level; cbn. unfold is_named; cbn.
    rewrite (eqb_World_neq _ Hr), (eqb_World_neq _ Hc). reflexivity.
  - intros Ho. unfold get_actual_country_info. cbn.
    unfold is_named; cbn. rewrite (eqb_World_neq _ Ho). reflexivity.
Qed.

Lemma resolve_country_chain_witness :
  get_actual_country_info
    (ZNode (Some "Paris") (Some "PAR")
       (Some (ZNode (Some "Ile-de-France") (Some "IDF")
          (Some (ZNode (Some "France") (Some "FRA")
             (Some (ZNode (Some "World") (Some "WOR") None)))))))
  = ("Ile-de-France", "IDF") /\
  get_actual_country_info (ZNode (Some "Japan") (Some "JPN") None) = ("Japan", "JPN").
Proof.
  split.
  - apply (proj1 (resolve_country_chain "Paris" "PAR" "Ile-de-France" "IDF" "France" "FRA"
                    "WOR" "Japan" "JPN")); discriminate.
  - apply (proj2 (resolve_country_chain "Paris" "PAR" "Ile-de-France" "IDF" "France" "FRA"
                    "WOR" "Japan" "JPN")); discriminate.
Defined.

End ZoneFacts.

(** ** URLs of the pages *)

Module UrlFacts.
Import Url.
Local Open Scope string_scope.

(** Templates the code handles as intended. *)
Example paginated_url_plain :
  let t := "https://trackmania.io/api/leaderboard/map/ABC" in
  base_api_url_of t = t /\
  paginated_api_url_of (base_api_url_of t) 200 = t ++ "?offset=200&length=100" /\
  well_formed_query (paginated_api_url_of (base_api_url_of t) 200) = true.
Proof. cbv zeta. repeat split; reflexivity. Qed.

Example paginated_url_other_param_first :
  let t := "https://trackmania.io/api/leaderboard/map/ABC?onlyWorld=true&offset=50&length=100" in
  paginated_api_url_of (base_api_url_of t) 200
  = "https://trackmania.io/api/leaderboard/map/ABC?onlyWorld=true&offset=200&length=100" /\
  well_formed_query (paginated_api_url_of (base_api_url_of t) 200) = true.
Proof. cbv zeta. repeat split; reflexivity. Qed.

(** C4 (the code at the failing input). When [offset] is the first parameter
    of the template and another parameter follows [length], the [?] goes
    away with [offset]: the remaining parameter is glued to the path by [&]
    and the [?] that is added comes after it. *)
Theorem paginated_url_offset_first :
  let t := "https://trackmania.io/api/leaderboard/map/ABC?offset=0&length=100&onlyWorld=true" in
  base_api_url_of t = "https://trackmania.io/api/leaderboard/map/ABC&onlyWorld=true" /\
  paginated_api_url_of (base_api_url_of t) 0
  = "https://trackmania.io/api/leaderboard/map/ABC&onlyWorld=true?offset=0&length=100" /\
  well_formed_query (paginated_api_url_of (base_api_url_of t) 0) = false.
Proof. cbv zeta. repeat split; reflexivity. Qed.

End UrlFacts.

(** ** The page loop *)

Module FetchFacts.
Import Data Url Fetch.
Local Open Scope Z_scope.

Section Loop.
Variable api : api_server.
Variables base_api_url map_uid base_api_url_template display_name : string.
Variable order : Z.

#[local] Abbreviation loop fuel now st :=
  (fetch_loop fuel api base_api_url map_uid base_api_url_template display_name order now st).
#[local] Abbreviation count := (reported_count api base_api_url).
#[local] Abbreviation db_effect now d :=
  (fetch_db_effect api base_api_url map_uid base_api_url_template display_name order now d).

(** The page of index [i] ends the loop. *)
Definition stops_at (i : nat) : Prop :=
  match page_at api base_api_url i with
  | None => True
  | Some page => stop_condition (length page) (RECORDS_PER_PAGE * Z.of_nat (S i)) count
  end.

(** What holds of the loop variables when page [k] is about to be asked for. *)
Definition at_page (k : nat) (st : loop_state) : Prop :=
  current_offset st = RECORDS_PER_PAGE * Z.of_nat k /\
  (first_fetch_done st = true -> map_total_playercount_api st = count) /\
  (first_fetch_done st = false -> k = O /\ map_total_playercount_api st = 0).

(** The state in which the loop is left after [m] more pages than page [k]. *)
Definition left_after (k m : nat) (now : string) (st st' : loop_state) : Prop :=
  (forall i, (k <= i < k + m)%nat -> goes_on api base_api_url i) /\
  stops_at (k + m) /\
  requested st' = requested st ++ map (page_url base_api_url) (seq k (S m)) /\
  all_tops_for_map st'
  = all_tops_for_map st ++ concat (map (page_rows api base_api_url) (seq k (S m))) /\
  map_total_playercount_api st' = count /\
  ls_db st' = (if first_fetch_done st then ls_db st else db_effect now (ls_db st)).

Lemma at_page_initial d reqs : at_page 0 (initial_loop_state d reqs).
Proof. repeat split; cbn; try discriminate; reflexivity. Qed.

Lemma page_url_offset k st :
  current_offset st = RECORDS_PER_PAGE * Z.of_nat k ->
  paginated_api_url_of base_api_url (current_offset st) = page_url base_api_url k.
Proof. intros ->. reflexivity. Qed.

(** The loop is left on page [k]: no rows to go on with, or a test fired. *)
Lemma left_now k now st st' :
  stops_at k ->
  requested st' = requested st ++ [page_url base_api_url k] ->
  all_tops_for_map st' = all_tops_for_map st ++ page_rows api base_api_url k ->
  map_total_playercount_api st' = count ->
  ls_db st' = (if first_fetch_done st then ls_db st else db_effect now (ls_db st)) ->
  left_after k 0 now st st'.
Proof.
  intros Hstop Hreq Htops Hc Hdb. unfold left_after. rewrite Nat.add_0_r.
  cbn [seq map concat]. rewrite app_nil_r.
  repeat split; try assumption. intros i Hi; lia.
Qed.

(** On an error at page [k] nothing but the request is added. *)
Lemma count_on_failure k st :
  at_page k st ->
  (forall pc tops, api (page_url base_api_url k) <> Response pc tops) ->
  map_total_playercount_api st = count /\
  forall now, ls_db st = (if first_fetch_done st then ls_db st else db_effect now (ls_db st)).
Proof.
  intros (_ & Hdone & Hfresh) Herr.
  destruct (first_fetch_done st) eqn:Hf; [split; [now apply Hdone | reflexivity] |].
  destruct (Hfresh eq_refl) as [-> Hz]. unfold reported_count, fetch_db_effect.
  destruct (api (page_url base_api_url 0)) as [| | pc tops] eqn:E;
    [now split | now split | exfalso; now apply (Herr pc tops)].
Qed.

(** After the block of lines 207-219 the count is the reported one. *)
Lemma on_first_page_facts k now playercount tops st :
  at_page k st ->
  api (page_url base_api_url k) = Response playercount tops ->
  let st1 := on_first_page map_uid base_api_url_template display_name order now
                           playercount st in
  requested st1 = requested st /\
  all_tops_for_map st1 = all_tops_for_map st /\
  current_offset st1 = current_offset st /\
  first_fetch_done st1 = true /\
  map_total_playercount_api st1 = count /\
  ls_db st1 = (if first_fetch_done st then ls_db st else db_effect now (ls_db st)).
Proof.
  intros (_ & Hdone & Hfresh) Hapi. unfold on_first_page.
  destruct (first_fetch_done st) eqn:Hf; cbn.
  - repeat split; try reflexivity; [exact Hf | now apply Hdone].
  - destruct (Hfresh eq_refl) as [-> _]. unfold reported_count, fetch_db_effect.
    rewrite Hapi. repeat split; reflexivity.
Qed.

Lemma fetch_loop_run fuel : forall k now st st',
  at_page k st -> loop fuel now st = Some st' ->
  exists m : nat, left_after k m now st st'.
Proof.
  induction fuel as [| fuel IH]; intros k now st st' Hat Hrun; [discriminate |].
  pose proof Hat as (Hoff & _ & _).
  cbn [fetch_loop] in Hrun. rewrite (page_url_offset k st Hoff) in Hrun.
  destruct (api (page_url base_api_url k)) as [| | playercount tops] eqn:Hapi.
  - injection Hrun as <-. exists O.
    destruct (count_on_failure k st Hat) as [Hc Hd]; [rewrite Hapi; discriminate |].
    apply left_now; cbn; auto.
    + unfold stops_at, page_at. now rewrite Hapi.
    + unfold page_rows, page_at. rewrite Hapi. cbn. now rewrite app_nil_r.
  - injection Hrun as <-. exists O.
    destruct (count_on_failure k st Hat) as [Hc Hd]; [rewrite Hapi; discriminate |].
    apply left_now; cbn; auto.
    + unfold stops_at, page_at. now rewrite Hapi.
    + unfold page_rows, page_at. rewrite Hapi. cbn. now rewrite app_nil_r.
  - assert (Hat1 : at_page k (note_request (page_url base_api_url k) st)) by exact Hat.
    pose proof (on_first_page_facts k now playercount tops _ Hat1 Hapi) as H1.
    cbv zeta in H1. cbn [note_request requested all_tops_for_map current_offset
                         first_fetch_done ls_db] in H1.
    set (st1 := on_first_page _ _ _ _ _ _ _) in *.
    destruct H1 as (Hreq & Htops & Hoff1 & Hf1 & Hc1 & Hdb1).
    assert (Hnone : page_at api base_api_url k = None -> Some st1 = Some st' ->
                    exists m, left_after k m now st st').
    { intros Hp [= <-]. exists O. apply left_now; auto.
      - unfold stops_at. now rewrite Hp.
      - unfold page_rows. rewrite Hp. cbn. now rewrite app_nil_r. }
    destruct tops as [[| row rows] |];
      [apply Hnone; [unfold page_at; now rewrite Hapi | exact Hrun] | |
       apply Hnone; [unfold page_at; now rewrite Hapi | exact Hrun]].
    assert (Hpage : page_at api base_api_url k = Some (row :: rows))
      by (unfold page_at; now rewrite Hapi).
    assert (Hstopped : stops_at k -> forall st2, Some st2 = Some st' ->
              requested st2 = requested st1 ->
              all_tops_for_map st2 = all_tops_for_map st1 ++ row :: rows ->
              map_total_playercount_api st2 = map_total_playercount_api st1 ->
              ls_db st2 = ls_db st1 ->
              exists m, left_after k m now st st').
    { intros Hs st2 [= <-] E1 E2 E3 E4. exists O. apply left_now; auto; try congruence.
      unfold page_rows. rewrite Hpage. cbn. congruence. }
    assert (Hnext : current_offset (next_offset (extend_tops (row :: rows) st1))
                    = RECORDS_PER_PAGE * Z.of_nat (S k)).
    { cbn. rewrite Hoff1, Hoff. unfold RECORDS_PER_PAGE. lia. }
    destruct (Z.ltb_spec (Z.of_nat (length (row :: rows))) RECORDS_PER_PAGE)
      as [Hshort | Hfull].
    { apply (Hstopped ltac:(unfold stops_at; rewrite Hpage; now left) _ Hrun); reflexivity. }
    cbv zeta in Hrun. set (st2 := next_offset _) in *.
    assert (Hc2 : map_total_playercount_api st2 = count) by exact Hc1.
    rewrite Hc2, Hnext in Hrun.
    destruct (Z.leb_spec count (RECORDS_PER_PAGE * Z.of_nat (S k))) as [Hb1 | Hb1];
      destruct (Z.ltb_spec 0 count) as [Hb2 | Hb2]; cbn [andb] in Hrun;
      try (apply (Hstopped ltac:(unfold stops_at; rewrite Hpage; right; left; lia) _ Hrun);
           reflexivity).
    all: destruct (Z.leb_spec 10000 (RECORDS_PER_PAGE * Z.of_nat (S k))) as [Hc3 | Hc3];
      destruct (Z.eqb_spec count 0) as [Hc4 | Hc4]; cbn [andb] in Hrun;
      try (apply (Hstopped ltac:(unfold stops_at; rewrite Hpage; right; right; lia) _ Hrun);
           reflexivity).
    all: apply (IH (S k)) in Hrun;
      [| split; [exact Hnext | split; [intros _; exact Hc2 |]];
         intros Hf; change (first_fetch_done st1 = false) in Hf; congruence].
    all: destruct Hrun as (m & Hgo & Hstop & Hr & Ht & Hcnt & Hd);
      clear Hc2 Hnext; subst st2;
      exists (S m); unfold left_after;
      replace (k + S m)%nat with (S k + m)%nat by lia;
      repeat split;
      [ intros i Hi; destruct (Nat.eq_dec i k) as [-> | NE]; [| apply Hgo; lia];
        exists (row :: rows); split; [exact Hpage |]; unfold stop_condition; lia
      | exact Hstop
      | rewrite Hr; cbn [next_offset extend_tops requested]; rewrite Hreq;
        now rewrite <- app_assoc
      | rewrite Ht; cbn [next_offset extend_tops all_tops_for_map seq map concat];
        rewrite Htops;
        replace (page_rows api base_api_url k) with (row :: rows)
          by (unfold page_rows; now rewrite Hpage);
        now rewrite <- !app_assoc
      | exact Hcnt
      | rewrite Hd; cbn [next_offset extend_tops first_fetch_done ls_db];
        rewrite Hf1; exact Hdb1 ].
Qed.

(** With a reported count that is not negative the loop ends: the offset
    stays below [max count 10000] as long as it goes on. *)
Lemma fetch_loop_enough fuel : forall k now st,
  at_page k st -> 0 <= count ->
  RECORDS_PER_PAGE * Z.of_nat k < Z.max count 10000 ->
  Z.max count 10000 <= RECORDS_PER_PAGE * Z.of_nat (k + fuel) ->
  is_Some (loop fuel now st).
Proof.
  induction fuel as [| fuel IH]; intros k now st Hat Hpos Hlow Hhigh.
  - rewrite Nat.add_0_r in Hhigh. lia.
  - pose proof Hat as (Hoff & _ & _).
    cbn [fetch_loop]. rewrite (page_url_offset k st Hoff).
    destruct (api (page_url base_api_url k)) as [| | playercount tops] eqn:Hapi;
      [eexists; reflexivity | eexists; reflexivity |].
    assert (Hat1 : at_page k (note_request (page_url base_api_url k) st)) by exact Hat.
    pose proof (on_first_page_facts k now playercount tops _ Hat1 Hapi) as H1.
    cbv zeta in H1. cbn [note_request requested all_tops_for_map current_offset
                         first_fetch_done ls_db] in H1.
    set (st1 := on_first_page _ _ _ _ _ _ _) in *.
    destruct H1 as (Hreq & Htops & Hoff1 & Hf1 & Hc1 & Hdb1).
    destruct tops as [[| row rows] |]; [eexists; reflexivity | | eexists; reflexivity].
    destruct (Z.ltb_spec (Z.of_nat (length (row :: rows))) RECORDS_PER_PAGE);
      [eexists; reflexivity |].
    cbv zeta. set (st2 := next_offset _).
    assert (Hnext : current_offset st2 = RECORDS_PER_PAGE * Z.of_nat (S k)).
    { subst st2. cbn. rewrite Hoff1, Hoff. unfold RECORDS_PER_PAGE. lia. }
    assert (Hc2 : map_total_playercount_api st2 = count) by exact Hc1.
    rewrite Hc2, Hnext.
    destruct (Z.leb_spec count (RECORDS_PER_PAGE * Z.of_nat (S k)));
      destruct (Z.ltb_spec 0 count); cbn [andb]; try (eexists; reflexivity).
    all: destruct (Z.leb_spec 10000 (RECORDS_PER_PAGE * Z.of_nat (S k)));
      destruct (Z.eqb_spec count 0); cbn [andb]; try (eexists; reflexivity).
    all: apply (IH (S k));
      [ split; [exact Hnext | split; [intros _; exact Hc2 |]];
        intros Hf; change (first_fetch_done st1 = false) in Hf; congruence
      | exact Hpos | lia | replace (S k + fuel)%nat with (k + S fuel)%nat by lia; exact Hhigh ].
Qed.

(** One turn of the loop at page [k]: it is left if the page stops it, and
    goes to page [k + 1] otherwise. *)
Lemma loop_step k now st fuel :
  at_page k st ->
  (stops_at k -> is_Some (loop (S fuel) now st)) /\
  (goes_on api base_api_url k ->
   exists st2, at_page (S k) st2 /\ loop (S fuel) now st = loop fuel now st2).
Proof.
  intros Hat. pose proof Hat as (Hoff & _ & _).
  cbn [fetch_loop]. rewrite (page_url_offset k st Hoff).
  unfold stops_at, goes_on, page_at.
  destruct (api (page_url base_api_url k)) as [| | playercount tops] eqn:Hapi.
  - split; [intros _; eexists; reflexivity | intros (page & Hp & _); discriminate].
  - split; [intros _; eexists; reflexivity | intros (page & Hp & _); discriminate].
  - assert (Hat1 : at_page k (note_request (page_url base_api_url k) st)) by exact Hat.
    pose proof (on_first_page_facts k now playercount tops _ Hat1 Hapi) as H1.
    cbv zeta in H1. cbn [note_request requested all_tops_for_map current_offset
                         first_fetch_done ls_db] in H1.
    set (st1 := on_first_page _ _ _ _ _ _ _) in *.
    destruct H1 as (Hreq & Htops & Hoff1 & Hf1 & Hc1 & Hdb1).
    destruct tops as [[| row rows] |];
      [split; [intros _; eexists; reflexivity | intros (page & Hp & _); discriminate] | |
       split; [intros _; eexists; reflexivity | intros (page & Hp & _); discriminate]].
    destruct (Z.ltb_spec (Z.of_nat (length (row :: rows))) RECORDS_PER_PAGE)
      as [Hshort | Hfull].
    { split; [intros _; eexists; reflexivity |].
      intros (page & [= <-] & Hn). exfalso. apply Hn. now left. }
    cbv zeta. set (st2 := next_offset _).
    assert (Hnext : current_offset st2 = RECORDS_PER_PAGE * Z.of_nat (S k)).
    { subst st2. cbn. rewrite Hoff1, Hoff. unfold RECORDS_PER_PAGE. lia. }
    assert (Hc2 : map_total_playercount_api st2 = count) by exact Hc1.
    rewrite Hc2, Hnext.
    destruct (Z.leb_spec count (RECORDS_PER_PAGE * Z.of_nat (S k))) as [Hb1 | Hb1];
      destruct (Z.ltb_spec 0 count) as [Hb2 | Hb2]; cbn [andb];
      try (split; [intros _; eexists; reflexivity |];
           intros (page & [= <-] & Hn); exfalso; apply Hn; right; left; lia).
    all: destruct (Z.leb_spec 10000 (RECORDS_PER_PAGE * Z.of_nat (S k))) as [Hc3 | Hc3];
      destruct (Z.eqb_spec count 0) as [Hc4 | Hc4]; cbn [andb];
      try (split; [intros _; eexists; reflexivity |];
           intros (page & [= <-] & Hn); exfalso; apply Hn; right; right; lia).
    all: split;
      [ intros Hstop; exfalso; unfold stop_condition in Hstop; lia
      | intros _; exists st2; split; [| reflexivity];
        split; [exact Hnext | split; [intros _; exact Hc2 |]];
        intros Hf; change (first_fetch_done st1 = false) in Hf; congruence ].
Qed.

(** The loop ends on the first page that stops it. *)
Lemma fetch_loop_reaches m : forall k now st fuel,
  at_page k st ->
  (forall i, (k <= i < k + m)%nat -> goes_on api base_api_url i) ->
  stops_at (k + m) -> (m < fuel)%nat ->
  is_Some (loop fuel now st).
Proof.
  induction m as [| m IH]; intros k now st fuel Hat Hgo Hstop Hfuel;
    (destruct fuel as [| fuel]; [lia |]).
  - rewrite Nat.add_0_r in Hstop. now apply (proj1 (loop_step k now st fuel Hat)).
  - destruct (proj2 (loop_step k now st fuel Hat) (Hgo k ltac:(lia)))
      as (st2 & Hat2 & ->).
    apply (IH (S k)); [exact Hat2 | intros i Hi; apply Hgo; lia | | lia].
    replace (S k + m)%nat with (k + S m)%nat by lia. exact Hstop.
Qed.

Lemma goes_on_stops i : goes_on api base_api_url i -> stops_at i -> False.
Proof. intros (page & Hp & Hn). unfold stops_at. now rewrite Hp. Qed.

Lemma first_stop_unique m m' :
  (forall i, (i < m)%nat -> goes_on api base_api_url i) -> stops_at m ->
  (forall i, (i < m')%nat -> goes_on api base_api_url i) -> stops_at m' ->
  m = m'.
Proof.
  intros Hgo Hstop Hgo' Hstop'.
  destruct (Nat.lt_trichotomy m m') as [H | [H | H]]; [exfalso | exact H | exfalso].
  - exact (goes_on_stops m (Hgo' m H) Hstop).
  - exact (goes_on_stops m' (Hgo m' H) Hstop').
Qed.

(** As long as the loop goes on, the offset is below the reported count, or
    below 10,000 when that count is zero. *)
Lemma goes_on_bound i :
  0 <= count -> goes_on api base_api_url i ->
  RECORDS_PER_PAGE * Z.of_nat (S i) < Z.max count 10000.
Proof.
  intros Hpos (page & _ & Hn). unfold stop_condition in Hn. lia.
Qed.

(** Two loop states that differ in the database and in the list of requests
    only. *)
Definition same_progress (st st2 : loop_state) : Prop :=
  all_tops_for_map st = all_tops_for_map st2 /\
  current_offset st = current_offset st2 /\
  map_total_playercount_api st = map_total_playercount_api st2 /\
  first_fetch_done st = first_fetch_done st2.

(** What is fetched depends neither on the database nor on the clock. *)
Lemma fetch_loop_frame fuel : forall now now2 st st2 st',
  same_progress st st2 -> loop fuel now st = Some st' ->
  exists st2', loop fuel now2 st2 = Some st2' /\ same_progress st' st2'.
Proof.
  induction fuel as [| fuel IH]; intros now now2 st st2 st' Hsim Hrun; [discriminate |].
  pose proof Hsim as (Ht & Ho & Hc & Hf).
  cbn [fetch_loop] in *. rewrite <- Ho.
  destruct (api (paginated_api_url_of base_api_url (current_offset st)))
    as [| | playercount tops].
  - injection Hrun as <-. eexists; split; [reflexivity | exact Hsim].
  - injection Hrun as <-. eexists; split; [reflexivity | exact Hsim].
  - set (url := paginated_api_url_of base_api_url (current_offset st)) in *.
    set (st1 := on_first_page _ _ _ _ now _ _) in *.
    set (st1' := on_first_page _ _ _ _ now2 _ _).
    assert (Hsim1 : same_progress st1 st1').
    { subst st1 st1'. unfold on_first_page. cbn [note_request first_fetch_done].
      rewrite <- Hf. destruct (first_fetch_done st) eqn:Hfd; repeat split; cbn;
        first [assumption | reflexivity | congruence]. }
    clearbody st1 st1'.
    destruct tops as [[| row rows] |].
    + injection Hrun as <-. eexists; split; [reflexivity | exact Hsim1].
    + assert (Hsim2 : same_progress (extend_tops (row :: rows) st1)
                                    (extend_tops (row :: rows) st1')).
      { destruct Hsim1 as (E1 & E2 & E3 & E4). repeat split; cbn; congruence. }
      destruct (Z.of_nat (length (row :: rows)) <? RECORDS_PER_PAGE).
      { injection Hrun as <-. eexists; split; [reflexivity | exact Hsim2]. }
      cbv zeta in *.
      assert (Hsim3 : same_progress (next_offset (extend_tops (row :: rows) st1))
                                    (next_offset (extend_tops (row :: rows) st1'))).
      { destruct Hsim2 as (E1 & E2 & E3 & E4). repeat split; cbn in *; congruence. }
      destruct Hsim3 as (E1 & E2 & E3 & E4).
      rewrite <- E2, <- E3.
      destruct (andb _ _).
      { injection Hrun as <-. eexists; split; [reflexivity | now repeat split]. }
      destruct (andb _ _).
      { injection Hrun as <-. eexists; split; [reflexivity | now repeat split]. }
      eapply IH; [| exact Hrun]. now repeat split.
    + injection Hrun as <-. eexists; split; [reflexivity | exact Hsim1].
Qed.

(** One turn of the loop on a full page after which no test fires, and on
    a short page. *)
Lemma loop_full_page fuel now st playercount page :
  api (paginated_api_url_of base_api_url (current_offset st))
  = Response playercount (Some page) ->
  length page = 100%nat ->
  let st2 := next_offset (extend_tops page
               (on_first_page map_uid base_api_url_template display_name order now
                  playercount
                  (note_request (paginated_api_url_of base_api_url (current_offset st)) st)))
  in
  (map_total_playercount_api st2 <=? current_offset st2)
  && (0 <? map_total_playercount_api st2) = false ->
  (10000 <=? current_offset st2) && (map_total_playercount_api st2 =? 0) = false ->
  loop (S fuel) now st = loop fuel now st2.
Proof.
  intros Hapi Hlen st2 Hb Hc. cbn [fetch_loop]. rewrite Hapi.
  destruct page as [| row rows]; [discriminate |]. cbv zeta.
  rewrite Hlen. change (Z.of_nat 100 <? RECORDS_PER_PAGE) with false. cbv iota.
  fold st2. now rewrite Hb, Hc.
Qed.

Lemma loop_short_page fuel now st playercount page :
  api (paginated_api_url_of base_api_url (current_offset st))
  = Response playercount (Some page) ->
  (0 < length page < 100)%nat ->
  loop (S fuel) now st
  = Some (extend_tops page
            (on_first_page map_uid base_api_url_template display_name order now
               playercount
               (note_request (paginated_api_url_of base_api_url (current_offset st)) st))).
Proof.
  intros Hapi Hlen. cbn [fetch_loop]. rewrite Hapi.
  destruct page as [| row rows]; [cbn in Hlen; lia |]. cbv zeta.
  destruct (Z.ltb_spec (Z.of_nat (length (row :: rows))) RECORDS_PER_PAGE) as [_ | H];
    [reflexivity | unfold RECORDS_PER_PAGE in H; lia].
Qed.

(** A map that reports 250 players and sends pages of 100, 100 and 50 rows:
    three requests are made. *)
Lemma fetch_three_pages now d reqs (p1 p2 p3 : list top_entry) pc2 pc3 fuel :
  length p1 = 100%nat -> length p2 = 100%nat -> length p3 = 50%nat ->
  api (page_url base_api_url 0) = Response (Some 250) (Some p1) ->
  api (page_url base_api_url 1) = Response pc2 (Some p2) ->
  api (page_url base_api_url 2) = Response pc3 (Some p3) ->
  (3 <= fuel)%nat ->
  exists st', loop fuel now (initial_loop_state d reqs) = Some st' /\
    requested st' = reqs ++ [page_url base_api_url 0; page_url base_api_url 1;
                             page_url base_api_url 2] /\
    all_tops_for_map st' = p1 ++ p2 ++ p3.
Proof.
  intros L1 L2 L3 A1 A2 A3 Hfuel.
  destruct fuel as [| [| [| fuel]]]; try lia.
  erewrite loop_full_page; [| exact A1 | exact L1 | reflexivity | reflexivity].
  erewrite loop_full_page; [| exact A2 | exact L2 | reflexivity | reflexivity].
  erewrite loop_short_page; [| exact A3 | lia].
  eexists. split; [reflexivity |]. cbn. split.
  - now rewrite <- !app_assoc.
  - now rewrite <- !app_assoc.
Qed.

End Loop.

Definition sample_row : top_entry :=
  TopEntry (PlayerJson (Some "player-1") (Some "One") None) (Some 50000) (Some 0)
           (Some "2024-01-01T00:00:00").

(** C8, as the specification states it, fails at the cap: with no reported
    count and full pages the loop is left after the hundredth page, when
    exactly 10,000 records are fetched, which is not more than 10,000. *)
Lemma pagination_cap_counterexample :
  let api : api_server := fun _ => Response (Some 0) (Some (repeat sample_row 100)) in
  let base := "https://trackmania.io/api/leaderboard/map/ABC"%string in
  exists st',
    fetch_loop 200 api base "ABC" base "Map" 0 "now"
               (initial_loop_state (Db ∅ ∅ ∅) []) = Some st' /\
    length (requested st') = 100%nat /\
    Z.of_nat (length (all_tops_for_map st')) = 10000 /\
    page_at api base 99 = Some (repeat sample_row 100) /\
    ~ stop_condition_as_specified 100 (RECORDS_PER_PAGE * 100) 0.
Proof.
  cbv zeta. eexists. split; [vm_compute; reflexivity |].
  split; [vm_compute; reflexivity |]. split; [vm_compute; reflexivity |].
  split; [reflexivity |].
  unfold stop_condition_as_specified, RECORDS_PER_PAGE. cbn. lia.
Qed.

(** C8 (amended). The page loop is left on the first page that fails or
    has no rows, or on which one of these tests fires, made after the page in
    this order: (a) the page has fewer rows than the page size of 100; (b)
    the accumulated offset, 100 for every full page, reaches or exceeds the
    reported player count, when that count is positive; (c) the reported
    count is zero and the accumulated offset has reached 10,000, that is
    after 100 full pages.  If there is such a page the loop ends on the first
    one, having requested the pages up to it and no other, and it ends in no
    other way: if there is none it never ends.  A reported count that is not
    negative gives such a page within [max count 10000 / 100] pages; with a
    negative count only a page that fails, has no rows or is short ends the
    loop.  In particular, with a reported count of 250 and pages of 100, 100
    and 50 rows, the loop is left after the third page and nothing more is
    requested. *)
Theorem pagination_termination (api : api_server)
  (base_api_url map_uid base_api_url_template display_name : string) (order : Z)
  (now : string) (d : db) (reqs : list string) :
  (forall fuel st',
     fetch_loop fuel api base_api_url map_uid base_api_url_template display_name order now
                (initial_loop_state d reqs) = Some st' ->
     exists m : nat,
       (forall i, (i < m)%nat -> goes_on api base_api_url i) /\
       stops_at api base_api_url m /\
       requested st' = reqs ++ map (page_url base_api_url) (seq 0 (S m)) /\
       all_tops_for_map st' = concat (map (page_rows api base_api_url) (seq 0 (S m)))) /\
  (forall m : nat,
     (forall i, (i < m)%nat -> goes_on api base_api_url i) ->
     stops_at api base_api_url m ->
     forall fuel, (m < fuel)%nat ->
     exists st',
       fetch_loop fuel api base_api_url map_uid base_api_url_template display_name order
                  now (initial_loop_state d reqs) = Some st' /\
       requested st' = reqs ++ map (page_url base_api_url) (seq 0 (S m)) /\
       all_tops_for_map st' = concat (map (page_rows api base_api_url) (seq 0 (S m)))) /\
  ((forall i, goes_on api base_api_url i) ->
   forall fuel,
     fetch_loop fuel api base_api_url map_uid base_api_url_template display_name order now
                (initial_loop_state d reqs) = None) /\
  (0 <= reported_count api base_api_url ->
   exists m : nat,
     RECORDS_PER_PAGE * Z.of_nat m < Z.max (reported_count api base_api_url) 10000 /\
     (forall i, (i < m)%nat -> goes_on api base_api_url i) /\
     stops_at api base_api_url m) /\
  (reported_count api base_api_url < 0 ->
   forall m : nat, stops_at api base_api_url m ->
     match page_at api base_api_url m with
     | Some page => Z.of_nat (length page) < RECORDS_PER_PAGE
     | None => True
     end) /\
  (forall (p1 p2 p3 : list top_entry) pc2 pc3 fuel,
     length p1 = 100%nat -> length p2 = 100%nat -> length p3 = 50%nat ->
     api (page_url base_api_url 0) = Response (Some 250) (Some p1) ->
     api (page_url base_api_url 1) = Response pc2 (Some p2) ->
     api (page_url base_api_url 2) = Response pc3 (Some p3) ->
     (3 <= fuel)%nat ->
     exists st',
       fetch_loop fuel api base_api_url map_uid base_api_url_template display_name order
                  now (initial_loop_state d reqs) = Some st' /\
       requested st' = reqs ++ [page_url base_api_url 0; page_url base_api_url 1;
                                page_url base_api_url 2] /\
       all_tops_for_map st' = p1 ++ p2 ++ p3).
Proof.
  assert (Hrun : forall fuel st',
     fetch_loop fuel api base_api_url map_uid base_api_url_template display_name order now
                (initial_loop_state d reqs) = Some st' ->
     exists m : nat,
       (forall i, (i < m)%nat -> goes_on api base_api_url i) /\
       stops_at api base_api_url m /\
       requested st' = reqs ++ map (page_url base_api_url) (seq 0 (S m)) /\
       all_tops_for_map st' = concat (map (page_rows api base_api_url) (seq 0 (S m)))).
  { intros fuel st' Hst'.
    destruct (fetch_loop_run api base_api_url map_uid base_api_url_template display_name
                order fuel 0 now _ st' (at_page_initial _ _ _ _) Hst')
      as (m & Hgo & Hstop & Hr & Ht & _).
    exists m. repeat split; try assumption. intros i Hi. apply Hgo. lia. }
  split; [exact Hrun |]. split; [| split; [| split; [| split]]].
  - intros m Hgo Hstop fuel Hfuel.
    destruct (fetch_loop_reaches api base_api_url map_uid base_api_url_template display_name
                order m 0 now (initial_loop_state d reqs) fuel (at_page_initial _ _ _ _))
      as [st' Hst']; [intros i Hi; apply Hgo; lia | exact Hstop | exact Hfuel |].
    exists st'. split; [exact Hst' |].
    destruct (Hrun fuel st' Hst') as (m' & Hgo' & Hstop' & Hr & Ht).
    assert (E : m' = m) by (eapply first_stop_unique; eassumption).
    subst m'. now split.
  - intros Hgo fuel.
    destruct (fetch_loop _ _ _ _ _ _ _ _ _) as [st' |] eqn:Hst'; [exfalso | reflexivity].
    destruct (Hrun fuel st' Hst') as (m & _ & Hstop & _).
    exact (goes_on_stops api base_api_url m (Hgo m) Hstop).
  - intros Hpos.
    set (fuel := S (Z.to_nat (Z.max (reported_count api base_api_url) 10000 / 100))).
    destruct (fetch_loop_enough api base_api_url map_uid base_api_url_template display_name
                order fuel 0 now (initial_loop_state d reqs) (at_page_initial _ _ _ _) Hpos)
      as [st' Hst'].
    + unfold RECORDS_PER_PAGE. lia.
    + subst fuel. unfold RECORDS_PER_PAGE. cbn [Nat.add].
      rewrite Nat2Z.inj_succ, Z2Nat.id by (apply Z.div_pos; lia).
      pose proof (Z.mod_pos_bound (Z.max (reported_count api base_api_url) 10000) 100
                    ltac:(lia)).
      pose proof (Z.div_mod (Z.max (reported_count api base_api_url) 10000) 100 ltac:(lia)).
      lia.
    + destruct (Hrun fuel st' Hst') as (m & Hgo & Hstop & _).
      exists m. split; [| now split].
      destruct m as [| m]; [unfold RECORDS_PER_PAGE; lia |].
      apply (goes_on_bound api base_api_url m Hpos). apply Hgo. lia.
  - intros Hneg m Hstop. unfold stops_at in Hstop.
    destruct (page_at api base_api_url m) as [page |]; [| exact I].
    unfold stop_condition in Hstop. lia.
  - intros. now apply fetch_three_pages with (pc2 := pc2) (pc3 := pc3).
Qed.

(** A server that reports 250 players, sends 100, 100 and 50 rows for the
    first three pages and would go on sending full pages if it were asked. *)
Definition api_250 : api_server := fun url =>
  let base := "https://trackmania.io/api/leaderboard/map/ABC"%string in
  if String.eqb url (page_url base 2)
  then Response (Some 250) (Some (repeat sample_row 50))
  else Response (Some 250) (Some (repeat sample_row 100)).

Lemma pagination_termination_witness :
  let base := "https://trackmania.io/api/leaderboard/map/ABC"%string in
  (exists st' m,
     fetch_loop 5 api_250 base "ABC" base "Map" 0 "now" (initial_loop_state (Db ∅ ∅ ∅) [])
     = Some st' /\
     (forall i, (i < m)%nat -> goes_on api_250 base i) /\
     stops_at api_250 base m /\
     requested st' = [] ++ map (page_url base) (seq 0 (S m))) /\
  (exists m,
     RECORDS_PER_PAGE * Z.of_nat m < Z.max (reported_count api_250 base) 10000 /\
     (forall i, (i < m)%nat -> goes_on api_250 base i) /\
     stops_at api_250 base m /\
     forall fuel, (m < fuel)%nat ->
       exists st',
         fetch_loop fuel api_250 base "ABC" base "Map" 0 "now"
                    (initial_loop_state (Db ∅ ∅ ∅) []) = Some st' /\
         requested st' = [] ++ map (page_url base) (seq 0 (S m))) /\
  (exists st',
     fetch_loop 3 api_250 base "ABC" base "Map" 0 "now" (initial_loop_state (Db ∅ ∅ ∅) [])
     = Some st' /\
     requested st' = [] ++ [page_url base 0; page_url base 1; page_url base 2] /\
     all_tops_for_map st'
     = repeat sample_row 100 ++ repeat sample_row 100 ++ repeat sample_row 50).
Proof.
  cbv zeta.
  destruct (pagination_termination api_250
              "https://trackmania.io/api/leaderboard/map/ABC"%string "ABC"
              "https://trackmania.io/api/leaderboard/map/ABC"%string "Map" 0 "now"
              (Db ∅ ∅ ∅) []) as (H1 & H2 & _ & H4 & _ & H5).
  split; [| split].
  - destruct (fetch_loop 5 api_250 _ _ _ _ _ _ _) as [st' |] eqn:Hrun;
      [| vm_compute in Hrun; discriminate].
    destruct (H1 5%nat st' Hrun) as (m & Hgo & Hstop & Hreq & _).
    exists st', m. repeat split; assumption.
  - destruct H4 as (m & Hb & Hgo & Hstop); [vm_compute; discriminate |].
    exists m. split; [exact Hb |]. split; [exact Hgo |]. split; [exact Hstop |].
    intros fuel Hfuel. destruct (H2 m Hgo Hstop fuel Hfuel) as (st' & Hst' & Hreq & _).
    now exists st'.
  - apply (H5 (repeat sample_row 100) (repeat sample_row 100) (repeat sample_row 50)
              (Some 250) (Some 250) 3%nat); reflexivity.
Defined.

End FetchFacts.

(** ** Reconciliation *)

Module ReconcileFacts.
Import Zone Data Url Fetch Reconcile FetchFacts.
Local Open Scope string_scope.
Local Open Scope Z_scope.

(** *** What each step touches *)

Lemma upsert_player_frame now pid pname z d s :
  let r := upsert_player now pid pname z (d, s) in
  maps r.1 = maps d /\ records r.1 = records d /\
  new_pbs r.2 = new_pbs s /\ new_players_on_map r.2 = new_players_on_map s /\
  new_wrs r.2 = new_wrs s /\
  (forall p, p <> pid -> players r.1 !! p = players d !! p).
Proof.
  unfold upsert_player. destruct (get_actual_country_info z) as [cn cf].
  destruct (players d !! pid) as [row |]; cbn.
  - repeat split.
    + destruct (negb _); [destruct (name_change_logged _ _ _) |]; reflexivity.
    + destruct (negb _); [destruct (name_change_logged _ _ _) |]; reflexivity.
    + destruct (negb _); [destruct (name_change_logged _ _ _) |]; reflexivity.
    + intros p Hp. now apply lookup_alter_ne.
  - repeat split. intros p Hp. now apply lookup_insert_ne.
Qed.

Lemma upsert_wr_player_frame now pid pname z d s :
  let r := upsert_wr_player now pid pname z (d, s) in
  maps r.1 = maps d /\ records r.1 = records d /\
  new_pbs r.2 = new_pbs s /\ new_players_on_map r.2 = new_players_on_map s /\
  new_wrs r.2 = new_wrs s /\
  (forall p, p <> pid -> players r.1 !! p = players d !! p).
Proof.
  unfold upsert_wr_player. destruct (get_actual_country_info z) as [cn cf].
  destruct (players d !! pid) as [row |]; cbn.
  - destruct (negb _); [destruct (name_change_logged _ _ _) |]; cbn;
      repeat split; intros p Hp; now apply lookup_alter_ne.
  - repeat split. intros p Hp. now apply lookup_insert_ne.
Qed.

Lemma upsert_record_frame now uid dn pid pname rank e d s :
  let r := upsert_record now uid dn pid pname rank e (d, s) in
  maps r.1 = maps d /\ players r.1 = players d /\
  new_wrs r.2 = new_wrs s /\ player_name_changes r.2 = player_name_changes s /\
  newly_added_players r.2 = newly_added_players s /\
  (forall k, k <> (uid, pid) -> records r.1 !! k = records d !! k).
Proof.
  unfold upsert_record. destruct (records d !! (uid, pid)) as [row |]; cbn.
  - destruct (is_pb _ _ _ _); [| destruct (negb _)]; cbn;
      repeat split; intros k Hk; now apply lookup_alter_ne.
  - repeat split. intros k Hk. now apply lookup_insert_ne.
Qed.

Lemma reconcile_wr_frame now uid dn wid wtime wts wname d s :
  let r := reconcile_wr now uid dn wid wtime wts wname (d, s) in
  players r.1 = players d /\ records r.1 = records d /\
  new_pbs r.2 = new_pbs s /\ new_players_on_map r.2 = new_players_on_map s /\
  player_name_changes r.2 = player_name_changes s /\
  newly_added_players r.2 = newly_added_players s /\
  (forall u, u <> uid -> maps r.1 !! u = maps d !! u).
Proof.
  unfold reconcile_wr. destruct (select_db_wr d uid) as [[dbid dbtime] dbname].
  destruct (truthy_id wid) as [i |]; [destruct wtime as [t |] |].
  - destruct (orb _ _); cbn; repeat split; intros u Hu; now apply lookup_alter_ne.
  - destruct dbid; cbn; repeat split; intros u Hu; now apply lookup_alter_ne.
  - destruct dbid; cbn; repeat split; intros u Hu; now apply lookup_alter_ne.
Qed.

(** *** Personal bests *)

Lemma is_pb_condition fetched stored rank pos :
  is_pb fetched stored rank pos = true <-> pb_condition fetched stored rank pos.
Proof.
  unfold is_pb, pb_condition. destruct fetched as [t |].
  - destruct stored as [e |].
    + rewrite orb_true_iff, andb_true_iff, Z.ltb_lt, Z.eqb_eq, Z.ltb_lt. split.
      * intros H. exists t. split; [reflexivity |]. right. exists e. split; [reflexivity | lia].
      * intros (t' & [= <-] & [H | (e' & [= <-] & H)]); [discriminate | lia].
    + split; [| reflexivity]. intros _. exists t. split; [reflexivity | now left].
  - split; [discriminate |]. intros (t & H & _). discriminate.
Qed.

Lemma process_row_with_id now uid dn rank e pid st :
  row_id e = Some pid ->
  process_row now uid dn rank e st
  = upsert_record now uid dn pid (default "Unknown" (pj_name (te_player e))) rank e
      (upsert_player now pid (default "Unknown" (pj_name (te_player e)))
                     (default ZEmpty (pj_zone (te_player e))) st).
Proof. unfold row_id, process_row. now intros ->. Qed.

Lemma process_row_without_id now uid dn rank e st :
  row_id e = None -> process_row now uid dn rank e st = st.
Proof. unfold row_id, process_row. now intros ->. Qed.

(** What [upsert_record] does to a record that exists. *)
Lemma upsert_record_existing now uid dn pid pname rank e d s existing :
  records d !! (uid, pid) = Some existing ->
  let r := upsert_record now uid dn pid pname rank e (d, s) in
  (pb_condition (te_time e) (time_ms existing) rank (position existing) ->
   records r.1 !! (uid, pid)
   = Some (RecordRow (te_time e) (te_score e) rank (te_timestamp e)
                     (script_recorded_at existing) now true
                     (is_new_player_on_map_since_last_fetch existing)) /\
   new_pbs r.2 = (new_pbs s ++ [(pname, dn, te_time e, time_ms existing)])%list) /\
  (~ pb_condition (te_time e) (time_ms existing) rank (position existing) ->
   records r.1 !! (uid, pid)
   = Some (RecordRow (time_ms existing) (score existing) rank (game_timestamp existing)
                     (script_recorded_at existing) now
                     (is_pb_since_last_fetch existing)
                     (is_new_player_on_map_since_last_fetch existing)) /\
   new_pbs r.2 = new_pbs s) /\
  new_players_on_map r.2 = new_players_on_map s.
Proof.
  intros Hrec. unfold upsert_record. rewrite Hrec.
  destruct (is_pb _ _ _ _) eqn:Hpb.
  - apply is_pb_condition in Hpb. cbn. rewrite lookup_alter_eq, Hrec. cbn. unfold with_pb.
    split; [| split]; [intros _; now split | intros Hn; now destruct Hn | reflexivity].
  - assert (Hn : ~ pb_condition (te_time e) (time_ms existing) rank (position existing)).
    { intros H. apply is_pb_condition in H. congruence. }
    destruct (Z.eqb_spec rank (position existing)) as [E | NE]; cbn;
      rewrite lookup_alter_eq, Hrec; cbn; unfold with_position, with_updated_at.
    + split; [| split]; [intros H; now destruct Hn | | reflexivity].
      intros _. now rewrite <- E.
    + split; [| split]; [intros H; now destruct Hn | intros _; now split | reflexivity].
Qed.

Definition timed_row (pid pname : string) (t : option Z) : top_entry :=
  TopEntry (PlayerJson (Some pid) (Some pname) None) t (Some 0) (Some "2024-01-01T00:00:00").

(** C6, as the specification states it, fails for a record stored without
    a time (the row first came without one): a row that brings a time is a
    personal best, although there is no stored time for it to be lower than. *)
Lemma pb_classification_counterexample :
  let st1 := process_row "t1" "ABC" "Map" 1 (timed_row "p1" "One" None)
                         (Db ∅ ∅ ∅, empty_session) in
  let st2 := process_row "t2" "ABC" "Map" 1 (timed_row "p1" "One" (Some 10000))
                         (st1.1, empty_session) in
  time_ms <$> records st1.1 !! ("ABC", "p1") = Some None /\
  new_pbs st2.2 = [("One", "Map", Some 10000, None)] /\
  is_pb_since_last_fetch <$> records st2.1 !! ("ABC", "p1") = Some true /\
  ~ pb_condition_as_specified (Some 10000) None 1 1.
Proof.
  cbv zeta. repeat split; try (vm_compute; reflexivity).
  intros (t & e & _ & H & _). discriminate.
Qed.

(** C6 (amended). A fetched row whose (map, player) record exists is a
    personal best (time, score, position and timestamp updated, flag set, PB
    event emitted) if and only if it brings a time and either no time is
    stored, or its time is strictly lower than the stored one, or its time
    equals the stored one and its rank is strictly lower than the stored
    position; otherwise only the position and the update time are written
    and no PB event is emitted.  Stored 10000 ms at rank 5 and fetched
    10000 ms at rank 3 is a personal best; stored 10000 ms at rank 3 and
    fetched 10000 ms at rank 5 is not. *)
Theorem pb_classification (now uid dn : string) (rank : Z) (e : top_entry) (pid : string)
  (d : db) (s : session) (existing : record_row) :
  row_id e = Some pid ->
  records d !! (uid, pid) = Some existing ->
  let r := process_row now uid dn rank e (d, s) in
  (pb_condition (te_time e) (time_ms existing) rank (position existing) ->
   records r.1 !! (uid, pid)
   = Some (RecordRow (te_time e) (te_score e) rank (te_timestamp e)
                     (script_recorded_at existing) now true
                     (is_new_player_on_map_since_last_fetch existing)) /\
   new_pbs r.2
   = (new_pbs s ++ [(default "Unknown" (pj_name (te_player e)), dn, te_time e,
                     time_ms existing)])%list) /\
  (~ pb_condition (te_time e) (time_ms existing) rank (position existing) ->
   records r.1 !! (uid, pid)
   = Some (RecordRow (time_ms existing) (score existing) rank (game_timestamp existing)
                     (script_recorded_at existing) now
                     (is_pb_since_last_fetch existing)
                     (is_new_player_on_map_since_last_fetch existing)) /\
   new_pbs r.2 = new_pbs s) /\
  pb_condition (Some 10000) (Some 10000) 3 5 /\
  ~ pb_condition (Some 10000) (Some 10000) 5 3.
Proof.
  intros Hid Hrec. cbv zeta. rewrite (process_row_with_id _ _ _ _ _ _ _ Hid).
  pose proof (upsert_player_frame now pid (default "Unknown" (pj_name (te_player e)))
                (default ZEmpty (pj_zone (te_player e))) d s) as Hframe.
  cbv zeta in Hframe. destruct (upsert_player _ _ _ _ _) as [d' s'].
  destruct Hframe as (_ & Hr & Hp & _). cbn [fst snd] in Hr, Hp.
  rewrite <- Hr in Hrec.
  pose proof (upsert_record_existing now uid dn pid
                (default "Unknown" (pj_name (te_player e))) rank e d' s' existing Hrec)
    as (Hyes & Hno & _).
  rewrite Hp in Hyes, Hno.
  split; [exact Hyes | split; [exact Hno | split]].
  - apply is_pb_condition. reflexivity.
  - intros H. apply is_pb_condition in H. discriminate.
Qed.

Lemma pb_classification_witness :
  let d := Db ∅ ∅ {[ ("ABC", "p1") := RecordRow (Some 10000) (Some 0) 5 None "t0" "t0"
                                                  false false ]} in
  let r := process_row "t1" "ABC" "Map" 3 (timed_row "p1" "One" (Some 10000))
                       (d, empty_session) in
  (pb_condition (Some 10000) (Some 10000) 3 5 ->
   records r.1 !! ("ABC", "p1")
   = Some (RecordRow (Some 10000) (Some 0) 3 (Some "2024-01-01T00:00:00") "t0" "t1"
                     true false) /\
   new_pbs r.2 = [("One", "Map", Some 10000, Some 10000)]) /\
  pb_condition (Some 10000) (Some 10000) 3 5.
Proof.
  cbv zeta.
  pose proof (pb_classification "t1" "ABC" "Map" 3 (timed_row "p1" "One" (Some 10000)) "p1"
    (Db ∅ ∅ {[ ("ABC", "p1") := RecordRow (Some 10000) (Some 0) 5 None "t0" "t0"
                                           false false ]})
    empty_session
    (RecordRow (Some 10000) (Some 0) 5 None "t0" "t0" false false)
    eq_refl eq_refl) as (Hyes & _ & Hex & _).
  split; [exact Hyes | exact Hex].
Defined.

(** *** The page loop seen from the reconciliation *)

Lemma fetch_initial_outcome fuel api base uid tmpl dn ord now d reqs ls :
  fetch_loop fuel api base uid tmpl dn ord now (initial_loop_state d reqs) = Some ls ->
  ls_db ls = fetch_db_effect api base uid tmpl dn ord now d /\
  map_total_playercount_api ls = reported_count api base /\
  (all_tops_for_map ls <> [] -> exists pc tp, api (page_url base 0) = Response pc tp).
Proof.
  intros Hrun.
  destruct (fetch_loop_run api base uid tmpl dn ord fuel 0 now _ ls
              (at_page_initial _ _ _ _) Hrun) as (m & Hgo & _ & _ & Ht & Hc & Hd).
  cbn in Hd, Ht. repeat split; try assumption.
  intros Hne. destruct (api (page_url base 0)) as [| | pc tp] eqn:Hapi; [| | eauto].
  all: exfalso; apply Hne; rewrite Ht.
  all: assert (Hp : page_at api base 0 = None) by (unfold page_at; now rewrite Hapi).
  all: destruct m as [| m];
    [ cbn; unfold page_rows; rewrite Hp; reflexivity
    | destruct (Hgo 0%nat ltac:(lia)) as (page & Hpage & _); congruence ].
Qed.

Lemma leaderboard_of_fetch fuel api now entry uid d reqs ls :
  extract_map_uid_from_url (url_template entry) = Some uid ->
  fetch_loop fuel api (base_api_url_of (url_template entry)) uid (url_template entry)
             (name entry) (entry_fetch_order entry) now (initial_loop_state d reqs)
  = Some ls ->
  leaderboard_of fuel api entry = all_tops_for_map ls.
Proof.
  intros Huid Hrun. unfold leaderboard_of. rewrite Huid.
  destruct (fetch_loop_frame api _ uid (url_template entry) (name entry)
              (entry_fetch_order entry) fuel now "" (initial_loop_state d reqs)
              (initial_loop_state (Db ∅ ∅ ∅) []) ls ltac:(now repeat split) Hrun)
    as (ls2 & -> & (E & _)).
  now symmetry.
Qed.

(** The page loop that has run once runs again, whatever the database and
    the clock, and collects the same rows. *)
Lemma fetch_again fuel api now now2 entry uid d reqs d2 reqs2 ls :
  fetch_loop fuel api (base_api_url_of (url_template entry)) uid (url_template entry)
             (name entry) (entry_fetch_order entry) now (initial_loop_state d reqs)
  = Some ls ->
  exists ls2,
    fetch_loop fuel api (base_api_url_of (url_template entry)) uid (url_template entry)
               (name entry) (entry_fetch_order entry) now2 (initial_loop_state d2 reqs2)
    = Some ls2 /\
    all_tops_for_map ls2 = all_tops_for_map ls.
Proof.
  intros Hrun.
  destruct (fetch_loop_frame api _ uid (url_template entry) (name entry)
              (entry_fetch_order entry) fuel now now2 (initial_loop_state d reqs)
              (initial_loop_state d2 reqs2) ls ltac:(now repeat split) Hrun)
    as (ls2 & Hrun2 & (E & _)).
  exists ls2. split; [exact Hrun2 | now symmetry].
Qed.

Lemma process_entry_unfold fuel api now entry uid d s reqs :
  extract_map_uid_from_url (url_template entry) = Some uid ->
  process_entry fuel api now entry (d, s, reqs)
  = ls ← fetch_loop fuel api (base_api_url_of (url_template entry)) uid
                    (url_template entry) (name entry) (entry_fetch_order entry) now
                    (initial_loop_state d reqs);
    Some (reconcile_map now uid (name entry) (all_tops_for_map ls)
                        (map_total_playercount_api ls) (ls_db ls, s),
          requested ls).
Proof.
  intros Huid. unfold process_entry. rewrite Huid.
  destruct (fetch_loop _ _ _ _ _ _ _ _ _) as [ls |]; [| reflexivity].
  cbn [mbind option_bind].
  now destruct (reconcile_map now uid (name entry) (all_tops_for_map ls)
                              (map_total_playercount_api ls) (ls_db ls, s)).
Qed.

Lemma process_rows_frame now uid dn rows : forall rank d s,
  let r := process_rows now uid dn rank rows (d, s) in
  maps r.1 = maps d /\ new_wrs r.2 = new_wrs s.
Proof.
  induction rows as [| e rows IH]; intros rank d s; [now split |].
  cbn [process_rows]. cbv zeta.
  assert (H : let r := process_row now uid dn rank e (d, s) in
              maps r.1 = maps d /\ new_wrs r.2 = new_wrs s).
  { destruct (row_id e) as [pid |] eqn:Hid.
    - rewrite (process_row_with_id _ _ _ _ _ _ _ Hid). cbv zeta.
      pose proof (upsert_player_frame now pid (default "Unknown" (pj_name (te_player e)))
                    (default ZEmpty (pj_zone (te_player e))) d s) as Hp.
      cbv zeta in Hp. destruct (upsert_player _ _ _ _ _) as [d1 s1].
      pose proof (upsert_record_frame now uid dn pid
                    (default "Unknown" (pj_name (te_player e))) rank e d1 s1) as Hr.
      cbv zeta in Hr. destruct (upsert_record _ _ _ _ _ _ _ _) as [d2 s2].
      cbn [fst snd] in *. destruct Hp as (Hp1 & _ & _ & _ & Hp5 & _).
      destruct Hr as (Hr1 & _ & Hr3 & _). split; congruence.
    - rewrite (process_row_without_id _ _ _ _ _ _ Hid). now split. }
  cbv zeta in H. destruct (process_row now uid dn rank e (d, s)) as [d1 s1].
  specialize (IH (rank + 1) d1 s1). cbv zeta in IH.
  destruct (process_rows _ _ _ _ _ _) as [d2 s2]. cbn [fst snd] in *.
  destruct H, IH. split; congruence.
Qed.

(** *** The [UNIQUE] constraint on [api_url]

    The key of a map row is extracted from the template the row stores.  On
    such a database the constraint never fires, [upsert_map] is the pair of
    SQL statements, and a run leaves the database so.  On another database
    the pair of statements is not [upsert_map]. *)

Lemma urls_keyedb_spec d : urls_keyedb d = true -> urls_keyed d.
Proof.
  unfold urls_keyedb. intros H uid m Hm.
  rewrite forallb_forall in H. specialize (H (uid, m)).
  cbn in H. destruct (extract_map_uid_from_url (api_url m)) as [u |].
  - f_equal. apply String.eqb_eq, H, list_elem_of_In, elem_of_map_to_list, Hm.
  - discriminate H. apply list_elem_of_In, elem_of_map_to_list, Hm.
Qed.

(** Where another row holds the URL of the map already, [INSERT OR IGNORE]
    writes nothing and the [UPDATE] finds no row, whereas [upsert_map] writes
    the row; and where the row of the map is there as well, the [UPDATE]
    raises. *)
Lemma upsert_map_unkeyed :
  let tmpl := "https://trackmania.io/api/leaderboard/map/ABC" in
  let other := MapRow tmpl "Other" 0 "t0" None None None None false 0 in
  let mine := MapRow "https://trackmania.io/api/leaderboard/map/OLD" "Map" 0 "t0"
                     None None None None false 1 in
  let d := Db {[ "XYZ" := other ]} ∅ ∅ in
  let d2 := Db {[ "XYZ" := other; "ABC" := mine ]} ∅ ∅ in
  upsert_map_checked "ABC" tmpl "Map" 1 "t1" 5 d = Some d /\
  maps d !! "ABC" = None /\
  is_Some (maps (upsert_map "ABC" tmpl "Map" 1 "t1" 5 d) !! "ABC") /\
  upsert_map_checked "ABC" tmpl "Map" 1 "t1" 5 d2 = None.
Proof.
  cbv zeta. split; [vm_compute; reflexivity |]. split; [vm_compute; reflexivity |].
  split; [| vm_compute; reflexivity].
  vm_compute. eauto.
Qed.

Lemma url_taken_keyed tmpl uid (ms : gmap string map_row) :
  (forall k m, ms !! k = Some m -> extract_map_uid_from_url (api_url m) = Some k) ->
  extract_map_uid_from_url tmpl = Some uid ->
  url_taken tmpl uid ms = false.
Proof.
  intros Hk Hu. unfold url_taken. apply not_true_is_false. intros H.
  apply existsb_exists in H. destruct H as ([k m] & Hin & Hb).
  apply list_elem_of_In, elem_of_map_to_list in Hin. cbn in Hb.
  apply andb_true_iff in Hb. destruct Hb as [Hne Heq].
  apply String.eqb_eq in Heq. specialize (Hk k m Hin).
  rewrite Heq, Hu in Hk. injection Hk as ->.
  rewrite String.eqb_refl in Hne. discriminate.
Qed.

Lemma urls_keyed_empty : urls_keyed (Db ∅ ∅ ∅).
Proof. intros k m. cbn. now rewrite lookup_empty. Qed.

Lemma urls_keyed_maps d d' : maps d' = maps d -> urls_keyed d -> urls_keyed d'.
Proof. intros E Hk k m. rewrite E. apply Hk. Qed.

Lemma urls_keyed_alter f uid d :
  (forall m, api_url (f m) = api_url m) ->
  urls_keyed d -> urls_keyed (set_maps (alter f uid) d).
Proof.
  intros Hf Hk k m. cbn [set_maps maps].
  destruct (decide (uid = k)) as [<- | NE].
  - rewrite lookup_alter_eq. destruct (maps d !! uid) as [m0 |] eqn:E; [| discriminate].
    cbn. intros [= <-]. rewrite Hf. now apply Hk.
  - rewrite lookup_alter_ne by exact NE. apply Hk.
Qed.

Lemma upsert_map_keyed uid tmpl dn ord now c d :
  urls_keyed d -> extract_map_uid_from_url tmpl = Some uid ->
  urls_keyed (upsert_map uid tmpl dn ord now c d).
Proof.
  intros Hk Hu k m. unfold upsert_map. cbn [set_maps maps].
  destruct (decide (uid = k)) as [<- | NE].
  - rewrite lookup_alter_eq. destruct (maps d !! uid) as [m0 |] eqn:E.
    + rewrite E. cbn. intros [= <-]. exact Hu.
    + rewrite lookup_insert_eq. cbn. intros [= <-]. exact Hu.
  - rewrite lookup_alter_ne by exact NE. destruct (maps d !! uid) eqn:E.
    + apply Hk.
    + rewrite lookup_insert_ne by exact NE. apply Hk.
Qed.

(** On a keyed database the two statements of lines 209-218 raise nothing
    and do what [upsert_map] does. *)
Lemma upsert_map_checked_keyed uid tmpl dn ord now c d :
  urls_keyed d -> extract_map_uid_from_url tmpl = Some uid ->
  upsert_map_checked uid tmpl dn ord now c d = Some (upsert_map uid tmpl dn ord now c d).
Proof.
  intros Hk Hu. unfold upsert_map_checked, upsert_map.
  rewrite (url_taken_keyed tmpl uid (maps d) Hk Hu).
  destruct (maps d !! uid) as [m0 |] eqn:E.
  - rewrite E. now rewrite (url_taken_keyed tmpl uid (maps d) Hk Hu).
  - rewrite lookup_insert_eq. rewrite url_taken_keyed; [reflexivity | | exact Hu].
    intros k m. destruct (decide (uid = k)) as [<- | NE].
    + rewrite lookup_insert_eq. intros [= <-]. exact Hu.
    + rewrite lookup_insert_ne by exact NE. apply Hk.
Qed.

Lemma reconcile_wr_keyed now uid dn wid wtime wts wname d s :
  urls_keyed d -> urls_keyed (reconcile_wr now uid dn wid wtime wts wname (d, s)).1.
Proof.
  intros Hk. unfold reconcile_wr.
  destruct (select_db_wr d uid) as [[dbid dbtime] dbname].
  destruct (truthy_id wid) as [i |]; [destruct wtime as [t |] |].
  - destruct (orb _ _); cbn [fst]; [now apply urls_keyed_alter | exact Hk].
  - destruct dbid; cbn [fst]; [now apply urls_keyed_alter | exact Hk].
  - destruct dbid; cbn [fst]; [now apply urls_keyed_alter | exact Hk].
Qed.

Lemma reconcile_map_keyed now uid dn tops cnt d s :
  urls_keyed d -> urls_keyed (reconcile_map now uid dn tops cnt (d, s)).1.
Proof.
  intros Hk. unfold reconcile_map.
  set (d1 := if negb _ then _ else d).
  assert (H1 : urls_keyed d1).
  { subst d1. destruct (negb _); [now apply urls_keyed_alter | exact Hk]. }
  clearbody d1.
  pose proof (process_rows_frame now uid dn tops 1
                (reconcile_wr_candidate now uid dn tops (d1, s)).1
                (reconcile_wr_candidate now uid dn tops (d1, s)).2) as [Hm _].
  rewrite <- surjective_pairing in Hm. apply (urls_keyed_maps _ _ Hm).
  unfold reconcile_wr_candidate. destruct tops as [| e tops].
  - now apply reconcile_wr_keyed.
  - destruct (truthy_id (pj_id (te_player e))) as [wid |].
    + pose proof (upsert_wr_player_frame now wid
                    (default "UnknownWRPlayer" (pj_name (te_player e)))
                    (default ZEmpty (pj_zone (te_player e))) d1 s) as [Hw _].
      destruct (upsert_wr_player _ _ _ _ _) as [d2 s2]. cbn [fst] in Hw.
      apply reconcile_wr_keyed. now apply (urls_keyed_maps d1).
    + now apply reconcile_wr_keyed.
Qed.

Lemma process_entry_keyed fuel api now entry d s reqs d' s' reqs' :
  urls_keyed d ->
  process_entry fuel api now entry (d, s, reqs) = Some (d', s', reqs') ->
  urls_keyed d'.
Proof.
  intros Hk Hrun.
  destruct (extract_map_uid_from_url (url_template entry)) as [uid |] eqn:Huid.
  - rewrite (process_entry_unfold _ _ _ _ _ _ _ _ Huid) in Hrun.
    destruct (fetch_loop _ _ _ _ _ _ _ _ _) as [ls |] eqn:Hloop; [| discriminate].
    cbn [mbind option_bind] in Hrun.
    destruct (fetch_initial_outcome _ _ _ _ _ _ _ _ _ _ _ Hloop) as (Hd & _ & _).
    pose proof (reconcile_map_keyed now uid (name entry) (all_tops_for_map ls)
                  (map_total_playercount_api ls) (ls_db ls) s) as H.
    destruct (reconcile_map _ _ _ _ _ _) as [d2 s2]. injection Hrun as -> _ _.
    apply H. rewrite Hd. unfold fetch_db_effect.
    destruct (api _); [exact Hk | exact Hk | now apply upsert_map_keyed].
  - unfold process_entry in Hrun. rewrite Huid in Hrun. now injection Hrun as <- _ _.
Qed.

Lemma process_entries_keyed fuel api now entries : forall d s reqs d' s' reqs',
  urls_keyed d ->
  process_entries fuel api now entries (d, s, reqs) = Some (d', s', reqs') ->
  urls_keyed d'.
Proof.
  induction entries as [| entry entries IH]; intros d s reqs d' s' reqs' Hk Hrun.
  - cbn in Hrun. now injection Hrun as <- _ _.
  - cbn [process_entries] in Hrun.
    destruct (process_entry fuel api now entry (d, s, reqs)) as [[[d1 s1] r1] |] eqn:E;
      [| discriminate].
    cbn [mbind option_bind] in Hrun.
    eapply IH; [| exact Hrun]. eapply process_entry_keyed; [exact Hk | exact E].
Qed.

(** A run keeps the URLs keyed: every database that runs of the program
    build from the empty one is keyed. *)
Lemma fetch_and_process_data_keyed fuel api now entries d d' s' reqs' :
  urls_keyed d ->
  fetch_and_process_data fuel api now entries d = Some (RunDone (d', s', reqs')) ->
  urls_keyed d'.
Proof.
  intros Hk Hrun. unfold fetch_and_process_data in Hrun.
  destruct entries as [| entry entries]; [discriminate |].
  destruct (process_entries _ _ _ _ _) as [[[d1 s1] r1] |] eqn:E; [| discriminate].
  cbn in Hrun. injection Hrun as -> -> ->.
  eapply process_entries_keyed; [| exact E].
  intros k m. unfold reset_flags. cbn [maps]. rewrite lookup_fmap.
  destruct (maps d !! k) as [m0 |] eqn:Em; [| discriminate].
  cbn. intros [= <-]. cbn. now apply Hk.
Qed.
(** *** The world record of a map *)

Lemma opt_eqb_string x y : opt_eqb String.eqb x y = true <-> x = y.
Proof.
  destruct x as [a |], y as [b |]; cbn; try (split; [discriminate | congruence]).
  - rewrite String.eqb_eq. split; congruence.
  - now split.
Qed.

Lemma opt_eqb_Z (x y : option Z) : opt_eqb Z.eqb x y = true <-> x = y.
Proof.
  destruct x as [a |], y as [b |]; cbn; try (split; [discriminate | congruence]).
  - rewrite Z.eqb_eq. split; congruence.
  - now split.
Qed.

Lemma select_db_wr_stored d uid :
  exists old_name,
    select_db_wr d uid = (stored_wr_id d uid, stored_wr_time d uid, old_name).
Proof.
  unfold select_db_wr, stored_wr_id, stored_wr_time.
  destruct (maps d !! uid) as [m |]; cbn; eauto.
Qed.

(** The map rows once line 243 has corrected the player count. *)
Definition count_fixed (uid : string) (tops : list top_entry) (cnt : Z)
  (m : gmap string map_row) : gmap string map_row :=
  if negb (Z.of_nat (length tops) =? cnt)
  then alter (with_last_playercount (Z.of_nat (length tops))) uid m
  else m.

(** Whether the candidate is the stored snapshot. *)
Definition same_wr (d : db) (uid : string) (i : string) (t : Z) : Prop :=
  stored_wr_id d uid = Some i /\ stored_wr_time d uid = Some t.

Lemma reconcile_wr_outcome now uid dn wid wtime wts wname d s :
  let r := reconcile_wr now uid dn wid wtime wts wname (d, s) in
  players r.1 = players d /\ records r.1 = records d /\
  match truthy_id wid, wtime with
  | Some i, Some t =>
      (same_wr d uid i t -> r = (d, s)) /\
      (~ same_wr d uid i t ->
       maps r.1 = alter (with_wr (Some i) (Some t) wts now) uid (maps d) /\
       exists old_name,
         r.2 = add_wr (dn, wname, Some t, old_name, stored_wr_time d uid) s)
  | _, _ =>
      (stored_wr_id d uid <> None ->
       maps r.1 = alter (with_wr None None None now) uid (maps d) /\
       exists old_name,
         r.2 = add_wr (dn, no_wr_holder, None, old_name, stored_wr_time d uid) s) /\
      (stored_wr_id d uid = None -> r = (d, s))
  end.
Proof.
  cbv zeta. unfold reconcile_wr, same_wr.
  destruct (select_db_wr_stored d uid) as (old_name & ->).
  assert (Hclear :
    let r := match stored_wr_id d uid with
             | Some _ => (set_maps (alter (with_wr None None None now) uid) d,
                          add_wr (dn, no_wr_holder, None, old_name, stored_wr_time d uid) s)
             | None => (d, s)
             end in
    players r.1 = players d /\ records r.1 = records d /\
    (stored_wr_id d uid <> None ->
       maps r.1 = alter (with_wr None None None now) uid (maps d) /\
       exists old_name,
         r.2 = add_wr (dn, no_wr_holder, None, old_name, stored_wr_time d uid) s) /\
    (stored_wr_id d uid = None -> r = (d, s))).
  { destruct (stored_wr_id d uid) as [p |]; cbn.
    - split; [reflexivity | split; [reflexivity | split]].
      + intros _. split; [reflexivity | eauto].
      + discriminate.
    - split; [reflexivity | split; [reflexivity | split]].
      + intros H. now destruct H.
      + reflexivity. }
  destruct (truthy_id wid) as [i |]; [destruct wtime as [t |] |]; try exact Hclear.
  destruct (negb (opt_eqb String.eqb _ _) || negb (opt_eqb Z.eqb _ _)) eqn:Hdiff; cbn.
  - split; [reflexivity | split; [reflexivity | split]];
      [| intros _; split; [reflexivity | eauto]].
    intros [H1 H2]. apply (proj2 (opt_eqb_string _ _)) in H1.
    apply (proj2 (opt_eqb_Z _ _)) in H2. rewrite H1, H2 in Hdiff. discriminate.
  - split; [reflexivity | split; [reflexivity | split]]; [reflexivity |].
    intros Hn. exfalso. apply Hn.
    apply orb_false_iff in Hdiff as [H1 H2].
    apply negb_false_iff in H1, H2. apply (proj1 (opt_eqb_string _ _)) in H1.
    apply (proj1 (opt_eqb_Z _ _)) in H2. now split.
Qed.

Lemma stored_wr_maps d1 d2 uid :
  maps d1 = maps d2 ->
  stored_wr_id d1 uid = stored_wr_id d2 uid /\ stored_wr_time d1 uid = stored_wr_time d2 uid.
Proof. unfold stored_wr_id, stored_wr_time. now intros ->. Qed.

Lemma stored_wr_count_fixed d d0 uid tops cnt :
  maps d0 = count_fixed uid tops cnt (maps d) ->
  stored_wr_id d0 uid = stored_wr_id d uid /\ stored_wr_time d0 uid = stored_wr_time d uid.
Proof.
  unfold stored_wr_id, stored_wr_time, count_fixed. intros ->.
  destruct (negb _); [| now split].
  rewrite lookup_alter_eq. now destruct (maps d !! uid).
Qed.

(** The outcome of lines 238-335 for the map row and the WR events. *)
Lemma reconcile_map_wr now uid dn tops cnt d s :
  let r := reconcile_map now uid dn tops cnt (d, s) in
  let m0 := count_fixed uid tops cnt (maps d) in
  match wr_candidate tops with
  | Some (i, t) =>
      (same_wr d uid i t -> maps r.1 = m0 /\ new_wrs r.2 = new_wrs s) /\
      (~ same_wr d uid i t ->
       maps r.1 = alter (with_wr (Some i) (Some t) (head tops ≫= te_timestamp) now) uid m0 /\
       exists new_name old_name,
         new_wrs r.2
         = (new_wrs s ++ [(dn, new_name, Some t, old_name, stored_wr_time d uid)])%list)
  | None =>
      (stored_wr_id d uid <> None ->
       maps r.1 = alter (with_wr None None None now) uid m0 /\
       exists old_name,
         new_wrs r.2
         = (new_wrs s ++ [(dn, no_wr_holder, None, old_name, stored_wr_time d uid)])%list) /\
      (stored_wr_id d uid = None -> maps r.1 = m0 /\ new_wrs r.2 = new_wrs s)
  end.
Proof.
  cbv zeta. unfold reconcile_map.
  set (d0 := if negb _ then _ else d).
  assert (Hm0 : maps d0 = count_fixed uid tops cnt (maps d)).
  { subst d0. unfold count_fixed. now destruct (negb _). }
  clearbody d0.
  destruct (stored_wr_count_fixed d d0 uid tops cnt Hm0) as [Hsid Hstime].
  set (st1 := reconcile_wr_candidate now uid dn tops (d0, s)).
  pose proof (process_rows_frame now uid dn tops 1 st1.1 st1.2) as Hrows.
  cbv zeta in Hrows. rewrite <- surjective_pairing in Hrows.
  destruct Hrows as [-> ->]. subst st1. rewrite <- Hm0. unfold same_wr.
  rewrite <- Hsid, <- Hstime. clear Hm0 Hsid Hstime.
  unfold reconcile_wr_candidate, wr_candidate, row_id.
  destruct tops as [| e rest].
  - pose proof (reconcile_wr_outcome now uid dn None None None "N/A" d0 s) as H.
    cbv zeta in H. cbn [truthy_id] in H. destruct H as (_ & _ & Hyes & Hno). split.
    + intros Hn. destruct (Hyes Hn) as [Hmaps (old_name & ->)].
      split; [exact Hmaps | now exists old_name].
    + intros Hn. now rewrite (Hno Hn).
  - cbn [head mbind option_bind].
    set (st1 := match truthy_id (pj_id (te_player e)) with
                | Some wr_id => upsert_wr_player _ _ _ _ _
                | None => _
                end).
    assert (Hst1 : maps st1.1 = maps d0 /\ new_wrs st1.2 = new_wrs s).
    { subst st1. destruct (truthy_id (pj_id (te_player e))) as [wid |]; [| now split].
      pose proof (upsert_wr_player_frame now wid
                    (default "UnknownWRPlayer" (pj_name (te_player e)))
                    (default ZEmpty (pj_zone (te_player e))) d0 s) as H.
      cbv zeta in H. now destruct H as (H1 & _ & _ & _ & H5 & _). }
    clearbody st1. destruct st1 as [d1 s1]. cbn [fst snd] in Hst1. destruct Hst1 as [Hm1 Hw1].
    destruct (stored_wr_maps d1 d0 uid Hm1) as [Hsid Hstime].
    pose proof (reconcile_wr_outcome now uid dn (pj_id (te_player e)) (te_time e)
                  (te_timestamp e) (default "UnknownWRPlayer" (pj_name (te_player e)))
                  d1 s1) as H.
    cbv zeta in H. unfold same_wr in H. rewrite Hsid, Hstime, Hm1 in H.
    destruct H as (_ & _ & H).
    destruct (truthy_id (pj_id (te_player e))) as [i |]; [destruct (te_time e) as [t |] |].
    + destruct H as [Hsame Hdiff]. split.
      * intros Hs. rewrite (Hsame Hs). cbn. now split.
      * intros Hn. destruct (Hdiff Hn) as [Hmaps (old_name & ->)].
        split; [exact Hmaps |]. cbn. rewrite Hw1. eauto.
    + destruct H as [Hyes Hno]. split.
      * intros Hn. destruct (Hyes Hn) as [Hmaps (old_name & ->)].
        split; [exact Hmaps |]. cbn. rewrite Hw1. eauto.
      * intros Hn. rewrite (Hno Hn). cbn. now split.
    + destruct H as [Hyes Hno]. split.
      * intros Hn. destruct (Hyes Hn) as [Hmaps (old_name & ->)].
        split; [exact Hmaps |]. cbn. rewrite Hw1. eauto.
      * intros Hn. rewrite (Hno Hn). cbn. now split.
Qed.

Lemma stored_wr_upsert uid tmpl dn ord now c d :
  stored_wr_id (upsert_map uid tmpl dn ord now c d) uid = stored_wr_id d uid /\
  stored_wr_time (upsert_map uid tmpl dn ord now c d) uid = stored_wr_time d uid /\
  is_Some (maps (upsert_map uid tmpl dn ord now c d) !! uid).
Proof.
  unfold stored_wr_id, stored_wr_time, upsert_map. cbn.
  rewrite lookup_alter_eq. destruct (maps d !! uid) as [m |] eqn:E.
  - rewrite E. cbn. repeat split. eauto.
  - rewrite lookup_insert_eq. cbn. repeat split. eauto.
Qed.

Lemma stored_wr_fetch_db_effect api base uid tmpl dn ord now d :
  stored_wr_id (fetch_db_effect api base uid tmpl dn ord now d) uid = stored_wr_id d uid /\
  stored_wr_time (fetch_db_effect api base uid tmpl dn ord now d) uid = stored_wr_time d uid.
Proof.
  unfold fetch_db_effect. destruct (api _) as [| | pc tp]; try now split.
  destruct (stored_wr_upsert uid tmpl dn ord now (default 0 pc) d) as (H1 & H2 & _).
  now split.
Qed.

Lemma count_fixed_is_Some uid tops cnt m :
  is_Some (m !! uid) -> is_Some (count_fixed uid tops cnt m !! uid).
Proof.
  intros [x Hx]. unfold count_fixed. destruct (negb _); [| eauto].
  rewrite lookup_alter_eq, Hx. cbn. eauto.
Qed.

(** The snapshot once [with_wr] has been applied to the row of the map. *)
Lemma stored_wr_after_update d' uid holder time game_ts now m0 :
  maps d' = alter (with_wr holder time game_ts now) uid m0 ->
  is_Some (m0 !! uid) ->
  stored_wr_id d' uid = holder /\ stored_wr_time d' uid = time /\
  is_new_wr_since_last_fetch <$> maps d' !! uid = Some true /\
  wr_script_recorded_at <$> maps d' !! uid = Some (Some now).
Proof.
  intros Hm [x Hx]. unfold stored_wr_id, stored_wr_time.
  rewrite Hm, lookup_alter_eq, Hx. cbn. repeat split.
Qed.

(** A map with a stored holder has a row. *)
Lemma stored_wr_id_row d uid : stored_wr_id d uid <> None -> is_Some (maps d !! uid).
Proof.
  unfold stored_wr_id. destruct (maps d !! uid) as [m |]; [eauto | intros H; now destruct H].
Qed.

Lemma fetch_db_effect_row api base uid tmpl dn ord now d :
  is_Some (maps d !! uid) ->
  is_Some (maps (fetch_db_effect api base uid tmpl dn ord now d) !! uid).
Proof.
  intros H. unfold fetch_db_effect. destruct (api _) as [| | pc tp]; try exact H.
  now destruct (stored_wr_upsert uid tmpl dn ord now (default 0 pc) d) as (_ & _ & H3).
Qed.

Lemma fetch_db_effect_row_response api base uid tmpl dn ord now d pc tp :
  api (page_url base 0) = Response pc tp ->
  is_Some (maps (fetch_db_effect api base uid tmpl dn ord now d) !! uid).
Proof.
  intros H. unfold fetch_db_effect. rewrite H.
  now destruct (stored_wr_upsert uid tmpl dn ord now (default 0 pc) d) as (_ & _ & H3).
Qed.

Lemma wr_candidate_nonempty tops c : wr_candidate tops = Some c -> tops <> [].
Proof. now destruct tops. Qed.

(** The WR step at the level of one entry of the map list. *)
Lemma process_entry_wr fuel api now entry uid d s reqs d' s' reqs' :
  extract_map_uid_from_url (url_template entry) = Some uid ->
  process_entry fuel api now entry (d, s, reqs) = Some (d', s', reqs') ->
  let tops := leaderboard_of fuel api entry in
  (forall i t, wr_candidate tops = Some (i, t) -> same_wr d uid i t ->
     new_wrs s' = new_wrs s /\ same_wr d' uid i t) /\
  (forall i t, wr_candidate tops = Some (i, t) -> ~ same_wr d uid i t ->
     (exists new_name old_name,
        new_wrs s'
        = (new_wrs s ++ [(name entry, new_name, Some t, old_name, stored_wr_time d uid)])%list)
     /\ same_wr d' uid i t /\
     is_new_wr_since_last_fetch <$> maps d' !! uid = Some true) /\
  (wr_candidate tops = None -> stored_wr_id d uid <> None ->
     (exists old_name,
        new_wrs s'
        = (new_wrs s ++ [(name entry, no_wr_holder, None, old_name,
                          stored_wr_time d uid)])%list)
     /\ stored_wr_id d' uid = None /\ stored_wr_time d' uid = None /\
     is_new_wr_since_last_fetch <$> maps d' !! uid = Some true) /\
  (wr_candidate tops = None -> stored_wr_id d uid = None ->
     new_wrs s' = new_wrs s /\ stored_wr_id d' uid = None /\
     stored_wr_time d' uid = stored_wr_time d uid).
Proof.
  intros Huid Hrun. cbv zeta.
  rewrite (process_entry_unfold _ _ _ _ _ _ _ _ Huid) in Hrun.
  destruct (fetch_loop _ _ _ _ _ _ _ _ _) as [ls |] eqn:Hfetch; [| discriminate].
  cbn [mbind option_bind] in Hrun.
  rewrite (leaderboard_of_fetch _ _ _ _ _ _ _ _ Huid Hfetch).
  destruct (fetch_initial_outcome _ _ _ _ _ _ _ _ _ _ _ Hfetch) as (Hdb & _ & Hrow).
  set (tops := all_tops_for_map ls) in *. set (cnt := map_total_playercount_api ls) in *.
  pose proof (reconcile_map_wr now uid (name entry) tops cnt (ls_db ls) s) as H.
  cbv zeta in H.
  destruct (reconcile_map now uid (name entry) tops cnt (ls_db ls, s)) as [d1 s1].
  injection Hrun as <- <- <-. cbn [fst snd] in H.
  destruct (stored_wr_fetch_db_effect api (base_api_url_of (url_template entry)) uid
              (url_template entry) (name entry) (entry_fetch_order entry) now d)
    as [Hsid Hstime].
  rewrite <- Hdb in Hsid, Hstime. unfold same_wr in *. rewrite Hsid, Hstime in H.
  assert (Hkeep : maps d1 = count_fixed uid tops cnt (maps (ls_db ls)) ->
                  stored_wr_id d1 uid = stored_wr_id d uid /\
                  stored_wr_time d1 uid = stored_wr_time d uid).
  { intros Hm. destruct (stored_wr_count_fixed (ls_db ls) d1 uid tops cnt Hm) as [-> ->].
    now split. }
  assert (Hrow1 : tops <> [] ->
                  is_Some (count_fixed uid tops cnt (maps (ls_db ls)) !! uid)).
  { intros Hne. apply count_fixed_is_Some. destruct (Hrow Hne) as (pc & tp & Hapi).
    rewrite Hdb. eapply fetch_db_effect_row_response, Hapi. }
  assert (Hrow2 : stored_wr_id d uid <> None ->
                  is_Some (count_fixed uid tops cnt (maps (ls_db ls)) !! uid)).
  { intros Hne. apply count_fixed_is_Some. rewrite Hdb.
    apply fetch_db_effect_row, stored_wr_id_row, Hne. }
  split; [| split; [| split]].
  - intros i t Hc [Hs1 Hs2]. rewrite Hc in H. destruct H as [Hsame _].
    destruct (Hsame (conj Hs1 Hs2)) as [Hm Hw]. destruct (Hkeep Hm) as [K1 K2].
    split; [exact Hw | split; congruence].
  - intros i t Hc Hn. rewrite Hc in H. destruct H as [_ Hdiff].
    destruct (Hdiff Hn) as [Hm Hev].
    destruct (stored_wr_after_update d1 uid _ _ _ _ _ Hm
                (Hrow1 (wr_candidate_nonempty _ _ Hc))) as (A1 & A2 & A3 & _).
    split; [exact Hev | split; [now split | exact A3]].
  - intros Hc Hn. rewrite Hc in H. destruct H as [Hyes _].
    destruct (Hyes Hn) as [Hm Hev].
    destruct (stored_wr_after_update d1 uid _ _ _ _ _ Hm (Hrow2 Hn)) as (A1 & A2 & A3 & _).
    split; [exact Hev | split; [exact A1 | split; [exact A2 | exact A3]]].
  - intros Hc Hn. rewrite Hc in H. destruct H as [_ Hno].
    destruct (Hno Hn) as [Hm Hw]. destruct (Hkeep Hm) as [K1 K2].
    split; [exact Hw | split; congruence].
Qed.

Definition sample_entry : map_url_entry :=
  MapUrlEntry "https://trackmania.io/api/leaderboard/map/ABC" "Map" 0.

(** C2, as the specification states it, fails on a rank-1 row without a
    player id (such rows are skipped) for a map without a stored WR: the
    fetched time differs from the stored one, and no WR event is recorded. *)
Lemma wr_reconciliation_counterexample :
  let first_row := TopEntry (PlayerJson None (Some "Ghost") None) (Some 10000) (Some 0) None in
  let api : api_server := fun _ => Response (Some 1) (Some [first_row]) in
  let d := Db ∅ ∅ ∅ in
  exists d' s' reqs',
    process_entry 5 api "t1" sample_entry (d, empty_session, []) = Some (d', s', reqs') /\
    leaderboard_of 5 api sample_entry = [first_row] /\
    wr_change_as_specified [first_row] (stored_wr_id d "ABC") (stored_wr_time d "ABC") /\
    new_wrs s' = [] /\
    stored_wr_id d' "ABC" = None /\ stored_wr_time d' "ABC" = None.
Proof.
  cbv zeta. do 3 eexists. split; [vm_compute; reflexivity |].
  repeat split; try (vm_compute; reflexivity).
  right. vm_compute. discriminate.
Qed.

(** C2 (amended). In a store where every map row is kept under the UID of
    its own URL, as in every store that the program has written: for every
    map, a WR-change event is recorded and the stored WR snapshot overwritten
    exactly when either the rank-1 row carries a (non-empty) holder id and a
    time, and the id or the time differs from the stored one, or the
    leaderboard has no such row (it is empty, or its first row lacks the id
    or the time) and a stored holder existed; in the latter case the event
    has no new holder and the snapshot is cleared to no-WR.  Otherwise no WR
    event is recorded and the snapshot stays.  In particular an empty
    leaderboard for a map with a prior WR holder yields one WR-change event
    with no new holder and clears the snapshot. *)
Theorem wr_reconciliation (fuel : nat) (api : api_server) (now : string)
  (entry : map_url_entry) (uid : string) (d : db) (s : session) (reqs : list string)
  (d' : db) (s' : session) (reqs' : list string) :
  urls_keyed d ->
  extract_map_uid_from_url (url_template entry) = Some uid ->
  process_entry fuel api now entry (d, s, reqs) = Some (d', s', reqs') ->
  let tops := leaderboard_of fuel api entry in
  (forall i t, wr_candidate tops = Some (i, t) -> same_wr d uid i t ->
     new_wrs s' = new_wrs s /\ same_wr d' uid i t) /\
  (forall i t, wr_candidate tops = Some (i, t) -> ~ same_wr d uid i t ->
     (exists new_name old_name,
        new_wrs s'
        = (new_wrs s ++ [(name entry, new_name, Some t, old_name, stored_wr_time d uid)])%list)
     /\ same_wr d' uid i t /\
     is_new_wr_since_last_fetch <$> maps d' !! uid = Some true) /\
  (wr_candidate tops = None -> stored_wr_id d uid <> None ->
     (exists old_name,
        new_wrs s'
        = (new_wrs s ++ [(name entry, no_wr_holder, None, old_name,
                          stored_wr_time d uid)])%list)
     /\ stored_wr_id d' uid = None /\ stored_wr_time d' uid = None /\
     is_new_wr_since_last_fetch <$> maps d' !! uid = Some true) /\
  (wr_candidate tops = None -> stored_wr_id d uid = None ->
     new_wrs s' = new_wrs s /\ stored_wr_id d' uid = None /\
     stored_wr_time d' uid = stored_wr_time d uid).
Proof. intros _. apply process_entry_wr. Qed.

Definition map_with_wr : map_row :=
  MapRow "https://trackmania.io/api/leaderboard/map/ABC" "Map" 1 "t0" (Some "p1")
         (Some 10000) (Some "2024-01-01T00:00:00") (Some "t0") false 0.

Lemma wr_reconciliation_witness :
  let api : api_server := fun _ => Response (Some 0) (Some []) in
  let d := Db {[ "ABC" := map_with_wr ]} ∅ ∅ in
  exists d' s' reqs',
    process_entry 5 api "t1" sample_entry (d, empty_session, []) = Some (d', s', reqs') /\
    (exists old_name,
       new_wrs s' = [("Map", no_wr_holder, None, old_name, Some 10000)]) /\
    stored_wr_id d' "ABC" = None /\ stored_wr_time d' "ABC" = None /\
    is_new_wr_since_last_fetch <$> maps d' !! "ABC" = Some true.
Proof.
  cbv zeta.
  destruct (process_entry 5 (fun _ => Response (Some 0) (Some [])) "t1" sample_entry
              (Db {[ "ABC" := map_with_wr ]} ∅ ∅, empty_session, []))
    as [[[d' s'] reqs'] |] eqn:Hrun; [| vm_compute in Hrun; discriminate].
  exists d', s', reqs'. split; [reflexivity |].
  assert (Hkeyed : urls_keyed (Db {[ "ABC" := map_with_wr ]} ∅ ∅))
    by (apply urls_keyedb_spec; vm_compute; reflexivity).
  destruct (wr_reconciliation 5 (fun _ => Response (Some 0) (Some [])) "t1" sample_entry
              "ABC" _ _ _ d' s' reqs' Hkeyed eq_refl Hrun) as (_ & _ & H3 & _).
  apply H3; [vm_compute; reflexivity | vm_compute; discriminate].
Defined.

(** C5. When the first page request of a map fails (transport error or
    malformed JSON body) and the store holds a WR snapshot for the map, the
    reconciliation runs on the empty list: the snapshot is cleared to no-WR
    and a WR-change event with no new holder is emitted, so that the row of
    the map is not left as it was.  The event is appended to the WR events
    of the session, with the name of the map, the stored name of the former
    holder (["N/A"] without one) and the former time; the other events, the
    other maps, the players and the records stay as they are. *)
Theorem first_page_failure_clears_wr (fuel : nat) (api : api_server) (now : string)
  (entry : map_url_entry) (uid : string) (d : db) (s : session) (reqs : list string)
  (m : map_row) (holder : string) :
  extract_map_uid_from_url (url_template entry) = Some uid ->
  api (page_url (base_api_url_of (url_template entry)) 0) = RequestError \/
  api (page_url (base_api_url_of (url_template entry)) 0) = JSONError ->
  maps d !! uid = Some m ->
  wr_player_id m = Some holder ->
  exists d' s',
    process_entry (S fuel) api now entry (d, s, reqs)
    = Some (d', s', (reqs ++ [page_url (base_api_url_of (url_template entry)) 0])%list) /\
    new_wrs s'
    = (new_wrs s ++
       [(name entry, "None (Empty Leaderboard or WR Deleted)", None,
         match last_known_name <$> players d !! holder with
         | Some n => if String.eqb n "" then "N/A" else n
         | None => "N/A"
         end,
         wr_time_ms m)])%list /\
    newly_added_players s' = newly_added_players s /\
    new_pbs s' = new_pbs s /\
    new_players_on_map s' = new_players_on_map s /\
    player_name_changes s' = player_name_changes s /\
    maps d' !! uid
    = Some (MapRow (api_url m) (map_display_name m) (last_playercount m)
                   (last_fetched_at m) None None None (Some now) true (fetch_order m)) /\
    maps d' !! uid <> maps d !! uid /\
    (forall k, k <> uid -> maps d' !! k = maps d !! k) /\
    players d' = players d /\ records d' = records d.
Proof.
  intros Huid Hfail Hm Hholder.
  assert (Hloop : fetch_loop (S fuel) api (base_api_url_of (url_template entry)) uid
                    (url_template entry) (name entry) (entry_fetch_order entry) now
                    (initial_loop_state d reqs)
                  = Some (note_request (page_url (base_api_url_of (url_template entry)) 0)
                            (initial_loop_state d reqs))).
  { cbn [fetch_loop initial_loop_state current_offset].
    change (paginated_api_url_of (base_api_url_of (url_template entry)) 0)
      with (page_url (base_api_url_of (url_template entry)) 0).
    now destruct Hfail as [-> | ->]. }
  rewrite (process_entry_unfold _ _ _ _ _ _ _ _ Huid), Hloop.
  cbn [mbind option_bind note_request initial_loop_state all_tops_for_map
       map_total_playercount_api ls_db requested].
  unfold reconcile_map, reconcile_wr_candidate, reconcile_wr, select_db_wr.
  change (negb (Z.of_nat (length (@nil top_entry)) =? 0)) with false.
  cbn [process_rows truthy_id]. cbv iota. rewrite Hm, Hholder.
  eexists. eexists. split; [reflexivity |].
  cbn [add_wr new_wrs newly_added_players new_pbs new_players_on_map
       player_name_changes set_maps maps players records].
  rewrite lookup_alter_eq, Hm.
  split; [reflexivity |]. do 4 (split; [reflexivity |]).
  split; [reflexivity |]. split; [| split; [| now split]].
  - cbn. intros [= E]. rewrite <- E in Hholder. discriminate.
  - intros k Hk. now rewrite lookup_alter_ne by congruence.
Qed.

Lemma first_page_failure_clears_wr_witness :
  let api : api_server := fun _ => RequestError in
  let d := Db {[ "ABC" := map_with_wr ]} ∅ ∅ in
  exists d' s',
    process_entry 1 api "t1" sample_entry (d, empty_session, [])
    = Some (d', s',
            ["https://trackmania.io/api/leaderboard/map/ABC?offset=0&length=100"]) /\
    new_wrs s' = [("Map", "None (Empty Leaderboard or WR Deleted)", None, "N/A",
                   Some 10000)] /\
    maps d' !! "ABC"
    = Some (MapRow "https://trackmania.io/api/leaderboard/map/ABC" "Map" 1 "t0"
                   None None None (Some "t1") true 0).
Proof.
  cbv zeta.
  destruct (first_page_failure_clears_wr 0 (fun _ => RequestError) "t1" sample_entry "ABC"
              (Db {[ "ABC" := map_with_wr ]} ∅ ∅) empty_session [] map_with_wr "p1"
              ltac:(vm_compute; reflexivity) (or_introl eq_refl)
              ltac:(vm_compute; reflexivity) eq_refl)
    as (d' & s' & Hrun & Hev & _ & _ & _ & _ & Hrow & _).
  exists d', s'. split; [exact Hrun |]. split; [exact Hev | exact Hrow].
Defined.

(** *** Name changes *)

Lemma name_change_logged_key pid pname changes :
  name_change_logged pid pname changes = true
  <-> (pid, pname) ∈ name_change_key <$> changes.
Proof.
  unfold name_change_logged. rewrite existsb_exists, list_elem_of_fmap. split.
  - intros (c & Hin & Hc). apply andb_true_iff in Hc as [H1 H2].
    apply String.eqb_eq in H1, H2. exists c. split.
    + unfold name_change_key. now rewrite H1, H2.
    + now apply list_elem_of_In.
  - intros (c & Hkey & Hin). exists c. split; [now apply list_elem_of_In |].
    unfold name_change_key in Hkey. injection Hkey as -> ->.
    now rewrite !String.eqb_refl.
Qed.

(** What the run keeps true of the name changes logged so far: no two of
    them have the same player id and new name, and each pairs a player id
    with a new name that [Q] admits. *)
Definition changes_ok (Q : string -> string -> Prop) (s : session) : Prop :=
  NoDup (name_change_key <$> player_name_changes s) /\
  forall c, c ∈ player_name_changes s -> Q c.1.1 c.2.

Section Changes.
Variable Q : string -> string -> Prop.

Lemma changes_ok_log p old pname s :
  changes_ok Q s -> Q p pname ->
  changes_ok Q
    (if name_change_logged p pname (player_name_changes s) then s
     else add_name_change (p, old, pname) s).
Proof.
  intros [Hnd Hall] Hname.
  destruct (name_change_logged _ _ _) eqn:Hlog; [now split |].
  unfold changes_ok, add_name_change. cbn [player_name_changes]. split.
  - rewrite fmap_app. cbn. apply NoDup_app. repeat split.
    + exact Hnd.
    + intros k Hk Hk'. apply list_elem_of_singleton in Hk'. subst k.
      apply (proj2 (name_change_logged_key _ _ _)) in Hk. cbn in Hk. congruence.
    + apply NoDup_singleton.
  - intros c Hc. apply elem_of_app in Hc as [Hc | Hc]; [now apply Hall |].
    apply list_elem_of_singleton in Hc. now subst c.
Qed.

Lemma changes_ok_same s s' :
  player_name_changes s' = player_name_changes s -> changes_ok Q s -> changes_ok Q s'.
Proof. unfold changes_ok. now intros ->. Qed.

Lemma upsert_player_changes now p pname z d s :
  changes_ok Q s -> Q p pname ->
  changes_ok Q (upsert_player now p pname z (d, s)).2.
Proof.
  intros Hok Hname. unfold upsert_player.
  destruct (get_actual_country_info z) as [cn cf].
  destruct (players d !! p) as [row |]; cbn [snd].
  - destruct (negb _); [now apply changes_ok_log | exact Hok].
  - exact Hok.
Qed.

Lemma upsert_wr_player_changes now p pname z d s :
  changes_ok Q s -> Q p pname ->
  changes_ok Q (upsert_wr_player now p pname z (d, s)).2.
Proof.
  intros Hok Hname. unfold upsert_wr_player.
  destruct (get_actual_country_info z) as [cn cf].
  destruct (players d !! p) as [row |]; cbn [snd].
  - destruct (negb _); cbn [snd]; [now apply changes_ok_log | exact Hok].
  - exact Hok.
Qed.

(** Every row of [rows] that is processed pairs its player id with names
    that [Q] admits: the name of line 292 and the one of line 252. *)
Definition admitted (rows : list top_entry) : Prop :=
  forall e p, e ∈ rows -> row_id e = Some p ->
    Q p (default "Unknown" (pj_name (te_player e))) /\
    Q p (default "UnknownWRPlayer" (pj_name (te_player e))).

Lemma process_row_changes now uid dn rank e d s :
  changes_ok Q s ->
  (forall p, row_id e = Some p -> Q p (default "Unknown" (pj_name (te_player e)))) ->
  changes_ok Q (process_row now uid dn rank e (d, s)).2.
Proof.
  intros Hok Hname. destruct (row_id e) as [p |] eqn:Hid.
  - rewrite (process_row_with_id _ _ _ _ _ _ _ Hid).
    pose proof (upsert_player_changes now p
                  (default "Unknown" (pj_name (te_player e)))
                  (default ZEmpty (pj_zone (te_player e))) d s Hok (Hname p eq_refl)) as H1.
    destruct (upsert_player _ _ _ _ _) as [d1 s1].
    pose proof (upsert_record_frame now uid dn p
                  (default "Unknown" (pj_name (te_player e))) rank e d1 s1) as H2.
    cbv zeta in H2. destruct H2 as (_ & _ & _ & H2 & _).
    eapply changes_ok_same; [exact H2 | exact H1].
  - now rewrite (process_row_without_id _ _ _ _ _ _ Hid).
Qed.

Lemma process_rows_changes now uid dn rows : forall rank d s,
  changes_ok Q s -> admitted rows ->
  changes_ok Q (process_rows now uid dn rank rows (d, s)).2.
Proof.
  induction rows as [| e rows IH]; intros rank d s Hok Hadm; [exact Hok |].
  cbn [process_rows].
  pose proof (process_row_changes now uid dn rank e d s Hok
                (fun p Hp => proj1 (Hadm e p ltac:(left) Hp))) as H1.
  destruct (process_row now uid dn rank e (d, s)) as [d1 s1].
  apply IH; [exact H1 |]. intros e' p He'. apply Hadm. now right.
Qed.

Lemma reconcile_map_changes now uid dn tops cnt d s :
  changes_ok Q s -> admitted tops ->
  changes_ok Q (reconcile_map now uid dn tops cnt (d, s)).2.
Proof.
  intros Hok Hadm. unfold reconcile_map.
  set (d0 := if negb _ then _ else d). clearbody d0.
  set (st1 := reconcile_wr_candidate now uid dn tops (d0, s)).
  assert (H1 : changes_ok Q st1.2).
  { subst st1. unfold reconcile_wr_candidate. destruct tops as [| e rest].
    - pose proof (reconcile_wr_frame now uid dn None None None "N/A" d0 s) as H.
      cbv zeta in H. destruct H as (_ & _ & _ & _ & H & _).
      eapply changes_ok_same; [exact H | exact Hok].
    - set (st0 := match truthy_id (pj_id (te_player e)) with
                  | Some wr_id => upsert_wr_player _ _ _ _ _
                  | None => _
                  end).
      assert (H0 : changes_ok Q st0.2).
      { subst st0. destruct (truthy_id (pj_id (te_player e))) as [wid |] eqn:Hid;
          [| exact Hok].
        apply upsert_wr_player_changes; [exact Hok |].
        exact (proj2 (Hadm e wid ltac:(left) Hid)). }
      clearbody st0. destruct st0 as [d1 s1].
      pose proof (reconcile_wr_frame now uid dn (pj_id (te_player e)) (te_time e)
                    (te_timestamp e) (default "UnknownWRPlayer" (pj_name (te_player e)))
                    d1 s1) as H.
      cbv zeta in H. destruct H as (_ & _ & _ & _ & H & _).
      eapply changes_ok_same; [exact H | exact H0]. }
  clearbody st1. destruct st1 as [d1 s1]. now apply process_rows_changes.
Qed.

Lemma process_entry_changes fuel api now entry rs rs' :
  process_entry fuel api now entry rs = Some rs' ->
  changes_ok Q rs.1.2 -> admitted (leaderboard_of fuel api entry) ->
  changes_ok Q rs'.1.2.
Proof.
  destruct rs as [[d s] reqs]. intros Hrun Hok Hadm.
  destruct (extract_map_uid_from_url (url_template entry)) as [uid |] eqn:Huid.
  - rewrite (process_entry_unfold _ _ _ _ _ _ _ _ Huid) in Hrun.
    destruct (fetch_loop _ _ _ _ _ _ _ _ _) as [ls |] eqn:Hfetch; [| discriminate].
    cbn [mbind option_bind] in Hrun.
    rewrite (leaderboard_of_fetch _ _ _ _ _ _ _ _ Huid Hfetch) in Hadm.
    injection Hrun as <-. cbn [fst snd].
    now apply reconcile_map_changes.
  - unfold process_entry in Hrun. rewrite Huid in Hrun. now injection Hrun as <-.
Qed.

Lemma process_entries_changes fuel api now entries : forall rs rs',
  process_entries fuel api now entries rs = Some rs' ->
  changes_ok Q rs.1.2 ->
  (forall entry, entry ∈ entries -> admitted (leaderboard_of fuel api entry)) ->
  changes_ok Q rs'.1.2.
Proof.
  induction entries as [| entry entries IH]; intros rs rs' Hrun Hok Hadm.
  - now injection Hrun as <-.
  - cbn [process_entries] in Hrun.
    destruct (process_entry fuel api now entry rs) as [rs1 |] eqn:H1; [| discriminate].
    cbn [mbind option_bind] in Hrun.
    apply (IH rs1 rs' Hrun).
    + apply (process_entry_changes _ _ _ _ _ _ H1 Hok). apply Hadm. now left.
    + intros e He. apply Hadm. now right.
Qed.

End Changes.

(** Every row of [rows] that belongs to [pid] names the player [n]. *)
Definition named (pid n : string) (rows : list top_entry) : Prop :=
  forall e, e ∈ rows -> row_id e = Some pid -> pj_name (te_player e) = Some n.

Lemma fetch_and_process_data_changes Q fuel api now entries d d' s' reqs' :
  fetch_and_process_data fuel api now entries d = Some (RunDone (d', s', reqs')) ->
  (forall entry, entry ∈ entries -> admitted Q (leaderboard_of fuel api entry)) ->
  changes_ok Q s'.
Proof.
  intros Hrun Hadm. unfold fetch_and_process_data in Hrun.
  destruct entries as [| entry entries]; [discriminate |].
  destruct (process_entries _ _ _ _ _) as [rs' |] eqn:Hrs; [| discriminate].
  injection Hrun as ->.
  apply (process_entries_changes Q _ _ _ _ _ _ Hrs); [| exact Hadm].
  split; [constructor | intros c Hc; inversion Hc].
Qed.

(** One key, no two entries with that key: at most one entry. *)
Lemma at_most_one_with_key pid n (changes : list name_change) :
  NoDup (name_change_key <$> changes) ->
  (forall c, c ∈ changes -> c.1.1 = pid -> c.2 = n) ->
  (length (filter (fun c : name_change => c.1.1 = pid) changes) <= 1)%nat.
Proof.
  intros Hnd Hall.
  assert (Hsub : NoDup (name_change_key <$> filter (fun c : name_change => c.1.1 = pid) changes)).
  { eapply sublist_NoDup; [exact Hnd |]. apply fmap_sublist, sublist_filter. }
  assert (Hkey : forall c, c ∈ filter (fun c : name_change => c.1.1 = pid) changes ->
                           name_change_key c = (pid, n)).
  { intros c Hc. apply list_elem_of_filter in Hc as [Hp Hin].
    unfold name_change_key. now rewrite Hp, (Hall c Hin Hp). }
  destruct (filter _ changes) as [| a [| b rest]]; cbn; try lia.
  exfalso. cbn in Hsub. rewrite (Hkey a), (Hkey b) in Hsub by (repeat constructor).
  apply NoDup_cons in Hsub as [Hnot _]. apply Hnot. now left.
Qed.

Definition named_row (pid pname : string) : top_entry :=
  TopEntry (PlayerJson (Some pid) (Some pname) None) (Some 50000) (Some 0) None.

Definition second_entry : map_url_entry :=
  MapUrlEntry "https://trackmania.io/api/leaderboard/map/DEF" "Map 2" 1.

(** A server with two maps that list the same player, under the name [n1]
    on the first map and [n2] on the second. *)
Definition api_two_maps (n1 n2 : string) : api_server := fun url =>
  if String.prefix "https://trackmania.io/api/leaderboard/map/ABC" url
  then Response (Some 1) (Some [named_row "p1" n1])
  else Response (Some 1) (Some [named_row "p1" n2]).

Definition db_with_player : db :=
  Db ∅ {[ "p1" := PlayerRow "Old" "Unknown" "WOR" "t0" ]} ∅.

(** C3, as the specification states it, fails when two maps report
    different new names for a player: one run logs two name changes. *)
Lemma name_change_counterexample :
  exists d' s' reqs',
    fetch_and_process_data 5 (api_two_maps "New" "Newer") "t1"
                           [sample_entry; second_entry] db_with_player
    = Some (RunDone (d', s', reqs')) /\
    player_name_changes s' = [("p1", "Old", "New"); ("p1", "New", "Newer")] /\
    length (name_changes_of "p1" s') = 2%nat.
Proof. do 3 eexists. repeat split; vm_compute; reflexivity. Qed.

(** C3 (amended). Within one fetch run at most one name-change event is
    appended for every pair of a player id and a new name; so a player whom
    every fetched row of the run reports under one and the same name gets at
    most one name-change event, in however many leaderboards the player
    appears. *)
Theorem name_change_dedup (fuel : nat) (api : api_server) (now : string)
  (entries : list map_url_entry) (d d' : db) (s' : session) (reqs' : list string) :
  fetch_and_process_data fuel api now entries d = Some (RunDone (d', s', reqs')) ->
  NoDup (name_change_key <$> player_name_changes s') /\
  forall pid n,
    (forall entry, entry ∈ entries -> named pid n (leaderboard_of fuel api entry)) ->
    (length (name_changes_of pid s') <= 1)%nat.
Proof.
  intros Hrun. split.
  - apply (fetch_and_process_data_changes (fun _ _ => True) _ _ _ _ _ _ _ _ Hrun).
    intros entry _ e p _ _. now split.
  - intros pid n Hnamed.
    destruct (fetch_and_process_data_changes (fun p pname => p = pid -> pname = n)
                _ _ _ _ _ _ _ _ Hrun) as [Hnd Hall].
    + intros entry Hentry e p He Hid.
      split; intros ->; now rewrite (Hnamed entry Hentry e He Hid).
    + unfold name_changes_of. now apply at_most_one_with_key with (n := n).
Qed.

Lemma name_change_dedup_witness :
  exists d' s' reqs',
    fetch_and_process_data 5 (api_two_maps "New" "New") "t1"
                           [sample_entry; second_entry] db_with_player
    = Some (RunDone (d', s', reqs')) /\
    NoDup (name_change_key <$> player_name_changes s') /\
    (length (name_changes_of "p1" s') <= 1)%nat.
Proof.
  destruct (fetch_and_process_data 5 (api_two_maps "New" "New") "t1"
              [sample_entry; second_entry] db_with_player)
    as [[| [[d' s'] reqs']] |] eqn:Hrun;
    [vm_compute in Hrun; discriminate | | vm_compute in Hrun; discriminate].
  exists d', s', reqs'. split; [reflexivity |].
  destruct (name_change_dedup _ _ _ _ _ _ _ _ Hrun) as [Hnd Hone].
  split; [exact Hnd |]. apply (Hone "p1" "New").
  intros entry Hentry e He Hid.
  apply list_elem_of_In in Hentry. cbn in Hentry.
  destruct Hentry as [<- | [<- | []]]; vm_compute in He;
    apply list_elem_of_singleton in He; subst e; reflexivity.
Defined.

(** *** Reconciling the same leaderboard again *)

(** The player row agrees with the row [e] of the leaderboard. *)
Definition player_settled (e : top_entry) (pid : string) (d : db) : Prop :=
  exists r, players d !! pid = Some r /\
    last_known_name r = default "Unknown" (pj_name (te_player e)) /\
    (country_name r, country_flag r)
    = get_actual_country_info (default ZEmpty (pj_zone (te_player e))).

(** The record of the player on the map stands at [rank] and the row [e] is
    no personal best against it. *)
Definition record_settled (uid : string) (e : top_entry) (pid : string) (rank : Z)
  (d : db) : Prop :=
  exists r, records d !! (uid, pid) = Some r /\ position r = rank /\
    is_pb (te_time e) (time_ms r) rank rank = false.

Definition rows_settled (uid : string) (rank : Z) (rows : list top_entry) (d : db) : Prop :=
  forall (j : nat) e pid, rows !! j = Some e -> row_id e = Some pid ->
    player_settled e pid d /\ record_settled uid e pid (rank + Z.of_nat j) d.

Lemma is_pb_same_rank t stored rank pos :
  is_pb t stored rank pos = false -> is_pb t stored rank rank = false.
Proof.
  unfold is_pb. destruct t as [x |]; [| reflexivity].
  destruct stored as [e |]; [| discriminate].
  rewrite !orb_false_iff, !andb_false_iff. intros [H1 H2]. split; [exact H1 |].
  right. apply Z.ltb_irrefl.
Qed.

Lemma is_pb_fresh t rank : is_pb t t rank rank = false.
Proof.
  unfold is_pb. destruct t as [x |]; [| reflexivity].
  now rewrite !Z.ltb_irrefl, andb_false_r.
Qed.

(** After [upsert_player] the player row is the one of the leaderboard row. *)
Lemma upsert_player_settles now pid e d s :
  player_settled e pid
    (upsert_player now pid (default "Unknown" (pj_name (te_player e)))
                   (default ZEmpty (pj_zone (te_player e))) (d, s)).1.
Proof.
  unfold upsert_player, player_settled.
  destruct (get_actual_country_info _) as [cn cf].
  destruct (players d !! pid) as [row |] eqn:Hrow; cbn [fst set_players players].
  - rewrite lookup_alter_eq, Hrow. cbn. eexists. split; [reflexivity |]. now split.
  - rewrite lookup_insert_eq. eexists. split; [reflexivity |]. now split.
Qed.

(** After [upsert_record] the record stands at [rank] and the row is no
    personal best against it. *)
Lemma upsert_record_settles now uid dn pid pname rank e d s :
  record_settled uid e pid rank (upsert_record now uid dn pid pname rank e (d, s)).1.
Proof.
  unfold upsert_record, record_settled.
  destruct (records d !! (uid, pid)) as [row |] eqn:Hrow.
  - destruct (is_pb _ _ _ _) eqn:Hpb; [| destruct (Z.eqb_spec rank (position row))];
      cbn [fst set_records records negb]; rewrite lookup_alter_eq, Hrow; cbn;
      eexists; (split; [reflexivity |]); cbn.
    + split; [reflexivity | apply is_pb_fresh].
    + split; [congruence | congruence].
    + split; [reflexivity | eapply is_pb_same_rank, Hpb].
  - cbn [fst set_records records]. rewrite lookup_insert_eq.
    eexists. split; [reflexivity |]. cbn. split; [reflexivity | apply is_pb_fresh].
Qed.

Lemma player_settled_frame e pid d d' :
  players d' !! pid = players d !! pid -> player_settled e pid d -> player_settled e pid d'.
Proof. unfold player_settled. now intros ->. Qed.

Lemma record_settled_frame uid e pid rank d d' :
  records d' !! (uid, pid) = records d !! (uid, pid) ->
  record_settled uid e pid rank d -> record_settled uid e pid rank d'.
Proof. unfold record_settled. now intros ->. Qed.

(** One row: what it settles and what it leaves alone. *)
Lemma process_row_settles now uid dn rank e d s :
  let r := process_row now uid dn rank e (d, s) in
  (forall pid, row_id e = Some pid ->
     player_settled e pid r.1 /\ record_settled uid e pid rank r.1) /\
  (forall p, row_id e <> Some p ->
     players r.1 !! p = players d !! p /\ records r.1 !! (uid, p) = records d !! (uid, p)).
Proof.
  cbv zeta. destruct (row_id e) as [pid |] eqn:Hid.
  - rewrite (process_row_with_id _ _ _ _ _ _ _ Hid).
    pose proof (upsert_player_settles now pid e d s) as Hp.
    pose proof (upsert_player_frame now pid (default "Unknown" (pj_name (te_player e)))
                  (default ZEmpty (pj_zone (te_player e))) d s) as Hpf.
    cbv zeta in Hpf. destruct (upsert_player _ _ _ _ _) as [d1 s1].
    pose proof (upsert_record_settles now uid dn pid
                  (default "Unknown" (pj_name (te_player e))) rank e d1 s1) as Hr.
    pose proof (upsert_record_frame now uid dn pid
                  (default "Unknown" (pj_name (te_player e))) rank e d1 s1) as Hrf.
    cbv zeta in Hrf. destruct (upsert_record _ _ _ _ _ _ _ _) as [d2 s2].
    cbn [fst snd] in *.
    destruct Hpf as (_ & Hpf2 & _ & _ & _ & Hpf6).
    destruct Hrf as (_ & Hrf2 & _ & _ & _ & Hrf6).
    split.
    + intros p [= <-]. split; [| exact Hr].
      eapply player_settled_frame; [| exact Hp]. now rewrite Hrf2.
    + intros p Hp'. assert (p <> pid) by congruence. split.
      * rewrite Hrf2. now apply Hpf6.
      * rewrite Hrf6 by congruence. now rewrite Hpf2.
  - rewrite (process_row_without_id _ _ _ _ _ _ Hid). split; [discriminate | now split].
Qed.

Lemma player_ids_cons e rows :
  player_ids (e :: rows)
  = match row_id e with Some p => p :: player_ids rows | None => player_ids rows end.
Proof. reflexivity. Qed.

(** The rows of a leaderboard without repeated player: once processed, all
    of them are settled. *)
Lemma process_rows_settles now uid dn rows : forall rank d s,
  NoDup (player_ids rows) ->
  let r := process_rows now uid dn rank rows (d, s) in
  rows_settled uid rank rows r.1 /\
  (forall p, p ∉ player_ids rows ->
     players r.1 !! p = players d !! p /\ records r.1 !! (uid, p) = records d !! (uid, p)).
Proof.
  induction rows as [| e rows IH]; intros rank d s Hnd; cbv zeta.
  - split; [intros j e pid Hj; discriminate | now split].
  - cbn [process_rows].
    pose proof (process_row_settles now uid dn rank e d s) as [Hset Hframe].
    destruct (process_row now uid dn rank e (d, s)) as [d1 s1]. cbn [fst] in Hset, Hframe.
    rewrite player_ids_cons in Hnd.
    assert (Hnd' : NoDup (player_ids rows)).
    { destruct (row_id e); [now apply NoDup_cons in Hnd as [_ H] | exact Hnd]. }
    specialize (IH (rank + 1) d1 s1 Hnd'). cbv zeta in IH.
    destruct (process_rows now uid dn (rank + 1) rows (d1, s1)) as [d2 s2].
    cbn [fst] in *. destruct IH as [IHset IHframe]. split.
    + intros [| j] e' pid Hj Hid.
      * injection Hj as <-. rewrite Hid in Hnd. apply NoDup_cons in Hnd as [Hnot _].
        destruct (IHframe pid Hnot) as [F1 F2]. destruct (Hset pid Hid) as [S1 S2].
        rewrite Z.add_0_r. split.
        -- eapply player_settled_frame; [exact F1 | exact S1].
        -- eapply record_settled_frame; [exact F2 | exact S2].
      * replace (rank + Z.of_nat (S j)) with (rank + 1 + Z.of_nat j) by lia.
        now apply (IHset j e' pid).
    + intros p Hp. rewrite player_ids_cons in Hp.
      assert (Hp1 : row_id e <> Some p).
      { intros E. rewrite E in Hp. apply Hp. now left. }
      assert (Hp2 : p ∉ player_ids rows).
      { intros Hin. apply Hp. destruct (row_id e); [now right | exact Hin]. }
      destruct (Hframe p Hp1) as [F1 F2]. destruct (IHframe p Hp2) as [G1 G2].
      split; congruence.
Qed.

(** [d'] is [d] up to the update times of the records. *)
Definition touched (d d' : db) : Prop :=
  maps d' = maps d /\ players d' = players d /\
  forall k, erase_record_row <$> records d' !! k = erase_record_row <$> records d !! k.

Lemma touched_refl d : touched d d.
Proof. now repeat split. Qed.

Lemma touched_trans d1 d2 d3 : touched d1 d2 -> touched d2 d3 -> touched d1 d3.
Proof.
  intros (A1 & A2 & A3) (B1 & B2 & B3).
  split; [congruence | split; [congruence |]]. intros k. now rewrite B3.
Qed.

Lemma touched_settled uid rank rows d d' :
  touched d d' -> rows_settled uid rank rows d -> rows_settled uid rank rows d'.
Proof.
  intros (_ & Hp & Hr) Hset j e pid Hj Hid.
  destruct (Hset j e pid Hj Hid) as [S1 (r & Hrec & Hpos & Hpb)]. split.
  - eapply player_settled_frame; [| exact S1]. now rewrite Hp.
  - specialize (Hr (uid, pid)). rewrite Hrec in Hr. cbn in Hr.
    destruct (records d' !! (uid, pid)) as [r' |] eqn:Hrec'; [| discriminate].
    injection Hr as Etime _ Epos _ _ _ _. exists r'. split; [exact Hrec' |].
    split; congruence.
Qed.

Lemma set_players_id d f : f (players d) = players d -> set_players f d = d.
Proof. intros H. unfold set_players. rewrite H. now destruct d. Qed.

(** A settled row changes nothing but the update time of its record. *)
Lemma process_row_settled now uid dn rank e d s :
  (forall pid, row_id e = Some pid ->
     player_settled e pid d /\ record_settled uid e pid rank d) ->
  exists d', process_row now uid dn rank e (d, s) = (d', s) /\ touched d d'.
Proof.
  intros Hset. destruct (row_id e) as [pid |] eqn:Hid.
  - destruct (Hset pid eq_refl) as [(pr & Hpl & Hname & Hcountry) (r & Hrec & Hpos & Hpb)].
    rewrite (process_row_with_id _ _ _ _ _ _ _ Hid).
    assert (Hup : upsert_player now pid (default "Unknown" (pj_name (te_player e)))
                    (default ZEmpty (pj_zone (te_player e))) (d, s) = (d, s)).
    { unfold upsert_player. destruct (get_actual_country_info _) as [cn cf].
      rewrite Hpl, Hname, String.eqb_refl. cbn [negb]. f_equal.
      apply set_players_id, alter_id. intros x Hx. rewrite Hpl in Hx. injection Hx as <-.
      unfold with_name_country. destruct pr. cbn in *. congruence. }
    rewrite Hup. unfold upsert_record. rewrite Hrec, Hpos, Hpb, Z.eqb_refl. cbn [negb].
    eexists. split; [reflexivity |]. repeat split. intros k.
    cbn [set_records records]. rewrite lookup_alter.
    destruct (decide ((uid, pid) = k)) as [<- | NE]; [| reflexivity].
    rewrite Hrec. reflexivity.
  - rewrite (process_row_without_id _ _ _ _ _ _ Hid). exists d. split; [reflexivity |].
    apply touched_refl.
Qed.

Lemma process_rows_settled now uid dn rows : forall rank d s,
  rows_settled uid rank rows d ->
  exists d', process_rows now uid dn rank rows (d, s) = (d', s) /\ touched d d'.
Proof.
  induction rows as [| e rows IH]; intros rank d s Hset.
  - exists d. split; [reflexivity | apply touched_refl].
  - cbn [process_rows].
    destruct (process_row_settled now uid dn rank e d s) as (d1 & -> & T1).
    { intros pid Hid. specialize (Hset 0%nat e pid eq_refl Hid).
      now rewrite Z.add_0_r in Hset. }
    destruct (IH (rank + 1) d1 s) as (d2 & -> & T2).
    { apply (touched_settled uid (rank + 1) rows d d1 T1).
      intros j e' pid Hj Hid. specialize (Hset (S j) e' pid Hj Hid).
      now replace (rank + 1 + Z.of_nat j) with (rank + Z.of_nat (S j)) by lia. }
    exists d2. split; [reflexivity | now apply touched_trans with d1].
Qed.

(** The stored snapshot agrees with the WR candidate of the leaderboard. *)
Definition wr_settled (uid : string) (tops : list top_entry) (d : db) : Prop :=
  match wr_candidate tops with
  | Some (i, t) => same_wr d uid i t
  | None => stored_wr_id d uid = None
  end.

(** The rank-1 row names its player, when it has one. *)
Definition head_named (tops : list top_entry) : Prop :=
  forall e pid, head tops = Some e -> row_id e = Some pid ->
    is_Some (pj_name (te_player e)).

(** The row of the map carries the source data of the entry and the number
    of rows fetched. *)
Definition map_settled (tmpl dn : string) (ord : Z) (uid : string) (tops : list top_entry)
  (d : db) : Prop :=
  exists m, maps d !! uid = Some m /\ api_url m = tmpl /\ map_display_name m = dn /\
    fetch_order m = ord /\ last_playercount m = Z.of_nat (length tops).

(** Time and position of a record: what the classification of a row looks at. *)
Definition standing (r : record_row) : option Z * Z := (time_ms r, position r).

Lemma rows_settled_ext uid rank rows d d' :
  players d' = players d ->
  (forall k, standing <$> records d' !! k = standing <$> records d !! k) ->
  rows_settled uid rank rows d -> rows_settled uid rank rows d'.
Proof.
  intros Hp Hr Hset j e pid Hj Hid.
  destruct (Hset j e pid Hj Hid) as [S1 (r & Hrec & Hpos & Hpb)]. split.
  - eapply player_settled_frame; [| exact S1]. now rewrite Hp.
  - specialize (Hr (uid, pid)). rewrite Hrec in Hr. cbn in Hr.
    destruct (records d' !! (uid, pid)) as [r' |] eqn:Hrec'; [| discriminate].
    injection Hr as Etime Epos. exists r'. split; [exact Hrec' |].
    split; congruence.
Qed.

Lemma wr_settled_ext uid tops d d' :
  stored_wr_id d' uid = stored_wr_id d uid ->
  stored_wr_time d' uid = stored_wr_time d uid ->
  wr_settled uid tops d -> wr_settled uid tops d'.
Proof.
  unfold wr_settled, same_wr. intros -> ->. exact id.
Qed.

(** On a settled state the WR step changes nothing. *)
Lemma reconcile_wr_candidate_settled now uid dn tops d s :
  rows_settled uid 1 tops d -> wr_settled uid tops d -> head_named tops ->
  reconcile_wr_candidate now uid dn tops (d, s) = (d, s).
Proof.
  intros Hrows Hwr Hhead. unfold reconcile_wr_candidate, wr_settled, wr_candidate in *.
  destruct tops as [| e rest].
  - pose proof (reconcile_wr_outcome now uid dn None None None "N/A" d s) as H.
    cbv zeta in H. cbn [truthy_id] in H. destruct H as (_ & _ & _ & Hno). now apply Hno.
  - unfold row_id in *.
    assert (Hup : match truthy_id (pj_id (te_player e)) with
                  | Some wr_id =>
                      upsert_wr_player now wr_id
                        (default "UnknownWRPlayer" (pj_name (te_player e)))
                        (default ZEmpty (pj_zone (te_player e))) (d, s)
                  | None => (d, s)
                  end = (d, s)).
    { destruct (truthy_id (pj_id (te_player e))) as [pid |] eqn:Hid; [| reflexivity].
      destruct (Hrows 0%nat e pid eq_refl Hid) as [(pr & Hpl & Hname & Hcountry) _].
      destruct (Hhead e pid eq_refl Hid) as [n Hn]. rewrite Hn in *. cbn [default] in *.
      unfold upsert_wr_player. destruct (get_actual_country_info _) as [cn cf].
      rewrite Hpl, Hname, String.eqb_refl. cbn [negb]. f_equal.
      apply set_players_id, alter_id. intros x Hx. rewrite Hpl in Hx. injection Hx as <-.
      unfold with_country. destruct pr. cbn in *. congruence. }
    rewrite Hup.
    pose proof (reconcile_wr_outcome now uid dn (pj_id (te_player e)) (te_time e)
                  (te_timestamp e) (default "UnknownWRPlayer" (pj_name (te_player e)))
                  d s) as H.
    cbv zeta in H. destruct H as (_ & _ & H).
    destruct (truthy_id (pj_id (te_player e))) as [i |]; [destruct (te_time e) as [t |] |].
    + destruct H as [Hsame _]. now apply Hsame.
    + destruct H as [_ Hno]. now apply Hno.
    + destruct H as [_ Hno]. now apply Hno.
Qed.

(** A settled state is reconciled without any event, and stays what it is
    up to the player count of the map and the update times of the records. *)
Lemma reconcile_map_settled now uid dn tops cnt d s :
  rows_settled uid 1 tops d -> wr_settled uid tops d -> head_named tops ->
  exists d', reconcile_map now uid dn tops cnt (d, s) = (d', s) /\
    maps d' = count_fixed uid tops cnt (maps d) /\ players d' = players d /\
    forall k, erase_record_row <$> records d' !! k = erase_record_row <$> records d !! k.
Proof.
  intros Hrows Hwr Hhead. unfold reconcile_map.
  set (d0 := if negb _ then _ else d).
  assert (Hd0 : maps d0 = count_fixed uid tops cnt (maps d) /\ players d0 = players d /\
                records d0 = records d).
  { subst d0. unfold count_fixed. now destruct (negb _). }
  clearbody d0. destruct Hd0 as (Hm0 & Hp0 & Hr0).
  destruct (stored_wr_count_fixed d d0 uid tops cnt Hm0) as [Hsid Hstime].
  assert (Hrows0 : rows_settled uid 1 tops d0).
  { apply (rows_settled_ext uid 1 tops d d0 Hp0); [| exact Hrows].
    intros k. now rewrite Hr0. }
  assert (Hwr0 : wr_settled uid tops d0) by now apply (wr_settled_ext uid tops d d0).
  rewrite (reconcile_wr_candidate_settled now uid dn tops d0 s Hrows0 Hwr0 Hhead).
  destruct (process_rows_settled now uid dn tops 1 d0 s Hrows0) as (d' & -> & T1 & T2 & T3).
  exists d'. split; [reflexivity |]. split; [congruence | split; [congruence |]].
  intros k. now rewrite T3, Hr0.
Qed.

#[local] Instance same_wr_dec d uid i t : Decision (same_wr d uid i t).
Proof. unfold same_wr. apply _. Defined.

(** The row of the map after lines 238-335: the source columns are kept. *)
Lemma reconcile_map_row now uid dn tops cnt d s m :
  maps d !! uid = Some m ->
  exists m', maps (reconcile_map now uid dn tops cnt (d, s)).1 !! uid = Some m' /\
    api_url m' = api_url m /\ map_display_name m' = map_display_name m /\
    fetch_order m' = fetch_order m /\
    last_playercount m'
    = if negb (Z.of_nat (length tops) =? cnt) then Z.of_nat (length tops)
      else last_playercount m.
Proof.
  intros Hm. pose proof (reconcile_map_wr now uid dn tops cnt d s) as H. cbv zeta in H.
  set (r := reconcile_map now uid dn tops cnt (d, s)) in *. clearbody r.
  assert (Hm0 : exists m0, count_fixed uid tops cnt (maps d) !! uid = Some m0 /\
            api_url m0 = api_url m /\ map_display_name m0 = map_display_name m /\
            fetch_order m0 = fetch_order m /\
            last_playercount m0
            = if negb (Z.of_nat (length tops) =? cnt) then Z.of_nat (length tops)
              else last_playercount m).
  { unfold count_fixed. destruct (negb _).
    - rewrite lookup_alter_eq, Hm. cbn. eexists. split; [reflexivity |]. now repeat split.
    - exists m. now repeat split. }
  destruct Hm0 as (m0 & Hm0 & F1 & F2 & F3 & F4).
  assert (Hcases : maps r.1 = count_fixed uid tops cnt (maps d) \/
                   exists a b c, maps r.1
                     = alter (with_wr a b c now) uid (count_fixed uid tops cnt (maps d))).
  { destruct (wr_candidate tops) as [[i t] |].
    - destruct H as [Hsame Hdiff]. destruct (decide (same_wr d uid i t)) as [Hs | Hn].
      + left. now apply Hsame.
      + right. destruct (Hdiff Hn) as [Hmaps _]. eauto.
    - destruct H as [Hyes Hno]. destruct (stored_wr_id d uid) as [p |] eqn:Hp.
      + right. destruct (Hyes ltac:(discriminate)) as [Hmaps _]. eauto.
      + left. now apply Hno. }
  destruct Hcases as [-> | (a & b & c & ->)].
  - exists m0. now repeat split.
  - rewrite lookup_alter_eq, Hm0. cbn. eexists. split; [reflexivity |]. now repeat split.
Qed.

(** Reconciling a leaderboard without repeated player settles it. *)
Lemma reconcile_map_settles now uid dn tops cnt d s :
  NoDup (player_ids tops) ->
  (tops <> [] -> is_Some (maps d !! uid)) ->
  let r := reconcile_map now uid dn tops cnt (d, s) in
  rows_settled uid 1 tops r.1 /\ wr_settled uid tops r.1.
Proof.
  intros Hnd Hrow. cbv zeta. split.
  - unfold reconcile_map.
    set (d0 := if negb _ then _ else d). clearbody d0.
    destruct (reconcile_wr_candidate now uid dn tops (d0, s)) as [d1 s1].
    now destruct (process_rows_settles now uid dn tops 1 d1 s1 Hnd) as [H _].
  - pose proof (reconcile_map_wr now uid dn tops cnt d s) as H. cbv zeta in H.
    set (r := reconcile_map now uid dn tops cnt (d, s)) in *. clearbody r.
    assert (Hkeep : maps r.1 = count_fixed uid tops cnt (maps d) ->
                    stored_wr_id r.1 uid = stored_wr_id d uid /\
                    stored_wr_time r.1 uid = stored_wr_time d uid)
      by apply stored_wr_count_fixed.
    unfold wr_settled. destruct (wr_candidate tops) as [[i t] |] eqn:Hc.
    + destruct H as [Hsame Hdiff]. destruct (decide (same_wr d uid i t)) as [Hs | Hn].
      * destruct (Hsame Hs) as [Hm _]. destruct (Hkeep Hm) as [K1 K2].
        destruct Hs. split; congruence.
      * destruct (Hdiff Hn) as [Hm _].
        destruct (stored_wr_after_update r.1 uid _ _ _ _ _ Hm) as (A1 & A2 & _);
          [| now split].
        apply count_fixed_is_Some, Hrow. eapply wr_candidate_nonempty, Hc.
    + destruct H as [Hyes Hno]. destruct (stored_wr_id d uid) as [p |] eqn:Hp.
      * destruct (Hyes ltac:(discriminate)) as [Hm _].
        destruct (stored_wr_after_update r.1 uid _ _ _ _ _ Hm) as (A1 & _); [| exact A1].
        apply count_fixed_is_Some, stored_wr_id_row. now rewrite Hp.
      * destruct (Hno eq_refl) as [Hm _]. destruct (Hkeep Hm) as [K1 _]. congruence.
Qed.

(** [reset_flags] keeps what is settled. *)
Lemma reset_flags_settled uid tops d :
  (rows_settled uid 1 tops d -> rows_settled uid 1 tops (reset_flags d)) /\
  (wr_settled uid tops d -> wr_settled uid tops (reset_flags d)) /\
  (forall tmpl dn ord, map_settled tmpl dn ord uid tops d ->
                       map_settled tmpl dn ord uid tops (reset_flags d)).
Proof.
  split; [| split].
  - apply rows_settled_ext; [reflexivity |]. intros k. unfold reset_flags. cbn [records].
    rewrite lookup_fmap. now destruct (records d !! k).
  - apply wr_settled_ext; unfold stored_wr_id, stored_wr_time, reset_flags; cbn [maps];
      rewrite lookup_fmap; now destruct (maps d !! uid).
  - intros tmpl dn ord (m & Hm & F). unfold map_settled, reset_flags. cbn [maps].
    rewrite lookup_fmap, Hm. cbn. eexists. split; [reflexivity | exact F].
Qed.

Lemma upsert_map_row uid tmpl dn ord now c d :
  exists m, maps (upsert_map uid tmpl dn ord now c d) !! uid = Some m /\
    api_url m = tmpl /\ map_display_name m = dn /\ fetch_order m = ord /\
    last_playercount m = c.
Proof.
  unfold upsert_map. cbn [set_maps maps]. rewrite lookup_alter_eq.
  destruct (maps d !! uid) as [m |] eqn:E.
  - rewrite E. cbn. eexists. split; [reflexivity |]. now repeat split.
  - rewrite lookup_insert_eq. cbn. eexists. split; [reflexivity |]. now repeat split.
Qed.

Lemma fetch_db_effect_frame api base uid tmpl dn ord now d :
  players (fetch_db_effect api base uid tmpl dn ord now d) = players d /\
  records (fetch_db_effect api base uid tmpl dn ord now d) = records d.
Proof. unfold fetch_db_effect. destruct (api _); now split. Qed.

(** Fetching again a map whose row is settled changes the time of the fetch
    and nothing else in the row. *)
Lemma maps_after_refetch api base uid tmpl dn ord now tops d :
  (tops <> [] -> exists pc tp, api (page_url base 0) = Response pc tp) ->
  (forall pc tp, api (page_url base 0) = Response pc tp ->
     map_settled tmpl dn ord uid tops d) ->
  erase_map_row <$> count_fixed uid tops (reported_count api base)
                      (maps (fetch_db_effect api base uid tmpl dn ord now d))
  = erase_map_row <$> maps d.
Proof.
  intros Hrow Hset. unfold fetch_db_effect, reported_count.
  destruct (api (page_url base 0)) as [| | pc tp] eqn:Hapi.
  - assert (tops = []) as ->.
    { destruct tops; [reflexivity |]. now destruct (Hrow ltac:(discriminate)) as (? & ? & ?). }
    reflexivity.
  - assert (tops = []) as ->.
    { destruct tops; [reflexivity |]. now destruct (Hrow ltac:(discriminate)) as (? & ? & ?). }
    reflexivity.
  - destruct (Hset pc tp eq_refl) as (m & Hm & F1 & F2 & F3 & F4).
    apply map_eq. intros k. rewrite !lookup_fmap. unfold count_fixed, upsert_map.
    cbn [set_maps maps]. rewrite Hm.
    destruct (decide (uid = k)) as [<- | NE].
    + destruct (Z.eqb_spec (Z.of_nat (length tops)) (default 0 pc)) as [E | NE]; cbn [negb].
      * rewrite lookup_alter_eq, Hm. cbn. unfold erase_map_row, with_source. cbn.
        do 2 f_equal; congruence.
      * rewrite !lookup_alter_eq, Hm. cbn.
        unfold erase_map_row, with_source, with_last_playercount. cbn.
        do 2 f_equal; congruence.
    + destruct (negb _); rewrite ?lookup_alter_ne by exact NE; reflexivity.
Qed.

(** C7, as the specification states it, fails for a leaderboard that lists a
    player twice (as when a player moves between two page requests): the
    second row lowers the stored position, and on the next run the first row
    is a personal best again. *)
Lemma reconciliation_idempotent_counterexample :
  let api : api_server := fun _ =>
    Response (Some 2) (Some [timed_row "p1" "One" (Some 10000);
                             timed_row "p1" "One" (Some 10000)]) in
  exists d1 s1 q1 d2 s2 q2,
    process_entry 5 api "t1" sample_entry (Db ∅ ∅ ∅, empty_session, [])
    = Some (d1, s1, q1) /\
    process_entry 5 api "t2" sample_entry (reset_flags d1, empty_session, [])
    = Some (d2, s2, q2) /\
    new_pbs s2 = [("One", "Map", Some 10000, Some 10000)].
Proof. cbv zeta. do 6 eexists. repeat split; vm_compute; reflexivity. Qed.

(** The same happens to the name of a rank-1 player that comes without a
    name: lines 252 and 292 give it two different default names, and every
    run logs two name changes. *)
Lemma reconciliation_unnamed_holder :
  let api : api_server := fun _ =>
    Response (Some 1) (Some [TopEntry (PlayerJson (Some "p1") None None) (Some 10000)
                                      (Some 0) None]) in
  exists d1 s1 q1 d2 s2 q2,
    process_entry 5 api "t1" sample_entry (Db ∅ ∅ ∅, empty_session, [])
    = Some (d1, s1, q1) /\
    process_entry 5 api "t2" sample_entry (reset_flags d1, empty_session, [])
    = Some (d2, s2, q2) /\
    player_name_changes s2
    = [("p1", "Unknown", "UnknownWRPlayer"); ("p1", "UnknownWRPlayer", "Unknown")].
Proof. cbv zeta. do 6 eexists. repeat split; vm_compute; reflexivity. Qed.

(** C7 (amended). Reconciling a second time the leaderboard that has just
    been reconciled, with the session event log and the since-last-fetch
    flags reset, produces no PB, new-player-on-map, WR-change or name-change
    event and discovers no player, and the only persisted changes are
    [script_updated_at] and [last_fetched_at]; this holds for every
    leaderboard in which no player id occurs twice and whose rank-1 player,
    if the row has an id, carries a name, the first reconciliation starting
    from a store where every map row is kept under the UID of its own URL,
    as in every store that the program has written. *)
Theorem reconciliation_idempotent (fuel : nat) (api : api_server) (t1 t2 : string)
  (entry : map_url_entry) (d0 : db) (s0 : session) (q0 : list string)
  (d1 : db) (s1 : session) (q1 q : list string) :
  urls_keyed d0 ->
  process_entry fuel api t1 entry (d0, s0, q0) = Some (d1, s1, q1) ->
  NoDup (player_ids (leaderboard_of fuel api entry)) ->
  head_named (leaderboard_of fuel api entry) ->
  exists d2 q2,
    process_entry fuel api t2 entry (reset_flags d1, empty_session, q)
    = Some (d2, empty_session, q2) /\
    erase_timestamps d2 = erase_timestamps (reset_flags d1).
Proof.
  intros _ Hrun Hnd Hhead.
  destruct (extract_map_uid_from_url (url_template entry)) as [uid |] eqn:Huid.
  2: { exists (reset_flags d1), q. unfold process_entry. rewrite Huid. now split. }
  rewrite (process_entry_unfold _ _ _ _ _ _ _ _ Huid) in Hrun.
  destruct (fetch_loop _ _ _ _ _ _ _ _ _) as [ls1 |] eqn:Hfetch1; [| discriminate].
  cbn [mbind option_bind] in Hrun.
  rewrite (leaderboard_of_fetch _ _ _ _ _ _ _ _ Huid Hfetch1) in Hnd, Hhead.
  destruct (fetch_initial_outcome _ _ _ _ _ _ _ _ _ _ _ Hfetch1) as (Hdb1 & Hcnt1 & Hrow).
  set (base := base_api_url_of (url_template entry)) in *.
  set (tops := all_tops_for_map ls1) in *.
  (* what the first run leaves *)
  assert (Hrow1 : tops <> [] -> is_Some (maps (ls_db ls1) !! uid)).
  { intros Hne. destruct (Hrow Hne) as (pc & tp & Hapi). rewrite Hdb1.
    eapply fetch_db_effect_row_response, Hapi. }
  pose proof (reconcile_map_settles t1 uid (name entry) tops
                (map_total_playercount_api ls1) (ls_db ls1) s0 Hnd Hrow1) as Hsettled.
  assert (Hmap : forall pc tp, api (page_url base 0) = Response pc tp ->
            map_settled (url_template entry) (name entry) (entry_fetch_order entry) uid tops
              (reconcile_map t1 uid (name entry) tops (map_total_playercount_api ls1)
                             (ls_db ls1, s0)).1).
  { intros pc tp Hapi.
    destruct (upsert_map_row uid (url_template entry) (name entry)
                (entry_fetch_order entry) t1 (default 0 pc) d0)
      as (m & Hm & F1 & F2 & F3 & F4).
    assert (Hm' : maps (ls_db ls1) !! uid = Some m).
    { rewrite Hdb1. unfold fetch_db_effect. fold base. now rewrite Hapi. }
    destruct (reconcile_map_row t1 uid (name entry) tops (map_total_playercount_api ls1)
                (ls_db ls1) s0 m Hm') as (m' & Hm1 & G1 & G2 & G3 & G4).
    exists m'. split; [exact Hm1 |]. repeat split; try congruence.
    rewrite G4. destruct (Z.eqb_spec (Z.of_nat (length tops)) (map_total_playercount_api ls1))
      as [E | NE]; cbn [negb]; [| reflexivity].
    rewrite F4, E, Hcnt1. unfold reported_count. fold base. now rewrite Hapi. }
  cbv zeta in Hsettled.
  destruct (reconcile_map t1 uid (name entry) tops (map_total_playercount_api ls1)
                          (ls_db ls1, s0)) as [d1' s1'].
  injection Hrun as E1 E2 _. subst d1' s1'. cbn [fst] in Hsettled, Hmap.
  destruct Hsettled as [Hrows Hwr].
  destruct (reset_flags_settled uid tops d1) as (Kr & Kw & Km).
  apply Kr in Hrows. apply Kw in Hwr.
  (* the second run *)
  rewrite (process_entry_unfold _ _ _ _ _ _ _ _ Huid).
  destruct (fetch_again fuel api t1 t2 entry uid d0 q0 (reset_flags d1) q ls1 Hfetch1)
    as (ls2 & Hfetch2 & Htops2).
  rewrite Hfetch2. cbn [mbind option_bind]. rewrite Htops2. fold tops.
  destruct (fetch_initial_outcome _ _ _ _ _ _ _ _ _ _ _ Hfetch2) as (Hdb2 & Hcnt2 & _).
  fold base in Hdb2, Hcnt2.
  destruct (fetch_db_effect_frame api base uid (url_template entry) (name entry)
              (entry_fetch_order entry) t2 (reset_flags d1)) as [Hp2 Hr2].
  destruct (stored_wr_fetch_db_effect api base uid (url_template entry) (name entry)
              (entry_fetch_order entry) t2 (reset_flags d1)) as [Hsid2 Hstime2].
  rewrite <- Hdb2 in Hp2, Hr2, Hsid2, Hstime2.
  assert (Hrows2 : rows_settled uid 1 tops (ls_db ls2)).
  { apply (rows_settled_ext uid 1 tops (reset_flags d1)); [exact Hp2 | | exact Hrows].
    intros k. now rewrite Hr2. }
  assert (Hwr2 : wr_settled uid tops (ls_db ls2))
    by now apply (wr_settled_ext uid tops (reset_flags d1)).
  destruct (reconcile_map_settled t2 uid (name entry) tops (map_total_playercount_api ls2)
              (ls_db ls2) empty_session Hrows2 Hwr2 Hhead)
    as (d2 & -> & Hm2 & Hpl2 & Hrec2).
  exists d2, (requested ls2). split; [reflexivity |].
  unfold erase_timestamps. f_equal.
  - rewrite Hm2, Hcnt2, Hdb2.
    apply maps_after_refetch; [exact Hrow |].
    intros pc tp Hapi. apply Km. now apply (Hmap pc tp).
  - congruence.
  - apply map_eq. intros k. rewrite !lookup_fmap, Hrec2. now rewrite Hr2.
Qed.

Lemma reconciliation_idempotent_witness :
  let api : api_server := fun _ =>
    Response (Some 2) (Some [timed_row "p1" "One" (Some 10000);
                             timed_row "p2" "Two" (Some 11000)]) in
  exists d1 s1 q1 d2 q2,
    process_entry 5 api "t1" sample_entry (Db ∅ ∅ ∅, empty_session, [])
    = Some (d1, s1, q1) /\
    process_entry 5 api "t2" sample_entry (reset_flags d1, empty_session, [])
    = Some (d2, empty_session, q2) /\
    erase_timestamps d2 = erase_timestamps (reset_flags d1).
Proof.
  cbv zeta.
  destruct (process_entry 5
              (fun _ => Response (Some 2) (Some [timed_row "p1" "One" (Some 10000);
                                                 timed_row "p2" "Two" (Some 11000)]))
              "t1" sample_entry (Db ∅ ∅ ∅, empty_session, []))
    as [[[d1 s1] q1] |] eqn:Hrun; [| vm_compute in Hrun; discriminate].
  destruct (reconciliation_idempotent _ _ "t1" "t2" _ _ _ _ d1 s1 q1 []
              urls_keyed_empty Hrun)
    as (d2 & q2 & Hrun2 & Herase).
  - apply (bool_decide_unpack _). vm_compute. exact I.
  - intros e pid He Hid. vm_compute in He. injection He as <-. eexists. reflexivity.
  - exists d1, s1, q1, d2, q2. split; [reflexivity | now split].
Defined.
End ReconcileFacts.

(** ** What a run keeps *)

Module RunFacts.
Import Zone Data Url Fetch Reconcile FetchFacts ReconcileFacts Run.
Local Open Scope string_scope.
Local Open Scope Z_scope.

Lemma record_evolves_refl r : record_evolves r r.
Proof. split; [reflexivity |]. intros t Ht. exists t. split; [exact Ht | lia]. Qed.

Lemma record_evolves_trans r1 r2 r3 :
  record_evolves r1 r2 -> record_evolves r2 r3 -> record_evolves r1 r3.
Proof.
  intros [A1 A2] [B1 B2]. split; [congruence |]. intros t Ht.
  destruct (A2 t Ht) as (t2 & Ht2 & L2). destruct (B2 t2 Ht2) as (t3 & Ht3 & L3).
  exists t3. split; [exact Ht3 | lia].
Qed.

Lemma evolves_refl d : evolves d d.
Proof.
  split; [auto | split].
  - intros k r Hr. now exists r.
  - intros k r Hr. exists r. split; [exact Hr | apply record_evolves_refl].
Qed.

Lemma evolves_trans d1 d2 d3 : evolves d1 d2 -> evolves d2 d3 -> evolves d1 d3.
Proof.
  intros (A1 & A2 & A3) (B1 & B2 & B3). split; [auto | split].
  - intros k r Hr. destruct (A2 k r Hr) as (r2 & Hr2 & E2).
    destruct (B2 k r2 Hr2) as (r3 & Hr3 & E3). exists r3. split; [exact Hr3 | congruence].
  - intros k r Hr. destruct (A3 k r Hr) as (r2 & Hr2 & E2).
    destruct (B3 k r2 Hr2) as (r3 & Hr3 & E3). exists r3.
    split; [exact Hr3 | now apply record_evolves_trans with r2].
Qed.

(** Steps that touch one table. *)
Lemma evolves_maps (d : db) (ms : gmap string map_row) :
  (forall k, is_Some (maps d !! k) -> is_Some (ms !! k)) ->
  evolves d (set_maps (fun _ => ms) d).
Proof.
  intros H. split; [exact H | split]; cbn.
  - intros k r Hr. now exists r.
  - intros k r Hr. exists r. split; [exact Hr | apply record_evolves_refl].
Qed.

Lemma evolves_alter_maps f uid d : evolves d (set_maps (alter f uid) d).
Proof.
  apply (evolves_maps d (alter f uid (maps d))). intros k [m Hm].
  rewrite lookup_alter. destruct (decide (uid = k)) as [<- | NE]; rewrite Hm; eauto.
Qed.

Lemma evolves_players (d : db) (f : gmap string player_row -> gmap string player_row) :
  (forall k r, players d !! k = Some r ->
     exists r', f (players d) !! k = Some r' /\
       first_seen_by_script_at r' = first_seen_by_script_at r) ->
  evolves d (set_players f d).
Proof.
  intros H. split; [auto | split]; cbn; [exact H |].
  intros k r Hr. exists r. split; [exact Hr | apply record_evolves_refl].
Qed.

Lemma evolves_records (d : db)
  (f : gmap (string * string) record_row -> gmap (string * string) record_row) :
  (forall k r, records d !! k = Some r ->
     exists r', f (records d) !! k = Some r' /\ record_evolves r r') ->
  evolves d (set_records f d).
Proof.
  intros H. split; [auto | split]; cbn; [| exact H].
  intros k r Hr. now exists r.
Qed.

Lemma evolves_insert_player pid row d :
  players d !! pid = None -> evolves d (set_players (insert pid row) d).
Proof.
  intros Hn. apply evolves_players. intros k r Hr.
  exists r. split; [| reflexivity]. rewrite lookup_insert_ne; [exact Hr | congruence].
Qed.

Lemma evolves_alter_player f pid d :
  (forall r, first_seen_by_script_at (f r) = first_seen_by_script_at r) ->
  evolves d (set_players (alter f pid) d).
Proof.
  intros Hf. apply evolves_players. intros k r Hr. rewrite lookup_alter.
  destruct (decide (pid = k)) as [<- | NE]; rewrite Hr; cbn; eauto.
Qed.

Lemma upsert_player_evolves now pid pname z d s :
  evolves d (upsert_player now pid pname z (d, s)).1.
Proof.
  unfold upsert_player. destruct (get_actual_country_info z) as [cn cf].
  destruct (players d !! pid) as [row |] eqn:E; cbn [fst].
  - now apply evolves_alter_player.
  - now apply evolves_insert_player.
Qed.

Lemma upsert_wr_player_evolves now pid pname z d s :
  evolves d (upsert_wr_player now pid pname z (d, s)).1.
Proof.
  unfold upsert_wr_player. destruct (get_actual_country_info z) as [cn cf].
  destruct (players d !! pid) as [row |] eqn:E.
  - destruct (negb _); cbn [fst]; now apply evolves_alter_player.
  - cbn [fst]. now apply evolves_insert_player.
Qed.

Lemma is_pb_not_worse t old rank pos :
  is_pb (Some t) (Some old) rank pos = true -> t <= old.
Proof. cbn. intros H. apply orb_true_iff in H as [H | H]; lia. Qed.

Lemma is_pb_has_time fetched stored rank pos :
  is_pb fetched stored rank pos = true -> is_Some fetched.
Proof. destruct fetched; [eauto | discriminate]. Qed.

Lemma upsert_record_evolves now uid dn pid pname rank e d s :
  evolves d (upsert_record now uid dn pid pname rank e (d, s)).1.
Proof.
  unfold upsert_record. destruct (records d !! (uid, pid)) as [row |] eqn:E.
  - assert (H : forall f, record_evolves row (f row) ->
                  evolves d (set_records (alter f (uid, pid)) d)).
    { intros f Hf. apply evolves_records. intros k r Hr. rewrite lookup_alter.
      destruct (decide ((uid, pid) = k)) as [<- | NE]; rewrite Hr; cbn.
      - eexists. split; [reflexivity |]. congruence.
      - exists r. split; [reflexivity | apply record_evolves_refl]. }
    destruct (is_pb _ _ _ _) eqn:Hpb; [| destruct (negb _)]; cbn [fst]; apply H.
    + split; [reflexivity |]. intros t Ht. cbn.
      destruct (te_time e) as [t' |]; [| discriminate].
      exists t'. split; [reflexivity |]. rewrite Ht in Hpb. eapply is_pb_not_worse, Hpb.
    + split; [reflexivity |]. intros t Ht. exists t. split; [exact Ht | lia].
    + split; [reflexivity |]. intros t Ht. exists t. split; [exact Ht | lia].
  - cbn [fst]. apply evolves_records. intros k r Hr. exists r.
    split; [| apply record_evolves_refl]. rewrite lookup_insert_ne; [exact Hr | congruence].
Qed.

Lemma process_row_evolves now uid dn rank e d s :
  evolves d (process_row now uid dn rank e (d, s)).1.
Proof.
  unfold process_row. destruct (truthy_id _) as [pid |]; [| apply evolves_refl].
  pose proof (upsert_player_evolves now pid (default "Unknown" (pj_name (te_player e)))
                (default ZEmpty (pj_zone (te_player e))) d s) as H1.
  destruct (upsert_player _ _ _ _ _) as [d1 s1]. cbn [fst] in H1.
  eapply evolves_trans; [exact H1 | apply upsert_record_evolves].
Qed.

Lemma process_rows_evolves now uid dn rows : forall rank d s,
  evolves d (process_rows now uid dn rank rows (d, s)).1.
Proof.
  induction rows as [| e rows IH]; intros rank d s; [apply evolves_refl |].
  cbn [process_rows].
  pose proof (process_row_evolves now uid dn rank e d s) as H1.
  destruct (process_row _ _ _ _ _ _) as [d1 s1]. cbn [fst] in H1.
  eapply evolves_trans; [exact H1 | apply IH].
Qed.

Lemma reconcile_wr_evolves now uid dn wid wtime wts wname d s :
  evolves d (reconcile_wr now uid dn wid wtime wts wname (d, s)).1.
Proof.
  unfold reconcile_wr. destruct (select_db_wr d uid) as [[dbid dbtime] dbname].
  destruct (truthy_id wid) as [i |]; [destruct wtime as [t |] |].
  - destruct (orb _ _); cbn [fst]; [apply evolves_alter_maps | apply evolves_refl].
  - destruct dbid; cbn [fst]; [apply evolves_alter_maps | apply evolves_refl].
  - destruct dbid; cbn [fst]; [apply evolves_alter_maps | apply evolves_refl].
Qed.

Lemma reconcile_wr_candidate_evolves now uid dn tops d s :
  evolves d (reconcile_wr_candidate now uid dn tops (d, s)).1.
Proof.
  unfold reconcile_wr_candidate. destruct tops as [| e tops].
  - apply reconcile_wr_evolves.
  - destruct (truthy_id (pj_id (te_player e))) as [wid |]; [| apply reconcile_wr_evolves].
    pose proof (upsert_wr_player_evolves now wid
                  (default "UnknownWRPlayer" (pj_name (te_player e)))
                  (default ZEmpty (pj_zone (te_player e))) d s) as H1.
    destruct (upsert_wr_player _ _ _ _ _) as [d1 s1]. cbn [fst] in H1.
    eapply evolves_trans; [exact H1 | apply reconcile_wr_evolves].
Qed.

Lemma reconcile_map_evolves now uid dn tops cnt d s :
  evolves d (reconcile_map now uid dn tops cnt (d, s)).1.
Proof.
  unfold reconcile_map. set (d1 := if negb _ then _ else d).
  assert (H1 : evolves d d1).
  { subst d1. destruct (negb _); [apply evolves_alter_maps | apply evolves_refl]. }
  clearbody d1.
  pose proof (reconcile_wr_candidate_evolves now uid dn tops d1 s) as H2.
  destruct (reconcile_wr_candidate _ _ _ _ _) as [d2 s2]. cbn [fst] in H2.
  eapply evolves_trans; [exact H1 |]. eapply evolves_trans; [exact H2 |].
  apply process_rows_evolves.
Qed.

Lemma upsert_map_evolves uid tmpl dn ord now c d :
  evolves d (upsert_map uid tmpl dn ord now c d).
Proof.
  unfold upsert_map. apply evolves_maps. intros k [m Hm]. rewrite lookup_alter.
  destruct (maps d !! uid) as [m0 |] eqn:E.
  - destruct (decide (uid = k)) as [<- | NE]; rewrite ?E, ?Hm; cbn; eauto.
  - destruct (decide (uid = k)) as [<- | NE]; [congruence |].
    rewrite lookup_insert_ne by exact NE. rewrite Hm. eauto.
Qed.

Lemma fetch_db_effect_evolves api base uid tmpl dn ord now d :
  evolves d (fetch_db_effect api base uid tmpl dn ord now d).
Proof.
  unfold fetch_db_effect.
  destruct (api _); [apply evolves_refl | apply evolves_refl | apply upsert_map_evolves].
Qed.

Lemma process_entry_evolves fuel api now entry d s reqs d' s' reqs' :
  process_entry fuel api now entry (d, s, reqs) = Some (d', s', reqs') -> evolves d d'.
Proof.
  intros Hrun.
  destruct (extract_map_uid_from_url (url_template entry)) as [uid |] eqn:Huid.
  - rewrite (process_entry_unfold _ _ _ _ _ _ _ _ Huid) in Hrun.
    destruct (fetch_loop _ _ _ _ _ _ _ _ _) as [ls |] eqn:Hloop; [| discriminate].
    cbn [mbind option_bind] in Hrun.
    destruct (fetch_initial_outcome _ _ _ _ _ _ _ _ _ _ _ Hloop) as (Hd & _ & _).
    pose proof (reconcile_map_evolves now uid (name entry) (all_tops_for_map ls)
                  (map_total_playercount_api ls) (ls_db ls) s) as H.
    destruct (reconcile_map _ _ _ _ _ _) as [d2 s2]. injection Hrun as -> _ _.
    cbn [fst] in H. eapply evolves_trans; [| exact H]. rewrite Hd.
    apply fetch_db_effect_evolves.
  - unfold process_entry in Hrun. rewrite Huid in Hrun. injection Hrun as <- _ _.
    apply evolves_refl.
Qed.

Lemma process_entries_evolves fuel api now entries : forall d s reqs d' s' reqs',
  process_entries fuel api now entries (d, s, reqs) = Some (d', s', reqs') -> evolves d d'.
Proof.
  induction entries as [| entry entries IH]; intros d s reqs d' s' reqs' Hrun.
  - cbn in Hrun. injection Hrun as <- _ _. apply evolves_refl.
  - cbn [process_entries] in Hrun.
    destruct (process_entry fuel api now entry (d, s, reqs)) as [[[d1 s1] r1] |] eqn:E;
      [| discriminate].
    cbn [mbind option_bind] in Hrun.
    eapply evolves_trans; [eapply process_entry_evolves, E | eapply IH, Hrun].
Qed.

Lemma reset_flags_evolves d : evolves d (reset_flags d).
Proof.
  unfold reset_flags. split; [| split]; cbn.
  - intros k [m Hm]. rewrite lookup_fmap, Hm. cbn. eauto.
  - intros k r Hr. now exists r.
  - intros k r Hr. rewrite lookup_fmap, Hr. cbn. eexists. split; [reflexivity |].
    split; [reflexivity |]. intros t Ht. exists t. split; [exact Ht | lia].
Qed.

Lemma run_evolves fuel api now entries d d' s' reqs' :
  fetch_and_process_data fuel api now entries d = Some (RunDone (d', s', reqs')) ->
  evolves d d'.
Proof.
  intros Hrun. unfold fetch_and_process_data in Hrun.
  destruct entries as [| entry entries]; [discriminate |].
  destruct (process_entries _ _ _ _ _) as [[[d1 s1] r1] |] eqn:E; [| discriminate].
  cbn in Hrun. injection Hrun as -> -> ->.
  eapply evolves_trans; [apply reset_flags_evolves | eapply process_entries_evolves, E].
Qed.

(** *** Records, flags and events *)

Lemma size_alter_records (f : record_row -> record_row) (k : string * string)
  (m : gmap (string * string) record_row) :
  size (alter f k m) = size m.
Proof.
  rewrite <- !(size_dom (D := gset (string * string))). now rewrite dom_alter_L.
Qed.

Lemma run_inv_frame d0 d s d' s' :
  records d' = records d -> new_pbs s' = new_pbs s ->
  new_players_on_map s' = new_players_on_map s ->
  run_inv d0 (d, s) -> run_inv d0 (d', s').
Proof. unfold run_inv. cbn [fst snd]. now intros -> -> ->. Qed.

Lemma run_inv_start d : run_inv d (reset_flags d, empty_session).
Proof.
  unfold run_inv, reset_flags. cbn [fst snd records new_players_on_map new_pbs length].
  split; [| split; [| split]].
  - intros k [r Hr]. rewrite lookup_fmap, Hr. cbn. eauto.
  - intros k r. rewrite lookup_fmap. destruct (records d !! k) as [r0 |]; [| discriminate].
    cbn. intros [= <-]. cbn. split; discriminate.
  - rewrite map_size_fmap. cbn. lia.
  - constructor.
Qed.

Lemma upsert_record_inv d0 now uid dn pid pname rank e d s :
  run_inv d0 (d, s) -> run_inv d0 (upsert_record now uid dn pid pname rank e (d, s)).
Proof.
  intros (Hgrow & Hflag & Hsize & Hpb). cbn [fst snd] in *. unfold upsert_record.
  destruct (records d !! (uid, pid)) as [row |] eqn:E.
  - assert (H : forall f s', (forall r, is_new_player_on_map_since_last_fetch (f r)
                                       = is_new_player_on_map_since_last_fetch r) ->
                new_players_on_map s' = new_players_on_map s ->
                Forall pb_event_ok (new_pbs s') ->
                run_inv d0 (set_records (alter f (uid, pid)) d, s')).
    { intros f s' Hf Hn Hp. unfold run_inv. cbn [fst snd set_records records].
      split; [| split; [| split]].
      - intros k Hk. destruct (Hgrow k Hk) as [r Hr]. rewrite lookup_alter.
        destruct (decide ((uid, pid) = k)) as [<- | NE]; rewrite Hr; cbn; eauto.
      - intros k r. rewrite lookup_alter.
        destruct (decide ((uid, pid) = k)) as [<- | NE].
        + rewrite E. cbn. intros [= <-]. rewrite Hf. now apply Hflag.
        + apply Hflag.
      - rewrite Hn, <- Hsize. apply size_alter_records.
      - exact Hp. }
    destruct (is_pb _ _ _ _) eqn:Hpbe; [| destruct (negb _)]; apply H;
      try reflexivity; try exact Hpb.
    cbn [add_pb new_pbs]. apply Forall_app. split; [exact Hpb |].
    constructor; [| constructor]. unfold pb_event_ok.
    destruct (te_time e) as [t |]; [| discriminate].
    destruct (time_ms row) as [old |] eqn:Hold; [| exact I].
    eapply is_pb_not_worse, Hpbe.
  - unfold run_inv. cbn [fst snd set_records records add_new_player_on_map
                         new_players_on_map new_pbs].
    split; [| split; [| split]].
    + intros k Hk. destruct (Hgrow k Hk) as [r Hr].
      rewrite lookup_insert_ne by congruence. eauto.
    + intros k r. destruct (decide ((uid, pid) = k)) as [<- | NE].
      * rewrite lookup_insert_eq. intros [= <-]. cbn. split; [intros _ | reflexivity].
        destruct (records d0 !! (uid, pid)) as [r0 |] eqn:E0; [| reflexivity].
        destruct (Hgrow (uid, pid)) as [r1 Hr1]; [rewrite E0; eauto | congruence].
      * rewrite lookup_insert_ne by exact NE. apply Hflag.
    + rewrite map_size_insert_None by exact E. rewrite length_app. cbn. lia.
    + exact Hpb.
Qed.

Lemma process_row_inv d0 now uid dn rank e d s :
  run_inv d0 (d, s) -> run_inv d0 (process_row now uid dn rank e (d, s)).
Proof.
  intros Hinv. unfold process_row.
  destruct (truthy_id _) as [pid |]; [| exact Hinv].
  pose proof (upsert_player_frame now pid (default "Unknown" (pj_name (te_player e)))
                (default ZEmpty (pj_zone (te_player e))) d s) as Hp.
  cbv zeta in Hp. destruct (upsert_player _ _ _ _ _) as [d1 s1].
  cbn [fst snd] in Hp. destruct Hp as (_ & Hr & Hb & Hn & _).
  apply upsert_record_inv. now apply (run_inv_frame d0 d s).
Qed.

Lemma process_rows_inv d0 now uid dn rows : forall rank d s,
  run_inv d0 (d, s) -> run_inv d0 (process_rows now uid dn rank rows (d, s)).
Proof.
  induction rows as [| e rows IH]; intros rank d s Hinv; [exact Hinv |].
  cbn [process_rows].
  pose proof (process_row_inv d0 now uid dn rank e d s Hinv) as H1.
  destruct (process_row _ _ _ _ _ _) as [d1 s1]. now apply IH.
Qed.

Lemma reconcile_wr_inv d0 now uid dn wid wtime wts wname d s :
  run_inv d0 (d, s) -> run_inv d0 (reconcile_wr now uid dn wid wtime wts wname (d, s)).
Proof.
  intros Hinv.
  pose proof (reconcile_wr_frame now uid dn wid wtime wts wname d s) as H.
  cbv zeta in H. destruct (reconcile_wr _ _ _ _ _ _ _ _) as [d1 s1].
  cbn [fst snd] in H. destruct H as (_ & Hr & Hb & Hn & _).
  now apply (run_inv_frame d0 d s).
Qed.

Lemma reconcile_map_inv d0 now uid dn tops cnt d s :
  run_inv d0 (d, s) -> run_inv d0 (reconcile_map now uid dn tops cnt (d, s)).
Proof.
  intros Hinv. unfold reconcile_map. set (d1 := if negb _ then _ else d).
  assert (H1 : run_inv d0 (d1, s)).
  { apply (run_inv_frame d0 d s); try reflexivity; [| exact Hinv].
    subst d1. now destruct (negb _). }
  clearbody d1.
  assert (H2 : run_inv d0 (reconcile_wr_candidate now uid dn tops (d1, s))).
  { unfold reconcile_wr_candidate. destruct tops as [| e tops].
    - now apply reconcile_wr_inv.
    - destruct (truthy_id (pj_id (te_player e))) as [wid |]; [| now apply reconcile_wr_inv].
      pose proof (upsert_wr_player_frame now wid
                    (default "UnknownWRPlayer" (pj_name (te_player e)))
                    (default ZEmpty (pj_zone (te_player e))) d1 s) as Hw.
      cbv zeta in Hw. destruct (upsert_wr_player _ _ _ _ _) as [d2 s2].
      cbn [fst snd] in Hw. destruct Hw as (_ & Hr & Hb & Hn & _).
      apply reconcile_wr_inv. now apply (run_inv_frame d0 d1 s). }
  destruct (reconcile_wr_candidate _ _ _ _ _) as [d2 s2]. now apply process_rows_inv.
Qed.

Lemma process_entry_inv d0 fuel api now entry d s reqs d' s' reqs' :
  process_entry fuel api now entry (d, s, reqs) = Some (d', s', reqs') ->
  run_inv d0 (d, s) -> run_inv d0 (d', s').
Proof.
  intros Hrun Hinv.
  destruct (extract_map_uid_from_url (url_template entry)) as [uid |] eqn:Huid.
  - rewrite (process_entry_unfold _ _ _ _ _ _ _ _ Huid) in Hrun.
    destruct (fetch_loop _ _ _ _ _ _ _ _ _) as [ls |] eqn:Hloop; [| discriminate].
    cbn [mbind option_bind] in Hrun.
    destruct (fetch_initial_outcome _ _ _ _ _ _ _ _ _ _ _ Hloop) as (Hd & _ & _).
    injection Hrun as Hrun _. rewrite <- Hrun. apply reconcile_map_inv.
    apply (run_inv_frame d0 d s); try reflexivity; [| exact Hinv].
    rewrite Hd. apply fetch_db_effect_frame.
  - unfold process_entry in Hrun. rewrite Huid in Hrun. now injection Hrun as <- <- _.
Qed.

Lemma process_entries_inv d0 fuel api now entries : forall d s reqs d' s' reqs',
  process_entries fuel api now entries (d, s, reqs) = Some (d', s', reqs') ->
  run_inv d0 (d, s) -> run_inv d0 (d', s').
Proof.
  induction entries as [| entry entries IH]; intros d s reqs d' s' reqs' Hrun Hinv.
  - cbn in Hrun. now injection Hrun as <- <- _.
  - cbn [process_entries] in Hrun.
    destruct (process_entry fuel api now entry (d, s, reqs)) as [[[d1 s1] r1] |] eqn:E;
      [| discriminate].
    cbn [mbind option_bind] in Hrun.
    eapply IH; [exact Hrun |]. eapply process_entry_inv; [exact E | exact Hinv].
Qed.

Lemma run_keeps_inv fuel api now entries d d' s' reqs' :
  fetch_and_process_data fuel api now entries d = Some (RunDone (d', s', reqs')) ->
  run_inv d (d', s').
Proof.
  intros Hrun. unfold fetch_and_process_data in Hrun.
  destruct entries as [| entry entries]; [discriminate |].
  destruct (process_entries _ _ _ _ _) as [[[d1 s1] r1] |] eqn:E; [| discriminate].
  cbn in Hrun. injection Hrun as -> -> ->.
  eapply process_entries_inv; [exact E | apply run_inv_start].
Qed.

(** *** The foreign keys *)

Lemma references_step d d' :
  references_ok d -> evolves d d' ->
  (forall uid pid, is_Some (records d' !! (uid, pid)) ->
     is_Some (records d !! (uid, pid)) \/
     (is_Some (maps d' !! uid) /\ is_Some (players d' !! pid))) ->
  (forall uid m' pid, maps d' !! uid = Some m' -> wr_player_id m' = Some pid ->
     (exists m, maps d !! uid = Some m /\ wr_player_id m = Some pid) \/
     is_Some (players d' !! pid)) ->
  references_ok d'.
Proof.
  intros [R1 R2] (Em & Ep & _) Hrec Hwr.
  assert (Ep' : forall k, is_Some (players d !! k) -> is_Some (players d' !! k)).
  { intros k [r Hr]. destruct (Ep k r Hr) as (r' & Hr' & _). eauto. }
  split.
  - intros uid pid r Hr. destruct (Hrec uid pid) as [[r0 Hr0] | H]; [eauto | | exact H].
    destruct (R1 uid pid r0 Hr0) as [A B]. split; [now apply Em | now apply Ep'].
  - intros uid m' pid Hm' Hid. destruct (Hwr uid m' pid Hm' Hid) as [(m & Hm & Hi) | H];
      [| exact H].
    apply Ep'. eapply R2; [exact Hm | exact Hi].
Qed.

Lemma references_same d d' :
  maps d' = maps d -> records d' = records d -> evolves d d' ->
  references_ok d -> references_ok d'.
Proof.
  intros Hm Hr Hev Hok. apply (references_step d d' Hok Hev).
  - intros uid pid. rewrite Hr. now left.
  - intros uid m' pid. rewrite Hm. intros H1 H2. left. now exists m'.
Qed.

Lemma references_alter_maps f uid d :
  (forall m, wr_player_id (f m) = wr_player_id m) ->
  references_ok d -> references_ok (set_maps (alter f uid) d).
Proof.
  intros Hf Hok. apply (references_step d _ Hok (evolves_alter_maps f uid d)).
  - intros u p H. now left.
  - intros u m' p. cbn [set_maps maps]. rewrite lookup_alter.
    destruct (decide (uid = u)) as [<- | NE]; [| intros H1 H2; left; now exists m'].
    destruct (maps d !! uid) as [m |] eqn:E; [| discriminate]. cbn. intros [= <-] Hi.
    left. exists m. split; [reflexivity |]. now rewrite <- Hf.
Qed.

Lemma upsert_player_known now pid pname z d s :
  is_Some (players (upsert_player now pid pname z (d, s)).1 !! pid).
Proof.
  unfold upsert_player. destruct (get_actual_country_info z) as [cn cf].
  destruct (players d !! pid) as [row |] eqn:E; cbn [fst set_players players].
  - rewrite lookup_alter_eq, E. cbn. eauto.
  - rewrite lookup_insert_eq. eauto.
Qed.

Lemma upsert_wr_player_known now pid pname z d s :
  is_Some (players (upsert_wr_player now pid pname z (d, s)).1 !! pid).
Proof.
  unfold upsert_wr_player. destruct (get_actual_country_info z) as [cn cf].
  destruct (players d !! pid) as [row |] eqn:E.
  - destruct (negb _); cbn [fst set_players players]; rewrite lookup_alter_eq, E; cbn; eauto.
  - cbn [fst set_players players]. rewrite lookup_insert_eq. eauto.
Qed.

Lemma upsert_record_refs now uid dn pid pname rank e d s :
  references_ok d -> is_Some (maps d !! uid) -> is_Some (players d !! pid) ->
  references_ok (upsert_record now uid dn pid pname rank e (d, s)).1.
Proof.
  intros Hok Hm Hp.
  pose proof (upsert_record_evolves now uid dn pid pname rank e d s) as Hev.
  pose proof (upsert_record_frame now uid dn pid pname rank e d s) as Hf.
  cbv zeta in Hf. destruct (upsert_record _ _ _ _ _ _ _ _) as [d1 s1].
  cbn [fst snd] in *. destruct Hf as (Fm & Fp & _ & _ & _ & Fr).
  apply (references_step d d1 Hok Hev).
  - intros u p H. destruct (decide ((u, p) = (uid, pid))) as [[= -> ->] | NE].
    + right. now rewrite Fm, Fp.
    + left. now rewrite <- (Fr (u, p) NE).
  - intros u m' p. rewrite Fm. intros H1 H2. left. now exists m'.
Qed.

Lemma process_row_refs now uid dn rank e d s :
  references_ok d -> is_Some (maps d !! uid) ->
  references_ok (process_row now uid dn rank e (d, s)).1 /\
  maps (process_row now uid dn rank e (d, s)).1 = maps d.
Proof.
  intros Hok Hm. unfold process_row.
  destruct (truthy_id _) as [pid |]; [| now split].
  pose proof (upsert_player_evolves now pid (default "Unknown" (pj_name (te_player e)))
                (default ZEmpty (pj_zone (te_player e))) d s) as Hev.
  pose proof (upsert_player_known now pid (default "Unknown" (pj_name (te_player e)))
                (default ZEmpty (pj_zone (te_player e))) d s) as Hk.
  pose proof (upsert_player_frame now pid (default "Unknown" (pj_name (te_player e)))
                (default ZEmpty (pj_zone (te_player e))) d s) as Hf.
  cbv zeta in Hf. destruct (upsert_player _ _ _ _ _) as [d1 s1].
  cbn [fst snd] in *. destruct Hf as (Fm & Fr & _).
  pose proof (upsert_record_frame now uid dn pid
                (default "Unknown" (pj_name (te_player e))) rank e d1 s1) as Hg.
  cbv zeta in Hg. destruct Hg as (Gm & _). split; [| congruence].
  apply upsert_record_refs; [| now rewrite Fm | exact Hk].
  now apply (references_same d d1).
Qed.

Lemma process_rows_refs now uid dn rows : forall rank d s,
  references_ok d -> (rows <> [] -> is_Some (maps d !! uid)) ->
  references_ok (process_rows now uid dn rank rows (d, s)).1.
Proof.
  induction rows as [| e rows IH]; intros rank d s Hok Hm; [exact Hok |].
  cbn [process_rows].
  destruct (process_row_refs now uid dn rank e d s Hok (Hm ltac:(discriminate))) as [H1 H2].
  destruct (process_row _ _ _ _ _ _) as [d1 s1]. cbn [fst] in *.
  apply IH; [exact H1 |]. intros _. rewrite H2. now apply Hm.
Qed.

Lemma reconcile_wr_refs now uid dn wid wtime wts wname d s :
  references_ok d ->
  (forall i, truthy_id wid = Some i -> is_Some (players d !! i)) ->
  references_ok (reconcile_wr now uid dn wid wtime wts wname (d, s)).1.
Proof.
  intros Hok Hp.
  assert (H : forall holder time ts,
            (forall i, holder = Some i -> is_Some (players d !! i)) ->
            references_ok (set_maps (alter (with_wr holder time ts now) uid) d)).
  { intros holder time ts Hh.
    apply (references_step d _ Hok (evolves_alter_maps _ uid d)).
    - intros u p Hr. now left.
    - intros u m' p. cbn [set_maps maps players]. rewrite lookup_alter.
      destruct (decide (uid = u)) as [<- | NE]; [| intros H1 H2; left; now exists m'].
      destruct (maps d !! uid) as [m |]; [| discriminate]. cbn. intros [= <-] Hi.
      right. now apply Hh. }
  unfold reconcile_wr. destruct (select_db_wr d uid) as [[dbid dbtime] dbname].
  destruct (truthy_id wid) as [i |]; [destruct wtime as [t |] |].
  - destruct (orb _ _); cbn [fst]; [| exact Hok]. apply H. intros j [= <-]. now apply Hp.
  - destruct dbid; cbn [fst]; [| exact Hok]. apply H. discriminate.
  - destruct dbid; cbn [fst]; [| exact Hok]. apply H. discriminate.
Qed.

Lemma reconcile_wr_maps now uid dn wid wtime wts wname d s :
  is_Some (maps d !! uid) ->
  is_Some (maps (reconcile_wr now uid dn wid wtime wts wname (d, s)).1 !! uid).
Proof. intros H. now apply (reconcile_wr_evolves now uid dn wid wtime wts wname d s). Qed.

Lemma reconcile_map_refs now uid dn tops cnt d s :
  references_ok d -> (tops <> [] -> is_Some (maps d !! uid)) ->
  references_ok (reconcile_map now uid dn tops cnt (d, s)).1.
Proof.
  intros Hok Hm. unfold reconcile_map. set (d1 := if negb _ then _ else d).
  assert (H1 : references_ok d1 /\ (tops <> [] -> is_Some (maps d1 !! uid))).
  { subst d1. destruct (negb _); [| now split]. split.
    - now apply references_alter_maps.
    - intros Hne. now apply (evolves_alter_maps _ uid d), Hm. }
  clearbody d1. destruct H1 as [Hok1 Hm1].
  assert (H2 : references_ok (reconcile_wr_candidate now uid dn tops (d1, s)).1 /\
               (tops <> [] ->
                is_Some (maps (reconcile_wr_candidate now uid dn tops (d1, s)).1 !! uid))).
  { split.
    - unfold reconcile_wr_candidate. destruct tops as [| e tops].
      + apply reconcile_wr_refs; [exact Hok1 | discriminate].
      + destruct (truthy_id (pj_id (te_player e))) as [wid |] eqn:Hid.
        * pose proof (upsert_wr_player_evolves now wid
                        (default "UnknownWRPlayer" (pj_name (te_player e)))
                        (default ZEmpty (pj_zone (te_player e))) d1 s) as Hev.
          pose proof (upsert_wr_player_known now wid
                        (default "UnknownWRPlayer" (pj_name (te_player e)))
                        (default ZEmpty (pj_zone (te_player e))) d1 s) as Hk.
          pose proof (upsert_wr_player_frame now wid
                        (default "UnknownWRPlayer" (pj_name (te_player e)))
                        (default ZEmpty (pj_zone (te_player e))) d1 s) as Hf.
          cbv zeta in Hf. destruct (upsert_wr_player _ _ _ _ _) as [d2 s2].
          cbn [fst snd] in *. destruct Hf as (Fm & Fr & _).
          apply reconcile_wr_refs; [now apply (references_same d1 d2) |].
          intros i Hi. rewrite Hid in Hi. now injection Hi as <-.
        * apply reconcile_wr_refs; [exact Hok1 |]. intros i Hi. congruence.
    - intros Hne. now apply (reconcile_wr_candidate_evolves now uid dn tops d1 s), Hm1. }
  destruct (reconcile_wr_candidate _ _ _ _ _) as [d2 s2]. cbn [fst] in H2.
  destruct H2 as [Hok2 Hm2]. now apply process_rows_refs.
Qed.

Lemma upsert_map_refs uid tmpl dn ord now c d :
  references_ok d -> references_ok (upsert_map uid tmpl dn ord now c d).
Proof.
  intros Hok. apply (references_step d _ Hok (upsert_map_evolves uid tmpl dn ord now c d)).
  - intros u p H. now left.
  - intros u m' p. unfold upsert_map. cbn [set_maps maps players]. rewrite lookup_alter.
    destruct (decide (uid = u)) as [<- | NE].
    + destruct (maps d !! uid) as [m |] eqn:E.
      * rewrite E. cbn. intros [= <-] Hi. left. now exists m.
      * rewrite lookup_insert_eq. cbn. intros [= <-]. discriminate.
    + destruct (maps d !! uid) as [m |] eqn:E.
      * intros H1 H2. left. now exists m'.
      * rewrite lookup_insert_ne by exact NE. intros H1 H2. left. now exists m'.
Qed.

Lemma process_entry_refs fuel api now entry d s reqs d' s' reqs' :
  process_entry fuel api now entry (d, s, reqs) = Some (d', s', reqs') ->
  references_ok d -> references_ok d'.
Proof.
  intros Hrun Hok.
  destruct (extract_map_uid_from_url (url_template entry)) as [uid |] eqn:Huid.
  - rewrite (process_entry_unfold _ _ _ _ _ _ _ _ Huid) in Hrun.
    destruct (fetch_loop _ _ _ _ _ _ _ _ _) as [ls |] eqn:Hloop; [| discriminate].
    cbn [mbind option_bind] in Hrun.
    destruct (fetch_initial_outcome _ _ _ _ _ _ _ _ _ _ _ Hloop) as (Hd & _ & Hrow).
    assert (H : references_ok (reconcile_map now uid (name entry) (all_tops_for_map ls)
                                 (map_total_playercount_api ls) (ls_db ls, s)).1).
    { apply reconcile_map_refs.
      - rewrite Hd. unfold fetch_db_effect.
        destruct (api _); [exact Hok | exact Hok | now apply upsert_map_refs].
      - intros Hne. destruct (Hrow Hne) as (pc & tp & Hapi). rewrite Hd.
        eapply fetch_db_effect_row_response, Hapi. }
    destruct (reconcile_map _ _ _ _ _ _) as [d2 s2]. now injection Hrun as <- _ _.
  - unfold process_entry in Hrun. rewrite Huid in Hrun. now injection Hrun as <- _ _.
Qed.

Lemma process_entries_refs fuel api now entries : forall d s reqs d' s' reqs',
  process_entries fuel api now entries (d, s, reqs) = Some (d', s', reqs') ->
  references_ok d -> references_ok d'.
Proof.
  induction entries as [| entry entries IH]; intros d s reqs d' s' reqs' Hrun Hok.
  - cbn in Hrun. now injection Hrun as <- _ _.
  - cbn [process_entries] in Hrun.
    destruct (process_entry fuel api now entry (d, s, reqs)) as [[[d1 s1] r1] |] eqn:E;
      [| discriminate].
    cbn [mbind option_bind] in Hrun.
    eapply IH; [exact Hrun |]. eapply process_entry_refs; [exact E | exact Hok].
Qed.

Lemma reset_flags_refs d : references_ok d -> references_ok (reset_flags d).
Proof.
  intros Hok. apply (references_step d _ Hok (reset_flags_evolves d)).
  - intros u p. unfold reset_flags. cbn [records]. rewrite lookup_fmap.
    destruct (records d !! (u, p)); [left; eauto | intros [? ?]; discriminate].
  - intros u m' p. unfold reset_flags. cbn [maps]. rewrite lookup_fmap.
    destruct (maps d !! u) as [m |]; [| discriminate]. cbn. intros [= <-] Hi.
    left. now exists m.
Qed.

End RunFacts.

(** ** What a run keeps: the properties *)

Module RunProperties.
Import Zone Data Url Fetch Reconcile FetchFacts ReconcileFacts Run RunFacts.
Local Open Scope string_scope.
Local Open Scope Z_scope.

(** A database with one map, its record holder and one record, and a server
    whose leaderboard has a new leader. *)
Definition sample_db : db :=
  Db {[ "ABC" := map_with_wr ]}
     {[ "p1" := PlayerRow "One" "France" "FRA" "t0" ]}
     {[ ("ABC", "p1") := RecordRow (Some 10000) (Some 0) 1 None "t0" "t0" false false ]}.

Definition sample_api : api_server := fun _ =>
  Response (Some 2) (Some [timed_row "p2" "Two" (Some 9000);
                           timed_row "p1" "One" (Some 9500)]).

(** A run deletes nothing: every map, player and record of the database is
    still there after it, a player keeps [first_seen_by_script_at] and a
    record keeps [script_recorded_at]. *)
Theorem run_never_deletes (fuel : nat) (api : api_server) (now : string)
  (entries : list map_url_entry) (d d' : db) (s' : session) (reqs' : list string) :
  fetch_and_process_data fuel api now entries d = Some (RunDone (d', s', reqs')) ->
  (forall k, is_Some (maps d !! k) -> is_Some (maps d' !! k)) /\
  (forall k r, players d !! k = Some r ->
     exists r', players d' !! k = Some r' /\
       first_seen_by_script_at r' = first_seen_by_script_at r) /\
  (forall k r, records d !! k = Some r ->
     exists r', records d' !! k = Some r' /\
       script_recorded_at r' = script_recorded_at r).
Proof.
  intros Hrun. destruct (run_evolves _ _ _ _ _ _ _ _ Hrun) as (Hm & Hp & Hr).
  split; [exact Hm | split; [exact Hp |]].
  intros k r Hk. destruct (Hr k r Hk) as (r' & Hr' & Hrec & _). now exists r'.
Qed.

Lemma run_never_deletes_witness :
  exists d' s' reqs',
    fetch_and_process_data 5 sample_api "t1" [sample_entry] sample_db
    = Some (RunDone (d', s', reqs')) /\
    exists r', players d' !! "p1" = Some r' /\ first_seen_by_script_at r' = "t0".
Proof.
  destruct (fetch_and_process_data 5 sample_api "t1" [sample_entry] sample_db)
    as [[| [[d' s'] reqs']] |] eqn:Hrun; try (vm_compute in Hrun; discriminate).
  exists d', s', reqs'. split; [reflexivity |].
  destruct (run_never_deletes _ _ _ _ _ _ _ _ Hrun) as (_ & Hp & _).
  apply (Hp "p1" (PlayerRow "One" "France" "FRA" "t0")). reflexivity.
Defined.

(** A stored time never gets worse and never gets lost: a record that has
    a time before a run has one after it, and that one is not higher. *)
Theorem stored_time_never_worse (fuel : nat) (api : api_server) (now : string)
  (entries : list map_url_entry) (d d' : db) (s' : session) (reqs' : list string)
  (k : string * string) (r : record_row) (t : Z) :
  fetch_and_process_data fuel api now entries d = Some (RunDone (d', s', reqs')) ->
  records d !! k = Some r -> time_ms r = Some t ->
  exists r' t', records d' !! k = Some r' /\ time_ms r' = Some t' /\ t' <= t.
Proof.
  intros Hrun Hk Ht. destruct (run_evolves _ _ _ _ _ _ _ _ Hrun) as (_ & _ & Hr).
  destruct (Hr k r Hk) as (r' & Hr' & _ & Htime).
  destruct (Htime t Ht) as (t' & Ht' & Hle). now exists r', t'.
Qed.

Lemma stored_time_never_worse_witness :
  exists d' s' reqs',
    fetch_and_process_data 5 sample_api "t1" [sample_entry] sample_db
    = Some (RunDone (d', s', reqs')) /\
    exists r' t', records d' !! ("ABC", "p1") = Some r' /\ time_ms r' = Some t' /\
                  t' <= 10000.
Proof.
  destruct (fetch_and_process_data 5 sample_api "t1" [sample_entry] sample_db)
    as [[| [[d' s'] reqs']] |] eqn:Hrun; try (vm_compute in Hrun; discriminate).
  exists d', s', reqs'. split; [reflexivity |].
  apply (stored_time_never_worse _ _ _ _ _ _ _ _ ("ABC", "p1")
           (RecordRow (Some 10000) (Some 0) 1 None "t0" "t0" false false) 10000 Hrun);
    reflexivity.
Defined.

(** The run keeps the foreign keys of the schema, which SQLite does not
    check: in a database where every map row is kept under the UID of its
    own URL, if every record has its map and its player, and every stored WR
    holder has a player row, the same holds after the run. *)
Theorem run_keeps_references (fuel : nat) (api : api_server) (now : string)
  (entries : list map_url_entry) (d d' : db) (s' : session) (reqs' : list string) :
  urls_keyed d ->
  references_ok d ->
  fetch_and_process_data fuel api now entries d = Some (RunDone (d', s', reqs')) ->
  references_ok d' /\ urls_keyed d'.
Proof.
  intros Hkeyed Hok Hrun.
  split; [| exact (fetch_and_process_data_keyed _ _ _ _ _ _ _ _ Hkeyed Hrun)].
  unfold fetch_and_process_data in Hrun.
  destruct entries as [| entry entries]; [discriminate |].
  destruct (process_entries _ _ _ _ _) as [[[d1 s1] r1] |] eqn:E; [| discriminate].
  cbn in Hrun. injection Hrun as -> -> ->.
  eapply process_entries_refs; [exact E | now apply reset_flags_refs].
Qed.

Lemma sample_db_references : references_ok sample_db.
Proof.
  split.
  - intros uid pid r Hr. unfold sample_db in Hr. cbn [records] in Hr.
    apply lookup_singleton_Some in Hr as [[= <- <-] _].
    split; eexists; reflexivity.
  - intros uid m pid Hm Hid. unfold sample_db in Hm. cbn [maps] in Hm.
    apply lookup_singleton_Some in Hm as [<- <-]. injection Hid as <-.
    eexists; reflexivity.
Qed.

Lemma sample_db_keyed : urls_keyed sample_db.
Proof. apply urls_keyedb_spec. vm_compute. reflexivity. Qed.

Lemma run_keeps_references_witness :
  exists d' s' reqs',
    fetch_and_process_data 5 sample_api "t1" [sample_entry] sample_db
    = Some (RunDone (d', s', reqs')) /\ references_ok d' /\ urls_keyed d'.
Proof.
  destruct (fetch_and_process_data 5 sample_api "t1" [sample_entry] sample_db)
    as [[| [[d' s'] reqs']] |] eqn:Hrun; try (vm_compute in Hrun; discriminate).
  exists d', s', reqs'. split; [reflexivity |].
  exact (run_keeps_references _ _ _ _ _ _ _ _ sample_db_keyed sample_db_references Hrun).
Defined.

(** After a run a record is flagged [is_new_player_on_map_since_last_fetch]
    exactly if the database had no record of that player on that map before
    the run. *)
Theorem new_on_map_flag (fuel : nat) (api : api_server) (now : string)
  (entries : list map_url_entry) (d d' : db) (s' : session) (reqs' : list string)
  (k : string * string) (r' : record_row) :
  fetch_and_process_data fuel api now entries d = Some (RunDone (d', s', reqs')) ->
  records d' !! k = Some r' ->
  (is_new_player_on_map_since_last_fetch r' = true <-> records d !! k = None).
Proof.
  intros Hrun Hk. destruct (run_keeps_inv _ _ _ _ _ _ _ _ Hrun) as (_ & Hflag & _).
  now apply Hflag.
Qed.

Lemma new_on_map_flag_witness :
  exists d' s' reqs' r',
    fetch_and_process_data 5 sample_api "t1" [sample_entry] sample_db
    = Some (RunDone (d', s', reqs')) /\
    records d' !! ("ABC", "p2") = Some r' /\
    is_new_player_on_map_since_last_fetch r' = true.
Proof.
  destruct (fetch_and_process_data 5 sample_api "t1" [sample_entry] sample_db)
    as [[| [[d' s'] reqs']] |] eqn:Hrun; try (vm_compute in Hrun; discriminate).
  destruct (records d' !! ("ABC", "p2")) as [r' |] eqn:Hr.
  - exists d', s', reqs', r'. split; [reflexivity | split; [exact Hr |]].
    apply (new_on_map_flag _ _ _ _ _ _ _ _ _ _ Hrun Hr). reflexivity.
  - exfalso. vm_compute in Hrun. injection Hrun as <- _ _. vm_compute in Hr. discriminate.
Defined.

(** Every record that a run adds has its new-player-on-map event, and there
    is no other such event: the table grows by the number of these events. *)
Theorem new_on_map_events_count (fuel : nat) (api : api_server) (now : string)
  (entries : list map_url_entry) (d d' : db) (s' : session) (reqs' : list string) :
  fetch_and_process_data fuel api now entries d = Some (RunDone (d', s', reqs')) ->
  size (records d') = (size (records d) + length (new_players_on_map s'))%nat.
Proof.
  intros Hrun. now destruct (run_keeps_inv _ _ _ _ _ _ _ _ Hrun) as (_ & _ & Hsize & _).
Qed.

Lemma new_on_map_events_count_witness :
  exists d' s' reqs',
    fetch_and_process_data 5 sample_api "t1" [sample_entry] sample_db
    = Some (RunDone (d', s', reqs')) /\
    size (records d') = (size (records sample_db) + length (new_players_on_map s'))%nat.
Proof.
  destruct (fetch_and_process_data 5 sample_api "t1" [sample_entry] sample_db)
    as [[| [[d' s'] reqs']] |] eqn:Hrun; try (vm_compute in Hrun; discriminate).
  exists d', s', reqs'. split; [reflexivity |].
  exact (new_on_map_events_count _ _ _ _ _ _ _ _ Hrun).
Defined.

(** Every PB event of a run carries the new time, and the old time it
    reports, if there is one, is not better than the new one. *)
Theorem pb_events_sound (fuel : nat) (api : api_server) (now : string)
  (entries : list map_url_entry) (d d' : db) (s' : session) (reqs' : list string)
  (pname dn : string) (new_time old_time : option Z) :
  fetch_and_process_data fuel api now entries d = Some (RunDone (d', s', reqs')) ->
  In (pname, dn, new_time, old_time) (new_pbs s') ->
  exists t, new_time = Some t /\ forall old, old_time = Some old -> t <= old.
Proof.
  intros Hrun Hin. destruct (run_keeps_inv _ _ _ _ _ _ _ _ Hrun) as (_ & _ & _ & Hpb).
  rewrite Forall_forall in Hpb. apply list_elem_of_In in Hin.
  specialize (Hpb _ Hin). cbn in Hpb.
  destruct new_time as [t |]; [| contradiction]. exists t. split; [reflexivity |].
  intros old ->. exact Hpb.
Qed.

Lemma pb_events_sound_witness :
  exists d' s' reqs',
    fetch_and_process_data 5 sample_api "t1" [sample_entry] sample_db
    = Some (RunDone (d', s', reqs')) /\
    exists t, Some 9500 = Some t /\ forall old, Some 10000 = Some old -> t <= old.
Proof.
  destruct (fetch_and_process_data 5 sample_api "t1" [sample_entry] sample_db)
    as [[| [[d' s'] reqs']] |] eqn:Hrun; try (vm_compute in Hrun; discriminate).
  exists d', s', reqs'. split; [reflexivity |].
  apply (pb_events_sound _ _ _ _ _ _ _ _ "One" "Map" _ _ Hrun).
  vm_compute in Hrun. injection Hrun as _ <- _. vm_compute. now left.
Defined.

(** *** The database after an entry *)

Lemma is_pb_false_not_better t stored rank :
  is_pb (Some t) stored rank rank = false ->
  exists t', stored = Some t' /\ t' <= t.
Proof.
  destruct stored as [old |]; [| discriminate]. cbn. intros H.
  apply orb_false_iff in H as [H _]. exists old. split; [reflexivity | lia].
Qed.

(** Once an entry is processed, the database shows the leaderboard that was
    fetched for it, if no player is listed twice: every listed player has
    the name and the country of the row, and a record on the map whose
    position is the rank of the row and whose time is not worse than the
    time of the row. *)
Theorem entry_syncs_leaderboard (fuel : nat) (api : api_server) (now : string)
  (entry : map_url_entry) (uid : string) (d : db) (s : session) (reqs : list string)
  (d' : db) (s' : session) (reqs' : list string) :
  extract_map_uid_from_url (url_template entry) = Some uid ->
  process_entry fuel api now entry (d, s, reqs) = Some (d', s', reqs') ->
  NoDup (player_ids (leaderboard_of fuel api entry)) ->
  forall (j : nat) (e : top_entry) (pid : string),
    leaderboard_of fuel api entry !! j = Some e -> row_id e = Some pid ->
    (exists p, players d' !! pid = Some p /\
       last_known_name p = default "Unknown" (pj_name (te_player e)) /\
       (country_name p, country_flag p)
       = get_actual_country_info (default ZEmpty (pj_zone (te_player e)))) /\
    (exists r, records d' !! (uid, pid) = Some r /\
       position r = 1 + Z.of_nat j /\
       forall t, te_time e = Some t -> exists t', time_ms r = Some t' /\ t' <= t).
Proof.
  intros Huid Hrun Hnd j e pid Hj Hid.
  rewrite (process_entry_unfold _ _ _ _ _ _ _ _ Huid) in Hrun.
  destruct (fetch_loop _ _ _ _ _ _ _ _ _) as [ls |] eqn:Hloop; [| discriminate].
  cbn [mbind option_bind] in Hrun.
  rewrite (leaderboard_of_fetch _ _ _ _ _ _ _ _ Huid Hloop) in Hnd, Hj.
  destruct (fetch_initial_outcome _ _ _ _ _ _ _ _ _ _ _ Hloop) as (Hd & _ & Hrow).
  assert (Hmap : all_tops_for_map ls <> [] -> is_Some (maps (ls_db ls) !! uid)).
  { intros Hne. destruct (Hrow Hne) as (pc & tp & Hapi). rewrite Hd.
    eapply fetch_db_effect_row_response, Hapi. }
  pose proof (reconcile_map_settles now uid (name entry) (all_tops_for_map ls)
                (map_total_playercount_api ls) (ls_db ls) s Hnd Hmap) as Hset.
  cbv zeta in Hset. destruct (reconcile_map _ _ _ _ _ _) as [d2 s2].
  injection Hrun as <- _ _. cbn [fst] in Hset. destruct Hset as [Hrows _].
  destruct (Hrows j e pid Hj Hid) as [Hp (r & Hr & Hpos & Hpb)].
  split; [exact Hp |]. exists r. split; [exact Hr | split; [exact Hpos |]].
  intros t Ht. rewrite Ht in Hpb. now apply is_pb_false_not_better in Hpb.
Qed.

Lemma entry_syncs_leaderboard_witness :
  exists d' s' reqs',
    process_entry 5 sample_api "t1" sample_entry (sample_db, empty_session, [])
    = Some (d', s', reqs') /\
    exists r, records d' !! ("ABC", "p1") = Some r /\ position r = 1 + Z.of_nat 1 /\
      forall t, Some 9500 = Some t -> exists t', time_ms r = Some t' /\ t' <= t.
Proof.
  destruct (process_entry 5 sample_api "t1" sample_entry (sample_db, empty_session, []))
    as [[[d' s'] reqs'] |] eqn:Hrun; [| vm_compute in Hrun; discriminate].
  exists d', s', reqs'. split; [reflexivity |].
  apply (entry_syncs_leaderboard 5 sample_api "t1" sample_entry "ABC" _ _ _ _ _ _
           eq_refl Hrun) with (e := timed_row "p1" "One" (Some 9500)).
  - apply (bool_decide_unpack _). vm_compute. exact I.
  - vm_compute. reflexivity.
  - reflexivity.
Defined.

(** The columns of a map row that come from the map list and the fetch. *)
Definition source_of (m : map_row) : string * string * Z * string :=
  (api_url m, map_display_name m, fetch_order m, last_fetched_at m).

Lemma source_alter f uid (d : db) :
  (forall m, source_of (f m) = source_of m) ->
  forall u, source_of <$> maps (set_maps (alter f uid) d) !! u = source_of <$> maps d !! u.
Proof.
  intros Hf u. cbn [set_maps maps]. rewrite lookup_alter.
  destruct (decide (uid = u)) as [<- | NE]; [| reflexivity].
  destruct (maps d !! uid) as [m |]; [| reflexivity]. cbn. now rewrite Hf.
Qed.

Lemma reconcile_wr_source now uid dn wid wtime wts wname d s u :
  source_of <$> maps (reconcile_wr now uid dn wid wtime wts wname (d, s)).1 !! u
  = source_of <$> maps d !! u.
Proof.
  unfold reconcile_wr. destruct (select_db_wr d uid) as [[dbid dbtime] dbname].
  destruct (truthy_id wid) as [i |]; [destruct wtime as [t |] |].
  - destruct (orb _ _); cbn [fst]; [now apply source_alter | reflexivity].
  - destruct dbid; cbn [fst]; [now apply source_alter | reflexivity].
  - destruct dbid; cbn [fst]; [now apply source_alter | reflexivity].
Qed.

Lemma reconcile_map_source now uid dn tops cnt d s u :
  source_of <$> maps (reconcile_map now uid dn tops cnt (d, s)).1 !! u
  = source_of <$> maps d !! u.
Proof.
  unfold reconcile_map. set (d1 := if negb _ then _ else d).
  assert (H1 : source_of <$> maps d1 !! u = source_of <$> maps d !! u).
  { subst d1. destruct (negb _); [now apply source_alter | reflexivity]. }
  clearbody d1. rewrite <- H1.
  pose proof (process_rows_frame now uid dn tops 1
                (reconcile_wr_candidate now uid dn tops (d1, s)).1
                (reconcile_wr_candidate now uid dn tops (d1, s)).2) as [Hm _].
  rewrite <- surjective_pairing in Hm. rewrite Hm.
  unfold reconcile_wr_candidate. destruct tops as [| e tops].
  - apply reconcile_wr_source.
  - destruct (truthy_id (pj_id (te_player e))) as [wid |]; [| apply reconcile_wr_source].
    pose proof (upsert_wr_player_frame now wid
                  (default "UnknownWRPlayer" (pj_name (te_player e)))
                  (default ZEmpty (pj_zone (te_player e))) d1 s) as [Hw _].
    destruct (upsert_wr_player _ _ _ _ _) as [d2 s2]. cbn [fst] in Hw.
    rewrite reconcile_wr_source. now rewrite Hw.
Qed.

Lemma upsert_map_source uid tmpl dn ord now c d :
  exists m, maps (upsert_map uid tmpl dn ord now c d) !! uid = Some m /\
    source_of m = (tmpl, dn, ord, now) /\ last_playercount m = c.
Proof.
  unfold upsert_map. cbn [set_maps maps]. rewrite lookup_alter_eq.
  destruct (maps d !! uid) as [m |] eqn:E.
  - rewrite E. cbn. eexists. split; [reflexivity |]. now split.
  - rewrite lookup_insert_eq. cbn. eexists. split; [reflexivity |]. now split.
Qed.

(** In a database where every map row is kept under the UID of its own
    URL: once an entry whose first page request was answered is processed,
    the row of its map carries the URL template, the display name and the
    order of the entry, the time of the run, and as player count the number
    of rows that were fetched, whatever count the server reported. *)
Theorem entry_updates_map_row (fuel : nat) (api : api_server) (now : string)
  (entry : map_url_entry) (uid : string) (d : db) (s : session) (reqs : list string)
  (d' : db) (s' : session) (reqs' : list string) (pc : option Z)
  (tp : option (list top_entry)) :
  urls_keyed d ->
  extract_map_uid_from_url (url_template entry) = Some uid ->
  api (page_url (base_api_url_of (url_template entry)) 0) = Response pc tp ->
  process_entry fuel api now entry (d, s, reqs) = Some (d', s', reqs') ->
  exists m, maps d' !! uid = Some m /\
    api_url m = url_template entry /\ map_display_name m = name entry /\
    fetch_order m = entry_fetch_order entry /\ last_fetched_at m = now /\
    last_playercount m = Z.of_nat (length (leaderboard_of fuel api entry)).
Proof.
  intros _ Huid Hapi Hrun.
  rewrite (process_entry_unfold _ _ _ _ _ _ _ _ Huid) in Hrun.
  destruct (fetch_loop _ _ _ _ _ _ _ _ _) as [ls |] eqn:Hloop; [| discriminate].
  cbn [mbind option_bind] in Hrun.
  rewrite (leaderboard_of_fetch _ _ _ _ _ _ _ _ Huid Hloop).
  destruct (fetch_initial_outcome _ _ _ _ _ _ _ _ _ _ _ Hloop) as (Hd & Hcnt & _).
  destruct (upsert_map_source uid (url_template entry) (name entry)
              (entry_fetch_order entry) now (default 0 pc) d) as (m0 & Hm0 & Hsrc & Hpc).
  assert (Hm : maps (ls_db ls) !! uid = Some m0).
  { rewrite Hd. unfold fetch_db_effect. now rewrite Hapi. }
  destruct (reconcile_map_row now uid (name entry) (all_tops_for_map ls)
              (map_total_playercount_api ls) (ls_db ls) s m0 Hm)
    as (m' & Hm' & _ & _ & _ & G4).
  pose proof (reconcile_map_source now uid (name entry) (all_tops_for_map ls)
                (map_total_playercount_api ls) (ls_db ls) s uid) as Hs.
  destruct (reconcile_map _ _ _ _ _ _) as [d2 s2]. injection Hrun as <- _ _.
  cbn [fst] in Hm', Hs. rewrite Hm', Hm in Hs. cbn in Hs. injection Hs as E1 E2 E3 E4.
  injection Hsrc as F1 F2 F3 F4.
  exists m'. split; [exact Hm' |]. repeat split; try congruence.
  rewrite G4. destruct (Z.eqb_spec (Z.of_nat (length (all_tops_for_map ls)))
                          (map_total_playercount_api ls)) as [E | NE]; cbn [negb];
    [| reflexivity].
  rewrite Hpc, E, Hcnt. unfold reported_count. now rewrite Hapi.
Qed.

Lemma entry_updates_map_row_witness :
  exists d' s' reqs',
    process_entry 5 sample_api "t1" sample_entry (sample_db, empty_session, [])
    = Some (d', s', reqs') /\
    exists m, maps d' !! "ABC" = Some m /\
      api_url m = url_template sample_entry /\ map_display_name m = name sample_entry /\
      fetch_order m = entry_fetch_order sample_entry /\ last_fetched_at m = "t1" /\
      last_playercount m = Z.of_nat (length (leaderboard_of 5 sample_api sample_entry)).
Proof.
  destruct (process_entry 5 sample_api "t1" sample_entry (sample_db, empty_session, []))
    as [[[d' s'] reqs'] |] eqn:Hrun; [| vm_compute in Hrun; discriminate].
  exists d', s', reqs'. split; [reflexivity |].
  exact (entry_updates_map_row 5 sample_api "t1" sample_entry "ABC" _ _ _ _ _ _ _ _
           sample_db_keyed eq_refl eq_refl Hrun).
Defined.

(** *** The page loop: what bounds it and what does not *)

(** The number of requests for a map: at least one, at most the number of
    pages that the reported player count asks for, and at most 100 when the
    first page reports no player. *)
Theorem request_bound (fuel : nat) (api : api_server)
  (base_api_url map_uid base_api_url_template display_name : string) (order : Z)
  (now : string) (d : db) (reqs : list string) (st' : loop_state) :
  fetch_loop fuel api base_api_url map_uid base_api_url_template display_name order now
             (initial_loop_state d reqs) = Some st' ->
  exists n : nat,
    length (requested st') = (length reqs + n)%nat /\ (1 <= n)%nat /\
    (0 < reported_count api base_api_url ->
     100 * (Z.of_nat n - 1) < reported_count api base_api_url) /\
    (reported_count api base_api_url = 0 -> (n <= 100)%nat).
Proof.
  intros Hrun.
  destruct (fetch_loop_run api base_api_url map_uid base_api_url_template display_name
              order fuel 0 now _ st' (at_page_initial _ _ _ _) Hrun)
    as (m & Hgo & _ & Hreq & _).
  exists (S m). cbn [initial_loop_state requested] in Hreq.
  split; [| split; [lia |]].
  - rewrite Hreq, length_app, length_map, length_seq. reflexivity.
  - destruct m as [| m]; [split; intros; lia |].
    destruct (Hgo m ltac:(lia)) as (page & _ & Hnot).
    unfold stop_condition, RECORDS_PER_PAGE in Hnot. split; intros; lia.
Qed.

Lemma request_bound_witness :
  let base := "https://trackmania.io/api/leaderboard/map/ABC" in
  exists st' n,
    fetch_loop 5 api_250 base "ABC" base "Map" 0 "now" (initial_loop_state (Db ∅ ∅ ∅) [])
    = Some st' /\
    length (requested st') = (0 + n)%nat /\ (1 <= n)%nat /\
    (0 < reported_count api_250 base -> 100 * (Z.of_nat n - 1) < reported_count api_250 base).
Proof.
  cbv zeta.
  destruct (fetch_loop 5 api_250 "https://trackmania.io/api/leaderboard/map/ABC" "ABC"
              "https://trackmania.io/api/leaderboard/map/ABC" "Map" 0 "now"
              (initial_loop_state (Db ∅ ∅ ∅) [])) as [st' |] eqn:Hrun;
    [| vm_compute in Hrun; discriminate].
  destruct (request_bound _ _ _ _ _ _ _ _ _ _ _ Hrun) as (n & H1 & H2 & H3 & _).
  exists st', n. split; [reflexivity |]. split; [exact H1 | split; [exact H2 | exact H3]].
Defined.

(** The safety cap covers a reported count of zero only: against a server
    that reports a negative player count and sends full pages for ever, the
    loop never ends. *)
Theorem negative_count_never_ends (api : api_server)
  (base_api_url map_uid base_api_url_template display_name : string) (order : Z)
  (now : string) (d : db) (reqs : list string) :
  reported_count api base_api_url < 0 ->
  (forall i, exists pc page,
     api (page_url base_api_url i) = Response pc (Some page) /\
     (100 <= length page)%nat) ->
  forall fuel,
    fetch_loop fuel api base_api_url map_uid base_api_url_template display_name order now
               (initial_loop_state d reqs) = None.
Proof.
  intros Hneg Hfull fuel.
  destruct (fetch_loop _ _ _ _ _ _ _ _ _) as [st' |] eqn:Hrun; [exfalso | reflexivity].
  destruct (fetch_loop_run api base_api_url map_uid base_api_url_template display_name
              order fuel 0 now _ st' (at_page_initial _ _ _ _) Hrun)
    as (m & _ & Hstop & _).
  unfold stops_at, page_at in Hstop. cbn [Nat.add] in Hstop.
  destruct (Hfull m) as (pc & page & Hapi & Hlen). rewrite Hapi in Hstop.
  destruct page as [| row rows]; [cbn in Hlen; lia |].
  unfold stop_condition, RECORDS_PER_PAGE in Hstop. lia.
Qed.

Lemma negative_count_never_ends_witness :
  let api : api_server := fun _ => Response (Some (-1)) (Some (repeat sample_row 100)) in
  fetch_loop 300 api "https://trackmania.io/api/leaderboard/map/ABC" "ABC"
             "https://trackmania.io/api/leaderboard/map/ABC" "Map" 0 "now"
             (initial_loop_state (Db ∅ ∅ ∅) []) = None.
Proof.
  cbv zeta. apply negative_count_never_ends.
  - vm_compute. reflexivity.
  - intros i. eexists _, _. split; [reflexivity |]. vm_compute. lia.
Defined.

End RunProperties.

(** ** URLs: the map UID and the page URL *)

Module UrlMore.
Import Url.
Local Open Scope string_scope.

Lemma contains_char_app c a b :
  contains_char c (a ++ b) = contains_char c a || contains_char c b.
Proof.
  induction a as [| x a IH]; [reflexivity |].
  change (String x a ++ b) with (String x (a ++ b)).
  cbn [contains_char]. rewrite IH. apply orb_assoc.
Qed.

Lemma take_until_clean c s : contains_char c (take_until c s) = false.
Proof.
  induction s as [| a s IH]; [reflexivity |]. cbn.
  destruct (Ascii.eqb a c) eqn:E; [reflexivity |]. cbn. now rewrite E.
Qed.

Lemma take_until_prefix c s : String.prefix (take_until c s) s = true.
Proof.
  induction s as [| a s IH]; [reflexivity |]. cbn.
  destruct (Ascii.eqb a c); [reflexivity |]. cbn.
  destruct (ascii_dec a a); [exact IH | contradiction].
Qed.

Lemma prefix_app a b s :
  String.prefix a s = true -> String.prefix b (drop (String.length a) s) = true ->
  String.prefix (a ++ b) s = true.
Proof.
  revert s. induction a as [| x a IH]; intros s Ha Hb; [exact Hb |].
  destruct s as [| y s]; [discriminate |].
  change (String x a ++ b) with (String x (a ++ b)). cbn in *.
  destruct (ascii_dec x y); [now apply IH | discriminate].
Qed.

Lemma contains_prefix a s : String.prefix a s = true -> contains a s = true.
Proof. intros H. destruct s; cbn [contains]; now rewrite H. Qed.

Lemma contains_later a c s : contains a s = true -> contains a (String c s) = true.
Proof. intros H. cbn [contains]. rewrite H. apply orb_true_r. Qed.

(** A map UID that [extract_map_uid_from_url] finds is not empty, holds no
    [?], and stands in the URL right after [/map/]. *)
Theorem map_uid_shape (api_url uid : string) :
  extract_map_uid_from_url api_url = Some uid ->
  uid <> "" /\ contains_char "?" uid = false /\ contains ("/map/" ++ uid) api_url = true.
Proof.
  revert uid. induction api_url as [| a s IH]; intros uid H; [discriminate |].
  cbn [extract_map_uid_from_url] in H.
  assert (Hlater : extract_map_uid_from_url s = Some uid ->
            uid <> "" /\ contains_char "?" uid = false /\
            contains ("/map/" ++ uid) (String a s) = true).
  { intros H'. destruct (IH uid H') as (H1 & H2 & H3). repeat split; try assumption.
    now apply contains_later. }
  destruct (String.prefix "/map/" (String a s)) eqn:Hp; [| now apply Hlater].
  remember (drop 5 (String a s)) as tail eqn:Hd.
  destruct tail as [| b rest]; [now apply Hlater |].
  destruct (Ascii.eqb b "?") eqn:Hb; cbn [negb] in H; [now apply Hlater |].
  assert (E : uid = take_until "?" (String b rest)) by (now injection H as <-).
  clear H Hlater. subst uid. split; [| split].
  - cbn [take_until]. now rewrite Hb.
  - apply take_until_clean.
  - apply contains_prefix, prefix_app; [exact Hp |].
    change (String.length "/map/") with 5%nat. rewrite <- Hd. apply take_until_prefix.
Qed.

Lemma map_uid_shape_witness :
  "ABC" <> "" /\ contains_char "?" "ABC" = false /\
  contains ("/map/" ++ "ABC") "https://trackmania.io/api/leaderboard/map/ABC?offset=0" = true.
Proof.
  apply (map_uid_shape "https://trackmania.io/api/leaderboard/map/ABC?offset=0" "ABC").
  reflexivity.
Defined.

(** *** The page URL *)

Lemma uint_digits_clean (u : Decimal.uint) :
  contains_char "?" (NilEmpty.string_of_uint u) = false.
Proof. induction u; cbn; assumption || reflexivity. Qed.

Lemma str_of_int_clean z : contains_char "?" (str_of_int z) = false.
Proof.
  unfold str_of_int, NilZero.string_of_int.
  destruct (Z.to_int z) as [u | u]; unfold NilZero.string_of_uint;
    destruct u; cbn; try reflexivity; apply uint_digits_clean.
Qed.

Lemma replace_first_none old new s c :
  contains_char c s = false ->
  replace_first (String c old) new s = s.
Proof.
  induction s as [| a s IH]; intros H; [reflexivity |].
  cbn in H. apply orb_false_iff in H as [H1 H2].
  cbn [replace_first String.prefix].
  destruct (ascii_dec c a) as [-> | NE]; [rewrite Ascii.eqb_refl in H1; discriminate |].
  now rewrite IH.
Qed.

Lemma replace_first_skip old new a b c :
  contains_char c a = false ->
  replace_first (String c old) new (a ++ b) = a ++ replace_first (String c old) new b.
Proof.
  induction a as [| x a IH]; intros H; [reflexivity |].
  cbn in H. apply orb_false_iff in H as [H1 H2].
  change (String x a ++ b) with (String x (a ++ b)).
  cbn [replace_first String.prefix].
  destruct (ascii_dec c x) as [-> | NE]; [rewrite Ascii.eqb_refl in H1; discriminate |].
  now rewrite IH.
Qed.

Lemma replace_first_step old new a s :
  String.prefix old (String a s) = false ->
  replace_first old new (String a s) = String a (replace_first old new s).
Proof. intros H. cbn [replace_first]. now rewrite H. Qed.

(** The URL of a page is the base URL followed by [offset] and [length],
    introduced by [&] if the base URL holds a [?] and by [?] if not: the
    replacement of lines 189-190 never finds anything to replace. *)
Theorem paginated_url_shape (base_api_url : string) (current_offset : Z) :
  paginated_api_url_of base_api_url current_offset
  = base_api_url ++ (if contains_char "?" base_api_url then "&" else "?")
      ++ "offset=" ++ str_of_int current_offset ++ "&length=100".
Proof.
  unfold paginated_api_url_of.
  destruct (contains_char "?" base_api_url) eqn:Hq; [reflexivity |].
  cbn [String.eqb Ascii.eqb Bool.eqb andb].
  destruct (contains _ _); [| reflexivity].
  change (str_of_int RECORDS_PER_PAGE) with "100".
  change ("?length=" ++ "100") with (String "?" "length=100").
  change ("&length=" ++ "100") with "&length=100".
  rewrite replace_first_skip by exact Hq. f_equal.
  set (rest := str_of_int current_offset ++ "&length=100").
  assert (Hrest : contains_char "?" rest = false).
  { subst rest. rewrite contains_char_app, str_of_int_clean. reflexivity. }
  change ("?" ++ "offset=" ++ rest) with (String "?" (String "o" ("ffset=" ++ rest))).
  rewrite replace_first_step by reflexivity.
  f_equal. apply replace_first_none.
  change (String "o" ("ffset=" ++ rest)) with ("offset=" ++ rest).
  rewrite contains_char_app, Hrest. reflexivity.
Qed.

End UrlMore.

(** ** The map list *)

Module MapListFacts.
Import Data Url MapList UrlMore.
Local Open Scope string_scope.

Example read_map_urls_sample :
  read_map_urls [ "# my maps" ; "" ;
                  "  https://trackmania.io/api/leaderboard/map/ABC | First map  " ;
                  "no separator here" ;
                  "https://trackmania.io/api/leaderboard/map/DEF?offset=0|Second|map" ]
  = [ MapUrlEntry "https://trackmania.io/api/leaderboard/map/ABC" "First map" 2 ;
      MapUrlEntry "https://trackmania.io/api/leaderboard/map/DEF?offset=0" "Second|map" 4 ].
Proof. vm_compute. reflexivity. Qed.

(** *** [strip] *)

Lemma app_cons c a b : String c a ++ b = String c (a ++ b).
Proof. reflexivity. Qed.

Lemma lstrip_length s : (String.length (lstrip s) <= String.length s)%nat.
Proof.
  induction s as [| c s IH]; [reflexivity |]. cbn [lstrip].
  destruct (is_space c); cbn [String.length]; lia.
Qed.

(** A string on which [lstrip] does nothing does not start with a space. *)
Lemma lstrip_fixed c s : lstrip (String c s) = String c s -> is_space c = false.
Proof.
  cbn [lstrip]. destruct (is_space c); [| reflexivity]. intros H.
  pose proof (lstrip_length s) as L. rewrite H in L. cbn [String.length] in L. lia.
Qed.

Lemma lstrip_space w s : all_space w = true -> lstrip (w ++ s) = lstrip s.
Proof.
  induction w as [| c w IH]; [reflexivity |]. cbn [all_space]. intros H.
  apply andb_true_iff in H as [H1 H2]. rewrite app_cons. cbn [lstrip]. rewrite H1. now apply IH.
Qed.

Lemma lstrip_all_space w : all_space w = true -> lstrip w = "".
Proof.
  induction w as [| c w IH]; [reflexivity |]. cbn [all_space lstrip]. intros H.
  apply andb_true_iff in H as [-> H2]. now apply IH.
Qed.

Lemma rstrip_all_space w : all_space w = true -> rstrip w = "".
Proof.
  induction w as [| c w IH]; [reflexivity |]. cbn [all_space rstrip]. intros H.
  apply andb_true_iff in H as [-> H2]. now rewrite IH.
Qed.

Lemma rstrip_cons c s :
  rstrip s <> "" -> rstrip (String c s) = String c (rstrip s).
Proof. cbn [rstrip]. destruct (rstrip s); [contradiction | reflexivity]. Qed.

Lemma rstrip_app a t : rstrip t <> "" -> rstrip (a ++ t) = a ++ rstrip t.
Proof.
  intros H. induction a as [| c a IH]; [reflexivity |].
  rewrite !app_cons, rstrip_cons, IH; [reflexivity |]. rewrite IH. now destruct a.
Qed.

Lemma rstrip_nonspace c b : is_space c = false -> rstrip (String c b) = String c (rstrip b).
Proof. intros H. cbn [rstrip]. destruct (rstrip b); [now rewrite H | reflexivity]. Qed.

Lemma rstrip_idem s : rstrip (rstrip s) = rstrip s.
Proof.
  induction s as [| c s IH]; [reflexivity |]. cbn [rstrip].
  destruct (rstrip s) as [| k ks] eqn:E.
  - destruct (is_space c) eqn:Ec; [reflexivity |]. cbn [rstrip]. now rewrite Ec.
  - rewrite rstrip_cons; rewrite IH; [reflexivity | discriminate].
Qed.

Lemma rstrip_fixed_tail c r : rstrip (String c r) = String c r -> r <> "" -> rstrip r = r.
Proof.
  cbn [rstrip]. intros H Hne. destruct (rstrip r) as [| k ks].
  - destruct (is_space c); [discriminate |]. injection H as <-. contradiction.
  - now injection H.
Qed.

(** [rstrip] of a string followed by spaces. *)
Lemma rstrip_app_space u w :
  rstrip u = u -> u <> "" -> all_space w = true -> rstrip (u ++ w) = u.
Proof.
  intros Hu Hne Hw. induction u as [| c u IH]; [contradiction |].
  rewrite app_cons. destruct u as [| c' u'].
  - cbn [rstrip] in Hu. change ("" ++ w) with w. cbn [rstrip].
    rewrite rstrip_all_space by exact Hw. destruct (is_space c); [discriminate | reflexivity].
  - pose proof (rstrip_fixed_tail c _ Hu ltac:(discriminate)) as Hr.
    rewrite rstrip_cons; rewrite (IH Hr ltac:(discriminate)); [reflexivity | discriminate].
Qed.

(** What [strip] gives has no space at either end. *)
Lemma strip_clean s : lstrip (strip s) = strip s /\ rstrip (strip s) = strip s.
Proof.
  unfold strip. split; [| apply rstrip_idem].
  destruct (lstrip s) as [| c t] eqn:E; [reflexivity |].
  assert (Hc : is_space c = false).
  { apply (lstrip_fixed c t). rewrite <- E. clear E.
    induction s as [| x s IH]; [reflexivity |]. cbn [lstrip].
    destruct (is_space x) eqn:Ex; [exact IH |]. cbn [lstrip]. now rewrite Ex. }
  rewrite rstrip_nonspace by exact Hc. cbn [lstrip]. now rewrite Hc.
Qed.

Lemma lstrip_keeps_out c s : contains_char c s = false -> contains_char c (lstrip s) = false.
Proof.
  induction s as [| x s IH]; [reflexivity |]. intros H. cbn [lstrip].
  destruct (is_space x); [| exact H]. apply IH. cbn in H. now apply orb_false_iff in H as [_ H].
Qed.

Lemma rstrip_keeps_out c s : contains_char c s = false -> contains_char c (rstrip s) = false.
Proof.
  induction s as [| x s IH]; [reflexivity |]. intros H. cbn in H.
  apply orb_false_iff in H as [H1 H2]. specialize (IH H2). cbn [rstrip].
  destruct (rstrip s) as [| k ks].
  - destruct (is_space x); [reflexivity |]. cbn. now rewrite H1.
  - cbn [contains_char] in *. now rewrite H1, IH.
Qed.

Lemma split_once_spec sep s a b :
  split_once sep s = Some (a, b) ->
  s = a ++ String sep b /\ contains_char sep a = false.
Proof.
  revert a. induction s as [| c s IH]; intros a H; [discriminate |]. cbn [split_once] in H.
  destruct (Ascii.eqb c sep) eqn:E.
  - apply Ascii.eqb_eq in E. injection H as <- <-. subst c. now split.
  - destruct (split_once sep s) as [[a' b'] |]; [| discriminate].
    injection H as <- <-. destruct (IH a' eq_refl) as [-> Hc].
    split; [reflexivity |]. cbn. now rewrite E, Hc.
Qed.

Lemma split_once_app sep a b :
  contains_char sep a = false -> split_once sep (a ++ String sep b) = Some (a, b).
Proof.
  induction a as [| c a IH]; intros H.
  - change ("" ++ String sep b) with (String sep b). cbn [split_once].
    now rewrite Ascii.eqb_refl.
  - cbn in H. apply orb_false_iff in H as [H1 H2]. rewrite app_cons. cbn [split_once].
    now rewrite H1, IH.
Qed.

Lemma split_once_none sep s : contains_char sep s = false -> split_once sep s = None.
Proof.
  induction s as [| c s IH]; [reflexivity |]. intros H. cbn in H.
  apply orb_false_iff in H as [H1 H2]. cbn [split_once]. now rewrite H1, IH.
Qed.

Lemma all_space_keeps_out w : all_space w = true -> contains_char "|" w = false.
Proof.
  induction w as [| c w IH]; [reflexivity |]. cbn [all_space contains_char]. intros H.
  apply andb_true_iff in H as [H1 H2]. rewrite (IH H2), orb_false_r.
  destruct (Ascii.eqb c "|") eqn:E; [| reflexivity].
  apply Ascii.eqb_eq in E. subst c. discriminate.
Qed.

(** *** The entries *)

Local Open Scope Z_scope.

Lemma parse_line_order n line e : parse_line n line = Some e -> entry_fetch_order e = n.
Proof.
  unfold parse_line. destruct (_ || _); [discriminate |].
  destruct (split_once _ _) as [[a b] |]; [| discriminate]. now intros [= <-].
Qed.

Lemma read_lines_elem lines : forall k e,
  e ∈ read_lines k lines <->
  exists (n : nat) line, lines !! n = Some line /\ parse_line (k + Z.of_nat n) line = Some e.
Proof.
  induction lines as [| line lines IH]; intros k e; cbn [read_lines].
  - split; [intros H; inversion H | intros (n & l & H & _); discriminate].
  - assert (Htail : e ∈ read_lines (k + 1) lines <->
              exists (n : nat) l, (line :: lines) !! S n = Some l /\
                                  parse_line (k + Z.of_nat (S n)) l = Some e).
    { rewrite IH. split; intros (n & l & H1 & H2); exists n, l; (split; [exact H1 |]).
      - now replace (k + Z.of_nat (S n)) with (k + 1 + Z.of_nat n) by lia.
      - now replace (k + 1 + Z.of_nat n) with (k + Z.of_nat (S n)) by lia. }
    destruct (parse_line k line) as [e0 |] eqn:E.
    + rewrite elem_of_cons, Htail. split.
      * intros [-> | (n & l & H1 & H2)]; [| now exists (S n), l].
        exists O, line. split; [reflexivity |]. now rewrite Z.add_0_r.
      * intros ([| n] & l & H1 & H2); [| right; now exists n, l].
        left. injection H1 as <-. rewrite Z.add_0_r in H2. congruence.
    + rewrite Htail. split.
      * intros (n & l & H1 & H2). now exists (S n), l.
      * intros ([| n] & l & H1 & H2); [| now exists n, l].
        injection H1 as <-. rewrite Z.add_0_r in H2. congruence.
Qed.

Lemma read_lines_sorted lines : forall k, StronglySorted order_lt (read_lines k lines).
Proof.
  induction lines as [| line lines IH]; intros k; cbn [read_lines]; [constructor |].
  destruct (parse_line k line) as [e0 |] eqn:E; [| apply IH].
  constructor; [apply IH |]. apply Forall_forall. intros e He.
  apply read_lines_elem in He as (n & l & _ & Hp).
  apply parse_line_order in E, Hp. unfold order_lt. lia.
Qed.

(** The entries of the map list are the lines that parse, in the order of
    the file, and the fetch order of an entry is the number of its line,
    counted from 0 with the blank, comment and malformed lines. *)
Theorem map_list_line_numbers (lines : list string) :
  (forall e, e ∈ read_map_urls lines <->
     0 <= entry_fetch_order e /\
     exists line, lines !! Z.to_nat (entry_fetch_order e) = Some line /\
                  parse_line (entry_fetch_order e) line = Some e) /\
  StronglySorted order_lt (read_map_urls lines).
Proof.
  split; [| apply read_lines_sorted]. intros e. unfold read_map_urls.
  rewrite read_lines_elem. split.
  - intros (n & line & H1 & H2). rewrite Z.add_0_l in H2.
    rewrite (parse_line_order _ _ _ H2), Nat2Z.id. split; [lia | now exists line].
  - intros (H0 & line & H1 & H2). exists (Z.to_nat (entry_fetch_order e)), line.
    split; [exact H1 |]. rewrite Z.add_0_l, Z2Nat.id by exact H0. exact H2.
Qed.

(** The fields of an entry have no space at either end, and the URL
    template holds no [|]: the line is cut at its first [|]. *)
Theorem parsed_fields_clean (line_num : Z) (line : string) (e : map_url_entry) :
  parse_line line_num line = Some e ->
  clean (url_template e) /\ clean (name e) /\ contains_char "|" (url_template e) = false.
Proof.
  unfold parse_line. destruct (_ || _); [discriminate |].
  destruct (split_once _ _) as [[a b] |] eqn:E; [| discriminate]. intros [= <-]. cbn.
  apply split_once_spec in E as [_ Ha].
  split; [apply strip_clean | split; [apply strip_clean |]].
  unfold strip. now apply rstrip_keeps_out, lstrip_keeps_out.
Qed.

Lemma parsed_fields_clean_witness :
  clean "https://trackmania.io/api/leaderboard/map/ABC"%string /\ clean "First map"%string /\
  contains_char "|" "https://trackmania.io/api/leaderboard/map/ABC" = false.
Proof.
  apply (parsed_fields_clean 2
           "  https://trackmania.io/api/leaderboard/map/ABC | First map  "%string
           (MapUrlEntry "https://trackmania.io/api/leaderboard/map/ABC" "First map" 2)).
  vm_compute. reflexivity.
Defined.

(** Writing and reading a line: a URL template and a name without space at
    either end, written with a [|] between them and any whitespace around
    the two, are read back as they are, unless the template holds a [|] or
    starts with [#]. *)
Theorem written_line_is_read (line_num : Z) (url display_name w1 w2 w3 w4 : string) :
  clean url -> clean display_name ->
  contains_char "|" url = false -> String.prefix "#" url = false ->
  all_space w1 = true -> all_space w2 = true -> all_space w3 = true -> all_space w4 = true ->
  parse_line line_num (w1 ++ url ++ w2 ++ "|" ++ w3 ++ display_name ++ w4)%string
  = Some (MapUrlEntry url display_name line_num).
Proof.
  intros [Hul Hur] [Hnl Hnr] Hbar Hhash H1 H2 H3 H4.
  set (R := (w3 ++ display_name ++ w4)%string).
  set (U := match url with EmptyString => EmptyString | _ => (url ++ w2)%string end).
  assert (Hbar' : is_space "|" = false) by reflexivity.
  (* the stripped line *)
  assert (HL : lstrip (w1 ++ url ++ w2 ++ "|" ++ R) = (U ++ String "|" R)%string).
  { rewrite lstrip_space by exact H1. subst U. destruct url as [| c u].
    - change ("" ++ w2 ++ "|" ++ R)%string with (w2 ++ String "|" R)%string.
      rewrite lstrip_space by exact H2. reflexivity.
    - pose proof (lstrip_fixed c u Hul) as Hc. rewrite app_cons. cbn [lstrip]. rewrite Hc.
      rewrite <- app_cons.
      change (w2 ++ "|" ++ R)%string with (w2 ++ String "|" R)%string.
      generalize (String c u). intros s. induction s as [| x s IH]; [reflexivity |].
      rewrite !app_cons. now rewrite IH. }
  assert (HU : contains_char "|" U = false).
  { subst U. destruct url; [reflexivity |].
    rewrite contains_char_app, Hbar. now rewrite all_space_keeps_out. }
  assert (HsU : strip U = url).
  { subst U. destruct url as [| c u]; [reflexivity |]. unfold strip.
    pose proof (lstrip_fixed c u Hul) as Hc. rewrite app_cons. cbn [lstrip]. rewrite Hc.
    rewrite <- app_cons. apply rstrip_app_space; [exact Hur | discriminate | exact H2]. }
  assert (HsR : strip (rstrip R) = display_name).
  { subst R. destruct display_name as [| c nm].
    - change (w3 ++ "" ++ w4)%string with (w3 ++ w4)%string.
      assert (Hall : all_space (w3 ++ w4) = true).
      { clear -H3 H4. induction w3 as [| x w3 IH]; [exact H4 |].
        cbn [all_space] in H3. apply andb_true_iff in H3 as [Hx H3].
        rewrite app_cons. cbn [all_space]. now rewrite Hx, IH. }
      now rewrite (rstrip_all_space _ Hall).
    - assert (Hn : rstrip (String c nm ++ w4) = String c nm)
        by (apply rstrip_app_space; [exact Hnr | discriminate | exact H4]).
      rewrite rstrip_app by (rewrite Hn; discriminate). rewrite Hn.
      unfold strip. rewrite lstrip_space by exact H3. now rewrite Hnl, Hnr. }
  unfold parse_line, strip. cbv zeta. fold R. rewrite HL.
  rewrite (rstrip_app U (String "|" R)) by (rewrite rstrip_nonspace by exact Hbar'; discriminate).
  rewrite (rstrip_nonspace "|" R Hbar').
  assert (Hne : String.eqb (U ++ String "|" (rstrip R)) "" = false) by now destruct U.
  assert (Hnh : String.prefix "#" (U ++ String "|" (rstrip R)) = false).
  { subst U. destruct url as [| c u]; [reflexivity |]. rewrite !app_cons.
    cbn [String.prefix] in *.
    destruct (ascii_dec "#" c); [destruct u; discriminate | reflexivity]. }
  rewrite Hne, Hnh. cbn [orb].
  rewrite (split_once_app "|" U (rstrip R) HU). fold (strip U). fold (strip (rstrip R)).
  now rewrite HsU, HsR.
Qed.

Lemma written_line_is_read_witness :
  parse_line 7 ("  " ++ "https://trackmania.io/api/leaderboard/map/ABC" ++ " " ++ "|"
                   ++ " " ++ "First map" ++ "  ")%string
  = Some (MapUrlEntry "https://trackmania.io/api/leaderboard/map/ABC" "First map" 7).
Proof.
  apply (written_line_is_read 7 "https://trackmania.io/api/leaderboard/map/ABC" "First map"
           "  " " " " " "  "); try reflexivity; split; reflexivity.
Defined.

(** A map list without a line to read, one whose lines are blank, comments
    or without a [|], ends the run with the error result before anything is
    requested or written, and so does a missing file. *)
Theorem no_entry_is_error (fuel : nat) (api : Data.api_server) (now : string)
  (lines : list string) (d : Data.db) :
  Forall (fun line => strip line = ""%string \/ String.prefix "#" (strip line) = true \/
                      contains_char "|" line = false) lines ->
  fetch_and_process_file fuel api now (Some lines) d = Some Reconcile.RunError /\
  fetch_and_process_file fuel api now None d = Some Reconcile.RunError.
Proof.
  intros H. split; [| reflexivity]. unfold fetch_and_process_file, read_map_urls.
  assert (E : forall k, read_lines k lines = []).
  { induction H as [| line lines Hline _ IH]; intros k; [reflexivity |].
    cbn [read_lines]. assert (Hp : parse_line k line = None); [| now rewrite Hp].
    unfold parse_line. destruct Hline as [-> | [Hc | Hb]]; [reflexivity | |].
    - rewrite Hc. now rewrite orb_true_r.
    - destruct (_ || _); [reflexivity |].
      rewrite split_once_none; [reflexivity |].
      unfold strip. now apply rstrip_keeps_out, lstrip_keeps_out. }
  now rewrite E.
Qed.

Lemma no_entry_is_error_witness :
  fetch_and_process_file 5 (fun _ => Data.RequestError) "t1"
    (Some ["# maps"; "   "; "no separator"]%string) (Data.Db ∅ ∅ ∅)
  = Some Reconcile.RunError.
Proof.
  apply (no_entry_is_error 5 (fun _ => Data.RequestError) "t1"
           ["# maps"; "   "; "no separator"]%string (Data.Db ∅ ∅ ∅)).
  constructor; [right; left; reflexivity |].
  constructor; [left; reflexivity |].
  constructor; [right; right; reflexivity | constructor].
Defined.

End MapListFacts.

(** ** The time display *)

Module FormatFacts.
Import Float FloatFacts Url Format.
Local Open Scope Z_scope.

Example format_time_ms_samples :
  format_time_ms (Some 83456) true true = "1:23.456"%string /\
  format_time_ms (Some 59999) true true = "59.999"%string /\
  format_time_ms (Some 3723004) true true = "1:02:03.004"%string /\
  format_time_ms (Some 83456) false false = "00:01:23"%string /\
  format_time_ms None true true = "N/A"%string.
Proof. repeat split; vm_compute; reflexivity. Qed.

(** *** Rounding errors *)

Lemma rhe_close q :
  (inject_Z (rhe q) - q <= 1 # 2 /\ q - inject_Z (rhe q) <= 1 # 2)%Q.
Proof.
  unfold rhe. pose proof (Qfloor_le q) as H1. pose proof (Qlt_floor q) as H2.
  rewrite inject_Z_plus in H2. change (inject_Z 1) with 1%Q in H2.
  destruct (Qcompare_spec (q - inject_Z (Qfloor q)) (1 # 2)) as [E | L | G];
    [destruct (Z.even _) | |]; rewrite ?inject_Z_plus; change (inject_Z 1) with 1%Q;
    revert H1 H2; try revert E; try revert L; try revert G;
    generalize (inject_Z (Qfloor q)); intros; split; lra.
Qed.

Lemma inject_Z_sub a b : (inject_Z (a - b) == inject_Z a - inject_Z b)%Q.
Proof. unfold Z.sub. rewrite inject_Z_plus, inject_Z_opp. reflexivity. Qed.

Lemma rhe_near y r :
  (- (1 # 2) < y - inject_Z r)%Q -> (y - inject_Z r < 1 # 2)%Q -> rhe y = r.
Proof.
  intros H1 H2. destruct (rhe_close y) as [C1 C2].
  assert (A : (inject_Z (rhe y - r) < inject_Z 1)%Q).
  { rewrite inject_Z_sub. change (inject_Z 1) with 1%Q.
    revert H1 H2 C1 C2. generalize (inject_Z (rhe y)) (inject_Z r). intros; lra. }
  assert (B : (inject_Z (-1) < inject_Z (rhe y - r))%Q).
  { rewrite inject_Z_sub. change (inject_Z (-1)) with (-1)%Q.
    revert H1 H2 C1 C2. generalize (inject_Z (rhe y)) (inject_Z r). intros; lra. }
  rewrite <- Zlt_Qlt in A, B. lia.
Qed.

Lemma rhe_compat p q : (p == q)%Q -> rhe p = rhe q.
Proof. intros E. apply Z.le_antisymm; apply rhe_mono; lra. Qed.

Lemma Qfloor_unique q n : (inject_Z n <= q)%Q -> (q < inject_Z n + 1)%Q -> Qfloor q = n.
Proof.
  intros H1 H2. pose proof (Qfloor_le q) as F1. pose proof (Qlt_floor q) as F2.
  rewrite inject_Z_plus in F2. change (inject_Z 1) with 1%Q in F2.
  assert (A : (inject_Z (Qfloor q) < inject_Z (n + 1))%Q).
  { rewrite inject_Z_plus. change (inject_Z 1) with 1%Q.
    revert H1 H2 F1 F2. generalize (inject_Z (Qfloor q)) (inject_Z n). intros; lra. }
  assert (B : (inject_Z n < inject_Z (Qfloor q + 1))%Q).
  { rewrite inject_Z_plus. change (inject_Z 1) with 1%Q.
    revert H1 H2 F1 F2. generalize (inject_Z (Qfloor q)) (inject_Z n). intros; lra. }
  rewrite <- Zlt_Qlt in A, B. lia.
Qed.

Lemma flog2_below x k : (0 < x)%Q -> (x < pow2 k)%Q -> flog2 x < k.
Proof.
  intros Hx Hk. destruct (flog2_spec x Hx) as [H1 _].
  apply pow2_lt_inv. lra.
Qed.

Lemma pow2_half e : (pow2 (e - 1) == pow2 e * (1 # 2))%Q.
Proof. replace (e - 1) with (e + -1) by lia. rewrite pow2_add. reflexivity. Qed.

(** Half a unit in the last place bounds the error of [RN]. *)
Lemma RN_error x k :
  (0 <= x)%Q -> (x < pow2 k)%Q -> -1020 <= k ->
  (RN x - x <= pow2 (k - 54) /\ x - RN x <= pow2 (k - 54))%Q.
Proof.
  intros H0 Hk Hlow. pose proof (pow2_pos (k - 54)) as Hp. unfold RN.
  destruct (Qcompare_spec x 0) as [E | L | G]; [split; lra | lra |].
  unfold RNpos. set (e := ulp_exp x).
  assert (He : e - 1 <= k - 54).
  { subst e. unfold ulp_exp. pose proof (flog2_below x k G Hk). lia. }
  destruct (rhe_close (x * pow2 (- e))) as [C1 C2].
  set (R := inject_Z (rhe (x * pow2 (- e)))) in *. clearbody R.
  pose proof (pow2_pos e) as HP. pose proof (pow2_cancel e) as Hc.
  pose proof (pow2_le _ _ He) as Hle. rewrite pow2_half in Hle.
  set (P := pow2 e) in *. set (Pn := pow2 (- e)) in *. clearbody P Pn.
  assert (Ex : (x == x * Pn * P)%Q) by (rewrite <- Qmult_assoc, Hc; ring).
  assert (A : ((R - x * Pn) * P <= (1 # 2) * P)%Q)
    by (apply Qmult_le_compat_r; lra).
  assert (B : ((x * Pn - R) * P <= (1 # 2) * P)%Q)
    by (apply Qmult_le_compat_r; lra).
  assert (A' : ((R - x * Pn) * P == R * P - x * Pn * P)%Q) by ring.
  assert (B' : ((x * Pn - R) * P == x * Pn * P - R * P)%Q) by ring.
  rewrite A' in A. rewrite B' in B. rewrite <- Ex in A, B. split; lra.
Qed.

(** Integers below [2^53] are floats. *)
Lemma RN_exact_int n : 0 <= n < 2 ^ 53 -> (RN (inject_Z n) == inject_Z n)%Q.
Proof.
  intros Hn. unfold RN.
  destruct (Qcompare_spec (inject_Z n) 0) as [E | L | G]; [lra | |].
  - exfalso. change 0%Q with (inject_Z 0) in L. rewrite <- Zlt_Qlt in L. lia.
  - unfold RNpos. set (e := ulp_exp (inject_Z n)).
    assert (He : e <= 0).
    { subst e. unfold ulp_exp.
      assert (flog2 (inject_Z n) < 53); [| lia].
      apply flog2_below; [exact G |]. rewrite (pow2_Z 53) by lia.
      rewrite <- Zlt_Qlt. lia. }
    assert (E1 : (inject_Z n * pow2 (- e) == inject_Z (n * 2 ^ (- e)))%Q).
    { rewrite inject_Z_mult, (pow2_Z (- e)) by lia. reflexivity. }
    rewrite (rhe_compat _ _ E1), rhe_Z, inject_Z_mult, <- (pow2_Z (- e)) by lia.
    rewrite <- Qmult_assoc, pow2_cancel. ring.
Qed.

(** The float of [ms / 1000.0], its floor and its fraction. *)
Lemma seconds_exact ms :
  0 <= ms < 2 ^ 50 ->
  let t := fdiv (of_int ms) 1000 in
  Qfloor t = ms / 1000 /\
  rhe (fmul (fsub t (of_int (Qfloor t))) 1000) = ms mod 1000.
Proof.
  intros Hms t.
  pose proof (Z.div_mod ms 1000 ltac:(lia)) as Hdm.
  pose proof (Z.mod_pos_bound ms 1000 ltac:(lia)) as Hr.
  assert (Hn : 0 <= ms / 1000 < 2 ^ 53).
  { split; [apply Z.div_pos; lia |].
    apply Z.div_lt_upper_bound; [lia |]. change (2 ^ 53) with 9007199254740992. lia. }
  set (n := ms / 1000) in *. set (r := ms mod 1000) in *.
  (* the quotient and its float *)
  assert (Ems : (inject_Z ms == 1000 * inject_Z n + inject_Z r)%Q).
  { rewrite Hdm, inject_Z_plus, inject_Z_mult. reflexivity. }
  assert (Hr0 : (0 <= inject_Z r)%Q) by (change 0%Q with (inject_Z 0); rewrite <- Zle_Qle; lia).
  assert (Hr1 : (inject_Z r <= 999)%Q)
    by (change 999%Q with (inject_Z 999); rewrite <- Zle_Qle; lia).
  assert (Hn0 : (0 <= inject_Z n)%Q) by (change 0%Q with (inject_Z 0); rewrite <- Zle_Qle; lia).
  assert (Hms1 : (inject_Z ms < inject_Z (2 ^ 50))%Q) by (rewrite <- Zlt_Qlt; lia).
  change (inject_Z (2 ^ 50)) with 1125899906842624%Q in Hms1.
  assert (Et : (t == RN (inject_Z ms / 1000))%Q).
  { subst t. unfold fdiv, of_int. apply RN_compat.
    rewrite (RN_exact_int ms) by (change (2 ^ 53) with 9007199254740992; lia). reflexivity. }
  assert (HN : (RN (inject_Z n) == inject_Z n)%Q) by now apply RN_exact_int.
  assert (Hmono : (inject_Z n <= inject_Z ms / 1000)%Q -> (RN (inject_Z n) <= t)%Q).
  { intros H. rewrite Et. now apply RN_mono. }
  set (x := (inject_Z ms / 1000)%Q) in *.
  assert (Ex : (x == inject_Z n + inject_Z r / 1000)%Q) by (subst x; rewrite Ems; field).
  assert (Hxm : (x * 1000 == inject_Z ms)%Q) by (subst x; field).
  clearbody x.
  remember (inject_Z n) as N eqn:EN. remember (inject_Z r) as R eqn:ER.
  remember (inject_Z ms) as M eqn:EM.
  assert (P41 : (pow2 41 == 2199023255552)%Q) by reflexivity.
  assert (P13 : (pow2 (41 - 54) == 1 # 8192)%Q) by reflexivity.
  assert (P54 : (pow2 (0 - 54) == 1 # 18014398509481984)%Q) by reflexivity.
  assert (P44 : (pow2 (10 - 54) == 1 # 17592186044416)%Q) by reflexivity.
  assert (P0 : (pow2 0 == 1)%Q) by reflexivity.
  assert (P10 : (pow2 10 == 1024)%Q) by reflexivity.
  assert (Hx0 : (0 <= x)%Q) by lra.
  assert (Hx1 : (x < pow2 41)%Q) by lra.
  destruct (RN_error x 41 Hx0 Hx1 ltac:(lia)) as [E1 E2]. rewrite P13 in E1, E2.
  rewrite <- Et in E1, E2.
  assert (Hlow : (N <= t)%Q) by (rewrite <- HN; apply Hmono; lra).
  assert (Hfloor : Qfloor t = n) by (apply Qfloor_unique; rewrite <- EN; lra).
  split; [exact Hfloor |].
  rewrite Hfloor. unfold fsub, fmul, of_int. rewrite <- EN.
  (* the fraction *)
  set (g := (t - RN N)%Q).
  assert (Eg : (g == t - N)%Q) by (subst g; lra).
  clearbody g. clearbody t.
  assert (Hg0 : (0 <= g)%Q) by lra.
  assert (Hg1 : (g < pow2 0)%Q) by lra.
  destruct (RN_error g 0 Hg0 Hg1 ltac:(lia)) as [G1 G2]. rewrite P54 in G1, G2.
  pose proof (RN_nonneg g Hg0) as Hf0.
  set (f := RN g) in *. clearbody f.
  assert (Hy0 : (0 <= f * 1000)%Q) by lra.
  assert (Hy1 : (f * 1000 < pow2 10)%Q) by lra.
  destruct (RN_error (f * 1000) 10 Hy0 Hy1 ltac:(lia)) as [Y1 Y2]. rewrite P44 in Y1, Y2.
  set (y := RN (f * 1000)) in *. clearbody y.
  apply rhe_near; rewrite <- ER; lra.
Qed.

(** Within [2^50] ms (some 35,000 years) the float arithmetic of lines 83-90
    loses nothing: the seconds are the integer quotient of [ms] by 1000 and
    the milliseconds its remainder, so that no time is shown with a wrong
    millisecond or with [.1000]. *)
Theorem time_parts_exact (ms : Z) (show_millis : bool) :
  0 <= ms < 2 ^ 50 ->
  time_parts ms show_millis
  = (ms / 1000 / 3600, (ms / 1000) mod 3600 / 60, (ms / 1000) mod 60,
     if show_millis then ms mod 1000 else 0).
Proof.
  intros Hms. destruct (seconds_exact ms Hms) as [Hfloor Hfrac]. cbv zeta in Hfloor, Hfrac.
  unfold time_parts. rewrite Hfrac, Hfloor. reflexivity.
Qed.

Lemma time_parts_exact_witness :
  time_parts 83456 true = (83456 / 1000 / 3600, (83456 / 1000) mod 3600 / 60,
                           (83456 / 1000) mod 60, 83456 mod 1000).
Proof. apply (time_parts_exact 83456 true). vm_compute. split; [discriminate | reflexivity]. Defined.

End FormatFacts.

(** ** The time display is unambiguous *)

Module FormatInjective.
Import Float FloatFacts Url UrlMore MapList MapListFacts Format FormatFacts.
Local Open Scope string_scope.
Local Open Scope Z_scope.

(** A reader of the displayed times: the number after the point, and the
    numbers between the colons before it. *)
Definition read_number (s : string) : option Z :=
  option_map Z.of_int (NilZero.int_of_string s).

Definition read_time (s : string) : option Z :=
  match split_once "." s with
  | None => None
  | Some (body, frac) =>
      match read_number frac, split_once ":" body with
      | Some r, None =>
          match read_number body with
          | Some sec => Some (sec * 1000 + r)
          | None => None
          end
      | Some r, Some (x, rest) =>
          match split_once ":" rest with
          | None =>
              match read_number x, read_number rest with
              | Some m, Some sec => Some ((m * 60 + sec) * 1000 + r)
              | _, _ => None
              end
          | Some (y, z) =>
              match read_number x, read_number y, read_number z with
              | Some h, Some m, Some sec => Some (((h * 60 + m) * 60 + sec) * 1000 + r)
              | _, _, _ => None
              end
          end
      | None, _ => None
      end
  end.

(** A field of the display: it reads as [v] and holds no separator. *)
Definition field (f : string) (v : Z) : Prop :=
  read_number f = Some v /\ contains_char ":" f = false /\ contains_char "." f = false.

Definition field_check (f : string) (v : Z) : bool :=
  match read_number f with
  | Some v' => (v' =? v) && negb (contains_char ":" f) && negb (contains_char "." f)
  | None => false
  end.

Lemma field_check_ok f v : field_check f v = true -> field f v.
Proof.
  unfold field_check, field. destruct (read_number f) as [v' |]; [| discriminate].
  intros H. apply andb_true_iff in H as [H H3]. apply andb_true_iff in H as [H1 H2].
  apply Z.eqb_eq in H1. apply negb_true_iff in H2, H3. subst. now repeat split.
Qed.

Lemma below_checked (P : Z -> bool) (n : nat) :
  forallb P (map Z.of_nat (seq 0 n)) = true ->
  forall z, 0 <= z < Z.of_nat n -> P z = true.
Proof.
  intros H z Hz. rewrite forallb_forall in H. apply H.
  apply in_map_iff. exists (Z.to_nat z). split; [lia |]. apply in_seq. lia.
Qed.

Lemma field_pad2 z : 0 <= z < 60 -> field (zero_pad 2 z) z.
Proof.
  intros Hz. apply field_check_ok.
  apply (below_checked (fun z => field_check (zero_pad 2 z) z) 60); [| lia].
  vm_compute. reflexivity.
Qed.

Lemma field_pad3 z : 0 <= z < 1000 -> field (zero_pad 3 z) z.
Proof.
  intros Hz. apply field_check_ok.
  apply (below_checked (fun z => field_check (zero_pad 3 z) z) 1000); [| lia].
  vm_compute. reflexivity.
Qed.

Lemma uint_chars c u :
  is_digit c = false -> contains_char c (NilEmpty.string_of_uint u) = false.
Proof.
  intros Hc. induction u; cbn [NilEmpty.string_of_uint contains_char]; [reflexivity | ..];
    rewrite IHu, orb_false_r;
    match goal with
    | |- Ascii.eqb ?d c = false =>
        destruct (Ascii.eqb_spec d c) as [<- |]; [discriminate | reflexivity]
    end.
Qed.

Lemma field_str z : 0 <= z -> field (str_of_int z) z.
Proof.
  intros Hz. unfold field, read_number, str_of_int.
  pose proof (DecimalZ.of_to z) as Hof.
  destruct (Z.to_int z) as [u | u] eqn:E.
  - split.
    + destruct u; [cbn in Hof; subst z; reflexivity | ..];
        (rewrite NilZero.isi; [cbn [option_map]; now rewrite Hof | discriminate | discriminate]).
    + unfold NilZero.string_of_int, NilZero.string_of_uint.
      destruct u; try (split; reflexivity); split; now apply uint_chars.
  - exfalso. destruct z; cbn in E; try discriminate. lia.
Qed.

Lemma read_1 S R s r :
  field S s -> read_number R = Some r ->
  read_time (S ++ "." ++ R) = Some (s * 1000 + r).
Proof.
  intros (Hs & Hc & Hp) Hr. unfold read_time.
  change ("." ++ R) with (String "." R). rewrite (split_once_app "." S R Hp), Hr.
  now rewrite (split_once_none ":" S Hc), Hs.
Qed.

Lemma read_2 M S R m s r :
  field M m -> field S s -> read_number R = Some r ->
  read_time ((M ++ ":" ++ S) ++ "." ++ R) = Some ((m * 60 + s) * 1000 + r).
Proof.
  intros (Hm & Hmc & Hmp) (Hs & Hsc & Hsp) Hr. unfold read_time.
  change ("." ++ R) with (String "." R). change (":" ++ S) with (String ":" S).
  rewrite split_once_app, Hr.
  - rewrite (split_once_app ":" M S Hmc), (split_once_none ":" S Hsc). now rewrite Hm, Hs.
  - rewrite contains_char_app, Hmp. cbn [contains_char orb]. now rewrite Hsp.
Qed.

Lemma read_3 H M S R h m s r :
  field H h -> field M m -> field S s -> read_number R = Some r ->
  read_time ((H ++ ":" ++ M ++ ":" ++ S) ++ "." ++ R)
  = Some (((h * 60 + m) * 60 + s) * 1000 + r).
Proof.
  intros (Hh & Hhc & Hhp) (Hm & Hmc & Hmp) (Hs & Hsc & Hsp) Hr. unfold read_time.
  change ("." ++ R) with (String "." R).
  change (":" ++ M ++ ":" ++ S) with (String ":" (M ++ String ":" S)).
  rewrite split_once_app, Hr.
  - rewrite (split_once_app ":" H _ Hhc), (split_once_app ":" M S Hmc).
    now rewrite Hh, Hm, Hs.
  - rewrite contains_char_app, Hhp. cbn [contains_char orb].
    rewrite contains_char_app, Hmp. cbn [contains_char orb]. now rewrite Hsp.
Qed.

(** The reader reads every displayed time back. *)
Lemma read_format a opt :
  0 <= a < 2 ^ 50 -> read_time (format_time_ms (Some a) true opt) = Some a.
Proof.
  intros Ha. unfold format_time_ms. rewrite (time_parts_exact a true Ha).
  pose proof (Z.div_mod a 1000 ltac:(lia)) as D1.
  pose proof (Z.mod_pos_bound a 1000 ltac:(lia)) as B1.
  assert (Hsec : 0 <= a / 1000) by (apply Z.div_pos; lia).
  set (sec := a / 1000) in *.
  pose proof (Z.div_mod sec 3600 ltac:(lia)) as D2.
  pose proof (Z.mod_pos_bound sec 3600 ltac:(lia)) as B2.
  pose proof (Z.div_mod (sec mod 3600) 60 ltac:(lia)) as D3.
  pose proof (Z.mod_pos_bound (sec mod 3600) 60 ltac:(lia)) as B3.
  assert (E60 : sec mod 60 = (sec mod 3600) mod 60).
  { replace sec with (sec mod 3600 + 60 * (sec / 3600) * 60) at 1 by lia.
    apply Z.mod_add. lia. }
  assert (Hh : 0 <= sec / 3600) by (apply Z.div_pos; lia).
  assert (Hm : 0 <= sec mod 3600 / 60 < 60).
  { split; [apply Z.div_pos; lia | apply Z.div_lt_upper_bound; lia]. }
  rewrite E60. set (h := sec / 3600) in *. set (m := sec mod 3600 / 60) in *.
  set (s := (sec mod 3600) mod 60) in *. set (r := a mod 1000) in *.
  assert (Ea : a = ((h * 60 + m) * 60 + s) * 1000 + r) by lia.
  pose proof (field_pad2 m Hm) as Fm. pose proof (field_pad2 s B3) as Fs.
  destruct (field_pad3 r B1) as [Fr _].
  assert (F0 : field "00" 0) by (apply field_check_ok; reflexivity).
  destruct (Z.ltb_spec 0 h) as [Hh1 | Hh0].
  - rewrite (read_3 _ _ _ _ h m s r (field_str h Hh) Fm Fs Fr). now rewrite <- Ea.
  - assert (h = 0) as Eh by lia.
    destruct (Z.ltb_spec 0 m) as [Hm1 | Hm0].
    + destruct opt; cbn [negb andb].
      * rewrite (read_2 _ _ _ m s r (field_str m ltac:(lia)) Fs Fr). f_equal. lia.
      * rewrite Eh. cbn [Z.eqb].
        change ("00:" ++ zero_pad 2 m ++ ":" ++ zero_pad 2 s)
          with ("00" ++ ":" ++ zero_pad 2 m ++ ":" ++ zero_pad 2 s).
        rewrite (read_3 _ _ _ _ 0 m s r F0 Fm Fs Fr). f_equal. lia.
    + assert (m = 0) as Em by lia.
      destruct opt; cbn [negb andb].
      * rewrite (read_1 _ _ s r Fs Fr). f_equal. lia.
      * rewrite Em. cbn [Z.eqb].
        change ("00:00:" ++ zero_pad 2 s) with ("00" ++ ":" ++ "00" ++ ":" ++ zero_pad 2 s).
        rewrite (read_3 _ _ _ _ 0 0 s r F0 F0 Fs Fr). f_equal. lia.
Qed.

(** Two times that are displayed alike, with the milliseconds, are the same
    time: the display of lines 91-106 can be read back. *)
Theorem time_display_injective (a b : Z) (show_hours_minutes_optional : bool) :
  0 <= a < 2 ^ 50 -> 0 <= b < 2 ^ 50 ->
  format_time_ms (Some a) true show_hours_minutes_optional
  = format_time_ms (Some b) true show_hours_minutes_optional ->
  a = b.
Proof.
  intros Ha Hb E. pose proof (read_format a show_hours_minutes_optional Ha) as Ra.
  rewrite E, (read_format b show_hours_minutes_optional Hb) in Ra. now injection Ra.
Qed.

Lemma time_display_injective_witness : 83456 = 83456.
Proof.
  apply (time_display_injective 83456 83456 true); [| | reflexivity];
    (split; [discriminate | reflexivity]).
Defined.

End FormatInjective.

(** ** The ranking behind the tabs *)

Module TabsFacts.
Import Float FloatFacts Points PointsFacts Data Tabs.
Local Open Scope Z_scope.

Definition sample_players : list (string * player_row) :=
  [ ("p1", PlayerRow "One" "France" "FRA" "t0");
    ("p2", PlayerRow "Two" "" "WOR" "t0");
    ("p3", PlayerRow "Three" "France" "FRA" "t0");
    ("p4", PlayerRow "Four" "Norway" "NOR" "t0") ]%string.

Definition sample_records : list (string * Z) :=
  [ ("p1", 2); ("p2", 1); ("p3", 1); ("p1", 5); ("p3", 1) ]%string.

Example ranking_sample :
  map (fun p => (pi_id (rp_info p), global_rank p))
      (overall_lb_sorted_players_with_rank sample_players sample_records)
  = [("p3", 1); ("p2", 2); ("p1", 3); ("p4", 4)]%string /\
  map (fun c => (pi_id (rp_info (ct_player c)), num_players_in_country c))
      (country_top_player_list_detailed
         (overall_lb_sorted_players_with_rank sample_players sample_records))
  = [("p3", 2); ("p4", 1)]%string.
Proof. split; vm_compute; reflexivity. Qed.

(** *** The sort by score *)

Lemma insert_by_score_perm x l : insert_by_score x l ≡ₚ x :: l.
Proof.
  induction l as [| y l IH]; cbn; [reflexivity |].
  destruct (score_le y x); [reflexivity |]. rewrite IH. apply Permutation_swap.
Qed.

Lemma sorted_by_score_perm l : sorted_by_score l ≡ₚ l.
Proof.
  induction l as [| x l IH]; cbn; [reflexivity |].
  rewrite insert_by_score_perm. now rewrite IH.
Qed.

(** [b] does not come before [a] by its score. *)
Definition not_above (a b : player_info) : Prop :=
  (value (pi_score b) <= value (pi_score a))%Q.

Lemma score_le_true a b : score_le a b = true -> not_above b a.
Proof. unfold score_le, not_above. apply Qle_bool_imp_le. Qed.

Lemma score_le_false a b : score_le a b = false -> not_above a b.
Proof.
  unfold score_le, not_above. intros H.
  destruct (Qlt_le_dec (value (pi_score b)) (value (pi_score a))) as [L | G];
    [now apply Qlt_le_weak |].
  apply Qle_bool_iff in G. congruence.
Qed.

Lemma not_above_trans a b c : not_above a b -> not_above b c -> not_above a c.
Proof. unfold not_above. intros H1 H2. now apply Qle_trans with (value (pi_score b)). Qed.

Lemma insert_by_score_sorted x l :
  StronglySorted not_above l -> StronglySorted not_above (insert_by_score x l).
Proof.
  induction l as [| y l IH]; intros Hs; cbn.
  - constructor; [constructor | constructor].
  - inversion Hs as [| ? ? Hs' Hall]; subst.
    destruct (score_le y x) eqn:E.
    + constructor; [exact Hs |]. apply score_le_true in E. constructor; [exact E |].
      eapply Forall_impl; [exact Hall |]. intros z Hz. cbn. now apply not_above_trans with y.
    + constructor; [now apply IH |].
      apply score_le_false in E.
      rewrite (insert_by_score_perm x l). constructor; assumption.
Qed.

Lemma sorted_by_score_sorted l : StronglySorted not_above (sorted_by_score l).
Proof.
  induction l as [| x l IH]; cbn; [constructor | now apply insert_by_score_sorted].
Qed.

Lemma with_rank_info k l : map rp_info (with_rank k l) = l.
Proof. revert k. induction l as [| x l IH]; intros k; cbn; [reflexivity | now rewrite IH]. Qed.

Lemma with_rank_ranks l : forall k,
  map global_rank (with_rank k l) = map (fun i => k + Z.of_nat i) (seq 1 (length l)).
Proof.
  induction l as [| x l IH]; intros k; [reflexivity |].
  cbn [with_rank length seq]. rewrite !map_cons. cbn [global_rank]. rewrite IH.
  f_equal. rewrite <- (seq_shift (length l) 1), map_map. apply map_ext. intros i. lia.
Qed.

Lemma with_rank_lookup l : forall k i a,
  with_rank k l !! i = Some a ->
  l !! i = Some (rp_info a) /\ global_rank a = k + Z.of_nat i + 1.
Proof.
  induction l as [| x l IH]; intros k i a H; [discriminate |].
  destruct i as [| i]; cbn in H.
  - injection H as <-. cbn. split; [reflexivity | lia].
  - destruct (IH _ _ _ H) as [H1 H2]. split; [exact H1 | lia].
Qed.

Lemma sorted_lookup (l : list player_info) i j a b :
  StronglySorted not_above l -> l !! i = Some a -> l !! j = Some b -> (i < j)%nat ->
  not_above a b.
Proof.
  intros Hs. revert i j. induction Hs as [| x l Hs IH Hall]; intros i j Hi Hj Hij;
    [discriminate |].
  destruct j as [| j]; [lia |]. destruct i as [| i]; cbn in Hi, Hj.
  - injection Hi as <-. rewrite Forall_forall in Hall. apply Hall.
    eapply list_elem_of_lookup_2, Hj.
  - apply (IH i j Hi Hj). lia.
Qed.

(** The ranking lists every player of the query once, numbers them from 1
    without a gap, and no player has a higher score than one that is ranked
    before. *)
Theorem ranking_sorted_and_complete (player_rows : list (string * player_row))
  (record_rows : list (string * Z)) :
  let ranked := overall_lb_sorted_players_with_rank player_rows record_rows in
  map rp_info ranked ≡ₚ all_players_data_with_scores player_rows record_rows /\
  map (fun p => pi_id (rp_info p)) ranked ≡ₚ map fst player_rows /\
  map global_rank ranked = map Z.of_nat (seq 1 (length player_rows)) /\
  forall (i j : nat) (a b : ranked_player),
    ranked !! i = Some a -> ranked !! j = Some b -> (i < j)%nat ->
    (value (pi_score (rp_info b)) <= value (pi_score (rp_info a)))%Q.
Proof.
  cbv zeta. unfold overall_lb_sorted_players_with_rank.
  set (l := all_players_data_with_scores player_rows record_rows).
  assert (Hperm : map rp_info (with_rank 0 (sorted_by_score l)) ≡ₚ l)
    by (rewrite with_rank_info; apply sorted_by_score_perm).
  split; [exact Hperm | split; [| split]].
  - rewrite <- (map_map rp_info pi_id), Hperm. subst l.
    unfold all_players_data_with_scores. rewrite <- list_fmap_compose.
    reflexivity.
  - rewrite with_rank_ranks. erewrite Permutation_length by apply sorted_by_score_perm.
    subst l. unfold all_players_data_with_scores. rewrite length_fmap.
    apply map_ext. intros i. lia.
  - intros i j a b Hi Hj Hij.
    destruct (with_rank_lookup _ _ _ _ Hi) as [Hi' _].
    destruct (with_rank_lookup _ _ _ _ Hj) as [Hj' _].
    exact (sorted_lookup _ i j _ _ (sorted_by_score_sorted l) Hi' Hj' Hij).
Qed.

(** The sort is stable: players of equal score are ranked in the order in
    which the query returned them. *)
Definition same_score (q : Q) (p : player_info) : bool := Qeq_bool (value (pi_score p)) q.

Lemma insert_by_score_filter q x l :
  List.filter (same_score q) (insert_by_score x l) = List.filter (same_score q) (x :: l).
Proof.
  induction l as [| y l IH]; [reflexivity |].
  cbn [insert_by_score]. destruct (score_le y x) eqn:E; [reflexivity |].
  cbn [List.filter] in *. rewrite IH.
  destruct (same_score q x) eqn:Ex; [| reflexivity].
  destruct (same_score q y) eqn:Ey; [exfalso | reflexivity].
  unfold same_score in Ex, Ey. apply Qeq_bool_iff in Ex, Ey.
  unfold score_le in E. assert (Qle_bool (value (pi_score y)) (value (pi_score x)) = true);
    [| congruence].
  apply Qle_bool_iff. rewrite Ex, Ey. apply Qle_refl.
Qed.

Theorem ranking_ties_keep_order (player_rows : list (string * player_row))
  (record_rows : list (string * Z)) (q : Q) :
  List.filter (same_score q)
    (map rp_info (overall_lb_sorted_players_with_rank player_rows record_rows))
  = List.filter (same_score q) (all_players_data_with_scores player_rows record_rows).
Proof.
  unfold overall_lb_sorted_players_with_rank. rewrite with_rank_info.
  induction (all_players_data_with_scores player_rows record_rows) as [| x l IH];
    [reflexivity |].
  cbn [sorted_by_score fold_right]. rewrite insert_by_score_filter.
  cbn [List.filter]. fold (sorted_by_score l). now rewrite IH.
Qed.

(** *** The score *)

Definition is_float (n : pynum) : bool :=
  match n with
  | PyInt _ => false
  | PyFloat _ => true
  end.

(** [b] is not above [a], and both are of the same kind. *)
Definition below (b a : pynum) : Prop :=
  is_float b = is_float a /\ (to_float b <= to_float a)%Q /\ (value b <= value a)%Q.

Lemma below_refl a : below a a.
Proof. repeat split; apply Qle_refl. Qed.

Lemma points_is_float rank : 1 <= rank -> exists q, calculate_points_for_rank rank = PyFloat q.
Proof. intros H. rewrite points_unfold by exact H. eauto. Qed.

Lemma py_add_below b a q p :
  below b a -> 1 <= p -> p <= q ->
  below (py_add b (calculate_points_for_rank q)) (py_add a (calculate_points_for_rank p)).
Proof.
  intros (_ & Hf & _) Hp Hpq. pose proof (points_antitone p q Hp Hpq) as Hpts.
  destruct (points_is_float p Hp) as (x & Ex). destruct (points_is_float q ltac:(lia)) as (y & Ey).
  rewrite Ex, Ey in *. cbn [value] in Hpts.
  assert (E : forall c z, py_add c (PyFloat z) = PyFloat (fadd (to_float c) z))
    by (intros [] ?; reflexivity).
  rewrite !E. unfold below. cbn [is_float to_float value].
  split; [reflexivity |]. split; apply RN_mono; lra.
Qed.

Lemma fold_points_below ps qs : Forall2 (fun p q => 1 <= p /\ p <= q) ps qs ->
  forall a b, below b a ->
  below (fold_left (fun acc position => py_add acc (calculate_points_for_rank position)) qs b)
        (fold_left (fun acc position => py_add acc (calculate_points_for_rank position)) ps a).
Proof.
  induction 1 as [| p q ps qs [Hp Hpq] _ IH]; intros a b Hab; [exact Hab |].
  cbn [fold_left]. apply IH. now apply py_add_below.
Qed.

(** Better positions never give a lower score: if a player stands on every
    map at least as well as another one on as many maps, taken in the order
    of the rows, the score is at least as high.  The positions are at most
    [10^15], the ranks on which the tier of [calculate_points_for_rank] is
    the one that the code computes. *)
Theorem better_positions_score (ps qs : list Z) :
  Forall2 (fun p q => 1 <= p /\ p <= q /\ q <= 10 ^ 15) ps qs ->
  (value (py_round2 (sum_points qs)) <= value (py_round2 (sum_points ps)))%Q.
Proof.
  intros H0.
  assert (H : Forall2 (fun p q => 1 <= p /\ p <= q) ps qs).
  { eapply Forall2_impl; [exact H0 |]. intros p q (H1 & H2 & _). now split. }
  pose proof (fold_points_below ps qs H (PyInt 0) (PyInt 0) (below_refl _)) as Hb.
  fold (sum_points qs) in Hb. fold (sum_points ps) in Hb.
  destruct Hb as (Hk & Hf & Hv).
  destruct (sum_points qs) as [z | y], (sum_points ps) as [z' | x]; try discriminate.
  - exact Hv.
  - cbn [py_round2 value] in *. now apply round2_mono.
Qed.

Lemma better_positions_score_witness :
  (value (py_round2 (sum_points [3; 12]%Z)) <= value (py_round2 (sum_points [2; 12]%Z)))%Q.
Proof.
  apply (better_positions_score [2; 12] [3; 12]).
  repeat constructor; lia.
Defined.

(** *** The best player of each country *)

Lemma existsb_eqb_elem (x : string) (l : list string) :
  existsb (String.eqb x) l = true <-> x ∈ l.
Proof.
  rewrite existsb_exists. split.
  - intros (y & Hy & E). apply String.eqb_eq in E. subst y. now apply list_elem_of_In.
  - intros H. exists x. split; [now apply list_elem_of_In | apply String.eqb_refl].
Qed.

(** An entry of the dictionary is the first player of its country. *)
Definition first_of_country (all : list ranked_player) (seen : list string)
  (l : list ranked_player) (c : country_top) : Prop :=
  exists l1 l2, l = l1 ++ ct_player c :: l2 /\
    country_of c <> "Unknown"%string /\ (country_of c ∉ seen) /\
    (forall q, q ∈ l1 -> country_or_unknown q <> country_of c) /\
    num_players_in_country c = country_player_count (country_of c) all.

Lemma first_of_country_later all seen seen' p l c :
  first_of_country all seen' l c ->
  (country_of c ∉ seen' -> (country_of c ∉ seen) /\ country_or_unknown p <> country_of c) ->
  first_of_country all seen (p :: l) c.
Proof.
  intros (l1 & l2 & -> & Hu & Hns & Hl1 & Hn) H. destruct (H Hns) as [H1 H2].
  exists (p :: l1), l2. split; [reflexivity |]. split; [exact Hu |].
  split; [exact H1 |]. split; [| exact Hn].
  intros q Hq. apply elem_of_cons in Hq as [-> | Hq]; [exact H2 | now apply Hl1].
Qed.

Lemma first_of_country_inv all seen p l c :
  first_of_country all seen (p :: l) c ->
  (ct_player c = p /\ country_of c <> "Unknown"%string /\ (country_of c ∉ seen) /\
   num_players_in_country c = country_player_count (country_of c) all) \/
  (country_or_unknown p <> country_of c /\ first_of_country all seen l c).
Proof.
  intros (l1 & l2 & E & Hu & Hns & Hl1 & Hn). destruct l1 as [| p' l1].
  - injection E as -> _. left. now repeat split.
  - injection E as <- ->. right. split; [apply Hl1; now left |].
    exists l1, l2. split; [reflexivity |]. split; [exact Hu |]. split; [exact Hns |].
    split; [| exact Hn]. intros q Hq. apply Hl1. now right.
Qed.

Lemma temp_elem all c : forall l seen,
  c ∈ temp_country_best_players all seen l <-> first_of_country all seen l c.
Proof.
  induction l as [| p l IH]; intros seen; cbn [temp_country_best_players].
  - split; [intros H; inversion H |]. intros (l1 & l2 & E & _). now destruct l1.
  - destruct (String.eqb_spec (country_or_unknown p) "Unknown") as [Eu | Nu].
    { rewrite IH. split.
      - intros H. apply (first_of_country_later all seen seen p l c H).
        intros Hns. split; [exact Hns |]. destruct H as (_ & _ & _ & Hu & _). congruence.
      - intros H. apply first_of_country_inv in H as [(Hp & Hu & _) | [_ H]]; [| exact H].
        unfold country_of in Hu. congruence. }
    destruct (existsb (String.eqb (country_or_unknown p)) seen) eqn:Es.
    { apply existsb_eqb_elem in Es. rewrite IH. split.
      - intros H. apply (first_of_country_later all seen seen p l c H).
        intros Hns. split; [exact Hns |]. intros E. apply Hns. now rewrite <- E.
      - intros H. apply first_of_country_inv in H as [(Hp & _ & Hns & _) | [_ H]]; [| exact H].
        unfold country_of in Hns. congruence. }
    assert (Hns0 : country_or_unknown p ∉ seen).
    { intros Hin. apply existsb_eqb_elem in Hin. congruence. }
    rewrite elem_of_cons, IH. split.
    + intros [-> | H].
      * exists [], l. cbn. split; [reflexivity |]. split; [exact Nu |].
        split; [exact Hns0 |]. split; [| reflexivity]. intros q Hq. inversion Hq.
      * apply (first_of_country_later all seen (country_or_unknown p :: seen) p l c H).
        intros Hns. rewrite not_elem_of_cons in Hns. destruct Hns as [H1 H2].
        split; [exact H2 | congruence].
    + intros H. apply first_of_country_inv in H as [(Hp & Hu & Hns & Hn) | [Hne H]].
      * left. destruct c as [cp n]. cbn in *. unfold country_of in Hn. cbn in Hn. congruence.
      * right. destruct H as (l1 & l2 & E & Hu & Hns & Hl1 & Hn).
        exists l1, l2. split; [exact E |]. split; [exact Hu |].
        split; [| split; [exact Hl1 | exact Hn]].
        rewrite not_elem_of_cons. split; [congruence | exact Hns].
Qed.

Lemma temp_countries_distinct all : forall l seen,
  NoDup (map country_of (temp_country_best_players all seen l)).
Proof.
  induction l as [| p l IH]; intros seen; cbn [temp_country_best_players]; [constructor |].
  destruct (String.eqb (country_or_unknown p) "Unknown"); [apply IH |].
  destruct (existsb _ seen); [apply IH |].
  cbn [map]. constructor; [| apply IH].
  intros Hin. apply list_elem_of_fmap in Hin as (c & Ec & Hc).
  apply temp_elem in Hc as (_ & _ & _ & _ & Hns & _). apply Hns.
  rewrite <- Ec. unfold country_of. cbn. now left.
Qed.

Lemma temp_sorted all : forall l seen,
  StronglySorted rank_lt l ->
  StronglySorted top_lt (temp_country_best_players all seen l).
Proof.
  induction l as [| p l IH]; intros seen Hs; cbn [temp_country_best_players]; [constructor |].
  inversion Hs as [| ? ? Hs' Hall]; subst.
  destruct (String.eqb (country_or_unknown p) "Unknown"); [now apply IH |].
  destruct (existsb _ seen); [now apply IH |].
  constructor; [now apply IH |].
  apply Forall_forall. intros c Hc. apply temp_elem in Hc as (l1 & l2 & -> & _).
  rewrite Forall_forall in Hall. unfold top_lt. cbn. apply Hall.
  apply elem_of_app. right. now left.
Qed.

Lemma sorted_by_rank_id l : StronglySorted top_lt l -> sorted_by_rank l = l.
Proof.
  induction 1 as [| x l Hs IH Hall]; [reflexivity |].
  cbn [sorted_by_rank fold_right]. fold (sorted_by_rank l). rewrite IH.
  destruct l as [| y l]; [reflexivity |]. cbn [insert_by_rank].
  inversion Hall as [| ? ? Hxy _]; subst. unfold top_lt, rank_lt in Hxy.
  destruct (Z.leb_spec (global_rank (ct_player x)) (global_rank (ct_player y)));
    [reflexivity | lia].
Qed.

Lemma with_rank_sorted l : forall k, StronglySorted rank_lt (with_rank k l).
Proof.
  induction l as [| x l IH]; intros k; cbn [with_rank]; constructor; [apply IH |].
  apply Forall_forall. intros q Hq. apply list_elem_of_lookup in Hq as [i Hi].
  apply with_rank_lookup in Hi as [_ Hr]. unfold rank_lt. cbn. lia.
Qed.

Lemma sorted_after (l1 : list ranked_player) p l2 q :
  StronglySorted rank_lt (l1 ++ p :: l2) -> q ∈ l2 -> rank_lt p q.
Proof.
  induction l1 as [| x l1 IH]; cbn; intros Hs Hq; inversion Hs as [| ? ? Hs' Hall]; subst.
  - rewrite Forall_forall in Hall. now apply Hall.
  - now apply IH.
Qed.

Lemma first_occurrence (P : ranked_player -> Prop) (Hdec : forall q, Decision (P q)) l q :
  q ∈ l -> P q ->
  exists l1 p l2, l = l1 ++ p :: l2 /\ P p /\ forall x, x ∈ l1 -> ~ P x.
Proof.
  induction l as [| y l IH]; intros Hq HP; [inversion Hq |].
  destruct (Hdec y) as [Hy | Hy].
  - exists [], y, l. split; [reflexivity |]. split; [exact Hy |]. intros x Hx. inversion Hx.
  - apply elem_of_cons in Hq as [-> | Hq]; [contradiction |].
    destruct (IH Hq HP) as (l1 & p & l2 & -> & Hp & Hl1).
    exists (y :: l1), p, l2. split; [reflexivity |]. split; [exact Hp |].
    intros x Hx. apply elem_of_cons in Hx as [-> | Hx]; [exact Hy | now apply Hl1].
Qed.

Lemma country_tops_unfold player_rows record_rows :
  let ranked := overall_lb_sorted_players_with_rank player_rows record_rows in
  country_top_player_list_detailed ranked = temp_country_best_players ranked [] ranked /\
  StronglySorted rank_lt ranked.
Proof.
  cbv zeta. assert (Hs : StronglySorted rank_lt
                           (overall_lb_sorted_players_with_rank player_rows record_rows))
    by apply with_rank_sorted.
  split; [| exact Hs]. unfold country_top_player_list_detailed.
  apply sorted_by_rank_id, temp_sorted, Hs.
Qed.

(** An entry of the country list is the best ranked player of a country
    other than "Unknown": nobody of that country has a better global rank,
    and the entry carries the number of the players of the country. *)
Theorem country_top_is_best (player_rows : list (string * player_row))
  (record_rows : list (string * Z)) (c : country_top) :
  let ranked := overall_lb_sorted_players_with_rank player_rows record_rows in
  c ∈ country_top_player_list_detailed ranked ->
  ct_player c ∈ ranked /\
  country_of c <> "Unknown"%string /\
  num_players_in_country c = country_player_count (country_of c) ranked /\
  forall q, q ∈ ranked -> country_or_unknown q = country_of c ->
            global_rank (ct_player c) <= global_rank q.
Proof.
  cbv zeta. destruct (country_tops_unfold player_rows record_rows) as [-> Hs].
  intros Hc. apply temp_elem in Hc as (l1 & l2 & E & Hu & _ & Hl1 & Hn).
  split; [rewrite E; apply elem_of_app; right; now left |].
  split; [exact Hu |]. split; [exact Hn |].
  intros q Hq Hcq. rewrite E in Hq, Hs.
  apply elem_of_app in Hq as [Hq | Hq]; [now apply Hl1 in Hq |].
  apply elem_of_cons in Hq as [-> | Hq]; [lia |].
  pose proof (sorted_after l1 _ l2 q Hs Hq) as Hlt. unfold rank_lt in Hlt. lia.
Qed.

Lemma country_top_is_best_witness :
  let ranked := overall_lb_sorted_players_with_rank sample_players sample_records in
  exists c, c ∈ country_top_player_list_detailed ranked /\
    country_of c = "France"%string /\ num_players_in_country c = 2 /\
    forall q, q ∈ ranked -> country_or_unknown q = country_of c ->
              global_rank (ct_player c) <= global_rank q.
Proof.
  cbv zeta.
  destruct (country_top_player_list_detailed
              (overall_lb_sorted_players_with_rank sample_players sample_records))
    as [| c tops] eqn:E; [vm_compute in E; discriminate |].
  exists c. split; [now left |].
  destruct (country_top_is_best sample_players sample_records c) as (_ & _ & Hn & Hbest).
  { rewrite E. now left. }
  vm_compute in E. injection E as <- _. split; [reflexivity |]. split; [reflexivity |].
  exact Hbest.
Defined.

(** Every country other than "Unknown" that has a player has one entry in
    the country list, and the list comes in the order of the global ranks:
    the sort of line 894 finds it sorted. *)
Theorem country_tops_complete (player_rows : list (string * player_row))
  (record_rows : list (string * Z)) :
  let ranked := overall_lb_sorted_players_with_rank player_rows record_rows in
  let tops := country_top_player_list_detailed ranked in
  (forall q, q ∈ ranked -> country_or_unknown q <> "Unknown"%string ->
     exists c, c ∈ tops /\ country_of c = country_or_unknown q) /\
  NoDup (map country_of tops) /\
  StronglySorted top_lt tops /\
  tops = temp_country_best_players ranked [] ranked.
Proof.
  cbv zeta. destruct (country_tops_unfold player_rows record_rows) as [-> Hs].
  split; [| split; [apply temp_countries_distinct | split; [now apply temp_sorted | reflexivity]]].
  intros q Hq Hu.
  destruct (first_occurrence (fun x => country_or_unknown x = country_or_unknown q) _ _ q
              Hq eq_refl) as (l1 & p & l2 & E & Hp & Hl1).
  exists (CountryTop p (country_player_count (country_or_unknown q)
                          (overall_lb_sorted_players_with_rank player_rows record_rows))).
  split; [| exact Hp]. apply temp_elem. exists l1, l2. unfold country_of. cbn.
  rewrite Hp. split; [exact E |]. split; [exact Hu |].
  split; [intros H; inversion H |]. split; [exact Hl1 | reflexivity].
Qed.

End TabsFacts.